(** * A drag-interaction engine and its plugin protocol

    Shallow embedding of three generations of the draggable engine:

    - [Legacy] and [LegacyEngine]: the option-driven engine of
      [packages/core/src/index.ts], its grid helper and
      [draggable(node, options)] with its listeners, [update] and [destroy];
    - [Draggable]: the single-instance, plugin-orchestrated engine
      ([draggable], its listeners and the built-in plugins);
    - [CreateDraggable]: the delegated multi-instance engine
      ([createDraggable] and its document-level handlers).

    JavaScript numbers are idealised as exact rationals ([Qc]); [NaN] and
    the infinities are outside the model.  Objects mutated in place are
    modelled by explicit state passing.  A plugin hook is an arbitrary
    JavaScript function: it is embedded as a function from what it can
    observe (the context getters, its private state, the event, the
    document) to what it does (the calls it makes on the context, the new
    contents of its private state, the new document, and how it completes:
    by returning or by throwing). *)

From Stdlib Require Import QArith Qcanon Qround ZArith List String Bool Lia Lqa.
From stdpp Require Import sorting.
From stdpp Require Import base decidable option list gmap strings numbers.

Local Open Scope string_scope.
Local Open Scope list_scope.
Local Open Scope Qc_scope.

(** ** Numbers *)

Abbreviation number := Qc.

Definition num (z : Z) : number := Qc_of_Z z.

(** [a >= b] on numbers. *)
Definition geb (a b : number) : bool := Qle_bool b a.

(** [Math.ceil]. *)
Definition Math_ceil (v : number) : number := num (Qceiling v).

(** Truthiness of a [number | null] value: [null] and [0] are falsy. *)
Definition truthy (v : option number) : bool :=
  match v with
  | Some n => negb (bool_decide (n = 0))
  | None => false
  end.

(** [v ?? 0]. *)
Definition or_zero (v : option number) : number := default 0 v.

(** ** The document and pointer events *)

Definition node := nat.
Definition error := string.

Record DOMRect := { width : number; height : number }.

Record xy := { x : number; y : number }.
Record nullable_xy := { nx : option number; ny : option number }.

(** The part of the page the built-in plugins and the engines touch. *)
Record document := {
  class_list : list string;          (* rootNode.classList *)
  body_user_select : string;         (* document.body.style.userSelect *)
  translate : option xy;             (* rootNode.style.translate, in px *)
  touch_action : option string;      (* rootNode.style.touchAction *)
  defaults_prevented : nat;          (* calls of event.preventDefault() *)
  click_guards : nat;                (* one-shot capturing click listeners *)
  pointer_capture : gmap Z node      (* element.setPointerCapture(id) *)
}.

Definition initial_document : document :=
  {| class_list := []; body_user_select := ""; translate := None;
     touch_action := None; defaults_prevented := 0; click_guards := 0;
     pointer_capture := ∅ |}.

Inductive element_kind := HTMLElement | SVGElement | SVGSVGElement | OtherTarget.

(** A pointer event together with what the handlers read from the
    environment while they process it. *)
Record PointerEvent := {
  button : Z;
  clientX : number;
  clientY : number;
  pointerId : Z;
  contains_target : node -> bool;      (* n.contains(e.target) *)
  composedPath : list (node * element_kind);
  Date_now : number;                   (* Date.now() *)
  getBoundingClientRect : node -> DOMRect;
  offsetWidth : node -> number;
  getBBox_width : node -> number;
  setPointerCapture_throws : option error
}.

(** ** Values of type [any] kept as plugin private state *)

Inductive any :=
| ActivePointers (active_pointers : gset Z)
| Df (df_x df_y : bool)
| BodyUserSelect (body_user_select_val : string)
| UserState (v : Z).

(** How a call of JavaScript code ends. *)
Inductive completion (A : Type) :=
| Return (a : A)
| Throw (err : error).
Arguments Return {A} a.
Arguments Throw {A} err.

Inductive hook := DragStart | Drag | DragEnd | ShouldDrag.

(** [ErrorInfo['phase']]. *)
Inductive phase := Setup | Hook (h : hook).
Coercion Hook : hook >-> phase.

Global Instance hook_eq_dec : EqDecision hook.
Proof. solve_decision. Defined.
Global Instance phase_eq_dec : EqDecision phase.
Proof. solve_decision. Defined.

Record ErrorInfo := {
  info_phase : phase;
  info_plugin : option (string * phase);   (* { name, hook } *)
  info_node : node;
  info_error : error
}.

Inductive notification := neodrag_start | neodrag | neodrag_end.

(** Reading a property of [undefined]. *)
Definition TypeError : error := "TypeError".

(** The state object handed to a hook is the map's entry; the hook mutates
    it in place. *)
Definition store_state (key : string) (st : option any) (m : gmap string any) : gmap string any :=
  match m !! key, st with
  | Some _, Some st' => <[key := st']> m
  | _, _ => m
  end.
Arguments store_state : simpl never.

(** The observable history of a run: which chains were dispatched, which
    handlers were invoked, which effect closures were executed, which
    notifications were fired.  The engines never read it. *)
Inductive entry :=
| Dispatch (h : hook)
| Called (ident : nat) (name : string) (p : phase)
| Ran (closure : nat * nat)
| Fired (ev : notification) (offsetX offsetY : number)
| Reported (info : ErrorInfo)
| Uncaught (err : error).

(** [Array.prototype.sort] with a comparator: a stable sort. *)
Section Sort.
Context {A : Type} (compare : A -> A -> number).

Fixpoint insert_sorted (a : A) (l : list A) : list A :=
  match l with
  | [] => [a]
  | b :: l' =>
      if Qle_bool (compare a b) 0 then a :: b :: l'
      else b :: insert_sorted a l'
  end.

Fixpoint sort (l : list A) : list A :=
  match l with
  | [] => []
  | a :: l' => insert_sorted a (sort l')
  end.

End Sort.

(** A [Map<string, V>] iterated in insertion order: [set] on a key that is
    present keeps the key's position. *)
Section InsertionOrderedMap.
Context {V : Type}.

Fixpoint map_get (m : list (string * V)) (k : string) : option V :=
  match m with
  | [] => None
  | (k', v) :: m' => if bool_decide (k' = k) then Some v else map_get m' k
  end.

Fixpoint map_set (m : list (string * V)) (k : string) (v : V) : list (string * V) :=
  match m with
  | [] => [(k, v)]
  | (k', v') :: m' =>
      if bool_decide (k' = k) then (k, v) :: m' else (k', v') :: map_set m' k v
  end.

Definition map_values (m : list (string * V)) : list V := m.*2.

End InsertionOrderedMap.

(** ** Reading a history *)

(** The notifications of a history. *)
Definition fired (t : list entry) : list (notification * number * number) :=
  omap (fun en => match en with Fired ev a b => Some (ev, a, b) | _ => None end) t.

(** The effect closures executed in a history. *)
Definition ran (t : list entry) : list (nat * nat) :=
  omap (fun en => match en with Ran c => Some c | _ => None end) t.





(** The handler calls of a history: plugin object and phase. *)
Definition called (t : list entry) : list (nat * phase) :=
  omap (fun en => match en with Called id _ p => Some (id, p) | _ => None end) t.

(** ** The order of the phases in a history *)





(** * The single-instance engine: [draggable(node, options)] *)

Module Draggable.

(** What a plugin reads through the getters of [ctx]. *)
Record PluginContext := {
  delta : xy;
  proposed : nullable_xy;
  offset : xy;
  isDragging : bool;
  isInteracting : bool;
  rootNode : node;
  cachedRootNodeRect : DOMRect;
  currentlyDraggedNode : node
}.

(** How the execution of an effect closure ends: the closure's plugin
    state and the document as it leaves them. *)
Record effect_run := {
  effect_state : option any;
  effect_document : document;
  effect_completes : completion unit
}.

(** A closure passed to [ctx.effect].  [closure] is its identity as a
    function object (the queue is a [Set]); it captured the private state
    that was handed to the hook which created it. *)
Record Effect := {
  closure : nat * nat;
  body : PluginContext -> option any -> document -> effect_run
}.

(** The calls a hook makes on [ctx], and its assignments to the two
    writable properties. *)
Inductive ctx_call :=
| effect (func : Effect)
| propose (coords : nullable_xy)
| cancel
| assign_cachedRootNodeRect (val : DOMRect)
| assign_currentlyDraggedNode (val : node).

(** One invocation of a hook.  [returns] is [Return false] exactly when
    the hook returned the value [false]. *)
Record hook_run := {
  calls : list ctx_call;
  state_after : option any;
  document_after : document;
  returns : completion bool
}.

Definition handler := PluginContext -> option any -> PointerEvent -> document -> hook_run.

(** One invocation of [setup]: [Return None] stands for a falsy value. *)
Record setup_run := {
  setup_calls : list ctx_call;
  setup_document : document;
  setup_returns : completion (option any)
}.

(** [ident] is the identity of the plugin object. *)
Record Plugin := {
  ident : nat;
  name : string;
  priority : option number;
  setup : option (PluginContext -> document -> setup_run);
  shouldDrag : option handler;
  dragStart : option handler;
  drag : option handler;
  dragEnd : option handler;
  cleanup : option (document -> document)
}.

(** [plugin[hook]]. *)
Definition handler_of (plugin : Plugin) (h : hook) : option handler :=
  match h with
  | DragStart => dragStart plugin
  | Drag => drag plugin
  | DragEnd => dragEnd plugin
  | ShouldDrag => shouldDrag plugin
  end.

Record Threshold := { delay : option number; distance : option number }.

Record BaseDragOptions := {
  plugins : option (list Plugin);
  threshold : option Threshold
}.

(** The variables closed over by the listeners of one [draggable] call.
    [the_node], [the_threshold] and [ordered_plugins] are constants. *)
Record state := {
  the_node : node;
  the_threshold : Threshold;
  ordered_plugins : list Plugin;
  is_interacting : bool;
  is_dragging : bool;
  start_time : number;
  meets_time_threshold : bool;
  meets_distance_threshold : bool;
  x_offset : number;
  y_offset : number;
  initial_x : number;
  initial_y : number;
  proposals : nullable_xy;
  current_drag_hook_cancelled : bool;
  delta_var : xy;
  cached_root_node_rect : DOMRect;
  currently_dragged_element : node;
  effects_to_run : list (string * Effect);
  private_states : gmap string any;
  doc : document;
  trace : list entry
}.

(** Assignment to one variable. *)
Definition set_is_interacting v (s : state) : state :=
  {| the_node := the_node s; the_threshold := the_threshold s;
     ordered_plugins := ordered_plugins s; is_interacting := v;
     is_dragging := is_dragging s; start_time := start_time s;
     meets_time_threshold := meets_time_threshold s;
     meets_distance_threshold := meets_distance_threshold s;
     x_offset := x_offset s; y_offset := y_offset s;
     initial_x := initial_x s; initial_y := initial_y s;
     proposals := proposals s;
     current_drag_hook_cancelled := current_drag_hook_cancelled s;
     delta_var := delta_var s;
     cached_root_node_rect := cached_root_node_rect s;
     currently_dragged_element := currently_dragged_element s;
     effects_to_run := effects_to_run s; private_states := private_states s;
     doc := doc s; trace := trace s |}.
Definition set_is_dragging v (s : state) : state :=
  {| the_node := the_node s; the_threshold := the_threshold s;
     ordered_plugins := ordered_plugins s;
     is_interacting := is_interacting s; is_dragging := v;
     start_time := start_time s;
     meets_time_threshold := meets_time_threshold s;
     meets_distance_threshold := meets_distance_threshold s;
     x_offset := x_offset s; y_offset := y_offset s;
     initial_x := initial_x s; initial_y := initial_y s;
     proposals := proposals s;
     current_drag_hook_cancelled := current_drag_hook_cancelled s;
     delta_var := delta_var s;
     cached_root_node_rect := cached_root_node_rect s;
     currently_dragged_element := currently_dragged_element s;
     effects_to_run := effects_to_run s; private_states := private_states s;
     doc := doc s; trace := trace s |}.
Definition set_start_time v (s : state) : state :=
  {| the_node := the_node s; the_threshold := the_threshold s;
     ordered_plugins := ordered_plugins s;
     is_interacting := is_interacting s; is_dragging := is_dragging s;
     start_time := v; meets_time_threshold := meets_time_threshold s;
     meets_distance_threshold := meets_distance_threshold s;
     x_offset := x_offset s; y_offset := y_offset s;
     initial_x := initial_x s; initial_y := initial_y s;
     proposals := proposals s;
     current_drag_hook_cancelled := current_drag_hook_cancelled s;
     delta_var := delta_var s;
     cached_root_node_rect := cached_root_node_rect s;
     currently_dragged_element := currently_dragged_element s;
     effects_to_run := effects_to_run s; private_states := private_states s;
     doc := doc s; trace := trace s |}.
Definition set_meets_time_threshold v (s : state) : state :=
  {| the_node := the_node s; the_threshold := the_threshold s;
     ordered_plugins := ordered_plugins s;
     is_interacting := is_interacting s; is_dragging := is_dragging s;
     start_time := start_time s; meets_time_threshold := v;
     meets_distance_threshold := meets_distance_threshold s;
     x_offset := x_offset s; y_offset := y_offset s;
     initial_x := initial_x s; initial_y := initial_y s;
     proposals := proposals s;
     current_drag_hook_cancelled := current_drag_hook_cancelled s;
     delta_var := delta_var s;
     cached_root_node_rect := cached_root_node_rect s;
     currently_dragged_element := currently_dragged_element s;
     effects_to_run := effects_to_run s; private_states := private_states s;
     doc := doc s; trace := trace s |}.
Definition set_meets_distance_threshold v (s : state) : state :=
  {| the_node := the_node s; the_threshold := the_threshold s;
     ordered_plugins := ordered_plugins s;
     is_interacting := is_interacting s; is_dragging := is_dragging s;
     start_time := start_time s;
     meets_time_threshold := meets_time_threshold s;
     meets_distance_threshold := v; x_offset := x_offset s;
     y_offset := y_offset s; initial_x := initial_x s;
     initial_y := initial_y s; proposals := proposals s;
     current_drag_hook_cancelled := current_drag_hook_cancelled s;
     delta_var := delta_var s;
     cached_root_node_rect := cached_root_node_rect s;
     currently_dragged_element := currently_dragged_element s;
     effects_to_run := effects_to_run s; private_states := private_states s;
     doc := doc s; trace := trace s |}.
Definition set_x_offset v (s : state) : state :=
  {| the_node := the_node s; the_threshold := the_threshold s;
     ordered_plugins := ordered_plugins s;
     is_interacting := is_interacting s; is_dragging := is_dragging s;
     start_time := start_time s;
     meets_time_threshold := meets_time_threshold s;
     meets_distance_threshold := meets_distance_threshold s; x_offset := v;
     y_offset := y_offset s; initial_x := initial_x s;
     initial_y := initial_y s; proposals := proposals s;
     current_drag_hook_cancelled := current_drag_hook_cancelled s;
     delta_var := delta_var s;
     cached_root_node_rect := cached_root_node_rect s;
     currently_dragged_element := currently_dragged_element s;
     effects_to_run := effects_to_run s; private_states := private_states s;
     doc := doc s; trace := trace s |}.
Definition set_y_offset v (s : state) : state :=
  {| the_node := the_node s; the_threshold := the_threshold s;
     ordered_plugins := ordered_plugins s;
     is_interacting := is_interacting s; is_dragging := is_dragging s;
     start_time := start_time s;
     meets_time_threshold := meets_time_threshold s;
     meets_distance_threshold := meets_distance_threshold s;
     x_offset := x_offset s; y_offset := v; initial_x := initial_x s;
     initial_y := initial_y s; proposals := proposals s;
     current_drag_hook_cancelled := current_drag_hook_cancelled s;
     delta_var := delta_var s;
     cached_root_node_rect := cached_root_node_rect s;
     currently_dragged_element := currently_dragged_element s;
     effects_to_run := effects_to_run s; private_states := private_states s;
     doc := doc s; trace := trace s |}.
Definition set_initial_x v (s : state) : state :=
  {| the_node := the_node s; the_threshold := the_threshold s;
     ordered_plugins := ordered_plugins s;
     is_interacting := is_interacting s; is_dragging := is_dragging s;
     start_time := start_time s;
     meets_time_threshold := meets_time_threshold s;
     meets_distance_threshold := meets_distance_threshold s;
     x_offset := x_offset s; y_offset := y_offset s; initial_x := v;
     initial_y := initial_y s; proposals := proposals s;
     current_drag_hook_cancelled := current_drag_hook_cancelled s;
     delta_var := delta_var s;
     cached_root_node_rect := cached_root_node_rect s;
     currently_dragged_element := currently_dragged_element s;
     effects_to_run := effects_to_run s; private_states := private_states s;
     doc := doc s; trace := trace s |}.
Definition set_initial_y v (s : state) : state :=
  {| the_node := the_node s; the_threshold := the_threshold s;
     ordered_plugins := ordered_plugins s;
     is_interacting := is_interacting s; is_dragging := is_dragging s;
     start_time := start_time s;
     meets_time_threshold := meets_time_threshold s;
     meets_distance_threshold := meets_distance_threshold s;
     x_offset := x_offset s; y_offset := y_offset s;
     initial_x := initial_x s; initial_y := v; proposals := proposals s;
     current_drag_hook_cancelled := current_drag_hook_cancelled s;
     delta_var := delta_var s;
     cached_root_node_rect := cached_root_node_rect s;
     currently_dragged_element := currently_dragged_element s;
     effects_to_run := effects_to_run s; private_states := private_states s;
     doc := doc s; trace := trace s |}.
Definition set_proposals v (s : state) : state :=
  {| the_node := the_node s; the_threshold := the_threshold s;
     ordered_plugins := ordered_plugins s;
     is_interacting := is_interacting s; is_dragging := is_dragging s;
     start_time := start_time s;
     meets_time_threshold := meets_time_threshold s;
     meets_distance_threshold := meets_distance_threshold s;
     x_offset := x_offset s; y_offset := y_offset s;
     initial_x := initial_x s; initial_y := initial_y s; proposals := v;
     current_drag_hook_cancelled := current_drag_hook_cancelled s;
     delta_var := delta_var s;
     cached_root_node_rect := cached_root_node_rect s;
     currently_dragged_element := currently_dragged_element s;
     effects_to_run := effects_to_run s; private_states := private_states s;
     doc := doc s; trace := trace s |}.
Definition set_current_drag_hook_cancelled v (s : state) : state :=
  {| the_node := the_node s; the_threshold := the_threshold s;
     ordered_plugins := ordered_plugins s;
     is_interacting := is_interacting s; is_dragging := is_dragging s;
     start_time := start_time s;
     meets_time_threshold := meets_time_threshold s;
     meets_distance_threshold := meets_distance_threshold s;
     x_offset := x_offset s; y_offset := y_offset s;
     initial_x := initial_x s; initial_y := initial_y s;
     proposals := proposals s; current_drag_hook_cancelled := v;
     delta_var := delta_var s;
     cached_root_node_rect := cached_root_node_rect s;
     currently_dragged_element := currently_dragged_element s;
     effects_to_run := effects_to_run s; private_states := private_states s;
     doc := doc s; trace := trace s |}.
Definition set_delta_var v (s : state) : state :=
  {| the_node := the_node s; the_threshold := the_threshold s;
     ordered_plugins := ordered_plugins s;
     is_interacting := is_interacting s; is_dragging := is_dragging s;
     start_time := start_time s;
     meets_time_threshold := meets_time_threshold s;
     meets_distance_threshold := meets_distance_threshold s;
     x_offset := x_offset s; y_offset := y_offset s;
     initial_x := initial_x s; initial_y := initial_y s;
     proposals := proposals s;
     current_drag_hook_cancelled := current_drag_hook_cancelled s;
     delta_var := v; cached_root_node_rect := cached_root_node_rect s;
     currently_dragged_element := currently_dragged_element s;
     effects_to_run := effects_to_run s; private_states := private_states s;
     doc := doc s; trace := trace s |}.
Definition set_cached_root_node_rect v (s : state) : state :=
  {| the_node := the_node s; the_threshold := the_threshold s;
     ordered_plugins := ordered_plugins s;
     is_interacting := is_interacting s; is_dragging := is_dragging s;
     start_time := start_time s;
     meets_time_threshold := meets_time_threshold s;
     meets_distance_threshold := meets_distance_threshold s;
     x_offset := x_offset s; y_offset := y_offset s;
     initial_x := initial_x s; initial_y := initial_y s;
     proposals := proposals s;
     current_drag_hook_cancelled := current_drag_hook_cancelled s;
     delta_var := delta_var s; cached_root_node_rect := v;
     currently_dragged_element := currently_dragged_element s;
     effects_to_run := effects_to_run s; private_states := private_states s;
     doc := doc s; trace := trace s |}.
Definition set_currently_dragged_element v (s : state) : state :=
  {| the_node := the_node s; the_threshold := the_threshold s;
     ordered_plugins := ordered_plugins s;
     is_interacting := is_interacting s; is_dragging := is_dragging s;
     start_time := start_time s;
     meets_time_threshold := meets_time_threshold s;
     meets_distance_threshold := meets_distance_threshold s;
     x_offset := x_offset s; y_offset := y_offset s;
     initial_x := initial_x s; initial_y := initial_y s;
     proposals := proposals s;
     current_drag_hook_cancelled := current_drag_hook_cancelled s;
     delta_var := delta_var s;
     cached_root_node_rect := cached_root_node_rect s;
     currently_dragged_element := v; effects_to_run := effects_to_run s;
     private_states := private_states s; doc := doc s; trace := trace s |}.
Definition set_effects_to_run v (s : state) : state :=
  {| the_node := the_node s; the_threshold := the_threshold s;
     ordered_plugins := ordered_plugins s;
     is_interacting := is_interacting s; is_dragging := is_dragging s;
     start_time := start_time s;
     meets_time_threshold := meets_time_threshold s;
     meets_distance_threshold := meets_distance_threshold s;
     x_offset := x_offset s; y_offset := y_offset s;
     initial_x := initial_x s; initial_y := initial_y s;
     proposals := proposals s;
     current_drag_hook_cancelled := current_drag_hook_cancelled s;
     delta_var := delta_var s;
     cached_root_node_rect := cached_root_node_rect s;
     currently_dragged_element := currently_dragged_element s;
     effects_to_run := v; private_states := private_states s; doc := doc s;
     trace := trace s |}.
Definition set_private_states v (s : state) : state :=
  {| the_node := the_node s; the_threshold := the_threshold s;
     ordered_plugins := ordered_plugins s;
     is_interacting := is_interacting s; is_dragging := is_dragging s;
     start_time := start_time s;
     meets_time_threshold := meets_time_threshold s;
     meets_distance_threshold := meets_distance_threshold s;
     x_offset := x_offset s; y_offset := y_offset s;
     initial_x := initial_x s; initial_y := initial_y s;
     proposals := proposals s;
     current_drag_hook_cancelled := current_drag_hook_cancelled s;
     delta_var := delta_var s;
     cached_root_node_rect := cached_root_node_rect s;
     currently_dragged_element := currently_dragged_element s;
     effects_to_run := effects_to_run s; private_states := v; doc := doc s;
     trace := trace s |}.
Definition set_doc v (s : state) : state :=
  {| the_node := the_node s; the_threshold := the_threshold s;
     ordered_plugins := ordered_plugins s;
     is_interacting := is_interacting s; is_dragging := is_dragging s;
     start_time := start_time s;
     meets_time_threshold := meets_time_threshold s;
     meets_distance_threshold := meets_distance_threshold s;
     x_offset := x_offset s; y_offset := y_offset s;
     initial_x := initial_x s; initial_y := initial_y s;
     proposals := proposals s;
     current_drag_hook_cancelled := current_drag_hook_cancelled s;
     delta_var := delta_var s;
     cached_root_node_rect := cached_root_node_rect s;
     currently_dragged_element := currently_dragged_element s;
     effects_to_run := effects_to_run s; private_states := private_states s;
     doc := v; trace := trace s |}.
Definition set_trace v (s : state) : state :=
  {| the_node := the_node s; the_threshold := the_threshold s;
     ordered_plugins := ordered_plugins s;
     is_interacting := is_interacting s; is_dragging := is_dragging s;
     start_time := start_time s;
     meets_time_threshold := meets_time_threshold s;
     meets_distance_threshold := meets_distance_threshold s;
     x_offset := x_offset s; y_offset := y_offset s;
     initial_x := initial_x s; initial_y := initial_y s;
     proposals := proposals s;
     current_drag_hook_cancelled := current_drag_hook_cancelled s;
     delta_var := delta_var s;
     cached_root_node_rect := cached_root_node_rect s;
     currently_dragged_element := currently_dragged_element s;
     effects_to_run := effects_to_run s; private_states := private_states s;
     doc := doc s; trace := v |}.

Definition log (en : entry) (s : state) : state := set_trace (trace s ++ [en]) s.

(** The getters of [ctx]. *)
Definition ctx (s : state) : PluginContext :=
  {| delta := delta_var s;
     proposed := proposals s;
     offset := {| x := x_offset s; y := y_offset s |};
     isDragging := is_dragging s;
     isInteracting := is_interacting s;
     rootNode := the_node s;
     cachedRootNodeRect := cached_root_node_rect s;
     currentlyDraggedNode := currently_dragged_element s |}.

(** [effects_to_run.add(func)]: a [Set] keeps one copy of a function object.
    The queue remembers, with each closure, the plugin whose hook created
    it: that plugin's state object is the one the closure captured. *)
Definition add_effect (owner : string) (func : Effect) (fns : list (string * Effect))
    : list (string * Effect) :=
  if bool_decide (closure func ∈ (closure ∘ snd) <$> fns) then fns else fns ++ [(owner, func)].

(** The methods and setters of [ctx]. *)
Definition ctx_apply (owner : string) (s : state) (c : ctx_call) : state :=
  match c with
  | effect func => set_effects_to_run (add_effect owner func (effects_to_run s)) s
  | propose coords => set_proposals {| nx := nx coords; ny := ny coords |} s
  | cancel => set_current_drag_hook_cancelled true s
  | assign_cachedRootNodeRect val => set_cached_root_node_rect val s
  | assign_currentlyDraggedNode val => set_currently_dragged_element val s
  end.

(** [handler(ctx, private_states.get(plugin.name), event)]. *)
Definition invoke (plugin : Plugin) (h : hook) (f : handler) (e : PointerEvent)
    (s : state) : completion bool * state :=
  let r := f (ctx s) (private_states s !! name plugin) e (doc s) in
  let s := log (Called (ident plugin) (name plugin) h) s in
  let s := foldl (ctx_apply (name plugin)) s (calls r) in
  let s := set_private_states (store_state (name plugin) (state_after r) (private_states s)) s in
  let s := set_doc (document_after r) s in
  (returns r, s).

Arguments invoke : simpl never.

Fixpoint run_plugins_loop (rest : list Plugin) (h : hook) (e : PointerEvent)
    (s : state) : completion bool * state :=
  match rest with
  | [] => (Return true, s)
  | plugin :: rest' =>
      match handler_of plugin h with
      | None => run_plugins_loop rest' h e s
      | Some f =>
          match invoke plugin h f e s with
          | (Throw err, s') => (Throw err, s')
          | (Return false, s') => (Return false, s')
          | (Return true, s') =>
              if current_drag_hook_cancelled s'
              then (Return false, set_current_drag_hook_cancelled false s')
              else run_plugins_loop rest' h e s'
          end
      end
  end.

Definition run_plugins (h : hook) (e : PointerEvent) (s : state) : completion bool * state :=
  run_plugins_loop (ordered_plugins s) h e (log (Dispatch h) s).

(** One [effect()] call of [flush_effects]. *)
Definition run_effect (owner : string) (func : Effect) (s : state) : completion unit * state :=
  let r := body func (ctx s) (private_states s !! owner) (doc s) in
  let s := log (Ran (closure func)) s in
  let s := set_private_states (store_state owner (effect_state r) (private_states s)) s in
  let s := set_doc (effect_document r) s in
  (effect_completes r, s).

Arguments run_effect : simpl never.

Fixpoint run_effects (fns : list (string * Effect)) (s : state) : completion unit * state :=
  match fns with
  | [] => (Return (), s)
  | (owner, func) :: fns' =>
      match run_effect owner func s with
      | (Throw err, s') => (Throw err, s')
      | (Return _, s') => run_effects fns' s'
      end
  end.

Definition clear_effects (s : state) : state := set_effects_to_run [] s.

Definition flush_effects (s : state) : completion unit * state :=
  match run_effects (effects_to_run s) s with
  | (Throw err, s') => (Throw err, s')
  | (Return _, s') => (Return (), clear_effects s')
  end.

Definition calculate_inverse_scale (e : PointerEvent) (s : state) : number :=
  let n := offsetWidth e (the_node s) in
  let w := width (cachedRootNodeRect (ctx s)) in
  if bool_decide (n = 0) && bool_decide (w = 0) then 1 else n / w.

Definition reset_state (s : state) : state :=
  let s := set_is_dragging false s in
  let s := set_meets_time_threshold false s in
  let s := set_meets_distance_threshold false s in
  clear_effects s.

(** [call_event]: the custom event dispatched on the node and the callback
    option, both carrying [get_event_data(transform_x, transform_y)]. *)
Definition call_event (eventName : notification) (transform_x transform_y : number)
    (s : state) : state :=
  log (Fired eventName transform_x transform_y) s.

Definition fire_svelte_drag_start_event := call_event neodrag_start.
Definition fire_svelte_drag_end_event := call_event neodrag_end.
Definition fire_svelte_drag_event := call_event neodrag.

(** The test of [currently_dragged_element], an element, always succeeds. *)
Definition try_start_drag (e : PointerEvent) (s : state) : completion unit * state :=
  if is_interacting s && negb (is_dragging s) && meets_distance_threshold s
     && meets_time_threshold s
  then
    let s := set_delta_var {| x := 0; y := 0 |} s in
    match run_plugins DragStart e s with
    | (Throw err, s) => (Throw err, s)
    | (Return false, s) => (Return (), clear_effects s)
    | (Return true, s) =>
        match flush_effects s with
        | (Throw err, s) => (Throw err, s)
        | (Return _, s) =>
            let s := set_is_dragging true s in
            (Return (), fire_svelte_drag_start_event (initial_x s) (initial_y s) s)
        end
    end
  else (Return (), s).

(** An exception that leaves a listener reaches the event loop. *)
Definition listener (r : completion unit * state) : state :=
  match r with
  | (Return _, s) => s
  | (Throw err, s) => log (Uncaught err) s
  end.

Definition e_preventDefault (s : state) : state :=
  set_doc
    {| class_list := class_list (doc s);
       body_user_select := body_user_select (doc s);
       translate := translate (doc s);
       touch_action := touch_action (doc s);
       defaults_prevented := S (defaults_prevented (doc s));
       click_guards := click_guards (doc s);
       pointer_capture := pointer_capture (doc s) |} s.

Definition listen_click_once (s : state) : state :=
  set_doc
    {| class_list := class_list (doc s);
       body_user_select := body_user_select (doc s);
       translate := translate (doc s);
       touch_action := touch_action (doc s);
       defaults_prevented := defaults_prevented (doc s);
       click_guards := S (click_guards (doc s));
       pointer_capture := pointer_capture (doc s) |} s.

Definition pointerdown (e : PointerEvent) (s : state) : state :=
  if bool_decide (button e = 2%Z) then s else
  match run_plugins ShouldDrag e s with
  | (Throw err, s) => log (Uncaught err) s
  | (Return false, s) => s
  | (Return true, s) =>
      if negb (contains_target e (currentlyDraggedNode (ctx s))) then s else
      let s := set_is_interacting true s in
      let s := set_start_time (Date_now e) s in
      let s := if negb (truthy (delay (the_threshold s)))
               then set_meets_time_threshold true s else s in
      let s := set_cached_root_node_rect (getBoundingClientRect e (the_node s)) s in
      let inverse_scale := calculate_inverse_scale e s in
      let s := if nx (proposals s) is Some _
               then set_initial_x (clientX e - x_offset s / inverse_scale) s else s in
      let s := if ny (proposals s) is Some _
               then set_initial_y (clientY e - y_offset s / inverse_scale) s else s in
      s
  end.

(** [a >= b] where [b] may be [undefined]: the comparison is then false. *)
Definition geb_undefined (a : number) (b : option number) : bool :=
  match b with
  | Some b' => geb a b'
  | None => false
  end.

Definition check_time_threshold (e : PointerEvent) (s : state) : completion unit * state :=
  if meets_time_threshold s then (Return (), s) else
  let elapsed := Date_now e - start_time s in
  if geb_undefined elapsed (delay (the_threshold s))
  then try_start_drag e (set_meets_time_threshold true s)
  else (Return (), s).

Definition check_distance_threshold (e : PointerEvent) (s : state) : completion unit * state :=
  if meets_distance_threshold s then (Return (), s) else
  let delta_x := clientX e - initial_x s in
  let delta_y := clientY e - initial_y s in
  let distance_sq := delta_x * delta_x + delta_y * delta_y in
  if geb_undefined distance_sq ((fun d => d * d) <$> distance (the_threshold s))
  then try_start_drag e (set_meets_distance_threshold true s)
  else (Return (), s).

(** The part of the [pointermove] listener below the threshold checks. *)
Definition drag_move (e : PointerEvent) (s : state) : completion unit * state :=
  let s := e_preventDefault s in
  let s := set_delta_var {| x := clientX e - initial_x s - x_offset s;
                            y := clientY e - initial_y s - y_offset s |} s in
  let s := set_proposals {| nx := Some (x (delta_var s)); ny := Some (y (delta_var s)) |} s in
  match run_plugins Drag e s with
  | (Throw err, s) => (Throw err, s)
  | (Return false, s) => (Return (), clear_effects s)
  | (Return true, s) =>
      match flush_effects s with
      | (Throw err, s) => (Throw err, s)
      | (Return _, s) =>
          let final := {| x := x_offset s + or_zero (nx (proposals s));
                          y := y_offset s + or_zero (ny (proposals s)) |} in
          let s := fire_svelte_drag_event (x final) (y final) s in
          let s := set_x_offset (x final) s in
          let s := set_y_offset (y final) s in
          (Return (), s)
      end
  end.

Definition pointermove (e : PointerEvent) (s : state) : state :=
  if negb (is_interacting s) then s else
  if is_dragging s then listener (drag_move e s) else
  match check_time_threshold e s with
  | (Throw err, s) => log (Uncaught err) s
  | (Return _, s) =>
      match check_distance_threshold e s with
      | (Throw err, s) => log (Uncaught err) s
      | (Return _, s) =>
          if negb (is_dragging s) then s else listener (drag_move e s)
      end
  end.

Definition pointerup (e : PointerEvent) (s : state) : state :=
  if negb (is_interacting s) then s else
  let s := if is_dragging s then listen_click_once s else s in
  match run_plugins DragEnd e s with
  | (Throw err, s) => log (Uncaught err) s
  | (Return _, s) =>
      let s := if truthy (nx (proposals s)) then set_initial_x (x_offset s) s else s in
      let s := if truthy (ny (proposals s)) then set_initial_y (y_offset s) s else s in
      let s := set_proposals {| nx := Some 0; ny := Some 0 |} s in
      let s := fire_svelte_drag_end_event (initial_x s) (initial_y s) s in
      let s := set_is_interacting false s in
      reset_state s
  end.

(** ** Built-in plugins *)

Definition set_class_list v (d : document) : document :=
  {| class_list := v; body_user_select := body_user_select d;
     translate := translate d; touch_action := touch_action d;
     defaults_prevented := defaults_prevented d; click_guards := click_guards d;
     pointer_capture := pointer_capture d |}.

Definition set_body_user_select v (d : document) : document :=
  {| class_list := class_list d; body_user_select := v;
     translate := translate d; touch_action := touch_action d;
     defaults_prevented := defaults_prevented d; click_guards := click_guards d;
     pointer_capture := pointer_capture d |}.

Definition set_translate v (d : document) : document :=
  {| class_list := class_list d; body_user_select := body_user_select d;
     translate := v; touch_action := touch_action d;
     defaults_prevented := defaults_prevented d; click_guards := click_guards d;
     pointer_capture := pointer_capture d |}.

Definition set_style_touch_action v (d : document) : document :=
  {| class_list := class_list d; body_user_select := body_user_select d;
     translate := translate d; touch_action := Some v;
     defaults_prevented := defaults_prevented d; click_guards := click_guards d;
     pointer_capture := pointer_capture d |}.

Definition event_preventDefault (d : document) : document :=
  {| class_list := class_list d; body_user_select := body_user_select d;
     translate := translate d; touch_action := touch_action d;
     defaults_prevented := S (defaults_prevented d); click_guards := click_guards d;
     pointer_capture := pointer_capture d |}.

Definition classList_add (c : string) (d : document) : document :=
  if bool_decide (c ∈ class_list d) then d else set_class_list (class_list d ++ [c]) d.

Definition classList_remove (c : string) (d : document) : document :=
  set_class_list (filter (fun c' => c' ≠ c) (class_list d)) d.

(** A hook that does nothing and returns [undefined]. *)
Definition returns_undefined (st : option any) (d : document) : hook_run :=
  {| calls := []; state_after := st; document_after := d; returns := Return true |}.

Definition throws_TypeError (st : option any) (d : document) : hook_run :=
  {| calls := []; state_after := st; document_after := d; returns := Throw TypeError |}.

Definition ignoreMultitouch (id : nat) (value : bool) : Plugin :=
  {| ident := id;
     name := "neodrag:ignoreMultitouch";
     priority := None;
     setup := Some (fun _ d =>
       {| setup_calls := []; setup_document := d;
          setup_returns := Return (Some (ActivePointers ∅)) |});
     shouldDrag := None;
     dragStart := Some (fun _ st event d =>
       {| calls := [effect
            {| closure := (id, 0%nat);
               body := fun _ st d =>
                 match st with
                 | Some (ActivePointers ps) =>
                     let ps := {[pointerId event]} ∪ ps in
                     {| effect_state := Some (ActivePointers ps);
                        effect_document :=
                          if value && bool_decide (1 < size ps)%nat
                          then event_preventDefault d else d;
                        effect_completes := Return () |}
                 | _ =>
                     {| effect_state := st; effect_document := d;
                        effect_completes := Throw TypeError |}
                 end |}];
          state_after := st; document_after := d; returns := Return true |});
     drag := Some (fun _ st _ d =>
       if value then
         match st with
         | Some (ActivePointers ps) =>
             {| calls := if bool_decide (1 < size ps)%nat then [cancel] else [];
                state_after := st; document_after := d; returns := Return true |}
         | _ => throws_TypeError st d
         end
       else returns_undefined st d);
     dragEnd := Some (fun _ st event d =>
       match st with
       | Some (ActivePointers ps) =>
           returns_undefined (Some (ActivePointers (ps ∖ {[pointerId event]}))) d
       | _ => throws_TypeError st d
       end);
     cleanup := None |}.

(** The class names after the defaults of [setup] have been filled in. *)
Record class_names := {
  class_default : string;
  class_dragging : string;
  class_dragged : string
}.

Definition DEFAULT_CLASS : class_names :=
  {| class_default := "neodrag"; class_dragging := "neodrag-dragging";
     class_dragged := "neodrag-dragged" |}.

Definition classes (id : nat) (names : class_names) : Plugin :=
  {| ident := id;
     name := "neodrag:classes";
     priority := None;
     setup := Some (fun _ d =>
       {| setup_calls := [];
          setup_document :=
            if bool_decide (class_default names = "") then d
            else classList_add (class_default names) d;
          setup_returns := Return None |});
     shouldDrag := None;
     dragStart := Some (fun _ st _ d =>
       {| calls := [effect
            {| closure := (id, 0%nat);
               body := fun _ st d =>
                 {| effect_state := st;
                    effect_document := classList_add (class_dragging names) d;
                    effect_completes := Return () |} |}];
          state_after := st; document_after := d; returns := Return true |});
     drag := None;
     dragEnd := Some (fun _ st _ d =>
       returns_undefined st
         (classList_add (class_dragged names) (classList_remove (class_dragging names) d)));
     cleanup := None |}.

Inductive DragAxis := both | axis_x | axis_y | none.

Global Instance DragAxis_eq_dec : EqDecision DragAxis.
Proof. solve_decision. Defined.

(** Degree of freedom X and Y. *)
Definition axis (id : nat) (value : DragAxis) : Plugin :=
  {| ident := id;
     name := "neodrag:axis";
     priority := None;
     setup := Some (fun _ d =>
       {| setup_calls := []; setup_document := d;
          setup_returns :=
            Return (Some (Df (bool_decide (value = both) || bool_decide (value = axis_x))
                             (bool_decide (value = both) || bool_decide (value = axis_y)))) |});
     shouldDrag := Some (fun _ st _ d =>
       {| calls := []; state_after := st; document_after := d;
          returns := Return (negb (bool_decide (value = none))) |});
     dragStart := None;
     drag := Some (fun ctx st _ d =>
       match st with
       | Some (Df df_x df_y) =>
           {| calls := [propose
                {| nx := if df_x then nx (proposed ctx) else None;
                   ny := if df_y then ny (proposed ctx) else None |}];
              state_after := st; document_after := d; returns := Return true |}
       | _ => throws_TypeError st d
       end);
     dragEnd := None;
     cleanup := None |}.

Definition applyUserSelectHack (id : nat) (value : bool) : Plugin :=
  {| ident := id;
     name := "neodrag:applyUserSelectHack";
     priority := None;
     setup := Some (fun _ d =>
       {| setup_calls := []; setup_document := d;
          setup_returns := Return (Some (BodyUserSelect "")) |});
     shouldDrag := None;
     dragStart := Some (fun _ st _ d =>
       {| calls := [effect
            {| closure := (id, 0%nat);
               body := fun _ st d =>
                 if value then
                   match st with
                   | Some (BodyUserSelect _) =>
                       {| effect_state := Some (BodyUserSelect (body_user_select d));
                          effect_document := set_body_user_select "none" d;
                          effect_completes := Return () |}
                   | Some _ =>
                       {| effect_state := st;
                          effect_document := set_body_user_select "none" d;
                          effect_completes := Return () |}
                   | None =>
                       {| effect_state := st; effect_document := d;
                          effect_completes := Throw TypeError |}
                   end
                 else
                   {| effect_state := st; effect_document := d;
                      effect_completes := Return () |} |}];
          state_after := st; document_after := d; returns := Return true |});
     drag := None;
     dragEnd := Some (fun _ st _ d =>
       if value then
         match st with
         | Some (BodyUserSelect v) => returns_undefined st (set_body_user_select v d)
         | Some _ => returns_undefined st d
         | None => throws_TypeError st d
         end
       else returns_undefined st d);
     cleanup := None |}.

Definition calc (val snap : number) : number :=
  if bool_decide (snap = 0) then 0 else Math_ceil (val / snap) * snap.

Definition snap_to_grid (snap : number * number) (pending_x pending_y : option number)
    : nullable_xy :=
  {| nx := match pending_x with
           | Some v => if truthy pending_x then Some (calc v snap.1) else pending_x
           | None => pending_x
           end;
     ny := match pending_y with
           | Some v => if truthy pending_y then Some (calc v snap.2) else pending_y
           | None => pending_y
           end |}.

Definition grid (id : nat) (x y : number) : Plugin :=
  {| ident := id;
     name := "neodrag:grid";
     priority := None;
     setup := None;
     shouldDrag := None;
     dragStart := None;
     drag := Some (fun ctx st _ d =>
       {| calls := [propose (snap_to_grid (x, y) (nx (proposed ctx)) (ny (proposed ctx)))];
          state_after := st; document_after := d; returns := Return true |});
     dragEnd := None;
     cleanup := None |}.

Definition disabled (id : nat) : Plugin :=
  {| ident := id;
     name := "neodrag:disabled";
     priority := None;
     setup := None;
     shouldDrag := Some (fun _ st _ d =>
       {| calls := []; state_after := st; document_after := d; returns := Return false |});
     dragStart := None;
     drag := None;
     dragEnd := None;
     cleanup := None |}.

(** [func], when given, replaces the default rendering. *)
Definition transform (id : nat) (func : option (xy -> node -> document -> document)) : Plugin :=
  {| ident := id;
     name := "neodrag:transform";
     priority := None;
     setup := None;
     shouldDrag := None;
     dragStart := None;
     drag := Some (fun _ st _ d =>
       {| calls := [effect
            {| closure := (id, 0%nat);
               body := fun ctx st d =>
                 {| effect_state := st;
                    effect_document :=
                      match func with
                      | Some f => f (offset ctx) (rootNode ctx) d
                      | None => set_translate (Some (offset ctx)) d
                      end;
                    effect_completes := Return () |} |}];
          state_after := st; document_after := d; returns := Return true |});
     dragEnd := None;
     cleanup := None |}.

(** ** [draggable] *)

Definition default_plugins : list Plugin :=
  [ ignoreMultitouch 0 true; classes 1 DEFAULT_CLASS; applyUserSelectHack 2 true;
    transform 3 None ].

Definition default_threshold : Threshold := {| delay := Some 0; distance := Some (num 3) |}.

(** [plugin.priority ?? 0]. *)
Definition priority_or_zero (plugin : Plugin) : number := default 0 (priority plugin).

(** For finding duplicates. *)
Definition plugin_map (all : list Plugin) : list (string * Plugin) :=
  foldl (fun m plugin =>
           match map_get m (name plugin) with
           | None => map_set m (name plugin) plugin
           | Some existing_plugin =>
               if negb (Qle_bool (priority_or_zero plugin) (priority_or_zero existing_plugin))
               then map_set m (name plugin) plugin
               else m
           end) [] all.

Definition order_plugins (all : list Plugin) : list Plugin :=
  sort (fun a b => priority_or_zero a - priority_or_zero b) (map_values (plugin_map all)).

(** [plugin.setup?.(ctx)] followed by the storing of a truthy result. *)
Definition initialize_state (plugin : Plugin) (s : state) : completion unit * state :=
  match setup plugin with
  | None => (Return (), s)
  | Some f =>
      let r := f (ctx s) (doc s) in
      let s := log (Called (ident plugin) (name plugin) Setup) s in
      let s := foldl (ctx_apply (name plugin)) s (setup_calls r) in
      let s := set_doc (setup_document r) s in
      match setup_returns r with
      | Throw err => (Throw err, s)
      | Return None => (Return (), s)
      | Return (Some maybe_state) =>
          (Return (), set_private_states (<[name plugin := maybe_state]> (private_states s)) s)
      end
  end.

Fixpoint initialize_states (all : list Plugin) (s : state) : completion unit * state :=
  match all with
  | [] => (Return (), s)
  | plugin :: all' =>
      match initialize_state plugin s with
      | (Throw err, s') => (Throw err, s')
      | (Return _, s') => initialize_states all' s'
      end
  end.

(** The state in which the listeners are installed; [rect] is what
    [node.getBoundingClientRect()] answers during the call and [d] the
    document before it.  A [Throw] is an exception of [draggable] itself. *)
Definition draggable (node : node) (options : BaseDragOptions) (rect : DOMRect)
    (d : document) : completion unit * state :=
  let user_plugins := default [] (plugins options) in
  let s :=
    {| the_node := node;
       the_threshold := default default_threshold (threshold options);
       ordered_plugins := order_plugins (default_plugins ++ user_plugins);
       is_interacting := false; is_dragging := false;
       start_time := 0;
       meets_time_threshold := false; meets_distance_threshold := false;
       x_offset := 0; y_offset := 0; initial_x := 0; initial_y := 0;
       proposals := {| nx := Some 0; ny := Some 0 |};
       current_drag_hook_cancelled := false;
       delta_var := {| x := 0; y := 0 |};
       cached_root_node_rect := rect;
       currently_dragged_element := node;
       effects_to_run := [];
       private_states := ∅;
       doc := d;
       trace := [] |} in
  match initialize_states (default_plugins ++ user_plugins) s with
  | (Throw err, s) => (Throw err, s)
  | (Return _, s) => (Return (), set_doc (set_style_touch_action "none" (doc s)) s)
  end.

(** The pointer events a window delivers to the three listeners. *)
Inductive event :=
| PointerDown (e : PointerEvent)
| PointerMove (e : PointerEvent)
| PointerUp (e : PointerEvent).

Definition step (s : state) (ev : event) : state :=
  match ev with
  | PointerDown e => pointerdown e s
  | PointerMove e => pointermove e s
  | PointerUp e => pointerup e s
  end.

Definition run (s : state) (evs : list event) : state := foldl step s evs.

(** ** What plugins cannot reach *)

(** The variables no plugin can reach: hooks and effect closures only see
    them through the getters of [ctx]. *)
Definition engine_vars (s : state) :=
  (the_node s, the_threshold s, ordered_plugins s, is_interacting s, is_dragging s,
   start_time s, meets_time_threshold s, meets_distance_threshold s,
   x_offset s, y_offset s, initial_x s, initial_y s, delta_var s).

(** What an effect closure cannot reach either. *)
Definition hook_vars (s : state) :=
  (effects_to_run s, proposals s, current_drag_hook_cancelled s,
   cached_root_node_rect s, currently_dragged_element s).

(** The state in which the [pointermove] listener dispatches the [drag]
    chain: the raw delta has been computed and proposed. *)
Definition proposing (e : PointerEvent) (s : state) : state :=
  let s := e_preventDefault s in
  let s := set_delta_var {| x := clientX e - initial_x s - x_offset s;
                            y := clientY e - initial_y s - y_offset s |} s in
  set_proposals {| nx := Some (x (delta_var s)); ny := Some (y (delta_var s)) |} s.

(** Between [s] and [s'] the committed offset did not move, or it moved by
    a proposal satisfying [Q]. *)
Definition moved_by (Q : nullable_xy -> Prop) (s s' : state) : Prop :=
  (x_offset s' = x_offset s /\ y_offset s' = y_offset s)
  \/ exists p, Q p /\ x_offset s' = x_offset s + or_zero (nx p)
               /\ y_offset s' = y_offset s + or_zero (ny p).

(** [P] is a property of the plugin-visible state of an engine whose chain
    is [chain], kept by every handler of the chain and by every queued
    closure. *)
Record hook_invariant (chain : list Plugin) (P : state -> Prop) : Prop := {
  inv_chain : forall s, P s -> ordered_plugins s = chain;
  inv_engine : forall s s',
    ordered_plugins s' = ordered_plugins s -> private_states s' = private_states s ->
    effects_to_run s' = effects_to_run s -> P s -> P s';
  inv_clear : forall s, P s -> P (clear_effects s);
  inv_invoke : forall plugin h f e s,
    plugin ∈ chain -> handler_of plugin h = Some f -> P s -> P (invoke plugin h f e s).2;
  inv_effect : forall owner func s,
    (owner, func) ∈ effects_to_run s -> P s -> P (run_effect owner func s).2
}.

(** The identities of the queued closures, front first. *)
Definition queued (s : state) : list (nat * nat) := (closure ∘ snd) <$> effects_to_run s.

(** The state in which the [pointerup] listener dispatches the [dragEnd]
    chain. *)
Definition releasing (s : state) : state :=
  if is_dragging s then listen_click_once s else s.


(** The phases dispatched in a history. *)
Definition dispatched (t : list entry) : list hook :=
  omap (fun en => match en with Dispatch h => Some h | _ => None end) t.

(** The chain ends with the axis plugin, whose private state is the one its
    [setup] returned, and no queued closure belongs to it. *)
Definition axis_invariant (id : nat) (value : DragAxis) (pre : list Plugin) (s : state) : Prop :=
  ordered_plugins s = pre ++ [axis id value]
  /\ private_states s !! "neodrag:axis"
     = Some (Df (bool_decide (value = both) || bool_decide (value = axis_x))
                (bool_decide (value = both) || bool_decide (value = axis_y)))
  /\ Forall (fun queued => queued.1 <> "neodrag:axis") (effects_to_run s).

(** No interaction is in progress and only [shouldDrag] chains have ever
    been dispatched. *)
Definition never_started (s : state) : Prop :=
  is_interacting s = false /\ Forall (fun h => h = ShouldDrag) (dispatched (trace s)).

End Draggable.

(** * The delegated multi-instance engine: [createDraggable(...)] *)

Module CreateDraggable.

(** The fields of [instance.ctx]; plugins read them. *)
Record PluginContext := {
  proposed : nullable_xy;
  delta : xy;
  offset : xy;
  initial : xy;
  isDragging : bool;
  isInteracting : bool;
  rootNode : node;
  cachedRootNodeRect : DOMRect;
  lastEvent : option PointerEvent;
  currentlyDraggedNode : node
}.

Record effect_run := {
  effect_state : option any;
  effect_document : document;
  effect_completes : completion unit
}.

Record Effect := {
  closure : nat * nat;
  body : PluginContext -> option any -> document -> effect_run
}.

(** The methods of [ctx] and the two properties a plugin may assign. *)
Inductive ctx_call :=
| effect (func : Effect)
| propose (coords : nullable_xy)
| cancel
| preventStart
| assign_cachedRootNodeRect (val : DOMRect)
| assign_currentlyDraggedNode (val : node).

Record hook_run := {
  calls : list ctx_call;
  state_after : option any;
  document_after : document;
  returns : completion bool
}.

Definition handler := PluginContext -> option any -> PointerEvent -> document -> hook_run.

Record setup_run := {
  setup_calls : list ctx_call;
  setup_document : document;
  setup_returns : completion (option any)
}.

(** Modelled from the spec: the [Plugin] type of [plugins.ts], a named,
    prioritised hook set with a [liveUpdate] and a [cancelable] flag; the
    fields are those the engine reads. *)
Record Plugin := {
  ident : nat;
  name : string;
  priority : option number;
  liveUpdate : option bool;
  cancelable : option bool;
  setup : option (PluginContext -> document -> setup_run);
  shouldDrag : option handler;
  dragStart : option handler;
  drag : option handler;
  dragEnd : option handler;
  cleanup : option (PluginContext -> option any -> document -> hook_run)
}.

Definition handler_of (plugin : Plugin) (h : hook) : option handler :=
  match h with
  | DragStart => dragStart plugin
  | Drag => drag plugin
  | DragEnd => dragEnd plugin
  | ShouldDrag => shouldDrag plugin
  end.

Record DraggableInstance := {
  ctx : PluginContext;
  root_node : node;
  plugins : list Plugin;
  states : gmap string any;
  dragstart_prevented : bool;
  current_drag_hook_cancelled : bool;
  pointer_captured_id : option Z;
  effects : list (string * Effect)
}.

(** The variables closed over by the functions of one [createDraggable]
    call, with the document and the history.  [initial_plugins] and
    [onError] (is a callback supplied?) are constants. *)
Record manager := {
  initial_plugins : list Plugin;
  onError : bool;
  instances : gmap node DraggableInstance;
  listeners_initialized : bool;
  active_node : option node;
  doc : document;
  trace : list entry
}.

(** Assignment to one field. *)
Definition set_proposed v (s : PluginContext) : PluginContext :=
  {| proposed := v; delta := delta s; offset := offset s;
     initial := initial s; isDragging := isDragging s;
     isInteracting := isInteracting s; rootNode := rootNode s;
     cachedRootNodeRect := cachedRootNodeRect s; lastEvent := lastEvent s;
     currentlyDraggedNode := currentlyDraggedNode s |}.
Definition set_delta v (s : PluginContext) : PluginContext :=
  {| proposed := proposed s; delta := v; offset := offset s;
     initial := initial s; isDragging := isDragging s;
     isInteracting := isInteracting s; rootNode := rootNode s;
     cachedRootNodeRect := cachedRootNodeRect s; lastEvent := lastEvent s;
     currentlyDraggedNode := currentlyDraggedNode s |}.
Definition set_offset v (s : PluginContext) : PluginContext :=
  {| proposed := proposed s; delta := delta s; offset := v;
     initial := initial s; isDragging := isDragging s;
     isInteracting := isInteracting s; rootNode := rootNode s;
     cachedRootNodeRect := cachedRootNodeRect s; lastEvent := lastEvent s;
     currentlyDraggedNode := currentlyDraggedNode s |}.
Definition set_initial v (s : PluginContext) : PluginContext :=
  {| proposed := proposed s; delta := delta s; offset := offset s;
     initial := v; isDragging := isDragging s;
     isInteracting := isInteracting s; rootNode := rootNode s;
     cachedRootNodeRect := cachedRootNodeRect s; lastEvent := lastEvent s;
     currentlyDraggedNode := currentlyDraggedNode s |}.
Definition set_isDragging v (s : PluginContext) : PluginContext :=
  {| proposed := proposed s; delta := delta s; offset := offset s;
     initial := initial s; isDragging := v; isInteracting := isInteracting s;
     rootNode := rootNode s; cachedRootNodeRect := cachedRootNodeRect s;
     lastEvent := lastEvent s;
     currentlyDraggedNode := currentlyDraggedNode s |}.
Definition set_isInteracting v (s : PluginContext) : PluginContext :=
  {| proposed := proposed s; delta := delta s; offset := offset s;
     initial := initial s; isDragging := isDragging s; isInteracting := v;
     rootNode := rootNode s; cachedRootNodeRect := cachedRootNodeRect s;
     lastEvent := lastEvent s;
     currentlyDraggedNode := currentlyDraggedNode s |}.
Definition set_cachedRootNodeRect v (s : PluginContext) : PluginContext :=
  {| proposed := proposed s; delta := delta s; offset := offset s;
     initial := initial s; isDragging := isDragging s;
     isInteracting := isInteracting s; rootNode := rootNode s;
     cachedRootNodeRect := v; lastEvent := lastEvent s;
     currentlyDraggedNode := currentlyDraggedNode s |}.
Definition set_lastEvent v (s : PluginContext) : PluginContext :=
  {| proposed := proposed s; delta := delta s; offset := offset s;
     initial := initial s; isDragging := isDragging s;
     isInteracting := isInteracting s; rootNode := rootNode s;
     cachedRootNodeRect := cachedRootNodeRect s; lastEvent := v;
     currentlyDraggedNode := currentlyDraggedNode s |}.
Definition set_currentlyDraggedNode v (s : PluginContext) : PluginContext :=
  {| proposed := proposed s; delta := delta s; offset := offset s;
     initial := initial s; isDragging := isDragging s;
     isInteracting := isInteracting s; rootNode := rootNode s;
     cachedRootNodeRect := cachedRootNodeRect s; lastEvent := lastEvent s;
     currentlyDraggedNode := v |}.
Definition set_ctx v (s : DraggableInstance) : DraggableInstance :=
  {| ctx := v; root_node := root_node s; plugins := plugins s;
     states := states s; dragstart_prevented := dragstart_prevented s;
     current_drag_hook_cancelled := current_drag_hook_cancelled s;
     pointer_captured_id := pointer_captured_id s; effects := effects s |}.
Definition set_plugins v (s : DraggableInstance) : DraggableInstance :=
  {| ctx := ctx s; root_node := root_node s; plugins := v;
     states := states s; dragstart_prevented := dragstart_prevented s;
     current_drag_hook_cancelled := current_drag_hook_cancelled s;
     pointer_captured_id := pointer_captured_id s; effects := effects s |}.
Definition set_states v (s : DraggableInstance) : DraggableInstance :=
  {| ctx := ctx s; root_node := root_node s; plugins := plugins s;
     states := v; dragstart_prevented := dragstart_prevented s;
     current_drag_hook_cancelled := current_drag_hook_cancelled s;
     pointer_captured_id := pointer_captured_id s; effects := effects s |}.
Definition set_dragstart_prevented v (s : DraggableInstance) : DraggableInstance :=
  {| ctx := ctx s; root_node := root_node s; plugins := plugins s;
     states := states s; dragstart_prevented := v;
     current_drag_hook_cancelled := current_drag_hook_cancelled s;
     pointer_captured_id := pointer_captured_id s; effects := effects s |}.
Definition set_current_drag_hook_cancelled v (s : DraggableInstance) : DraggableInstance :=
  {| ctx := ctx s; root_node := root_node s; plugins := plugins s;
     states := states s; dragstart_prevented := dragstart_prevented s;
     current_drag_hook_cancelled := v;
     pointer_captured_id := pointer_captured_id s; effects := effects s |}.
Definition set_pointer_captured_id v (s : DraggableInstance) : DraggableInstance :=
  {| ctx := ctx s; root_node := root_node s; plugins := plugins s;
     states := states s; dragstart_prevented := dragstart_prevented s;
     current_drag_hook_cancelled := current_drag_hook_cancelled s;
     pointer_captured_id := v; effects := effects s |}.
Definition set_effects v (s : DraggableInstance) : DraggableInstance :=
  {| ctx := ctx s; root_node := root_node s; plugins := plugins s;
     states := states s; dragstart_prevented := dragstart_prevented s;
     current_drag_hook_cancelled := current_drag_hook_cancelled s;
     pointer_captured_id := pointer_captured_id s; effects := v |}.
Definition set_instances v (s : manager) : manager :=
  {| initial_plugins := initial_plugins s; onError := onError s;
     instances := v; listeners_initialized := listeners_initialized s;
     active_node := active_node s; doc := doc s; trace := trace s |}.
Definition set_listeners_initialized v (s : manager) : manager :=
  {| initial_plugins := initial_plugins s; onError := onError s;
     instances := instances s; listeners_initialized := v;
     active_node := active_node s; doc := doc s; trace := trace s |}.
Definition set_active_node v (s : manager) : manager :=
  {| initial_plugins := initial_plugins s; onError := onError s;
     instances := instances s;
     listeners_initialized := listeners_initialized s; active_node := v;
     doc := doc s; trace := trace s |}.
Definition set_doc v (s : manager) : manager :=
  {| initial_plugins := initial_plugins s; onError := onError s;
     instances := instances s;
     listeners_initialized := listeners_initialized s;
     active_node := active_node s; doc := v; trace := trace s |}.
Definition set_trace v (s : manager) : manager :=
  {| initial_plugins := initial_plugins s; onError := onError s;
     instances := instances s;
     listeners_initialized := listeners_initialized s;
     active_node := active_node s; doc := doc s; trace := v |}.


Definition log (en : entry) (m : manager) : manager := set_trace (trace m ++ [en]) m.

Definition report_error (info : ErrorInfo) (m : manager) : manager :=
  if onError m then log (Reported info) m else m.

(** [instance.effects.add(func)]; the queue remembers which plugin's hook
    created the closure. *)
Definition add_effect (owner : string) (func : Effect) (fns : list (string * Effect))
    : list (string * Effect) :=
  if bool_decide (closure func ∈ (closure ∘ snd) <$> fns) then fns else fns ++ [(owner, func)].

(** [instance.pointer_captured_id && ...]: [null] and [0] are falsy. *)
Definition truthy_id (id : option Z) : bool :=
  match id with
  | Some i => negb (bool_decide (i = 0%Z))
  | None => false
  end.

Definition hasPointerCapture (el : node) (id : option Z) (d : document) : bool :=
  match id with
  | Some i => bool_decide (pointer_capture d !! i = Some el)
  | None => false
  end.

Definition set_pointer_capture v (d : document) : document :=
  {| class_list := class_list d; body_user_select := body_user_select d;
     translate := translate d; touch_action := touch_action d;
     defaults_prevented := defaults_prevented d; click_guards := click_guards d;
     pointer_capture := v |}.

Definition releasePointerCapture (id : option Z) (d : document) : document :=
  match id with
  | Some i => set_pointer_capture (delete i (pointer_capture d)) d
  | None => d
  end.

Definition setPointerCapture (el : node) (id : option Z) (d : document) : document :=
  match id with
  | Some i => set_pointer_capture (<[i := el]> (pointer_capture d)) d
  | None => d
  end.

Definition e_preventDefault (d : document) : document :=
  {| class_list := class_list d; body_user_select := body_user_select d;
     translate := translate d; touch_action := touch_action d;
     defaults_prevented := S (defaults_prevented d); click_guards := click_guards d;
     pointer_capture := pointer_capture d |}.

Definition listen_click_once (d : document) : document :=
  {| class_list := class_list d; body_user_select := body_user_select d;
     translate := translate d; touch_action := touch_action d;
     defaults_prevented := defaults_prevented d; click_guards := S (click_guards d);
     pointer_capture := pointer_capture d |}.

(** The methods of [instance.ctx] and the setter of [currentlyDraggedNode],
    which moves a held pointer capture to the new element. *)
Definition ctx_apply (owner : string) (im : DraggableInstance * manager) (c : ctx_call)
    : DraggableInstance * manager :=
  let (instance, m) := im in
  match c with
  | effect func => (set_effects (add_effect owner func (effects instance)) instance, m)
  | propose coords =>
      (set_ctx (set_proposed {| nx := nx coords; ny := ny coords |} (ctx instance)) instance, m)
  | cancel => (set_current_drag_hook_cancelled true instance, m)
  | preventStart => (set_dragstart_prevented true instance, m)
  | assign_cachedRootNodeRect val =>
      (set_ctx (set_cachedRootNodeRect val (ctx instance)) instance, m)
  | assign_currentlyDraggedNode val =>
      let id := pointer_captured_id instance in
      let m :=
        if truthy_id id && hasPointerCapture (currentlyDraggedNode (ctx instance)) id (doc m)
        then set_doc (setPointerCapture val id (releasePointerCapture id (doc m))) m
        else m in
      (set_ctx (set_currentlyDraggedNode val (ctx instance)) instance, m)
  end.

(** [handler(instance.ctx, instance.states.get(plugin.name), event)]; the
    hook's own changes of the document are taken before its calls on [ctx]. *)
Definition invoke (plugin : Plugin) (h : hook) (f : handler) (e : PointerEvent)
    (instance : DraggableInstance) (m : manager)
    : completion bool * DraggableInstance * manager :=
  let r := f (ctx instance) (states instance !! name plugin) e (doc m) in
  let m := log (Called (ident plugin) (name plugin) h) m in
  let m := set_doc (document_after r) m in
  let '(instance, m) := foldl (ctx_apply (name plugin)) (instance, m) (calls r) in
  let instance :=
    set_states (store_state (name plugin) (state_after r) (states instance)) instance in
  (returns r, instance, m).

Arguments invoke : simpl never.

(** [resultify] around a hook: an exception is reported and becomes a
    failed [Result]. *)
Definition resultify (errorInfo : error -> ErrorInfo)
    (r : completion bool * DraggableInstance * manager)
    : completion bool * DraggableInstance * manager :=
  match r with
  | (Return v, instance, m) => (Return v, instance, m)
  | (Throw err, instance, m) => (Throw err, instance, report_error (errorInfo err) m)
  end.

Fixpoint run_plugins_loop (rest : list Plugin) (h : hook) (e : PointerEvent)
    (instance : DraggableInstance) (m : manager) : bool * DraggableInstance * manager :=
  match rest with
  | [] => (true, instance, m)
  | plugin :: rest' =>
      match handler_of plugin h with
      | None => run_plugins_loop rest' h e instance m
      | Some f =>
          if current_drag_hook_cancelled instance
             && negb (bool_decide (cancelable plugin = Some false))
          then run_plugins_loop rest' h e instance m
          else
            let node := rootNode (ctx instance) in
            match resultify
                    (fun err => {| info_phase := h;
                                   info_plugin := Some (name plugin, Hook h);
                                   info_node := node;
                                   info_error := err |})
                    (invoke plugin h f e instance m) with
            | (Throw _, instance, m) => (false, instance, m)
            | (Return false, instance, m) => (false, instance, m)
            | (Return true, instance, m) => run_plugins_loop rest' h e instance m
            end
      end
  end.

Definition run_plugins (instance : DraggableInstance) (h : hook) (e : PointerEvent)
    (m : manager) : bool * DraggableInstance * manager :=
  let instance := set_dragstart_prevented false instance in
  run_plugins_loop (plugins instance) h e instance (log (Dispatch h) m).

Definition run_effect (owner : string) (func : Effect) (instance : DraggableInstance)
    (m : manager) : completion unit * DraggableInstance * manager :=
  let r := body func (ctx instance) (states instance !! owner) (doc m) in
  let m := log (Ran (closure func)) m in
  let instance :=
    set_states (store_state owner (effect_state r) (states instance)) instance in
  let m := set_doc (effect_document r) m in
  (effect_completes r, instance, m).

Arguments run_effect : simpl never.

Fixpoint run_effects (fns : list (string * Effect)) (instance : DraggableInstance)
    (m : manager) : completion unit * DraggableInstance * manager :=
  match fns with
  | [] => (Return (), instance, m)
  | (owner, func) :: fns' =>
      match run_effect owner func instance m with
      | (Throw err, instance, m) => (Throw err, instance, m)
      | (Return _, instance, m) => run_effects fns' instance m
      end
  end.

Definition clear_effects (instance : DraggableInstance) : DraggableInstance :=
  set_effects [] instance.

Definition flush_effects (instance : DraggableInstance) (m : manager)
    : completion unit * DraggableInstance * manager :=
  match run_effects (effects instance) instance m with
  | (Throw err, instance, m) => (Throw err, instance, m)
  | (Return _, instance, m) => (Return (), clear_effects instance, m)
  end.

(** The instance object is shared between the [WeakMap] and the handler
    that works on it: [commit] writes the handler's copy back. *)
Definition commit (n : node) (instance : DraggableInstance) (m : manager) : manager :=
  set_instances (<[n := instance]> (instances m)) m.

(** Releasing a capture the element holds does not throw. *)
Definition cleanup_active_node (m : manager) : manager :=
  match active_node m with
  | None => m
  | Some n =>
      match instances m !! n with
      | None => m
      | Some instance =>
          let id := pointer_captured_id instance in
          let m :=
            if truthy_id id && hasPointerCapture (currentlyDraggedNode (ctx instance)) id (doc m)
            then set_doc (releasePointerCapture id (doc m)) m
            else m in
          let instance := set_ctx (set_isInteracting false (ctx instance)) instance in
          let instance := set_ctx (set_isDragging false (ctx instance)) instance in
          let instance := set_dragstart_prevented false instance in
          let instance := set_pointer_captured_id None instance in
          let m := set_active_node None m in
          let instance := clear_effects instance in
          set_instances (<[n := instance]> (instances m)) m
      end
  end.

(** Modelled from the spec: [is_svg_element] and [is_svg_svg_element] of
    the absent [utils.ts], read as the tests their names state. *)
Definition is_svg_element (k : element_kind) : bool :=
  match k with
  | SVGElement | SVGSVGElement => true
  | _ => false
  end.

Definition is_svg_svg_element (k : element_kind) : bool :=
  match k with
  | SVGSVGElement => true
  | _ => false
  end.

Definition is_HTMLElement (k : element_kind) : bool :=
  match k with
  | HTMLElement => true
  | _ => false
  end.

Fixpoint find_in_path (path : list (node * element_kind)) (m : manager)
    : option (node * element_kind) :=
  match path with
  | [] => None
  | (el, k) :: path' =>
      if (is_HTMLElement k || (is_svg_element k && negb (is_svg_svg_element k)))
         && bool_decide (is_Some (instances m !! el))
      then Some (el, k)
      else find_in_path path' m
  end.

Definition find_draggable_node (e : PointerEvent) (m : manager) : option (node * element_kind) :=
  find_in_path (composedPath e) m.

(** An exception that leaves a handler reaches the event loop. *)
Definition listener (r : completion unit * manager) : manager :=
  match r with
  | (Return _, m) => m
  | (Throw err, m) => log (Uncaught err) m
  end.

Definition handle_pointer_down (e : PointerEvent) (m : manager) : manager :=
  if bool_decide (button e = 2%Z) then m else
  match find_draggable_node e m with
  | None => m
  | Some (draggable_node, kind) =>
      match instances m !! draggable_node with
      | None => log (Uncaught TypeError) m
      | Some instance =>
          let instance :=
            set_ctx (set_cachedRootNodeRect (getBoundingClientRect e draggable_node)
                       (ctx instance)) instance in
          let '(should_drag, instance, m) := run_plugins instance ShouldDrag e m in
          if negb should_drag then commit draggable_node instance m else
          let instance := set_ctx (set_isInteracting true (ctx instance)) instance in
          let m := set_active_node (Some draggable_node) m in
          let instance := set_pointer_captured_id (Some (pointerId e)) instance in
          match setPointerCapture_throws e with
          | Some err =>
              let m :=
                report_error {| info_phase := DragStart; info_plugin := None;
                                info_node := currentlyDraggedNode (ctx instance);
                                info_error := err |} m in
              cleanup_active_node (commit draggable_node instance m)
          | None =>
              let m :=
                set_doc (setPointerCapture (currentlyDraggedNode (ctx instance))
                           (pointer_captured_id instance) (doc m)) m in
              let rect := cachedRootNodeRect (ctx instance) in
              let inverse_scale :=
                if is_svg_element kind then
                  let bbox_width := getBBox_width e draggable_node in
                  if negb (bool_decide (bbox_width = 0)) && negb (bool_decide (width rect = 0))
                  then bbox_width / width rect else 1
                else offsetWidth e draggable_node / width rect in
              let c := ctx instance in
              let c :=
                if nx (proposed c) is Some _
                then set_initial {| x := clientX e - x (offset c) / inverse_scale;
                                    y := y (initial c) |} c
                else c in
              let c :=
                if ny (proposed c) is Some _
                then set_initial {| x := x (initial c);
                                    y := clientY e - y (offset c) / inverse_scale |} c
                else c in
              commit draggable_node (set_ctx c instance) m
          end
      end
  end.

(** The part of [handle_pointer_move] that runs once the instance is
    dragging. *)
Definition drag_move (e : PointerEvent) (instance : DraggableInstance) (m : manager)
    : completion unit * DraggableInstance * manager :=
  let m := set_doc (e_preventDefault (doc m)) m in
  let c := ctx instance in
  let c := set_delta {| x := clientX e - x (initial c) - x (offset c);
                        y := clientY e - y (initial c) - y (offset c) |} c in
  let c := set_proposed {| nx := Some (x (delta c)); ny := Some (y (delta c)) |} c in
  let instance := set_ctx c instance in
  let '(run_result, instance, m) := run_plugins instance Drag e m in
  if run_result then
    match flush_effects instance m with
    | (Throw err, instance, m) => (Throw err, instance, m)
    | (Return _, instance, m) =>
        let c := ctx instance in
        let c := set_offset {| x := x (offset c) + or_zero (nx (proposed c));
                               y := y (offset c) + or_zero (ny (proposed c)) |} c in
        (Return (), set_ctx c instance, m)
    end
  else (Return (), clear_effects instance, m).

(** The [dragStart] phase of [handle_pointer_move]; it answers whether the
    instance is now dragging. *)
Definition start_drag (e : PointerEvent) (instance : DraggableInstance) (m : manager)
    : completion bool * DraggableInstance * manager :=
  let '(start_drag, instance, m) := run_plugins instance DragStart e m in
  if negb start_drag then (Return false, clear_effects instance, m) else
  match flush_effects instance m with
  | (Throw err, instance, m) => (Throw err, instance, m)
  | (Return _, instance, m) =>
      (Return true, set_ctx (set_isDragging true (ctx instance)) instance, m)
  end.

Definition pointer_move (e : PointerEvent) (instance : DraggableInstance) (m : manager)
    : completion unit * DraggableInstance * manager :=
  if negb (isInteracting (ctx instance)) then (Return (), instance, m) else
  let instance := set_ctx (set_lastEvent (Some e) (ctx instance)) instance in
  if isDragging (ctx instance) then drag_move e instance m else
  let instance := set_dragstart_prevented false instance in
  let '(_, instance, m) := run_plugins instance Drag e m in
  if negb (dragstart_prevented instance) && negb (current_drag_hook_cancelled instance) then
    match start_drag e instance m with
    | (Throw err, instance, m) => (Throw err, instance, m)
    | (Return false, instance, m) => (Return (), instance, m)
    | (Return true, instance, m) => drag_move e instance m
    end
  else (Return (), instance, m).

(** [handle_pointer_move], also called by [update] to replay the last
    event. *)
Definition handle_pointer_move_call (e : PointerEvent) (m : manager) : completion unit * manager :=
  match active_node m with
  | None => (Return (), m)
  | Some n =>
      match instances m !! n with
      | None => (Throw TypeError, m)
      | Some instance =>
          let '(r, instance, m) := pointer_move e instance m in
          (r, commit n instance m)
      end
  end.

Definition handle_pointer_move (e : PointerEvent) (m : manager) : manager :=
  listener (handle_pointer_move_call e m).

Definition pointer_up (e : PointerEvent) (instance : DraggableInstance) (m : manager)
    : completion unit * DraggableInstance * manager :=
  if negb (isInteracting (ctx instance)) then (Return (), instance, m) else
  let m := if isDragging (ctx instance) then set_doc (listen_click_once (doc m)) m else m in
  let id := pointer_captured_id instance in
  let m :=
    if truthy_id id && hasPointerCapture (currentlyDraggedNode (ctx instance)) id (doc m)
    then set_doc (releasePointerCapture id (doc m)) m
    else m in
  let '(_, instance, m) := run_plugins instance DragEnd e m in
  match flush_effects instance m with
  | (Throw err, instance, m) => (Throw err, instance, m)
  | (Return _, instance, m) =>
      let c := ctx instance in
      let c := if truthy (nx (proposed c))
               then set_initial {| x := x (offset c); y := y (initial c) |} c else c in
      let c := if truthy (ny (proposed c))
               then set_initial {| x := x (initial c); y := y (offset c) |} c else c in
      let c := set_proposed {| nx := Some 0; ny := Some 0 |} c in
      let c := set_isInteracting false c in
      let c := set_isDragging false c in
      let instance := set_ctx c instance in
      let instance := set_dragstart_prevented false instance in
      let instance := set_pointer_captured_id None instance in
      (Return (), clear_effects instance, m)
  end.

Definition handle_pointer_up (e : PointerEvent) (m : manager) : manager :=
  match active_node m with
  | None => m
  | Some n =>
      match instances m !! n with
      | None => log (Uncaught TypeError) m
      | Some instance =>
          let '(r, instance, m) := pointer_up e instance m in
          listener (r, commit n instance m)
      end
  end.

(** ** Attaching, updating and destroying instances *)

Definition priority_or_zero (plugin : Plugin) : number := default 0 (priority plugin).

Definition plugin_map (all : list Plugin) : list (string * Plugin) :=
  foldl (fun pm plugin =>
           match map_get pm (name plugin) with
           | None => map_set pm (name plugin) plugin
           | Some existing_plugin =>
               if geb (priority_or_zero plugin) (priority_or_zero existing_plugin)
               then map_set pm (name plugin) plugin
               else pm
           end) [] all.

Definition initialize_plugins (new_plugins : list Plugin) (m : manager) : list Plugin :=
  sort (fun a b => priority_or_zero b - priority_or_zero a)
       (map_values (plugin_map (new_plugins ++ initial_plugins m))).

(** [plugin.setup?.(instance.ctx)]. *)
Definition call_setup (plugin : Plugin) (instance : DraggableInstance) (m : manager)
    : completion (option any) * DraggableInstance * manager :=
  match setup plugin with
  | None => (Return None, instance, m)
  | Some f =>
      let r := f (ctx instance) (doc m) in
      let m := log (Called (ident plugin) (name plugin) Setup) m in
      let m := set_doc (setup_document r) m in
      let '(instance, m) := foldl (ctx_apply (name plugin)) (instance, m) (setup_calls r) in
      (setup_returns r, instance, m)
  end.

(** [plugin.cleanup?.(instance.ctx, instance.states.get(plugin.name))]. *)
Definition call_cleanup (plugin : Plugin) (instance : DraggableInstance) (m : manager)
    : completion unit * DraggableInstance * manager :=
  match cleanup plugin with
  | None => (Return (), instance, m)
  | Some f =>
      let r := f (ctx instance) (states instance !! name plugin) (doc m) in
      let m := set_doc (document_after r) m in
      let '(instance, m) := foldl (ctx_apply (name plugin)) (instance, m) (calls r) in
      let instance :=
        set_states (store_state (name plugin) (state_after r) (states instance)) instance in
      (match returns r with Return _ => Return () | Throw err => Throw err end, instance, m)
  end.

Definition store_truthy (key : string) (value : option any) (instance : DraggableInstance)
    : DraggableInstance :=
  match value with
  | Some v => set_states (<[key := v]> (states instance)) instance
  | None => instance
  end.

Definition truthy_flag (b : option bool) : bool := default false b.

Definition update_plugin (instance : DraggableInstance) (old_plugin : option Plugin)
    (new_plugin : Plugin) (m : manager) : completion bool * DraggableInstance * manager :=
  let same := if old_plugin is Some o then bool_decide (ident o = ident new_plugin) else false in
  if same && negb (truthy_flag (liveUpdate new_plugin)) then (Return false, instance, m) else
  let cleaned :=
    match old_plugin with
    | Some o =>
        if same then (Return (), instance, m) else
        match call_cleanup o instance m with
        | (Throw err, instance, m) => (Throw err, instance, m)
        | (Return _, instance, m) =>
            (Return (), set_states (delete (name o) (states instance)) instance, m)
        end
    | None => (Return (), instance, m)
    end in
  match cleaned with
  | (Throw err, instance, m) => (Throw err, instance, m)
  | (Return _, instance, m) =>
      match call_setup new_plugin instance m with
      | (Throw err, instance, m) => (Throw err, instance, m)
      | (Return state, instance, m) =>
          match flush_effects instance m with
          | (Throw err, instance, m) => (Throw err, instance, m)
          | (Return _, instance, m) =>
              (Return true, store_truthy (name new_plugin) state instance, m)
          end
      end
  end.

(** [new Map(instance.plugins.map((p) => [p.name, p]))]. *)
Definition old_plugin_map (instance : DraggableInstance) : list (string * Plugin) :=
  foldl (fun pm p => map_set pm (name p) p) [] (plugins instance).

(** The loop [for (const plugin of ...) if (update_plugin(...)) has_changes = true]. *)
Fixpoint update_plugins (todo : list Plugin) (old : list (string * Plugin))
    (has_changes : bool) (instance : DraggableInstance) (m : manager)
    : completion bool * DraggableInstance * manager :=
  match todo with
  | [] => (Return has_changes, instance, m)
  | plugin :: todo' =>
      match update_plugin instance (map_get old (name plugin)) plugin m with
      | (Throw err, instance, m) => (Throw err, instance, m)
      | (Return changed, instance, m) =>
          update_plugins todo' old (changed || has_changes) instance m
      end
  end.

Fixpoint cleanup_removed (removed : list Plugin) (instance : DraggableInstance) (m : manager)
    : completion unit * DraggableInstance * manager :=
  match removed with
  | [] => (Return (), instance, m)
  | plugin :: removed' =>
      match call_cleanup plugin instance m with
      | (Throw err, instance, m) => (Throw err, instance, m)
      | (Return _, instance, m) =>
          cleanup_removed removed'
            (set_states (delete (name plugin) (states instance)) instance) m
      end
  end.

(** [update(instance, new_plugins)] for the instance registered for [n]. *)
Definition update (n : node) (new_plugins : list Plugin) (m : manager)
    : completion unit * manager :=
  match instances m !! n with
  | None => (Return (), m)
  | Some instance =>
      let old := old_plugin_map instance in
      let new_plugin_list := initialize_plugins new_plugins m in
      if isDragging (ctx instance) || isInteracting (ctx instance) then
        let updated_plugins := filter (fun p => truthy_flag (liveUpdate p)) new_plugin_list in
        match update_plugins updated_plugins old false instance m with
        | (Throw err, instance, m) => (Throw err, commit n instance m)
        | (Return has_changes, instance, m) =>
            let m := commit n instance m in
            if has_changes && bool_decide (active_node m = Some (root_node instance)) then
              match lastEvent (ctx instance) with
              | Some e => handle_pointer_move_call e m
              | None => (Return (), m)
              end
            else (Return (), m)
        end
      else
        let removed_plugins :=
          filter (fun p => negb (bool_decide (Exists (fun np => name np = name p) new_plugin_list)))
                 (plugins instance) in
        match cleanup_removed removed_plugins instance m with
        | (Throw err, instance, m) => (Throw err, commit n instance m)
        | (Return _, instance, m) =>
            let has_changes := negb (bool_decide (removed_plugins = [])) in
            match update_plugins new_plugin_list old has_changes instance m with
            | (Throw err, instance, m) => (Throw err, commit n instance m)
            | (Return has_changes, instance, m) =>
                let instance :=
                  if has_changes then set_plugins new_plugin_list instance else instance in
                (Return (), commit n instance m)
            end
        end
  end.

Definition initialize_listeners (m : manager) : manager :=
  if listeners_initialized m then m else set_listeners_initialized true m.

(** The body handed to [resultify] by [draggable] for one plugin. *)
Definition initial_setup (plugin : Plugin) (instance : DraggableInstance) (m : manager)
    : DraggableInstance * manager :=
  let info err :=
    {| info_phase := Setup; info_plugin := Some (name plugin, Setup);
       info_node := root_node instance; info_error := err |} in
  match call_setup plugin instance m with
  | (Throw err, instance, m) => (instance, report_error (info err) m)
  | (Return value, instance, m) =>
      let instance := store_truthy (name plugin) value instance in
      match flush_effects instance m with
      | (Throw err, instance, m) => (instance, report_error (info err) m)
      | (Return _, instance, m) => (instance, m)
      end
  end.

(** [draggable(node, plugins)], the list being [plugin_list]; [rect] is what
    [node.getBoundingClientRect()] answers during the call. *)
Definition draggable (node : node) (plugin_list : list Plugin) (rect : DOMRect)
    (m : manager) : manager :=
  let m := initialize_listeners m in
  let instance :=
    {| ctx := {| proposed := {| nx := Some 0; ny := Some 0 |};
                 delta := {| x := 0; y := 0 |};
                 offset := {| x := 0; y := 0 |};
                 initial := {| x := 0; y := 0 |};
                 isDragging := false;
                 isInteracting := false;
                 rootNode := node;
                 cachedRootNodeRect := rect;
                 lastEvent := None;
                 currentlyDraggedNode := node |};
       root_node := node;
       plugins := initialize_plugins plugin_list m;
       states := ∅;
       dragstart_prevented := false;
       current_drag_hook_cancelled := false;
       pointer_captured_id := None;
       effects := [] |} in
  let '(instance, m) :=
    foldl (fun im plugin => initial_setup plugin im.1 im.2) (instance, m) (plugins instance) in
  commit node instance m.

Fixpoint cleanup_all (todo : list Plugin) (instance : DraggableInstance) (m : manager)
    : completion unit * DraggableInstance * manager :=
  match todo with
  | [] => (Return (), instance, m)
  | plugin :: todo' =>
      match call_cleanup plugin instance m with
      | (Throw err, instance, m) => (Throw err, instance, m)
      | (Return _, instance, m) => cleanup_all todo' instance m
      end
  end.

(** [destroy()] of the object returned for [n]. *)
Definition destroy (n : node) (m : manager) : completion unit * manager :=
  match instances m !! n with
  | None => (Return (), m)
  | Some instance =>
      let m := if bool_decide (active_node m = Some n) then set_active_node None m else m in
      match cleanup_all (plugins instance) instance m with
      | (Throw err, instance, m) => (Throw err, commit n instance m)
      | (Return _, instance, m) => (Return (), set_instances (delete n (instances m)) m)
      end
  end.

Definition createDraggable (plugins : list Plugin) (onError : bool) (d : document) : manager :=
  {| initial_plugins := plugins;
     onError := onError;
     instances := ∅;
     listeners_initialized := false;
     active_node := None;
     doc := d;
     trace := [] |}.

(** What can happen to a manager: the three delegated pointer events and
    the calls of its public functions. *)
Inductive event :=
| PointerDown (e : PointerEvent)
| PointerMove (e : PointerEvent)
| PointerUp (e : PointerEvent)
| Attach (n : node) (plugins : list Plugin) (rect : DOMRect)
| Update (n : node)
| Destroy (n : node).

Definition step (m : manager) (ev : event) : manager :=
  match ev with
  | PointerDown e => handle_pointer_down e m
  | PointerMove e => handle_pointer_move e m
  | PointerUp e => handle_pointer_up e m
  | Attach n plugins rect => draggable n plugins rect m
  | Update n => listener (update n [] m)
  | Destroy n => listener (destroy n m)
  end.

Definition run (m : manager) (evs : list event) : manager := foldl step m evs.

(** ** What plugins cannot reach *)

(** The result of an instance-level function: the instance and the manager
    as it leaves them. *)
Definition after {A} (r : A * DraggableInstance * manager) : DraggableInstance * manager :=
  (r.1.2, r.2).

(** What no plugin can reach. *)
Definition instance_vars (instance : DraggableInstance) :=
  (delta (ctx instance), offset (ctx instance), initial (ctx instance),
   isDragging (ctx instance), isInteracting (ctx instance), rootNode (ctx instance),
   lastEvent (ctx instance), root_node instance, plugins instance,
   pointer_captured_id instance).

Definition manager_vars (m : manager) :=
  (initial_plugins m, onError m, instances m, listeners_initialized m, active_node m).

Definition same_vars (a b : DraggableInstance * manager) : Prop :=
  instance_vars b.1 = instance_vars a.1 /\ manager_vars b.2 = manager_vars a.2.

(** What an effect closure cannot reach either. *)
Definition hook_vars (instance : DraggableInstance) :=
  (effects instance, proposed (ctx instance), current_drag_hook_cancelled instance,
   dragstart_prevented instance, cachedRootNodeRect (ctx instance),
   currentlyDraggedNode (ctx instance)).

(** The state in which [handle_pointer_move] dispatches the [drag] chain of
    a dragging instance. *)
Definition proposing (e : PointerEvent) (instance : DraggableInstance) : DraggableInstance :=
  let c := ctx instance in
  let c := set_delta {| x := clientX e - x (initial c) - x (offset c);
                        y := clientY e - y (initial c) - y (offset c) |} c in
  let c := set_proposed {| nx := Some (x (delta c)); ny := Some (y (delta c)) |} c in
  set_ctx c instance.


(** The identities of the queued closures, front first. *)
Definition queued (instance : DraggableInstance) : list (nat * nat) :=
  (closure ∘ snd) <$> effects instance.

(** The manager in which [handle_pointer_up] dispatches the [dragEnd]
    chain of the active instance. *)
Definition releasing (instance : DraggableInstance) (m : manager) : manager :=
  let m := if isDragging (ctx instance) then set_doc (listen_click_once (doc m)) m else m in
  let id := pointer_captured_id instance in
  if truthy_id id && hasPointerCapture (currentlyDraggedNode (ctx instance)) id (doc m)
  then set_doc (releasePointerCapture id (doc m)) m
  else m.

(** Across an instance-level function: the registry is untouched and a
    raised cancellation flag stays raised. *)
Definition keeps_flag (a b : DraggableInstance * manager) : Prop :=
  instances b.2 = instances a.2
  /\ (current_drag_hook_cancelled a.1 = true -> current_drag_hook_cancelled b.1 = true).

(** The instance registered for [n], if there is one, has its cancellation
    flag raised. *)
Definition stuck (n : node) (m : manager) : Prop :=
  match instances m !! n with
  | Some instance => current_drag_hook_cancelled instance = true
  | None => True
  end.

(** An entry of the history that, if it is a handler call, is a call of a
    handler of one of the plugins [ps]. *)
Definition called_by (ps : list Plugin) (en : entry) : Prop :=
  match en with
  | Called id nm _ => exists plugin, plugin ∈ ps /\ ident plugin = id /\ name plugin = nm
  | Uncaught _ => False
  | _ => True
  end.

End CreateDraggable.

(** * The option-driven engine of [packages/core]: its grid helper *)

Module Legacy.

(** The [calc] of [snapToGrid]. *)
Definition calc (val snap : number) : number :=
  if bool_decide (snap = 0) then 0 else Math_ceil (val / snap) * snap.

(** The function that [snapToGrid] memoises; the memoised function answers
    what this one answers. *)
Definition snapToGrid (snap : number * number) (pendingX pendingY : number)
    : number * number :=
  let x := calc pendingX snap.1 in
  let y := calc pendingY snap.2 in
  (x, y).

End Legacy.


(** * The option-driven engine of [packages/core]: [draggable(node, options)] *)

Module LegacyEngine.

(** [DragBoundsCoords]. *)
Record DragBoundsCoords := {
  left : number;
  top : number;
  right : number;
  bottom : number
}.

(** What [getBoundingClientRect()] answers, as far as the engine reads it. *)
Record ClientRect := {
  rect_left : number;
  rect_top : number;
  rect_right : number;
  rect_bottom : number;
  rect_width : number;
  rect_height : number
}.

(** A [DOMRect] kept as [computedBounds]: its four edges are read. *)
Definition edges (r : ClientRect) : DragBoundsCoords :=
  {| left := rect_left r; top := rect_top r; right := rect_right r; bottom := rect_bottom r |}.

(** [DragBounds]: an element, a partial [DragBoundsCoords], or a string,
    which is ['parent'] or a selector. *)
Inductive DragBounds :=
| bounds_element (el : node)
| bounds_coords (top left right bottom : option number)
| bounds_string (s : string).

(** [string | HTMLElement | HTMLElement[]], the type of the options
    [handle] and [cancel]. *)
Inductive ElementsOption :=
| selector (s : string)
| element (el : node)
| element_list (els : list node).

(** [HTMLElement | HTMLElement[]], what [getHandleEl] returns. *)
Inductive Elements :=
| one (el : node)
| many (els : list node).

(** The option [recomputeBounds]; a field is absent or a boolean. *)
Record RecomputeBounds := {
  recompute_dragStart : option bool;
  recompute_drag : option bool;
  recompute_dragEnd : option bool
}.

Definition DEFAULT_RECOMPUTE_BOUNDS : RecomputeBounds :=
  {| recompute_dragStart := Some true; recompute_drag := None; recompute_dragEnd := None |}.

(** [DragOptions], without the three callbacks: a call of a callback is
    recorded in the history with the custom event it follows. *)
Module Options.
Record DragOptions := {
  bounds : option DragBounds;
  recomputeBounds : option RecomputeBounds;
  axis : option Draggable.DragAxis;
  gpuAcceleration : option bool;
  applyUserSelectHack : option bool;
  ignoreMultitouch : option bool;
  disabled : option bool;
  grid : option (number * number);
  position : option xy;
  cancel : option ElementsOption;
  handle : option ElementsOption;
  defaultClass : option string;
  defaultClassDragging : option string;
  defaultClassDragged : option string;
  defaultPosition : option xy
}.
End Options.

(** The variables that hold the options, as the destructuring with
    defaults and [update] leave them. *)
Record Settings := {
  bounds : option DragBounds;
  axis : Draggable.DragAxis;
  gpuAcceleration : bool;
  applyUserSelectHack : bool;
  disabled : bool;
  ignoreMultitouch : bool;
  recomputeBounds : RecomputeBounds;
  grid : option (number * number);
  cancel : option ElementsOption;
  handle : option ElementsOption;
  defaultClass : string;
  defaultClassDragging : string;
  defaultClassDragged : string
}.

(** What the DOM answers while one listener runs.  A selector that is not
    valid makes [querySelectorAll] and [querySelector] throw; an element
    may have no parent. *)
Record DOM := {
  contains : node -> node -> bool;                        (* a.contains(b) *)
  querySelectorAll : node -> string -> completion (list node);
  querySelector : string -> completion (option node);     (* document.querySelector *)
  parentNode : node -> option node;
  getBoundingClientRect : node -> ClientRect;
  offsetWidth : node -> number;
  innerWidth : number;
  innerHeight : number
}.

Record PointerEvent := {
  isPrimary : bool;
  clientX : number;
  clientY : number;
  target : node;
  dom : DOM
}.

(** [el.style.transform]. *)
Inductive Transform :=
| translate3d (x y : number)
| translate (x y : number).

(** What the engine writes: the class list, the [transform] and the
    [touch-action] of the node, the [user-select] of the body, and how
    often the default action of an event was prevented. *)
Record Page := {
  class_list : list string;
  body_user_select : string;
  transform : option Transform;
  touch_action : option string;
  defaults_prevented : nat
}.

Definition set_class_list v (d : Page) : Page :=
  {| class_list := v; body_user_select := body_user_select d; transform := transform d;
     touch_action := touch_action d; defaults_prevented := defaults_prevented d |}.

Definition set_body_user_select v (d : Page) : Page :=
  {| class_list := class_list d; body_user_select := v; transform := transform d;
     touch_action := touch_action d; defaults_prevented := defaults_prevented d |}.

Definition set_transform v (d : Page) : Page :=
  {| class_list := class_list d; body_user_select := body_user_select d; transform := v;
     touch_action := touch_action d; defaults_prevented := defaults_prevented d |}.

Definition set_touch_action v (d : Page) : Page :=
  {| class_list := class_list d; body_user_select := body_user_select d;
     transform := transform d; touch_action := v;
     defaults_prevented := defaults_prevented d |}.

Definition preventDefault (d : Page) : Page :=
  {| class_list := class_list d; body_user_select := body_user_select d;
     transform := transform d; touch_action := touch_action d;
     defaults_prevented := S (defaults_prevented d) |}.

Definition classList_add (c : string) (d : Page) : Page :=
  if bool_decide (c ∈ class_list d) then d else set_class_list (class_list d ++ [c]) d.

Definition classList_remove (c : string) (d : Page) : Page :=
  set_class_list (filter (fun c' => c' ≠ c) (class_list d)) d.

Definition classList_contains (c : string) (d : Page) : bool :=
  bool_decide (c ∈ class_list d).

(** The variables closed over by the listeners of one [draggable] call.
    [listening] tells whether [destroy] has removed the listeners,
    [tick_resolved] whether the promise [tick] is resolved, and [pending]
    whether a [setTranslate] waits on it. *)
Record state := {
  the_node : node; settings : Settings; isControlled : bool; active : bool;
  translateX : number; translateY : number; initialX : number; initialY : number;
  clientToNodeOffsetX : number; clientToNodeOffsetY : number; xOffset : number;
  yOffset : number; canMoveInX : bool; canMoveInY : bool;
  bodyOriginalUserSelectVal : string; computedBounds : option DragBoundsCoords;
  nodeRect : option ClientRect; dragEl : option Elements; cancelEl : option Elements;
  listening : bool; tick_resolved : bool; pending : bool; page : Page; trace : list entry
}.

(** Assignment to one variable. *)
Definition set_settings v (s : state) : state :=
  {| the_node := the_node s; settings := v; isControlled := isControlled s;
     active := active s; translateX := translateX s; translateY := translateY s;
     initialX := initialX s; initialY := initialY s;
     clientToNodeOffsetX := clientToNodeOffsetX s;
     clientToNodeOffsetY := clientToNodeOffsetY s; xOffset := xOffset s;
     yOffset := yOffset s; canMoveInX := canMoveInX s; canMoveInY := canMoveInY s;
     bodyOriginalUserSelectVal := bodyOriginalUserSelectVal s;
     computedBounds := computedBounds s; nodeRect := nodeRect s; dragEl := dragEl s;
     cancelEl := cancelEl s; listening := listening s; tick_resolved := tick_resolved s;
     pending := pending s; page := page s; trace := trace s |}.

Definition set_active v (s : state) : state :=
  {| the_node := the_node s; settings := settings s; isControlled := isControlled s;
     active := v; translateX := translateX s; translateY := translateY s;
     initialX := initialX s; initialY := initialY s;
     clientToNodeOffsetX := clientToNodeOffsetX s;
     clientToNodeOffsetY := clientToNodeOffsetY s; xOffset := xOffset s;
     yOffset := yOffset s; canMoveInX := canMoveInX s; canMoveInY := canMoveInY s;
     bodyOriginalUserSelectVal := bodyOriginalUserSelectVal s;
     computedBounds := computedBounds s; nodeRect := nodeRect s; dragEl := dragEl s;
     cancelEl := cancelEl s; listening := listening s; tick_resolved := tick_resolved s;
     pending := pending s; page := page s; trace := trace s |}.

Definition set_translateX v (s : state) : state :=
  {| the_node := the_node s; settings := settings s; isControlled := isControlled s;
     active := active s; translateX := v; translateY := translateY s;
     initialX := initialX s; initialY := initialY s;
     clientToNodeOffsetX := clientToNodeOffsetX s;
     clientToNodeOffsetY := clientToNodeOffsetY s; xOffset := xOffset s;
     yOffset := yOffset s; canMoveInX := canMoveInX s; canMoveInY := canMoveInY s;
     bodyOriginalUserSelectVal := bodyOriginalUserSelectVal s;
     computedBounds := computedBounds s; nodeRect := nodeRect s; dragEl := dragEl s;
     cancelEl := cancelEl s; listening := listening s; tick_resolved := tick_resolved s;
     pending := pending s; page := page s; trace := trace s |}.

Definition set_translateY v (s : state) : state :=
  {| the_node := the_node s; settings := settings s; isControlled := isControlled s;
     active := active s; translateX := translateX s; translateY := v;
     initialX := initialX s; initialY := initialY s;
     clientToNodeOffsetX := clientToNodeOffsetX s;
     clientToNodeOffsetY := clientToNodeOffsetY s; xOffset := xOffset s;
     yOffset := yOffset s; canMoveInX := canMoveInX s; canMoveInY := canMoveInY s;
     bodyOriginalUserSelectVal := bodyOriginalUserSelectVal s;
     computedBounds := computedBounds s; nodeRect := nodeRect s; dragEl := dragEl s;
     cancelEl := cancelEl s; listening := listening s; tick_resolved := tick_resolved s;
     pending := pending s; page := page s; trace := trace s |}.

Definition set_initialX v (s : state) : state :=
  {| the_node := the_node s; settings := settings s; isControlled := isControlled s;
     active := active s; translateX := translateX s; translateY := translateY s;
     initialX := v; initialY := initialY s; clientToNodeOffsetX := clientToNodeOffsetX s;
     clientToNodeOffsetY := clientToNodeOffsetY s; xOffset := xOffset s;
     yOffset := yOffset s; canMoveInX := canMoveInX s; canMoveInY := canMoveInY s;
     bodyOriginalUserSelectVal := bodyOriginalUserSelectVal s;
     computedBounds := computedBounds s; nodeRect := nodeRect s; dragEl := dragEl s;
     cancelEl := cancelEl s; listening := listening s; tick_resolved := tick_resolved s;
     pending := pending s; page := page s; trace := trace s |}.

Definition set_initialY v (s : state) : state :=
  {| the_node := the_node s; settings := settings s; isControlled := isControlled s;
     active := active s; translateX := translateX s; translateY := translateY s;
     initialX := initialX s; initialY := v; clientToNodeOffsetX := clientToNodeOffsetX s;
     clientToNodeOffsetY := clientToNodeOffsetY s; xOffset := xOffset s;
     yOffset := yOffset s; canMoveInX := canMoveInX s; canMoveInY := canMoveInY s;
     bodyOriginalUserSelectVal := bodyOriginalUserSelectVal s;
     computedBounds := computedBounds s; nodeRect := nodeRect s; dragEl := dragEl s;
     cancelEl := cancelEl s; listening := listening s; tick_resolved := tick_resolved s;
     pending := pending s; page := page s; trace := trace s |}.

Definition set_clientToNodeOffsetX v (s : state) : state :=
  {| the_node := the_node s; settings := settings s; isControlled := isControlled s;
     active := active s; translateX := translateX s; translateY := translateY s;
     initialX := initialX s; initialY := initialY s; clientToNodeOffsetX := v;
     clientToNodeOffsetY := clientToNodeOffsetY s; xOffset := xOffset s;
     yOffset := yOffset s; canMoveInX := canMoveInX s; canMoveInY := canMoveInY s;
     bodyOriginalUserSelectVal := bodyOriginalUserSelectVal s;
     computedBounds := computedBounds s; nodeRect := nodeRect s; dragEl := dragEl s;
     cancelEl := cancelEl s; listening := listening s; tick_resolved := tick_resolved s;
     pending := pending s; page := page s; trace := trace s |}.

Definition set_clientToNodeOffsetY v (s : state) : state :=
  {| the_node := the_node s; settings := settings s; isControlled := isControlled s;
     active := active s; translateX := translateX s; translateY := translateY s;
     initialX := initialX s; initialY := initialY s;
     clientToNodeOffsetX := clientToNodeOffsetX s; clientToNodeOffsetY := v;
     xOffset := xOffset s; yOffset := yOffset s; canMoveInX := canMoveInX s;
     canMoveInY := canMoveInY s; bodyOriginalUserSelectVal := bodyOriginalUserSelectVal s;
     computedBounds := computedBounds s; nodeRect := nodeRect s; dragEl := dragEl s;
     cancelEl := cancelEl s; listening := listening s; tick_resolved := tick_resolved s;
     pending := pending s; page := page s; trace := trace s |}.

Definition set_xOffset v (s : state) : state :=
  {| the_node := the_node s; settings := settings s; isControlled := isControlled s;
     active := active s; translateX := translateX s; translateY := translateY s;
     initialX := initialX s; initialY := initialY s;
     clientToNodeOffsetX := clientToNodeOffsetX s;
     clientToNodeOffsetY := clientToNodeOffsetY s; xOffset := v; yOffset := yOffset s;
     canMoveInX := canMoveInX s; canMoveInY := canMoveInY s;
     bodyOriginalUserSelectVal := bodyOriginalUserSelectVal s;
     computedBounds := computedBounds s; nodeRect := nodeRect s; dragEl := dragEl s;
     cancelEl := cancelEl s; listening := listening s; tick_resolved := tick_resolved s;
     pending := pending s; page := page s; trace := trace s |}.

Definition set_yOffset v (s : state) : state :=
  {| the_node := the_node s; settings := settings s; isControlled := isControlled s;
     active := active s; translateX := translateX s; translateY := translateY s;
     initialX := initialX s; initialY := initialY s;
     clientToNodeOffsetX := clientToNodeOffsetX s;
     clientToNodeOffsetY := clientToNodeOffsetY s; xOffset := xOffset s; yOffset := v;
     canMoveInX := canMoveInX s; canMoveInY := canMoveInY s;
     bodyOriginalUserSelectVal := bodyOriginalUserSelectVal s;
     computedBounds := computedBounds s; nodeRect := nodeRect s; dragEl := dragEl s;
     cancelEl := cancelEl s; listening := listening s; tick_resolved := tick_resolved s;
     pending := pending s; page := page s; trace := trace s |}.

Definition set_canMoveInX v (s : state) : state :=
  {| the_node := the_node s; settings := settings s; isControlled := isControlled s;
     active := active s; translateX := translateX s; translateY := translateY s;
     initialX := initialX s; initialY := initialY s;
     clientToNodeOffsetX := clientToNodeOffsetX s;
     clientToNodeOffsetY := clientToNodeOffsetY s; xOffset := xOffset s;
     yOffset := yOffset s; canMoveInX := v; canMoveInY := canMoveInY s;
     bodyOriginalUserSelectVal := bodyOriginalUserSelectVal s;
     computedBounds := computedBounds s; nodeRect := nodeRect s; dragEl := dragEl s;
     cancelEl := cancelEl s; listening := listening s; tick_resolved := tick_resolved s;
     pending := pending s; page := page s; trace := trace s |}.

Definition set_canMoveInY v (s : state) : state :=
  {| the_node := the_node s; settings := settings s; isControlled := isControlled s;
     active := active s; translateX := translateX s; translateY := translateY s;
     initialX := initialX s; initialY := initialY s;
     clientToNodeOffsetX := clientToNodeOffsetX s;
     clientToNodeOffsetY := clientToNodeOffsetY s; xOffset := xOffset s;
     yOffset := yOffset s; canMoveInX := canMoveInX s; canMoveInY := v;
     bodyOriginalUserSelectVal := bodyOriginalUserSelectVal s;
     computedBounds := computedBounds s; nodeRect := nodeRect s; dragEl := dragEl s;
     cancelEl := cancelEl s; listening := listening s; tick_resolved := tick_resolved s;
     pending := pending s; page := page s; trace := trace s |}.

Definition set_bodyOriginalUserSelectVal v (s : state) : state :=
  {| the_node := the_node s; settings := settings s; isControlled := isControlled s;
     active := active s; translateX := translateX s; translateY := translateY s;
     initialX := initialX s; initialY := initialY s;
     clientToNodeOffsetX := clientToNodeOffsetX s;
     clientToNodeOffsetY := clientToNodeOffsetY s; xOffset := xOffset s;
     yOffset := yOffset s; canMoveInX := canMoveInX s; canMoveInY := canMoveInY s;
     bodyOriginalUserSelectVal := v; computedBounds := computedBounds s;
     nodeRect := nodeRect s; dragEl := dragEl s; cancelEl := cancelEl s;
     listening := listening s; tick_resolved := tick_resolved s; pending := pending s;
     page := page s; trace := trace s |}.

Definition set_computedBounds v (s : state) : state :=
  {| the_node := the_node s; settings := settings s; isControlled := isControlled s;
     active := active s; translateX := translateX s; translateY := translateY s;
     initialX := initialX s; initialY := initialY s;
     clientToNodeOffsetX := clientToNodeOffsetX s;
     clientToNodeOffsetY := clientToNodeOffsetY s; xOffset := xOffset s;
     yOffset := yOffset s; canMoveInX := canMoveInX s; canMoveInY := canMoveInY s;
     bodyOriginalUserSelectVal := bodyOriginalUserSelectVal s; computedBounds := v;
     nodeRect := nodeRect s; dragEl := dragEl s; cancelEl := cancelEl s;
     listening := listening s; tick_resolved := tick_resolved s; pending := pending s;
     page := page s; trace := trace s |}.

Definition set_nodeRect v (s : state) : state :=
  {| the_node := the_node s; settings := settings s; isControlled := isControlled s;
     active := active s; translateX := translateX s; translateY := translateY s;
     initialX := initialX s; initialY := initialY s;
     clientToNodeOffsetX := clientToNodeOffsetX s;
     clientToNodeOffsetY := clientToNodeOffsetY s; xOffset := xOffset s;
     yOffset := yOffset s; canMoveInX := canMoveInX s; canMoveInY := canMoveInY s;
     bodyOriginalUserSelectVal := bodyOriginalUserSelectVal s;
     computedBounds := computedBounds s; nodeRect := v; dragEl := dragEl s;
     cancelEl := cancelEl s; listening := listening s; tick_resolved := tick_resolved s;
     pending := pending s; page := page s; trace := trace s |}.

Definition set_dragEl v (s : state) : state :=
  {| the_node := the_node s; settings := settings s; isControlled := isControlled s;
     active := active s; translateX := translateX s; translateY := translateY s;
     initialX := initialX s; initialY := initialY s;
     clientToNodeOffsetX := clientToNodeOffsetX s;
     clientToNodeOffsetY := clientToNodeOffsetY s; xOffset := xOffset s;
     yOffset := yOffset s; canMoveInX := canMoveInX s; canMoveInY := canMoveInY s;
     bodyOriginalUserSelectVal := bodyOriginalUserSelectVal s;
     computedBounds := computedBounds s; nodeRect := nodeRect s; dragEl := v;
     cancelEl := cancelEl s; listening := listening s; tick_resolved := tick_resolved s;
     pending := pending s; page := page s; trace := trace s |}.

Definition set_cancelEl v (s : state) : state :=
  {| the_node := the_node s; settings := settings s; isControlled := isControlled s;
     active := active s; translateX := translateX s; translateY := translateY s;
     initialX := initialX s; initialY := initialY s;
     clientToNodeOffsetX := clientToNodeOffsetX s;
     clientToNodeOffsetY := clientToNodeOffsetY s; xOffset := xOffset s;
     yOffset := yOffset s; canMoveInX := canMoveInX s; canMoveInY := canMoveInY s;
     bodyOriginalUserSelectVal := bodyOriginalUserSelectVal s;
     computedBounds := computedBounds s; nodeRect := nodeRect s; dragEl := dragEl s;
     cancelEl := v; listening := listening s; tick_resolved := tick_resolved s;
     pending := pending s; page := page s; trace := trace s |}.

Definition set_listening v (s : state) : state :=
  {| the_node := the_node s; settings := settings s; isControlled := isControlled s;
     active := active s; translateX := translateX s; translateY := translateY s;
     initialX := initialX s; initialY := initialY s;
     clientToNodeOffsetX := clientToNodeOffsetX s;
     clientToNodeOffsetY := clientToNodeOffsetY s; xOffset := xOffset s;
     yOffset := yOffset s; canMoveInX := canMoveInX s; canMoveInY := canMoveInY s;
     bodyOriginalUserSelectVal := bodyOriginalUserSelectVal s;
     computedBounds := computedBounds s; nodeRect := nodeRect s; dragEl := dragEl s;
     cancelEl := cancelEl s; listening := v; tick_resolved := tick_resolved s;
     pending := pending s; page := page s; trace := trace s |}.

Definition set_tick_resolved v (s : state) : state :=
  {| the_node := the_node s; settings := settings s; isControlled := isControlled s;
     active := active s; translateX := translateX s; translateY := translateY s;
     initialX := initialX s; initialY := initialY s;
     clientToNodeOffsetX := clientToNodeOffsetX s;
     clientToNodeOffsetY := clientToNodeOffsetY s; xOffset := xOffset s;
     yOffset := yOffset s; canMoveInX := canMoveInX s; canMoveInY := canMoveInY s;
     bodyOriginalUserSelectVal := bodyOriginalUserSelectVal s;
     computedBounds := computedBounds s; nodeRect := nodeRect s; dragEl := dragEl s;
     cancelEl := cancelEl s; listening := listening s; tick_resolved := v;
     pending := pending s; page := page s; trace := trace s |}.

Definition set_pending v (s : state) : state :=
  {| the_node := the_node s; settings := settings s; isControlled := isControlled s;
     active := active s; translateX := translateX s; translateY := translateY s;
     initialX := initialX s; initialY := initialY s;
     clientToNodeOffsetX := clientToNodeOffsetX s;
     clientToNodeOffsetY := clientToNodeOffsetY s; xOffset := xOffset s;
     yOffset := yOffset s; canMoveInX := canMoveInX s; canMoveInY := canMoveInY s;
     bodyOriginalUserSelectVal := bodyOriginalUserSelectVal s;
     computedBounds := computedBounds s; nodeRect := nodeRect s; dragEl := dragEl s;
     cancelEl := cancelEl s; listening := listening s; tick_resolved := tick_resolved s;
     pending := v; page := page s; trace := trace s |}.

Definition set_page v (s : state) : state :=
  {| the_node := the_node s; settings := settings s; isControlled := isControlled s;
     active := active s; translateX := translateX s; translateY := translateY s;
     initialX := initialX s; initialY := initialY s;
     clientToNodeOffsetX := clientToNodeOffsetX s;
     clientToNodeOffsetY := clientToNodeOffsetY s; xOffset := xOffset s;
     yOffset := yOffset s; canMoveInX := canMoveInX s; canMoveInY := canMoveInY s;
     bodyOriginalUserSelectVal := bodyOriginalUserSelectVal s;
     computedBounds := computedBounds s; nodeRect := nodeRect s; dragEl := dragEl s;
     cancelEl := cancelEl s; listening := listening s; tick_resolved := tick_resolved s;
     pending := pending s; page := v; trace := trace s |}.

Definition set_trace v (s : state) : state :=
  {| the_node := the_node s; settings := settings s; isControlled := isControlled s;
     active := active s; translateX := translateX s; translateY := translateY s;
     initialX := initialX s; initialY := initialY s;
     clientToNodeOffsetX := clientToNodeOffsetX s;
     clientToNodeOffsetY := clientToNodeOffsetY s; xOffset := xOffset s;
     yOffset := yOffset s; canMoveInX := canMoveInX s; canMoveInY := canMoveInY s;
     bodyOriginalUserSelectVal := bodyOriginalUserSelectVal s;
     computedBounds := computedBounds s; nodeRect := nodeRect s; dragEl := dragEl s;
     cancelEl := cancelEl s; listening := listening s; tick_resolved := tick_resolved s;
     pending := pending s; page := page s; trace := v |}.

Definition log (en : entry) (s : state) : state := set_trace (trace s ++ [en]) s.

(** ** Helpers *)

Definition Math_max (a b : number) : number := if Qle_bool a b then b else a.
Definition Math_min (a b : number) : number := if Qle_bool a b then a else b.

(** [Math.round]: the nearest integer, a half being rounded up. *)
Definition Math_round (v : number) : number := num (Qfloor (v + num 1 / num 2)%Qc).

Definition clamp (val min max : number) : number := Math_min (Math_max val min) max.

Definition isString (v : option ElementsOption) : option string :=
  match v with
  | Some (selector s) => Some s
  | _ => None
  end.

(** [getHandleEl]; the empty selector is falsy.  [querySelectorAll] never
    answers [null], so the [throw] of the source is not reached. *)
Definition getHandleEl (handle : option ElementsOption) (node : node) (d : DOM)
    : completion Elements :=
  match handle with
  | None => Return (one node)
  | Some (element el) => Return (one el)
  | Some (element_list els) => Return (many els)
  | Some (selector s) =>
      if bool_decide (s = "") then Return (one node) else
      match querySelectorAll d node s with
      | Throw err => Throw err
      | Return handleEls => Return (many handleEls)
      end
  end.

Definition getCancelElement (cancel : option ElementsOption) (node : node) (d : DOM)
    : completion (option Elements) :=
  match cancel with
  | None => Return None
  | Some (element el) => Return (Some (one el))
  | Some (element_list els) => Return (Some (many els))
  | Some (selector s) =>
      if bool_decide (s = "") then Return None else
      match querySelectorAll d node s with
      | Throw err => Throw err
      | Return cancelEls => Return (Some (many cancelEls))
      end
  end.

Definition cancelElementContains (cancelElement : option Elements) (element : Elements)
    (d : DOM) : bool :=
  let dragElements := match element with one el => [el] | many els => els end in
  match cancelElement with
  | Some (one c) => existsb (fun el => contains d c el) dragElements
  | Some (many cs) =>
      existsb (fun cancelEl => existsb (fun el => contains d cancelEl el) dragElements) cs
  | None => false
  end.

Definition computeBoundRect (bounds : option DragBounds) (rootNode : node) (d : DOM)
    : completion (option DragBoundsCoords) :=
  match bounds with
  | None => Return None
  | Some (bounds_element el) => Return (Some (edges (getBoundingClientRect d el)))
  | Some (bounds_coords top left right bottom) =>
      let top := default 0 top in
      let left := default 0 left in
      let right := default 0 right in
      let bottom := default 0 bottom in
      let computedRight := innerWidth d - right in
      let computedBottom := innerHeight d - bottom in
      Return (Some {| top := top; right := computedRight; bottom := computedBottom;
                      left := left |})
  | Some (bounds_string s) =>
      if bool_decide (s = "parent") then
        match parentNode d rootNode with
        | Some parent => Return (Some (edges (getBoundingClientRect d parent)))
        | None => Throw TypeError
        end
      else
        match querySelector d s with
        | Throw err => Throw err
        | Return None =>
            Throw "The selector provided for bound doesn't exists in the document."
        | Return (Some node) => Return (Some (edges (getBoundingClientRect d node)))
        end
  end.

Definition setTranslate (xPos yPos : number) (gpuAcceleration : bool) (d : Page) : Page :=
  set_transform (Some (if gpuAcceleration then translate3d xPos yPos
                       else translate xPos yPos)) d.

(** ** The functions of [draggable] *)

(** [callEvent]: the custom event dispatched on the node and the callback
    option, both carrying [getEventData()], whose offsets are [translateX]
    and [translateY]. *)
Definition callEvent (eventName : notification) (s : state) : state :=
  log (Fired eventName (translateX s) (translateY s)) s.

Definition fireSvelteDragStartEvent := callEvent neodrag_start.
Definition fireSvelteDragEndEvent := callEvent neodrag_end.
Definition fireSvelteDragEvent := callEvent neodrag.

(** [calculateInverseScale] with the rectangle [nodeRect] holds; the
    quotient of two zeros is [NaN].  A rendered element has a width other
    than zero: the quotient by a zero width, infinite in JavaScript, is
    outside of what the rationals model. *)
Definition calculateInverseScale (e : PointerEvent) (rect : ClientRect) (s : state) : number :=
  let n := offsetWidth (dom e) (the_node s) in
  if bool_decide (n = 0) && bool_decide (rect_width rect = 0) then 1
  else n / rect_width rect.

(** [tick.then(() => setTranslate(translateX, translateY, node,
    gpuAcceleration))]: the callback reads the variables when it runs. *)
Definition tick_then_setTranslate (s : state) : state := set_pending true s.

Definition contains_target (els : Elements) (e : PointerEvent) : bool :=
  match els with
  | one el => contains (dom e) el (target e)
  | many els => existsb (fun el => contains (dom e) el (target e)) els
  end.

(** The part of [dragStart] that follows [active = true]; [rect] is the
    [nodeRect] just read. *)
Definition start_dragging (e : PointerEvent) (rect : ClientRect) (s : state) : state :=
  let o := settings s in
  let s := set_active true s in
  let s :=
    if applyUserSelectHack o then
      let s := set_bodyOriginalUserSelectVal (body_user_select (page s)) s in
      set_page (set_body_user_select "none" (page s)) s
    else s in
  let s := fireSvelteDragStartEvent s in
  let inverseScale := calculateInverseScale e rect s in
  let s := if canMoveInX s then set_initialX (clientX e - xOffset s / inverseScale) s
           else s in
  let s := if canMoveInY s then set_initialY (clientY e - yOffset s / inverseScale) s
           else s in
  if computedBounds s is Some _ then
    let s := set_clientToNodeOffsetX (clientX e - rect_left rect) s in
    set_clientToNodeOffsetY (clientY e - rect_top rect) s
  else s.

(** [if (recomputeBounds.<hook>) computedBounds = computeBoundRect(bounds, node)]. *)
Definition recompute (when : option bool) (e : PointerEvent) (s : state)
    : completion unit * state :=
  if default false when then
    match computeBoundRect (bounds (settings s)) (the_node s) (dom e) with
    | Throw err => (Throw err, s)
    | Return computed => (Return (), set_computedBounds computed s)
    end
  else (Return (), s).

(** The listener of [pointerdown]. *)
Definition dragStart (e : PointerEvent) (s : state) : completion unit * state :=
  let o := settings s in
  if disabled o then (Return (), s) else
  if ignoreMultitouch o && negb (isPrimary e) then (Return (), s) else
  let s := set_page (classList_add (defaultClass o) (page s)) s in
  match getHandleEl (handle o) (the_node s) (dom e) with
  | Throw err => (Throw err, s)
  | Return handle_el =>
  let s := set_dragEl (Some handle_el) s in
  match getCancelElement (cancel o) (the_node s) (dom e) with
  | Throw err => (Throw err, s)
  | Return cancel_el =>
  let s := set_cancelEl cancel_el s in
  let s := set_canMoveInX (bool_decide (axis o = Draggable.both)
                           || bool_decide (axis o = Draggable.axis_x)) s in
  let s := set_canMoveInY (bool_decide (axis o = Draggable.both)
                           || bool_decide (axis o = Draggable.axis_y)) s in
  match recompute (recompute_dragStart (recomputeBounds o)) e s with
  | (Throw err, s) => (Throw err, s)
  | (Return _, s) =>
  let rect := getBoundingClientRect (dom e) (the_node s) in
  let s := set_nodeRect (Some rect) s in
  if match isString (handle o), isString (cancel o) with
     | Some a, Some b => bool_decide (a = b)
     | _, _ => false
     end
  then (Throw "`handle` selector can't be same as `cancel` selector", s) else
  if cancelElementContains cancel_el handle_el (dom e)
  then (Throw "Element being dragged can't be a child of the element on which `cancel` is applied", s)
  else
  if contains_target handle_el e
     && negb (cancelElementContains cancel_el (one (target e)) (dom e))
  then (Return (), start_dragging e rect s)
  else (Return (), s)
  end
  end
  end.

(** The listener of [pointerup]; the slip of the last assignment, guarded
    by [canMoveInX], is the source's. *)
Definition dragEnd (e : PointerEvent) (s : state) : completion unit * state :=
  let o := settings s in
  if negb (active s) then (Return (), s) else
  match recompute (recompute_dragEnd (recomputeBounds o)) e s with
  | (Throw err, s) => (Throw err, s)
  | (Return _, s) =>
  let s := set_page (classList_remove (defaultClassDragging o) (page s)) s in
  let s := set_page (classList_add (defaultClassDragged o) (page s)) s in
  let s := if applyUserSelectHack o
           then set_page (set_body_user_select (bodyOriginalUserSelectVal s) (page s)) s
           else s in
  let s := fireSvelteDragEndEvent s in
  let s := if canMoveInX s then set_initialX (translateX s) s else s in
  let s := if canMoveInX s then set_initialY (translateY s) s else s in
  (Return (), set_active false s)
  end.

(** The client position [drag] ends with: the pointer position, clamped
    to the virtual client bounds when there are bounds. *)
Definition bounded (e : PointerEvent) (rect : ClientRect) (s : state) : number * number :=
  let finalX := clientX e in
  let finalY := clientY e in
  match computedBounds s with
  | Some computed =>
      let virtualClientBounds :=
        {| left := left computed + clientToNodeOffsetX s;
           top := top computed + clientToNodeOffsetY s;
           right := right computed + clientToNodeOffsetX s - rect_width rect;
           bottom := bottom computed + clientToNodeOffsetY s - rect_height rect |} in
      (clamp finalX (left virtualClientBounds) (right virtualClientBounds),
       clamp finalY (top virtualClientBounds) (bottom virtualClientBounds))
  | None => (finalX, finalY)
  end.

(** The [if (Array.isArray(grid))] block of [drag].  The numbers of [grid]
    are numbers, so the test [isNaN(+xSnap)] fails. *)
Definition snapped (inverseScale : number) (final : number * number) (s : state)
    : completion (number * number) :=
  let '(finalX, finalY) := final in
  match grid (settings s) with
  | Some (xSnap, ySnap) =>
      if negb (Qle_bool 0 xSnap)
      then Throw "1st argument of `grid` must be a valid positive number" else
      if negb (Qle_bool 0 ySnap)
      then Throw "2nd argument of `grid` must be a valid positive number" else
      let deltaX := finalX - initialX s in
      let deltaY := finalY - initialY s in
      let '(deltaX, deltaY) :=
        Legacy.snapToGrid (xSnap / inverseScale, ySnap / inverseScale) deltaX deltaY in
      Return (initialX s + deltaX, initialY s + deltaY)
  | None => Return (finalX, finalY)
  end.

(** The end of [drag]: the new translation is committed, reported and
    queued for rendering. *)
Definition commit (inverseScale : number) (final : number * number) (s : state) : state :=
  let '(finalX, finalY) := final in
  let s := if canMoveInX s
           then set_translateX (Math_round ((finalX - initialX s) * inverseScale)) s
           else s in
  let s := if canMoveInY s
           then set_translateY (Math_round ((finalY - initialY s) * inverseScale)) s
           else s in
  let s := set_xOffset (translateX s) s in
  let s := set_yOffset (translateY s) s in
  let s := fireSvelteDragEvent s in
  tick_then_setTranslate s.

(** The listener of [pointermove]. *)
Definition drag (e : PointerEvent) (s : state) : completion unit * state :=
  let o := settings s in
  if negb (active s) then (Return (), s) else
  match recompute (recompute_drag (recomputeBounds o)) e s with
  | (Throw err, s) => (Throw err, s)
  | (Return _, s) =>
  let s := set_page (classList_add (defaultClassDragging o) (page s)) s in
  let s := set_page (preventDefault (page s)) s in
  let rect := getBoundingClientRect (dom e) (the_node s) in
  let s := set_nodeRect (Some rect) s in
  let inverseScale := calculateInverseScale e rect s in
  match snapped inverseScale (bounded e rect s) s with
  | Throw err => (Throw err, s)
  | Return final => (Return (), commit inverseScale final s)
  end
  end.

Definition DEFAULT_CLASS_MAIN : string := "neodrag".
Definition DEFAULT_CLASS_DRAGGING : string := "neodrag-dragging".
Definition DEFAULT_CLASS_DRAGGED : string := "neodrag-dragged".

(** [update(options)] of the object [draggable] returns. *)
Definition update (options : Options.DragOptions) (s : state) : state :=
  let old := settings s in
  let dragged := classList_contains (defaultClassDragged old) (page s) in
  let s :=
    set_page (classList_remove (defaultClassDragged old)
                (classList_remove (defaultClass old) (page s))) s in
  let o :=
    {| axis := default Draggable.both (Options.axis options);
       disabled := default false (Options.disabled options);
       ignoreMultitouch := default false (Options.ignoreMultitouch options);
       handle := Options.handle options;
       bounds := Options.bounds options;
       recomputeBounds := default DEFAULT_RECOMPUTE_BOUNDS (Options.recomputeBounds options);
       cancel := Options.cancel options;
       applyUserSelectHack := default true (Options.applyUserSelectHack options);
       grid := Options.grid options;
       gpuAcceleration := default true (Options.gpuAcceleration options);
       defaultClass := default DEFAULT_CLASS_MAIN (Options.defaultClass options);
       defaultClassDragging :=
         default DEFAULT_CLASS_DRAGGING (Options.defaultClassDragging options);
       defaultClassDragged :=
         default DEFAULT_CLASS_DRAGGED (Options.defaultClassDragged options) |} in
  let s := set_settings o s in
  let s := set_page (classList_add (defaultClass o) (page s)) s in
  let s := if dragged then set_page (classList_add (defaultClassDragged o) (page s)) s
           else s in
  if isControlled s then
    let s := set_translateX (default (translateX s) (x <$> Options.position options)) s in
    let s := set_xOffset (translateX s) s in
    let s := set_translateY (default (translateY s) (y <$> Options.position options)) s in
    let s := set_yOffset (translateY s) s in
    tick_then_setTranslate s
  else s.

(** [destroy()]: the three listeners are removed. *)
Definition destroy (s : state) : state := set_listening false s.

(** The state [draggable(node, options)] leaves; [d] is the page before
    the call.  [{ ...DEFAULT_RECOMPUTE_BOUNDS, ...recomputeBounds }] takes
    the fields the option has. *)
Definition draggable (node : node) (options : Options.DragOptions) (d : Page) : state :=
  let given := default DEFAULT_RECOMPUTE_BOUNDS (Options.recomputeBounds options) in
  let o :=
    {| bounds := Options.bounds options;
       axis := default Draggable.both (Options.axis options);
       gpuAcceleration := default true (Options.gpuAcceleration options);
       applyUserSelectHack := default true (Options.applyUserSelectHack options);
       disabled := default false (Options.disabled options);
       ignoreMultitouch := default false (Options.ignoreMultitouch options);
       recomputeBounds :=
         {| recompute_dragStart :=
              match recompute_dragStart given with
              | Some b => Some b
              | None => recompute_dragStart DEFAULT_RECOMPUTE_BOUNDS
              end;
            recompute_drag := recompute_drag given;
            recompute_dragEnd := recompute_dragEnd given |};
       grid := Options.grid options;
       cancel := Options.cancel options;
       handle := Options.handle options;
       defaultClass := default DEFAULT_CLASS_MAIN (Options.defaultClass options);
       defaultClassDragging :=
         default DEFAULT_CLASS_DRAGGING (Options.defaultClassDragging options);
       defaultClassDragged :=
         default DEFAULT_CLASS_DRAGGED (Options.defaultClassDragged options) |} in
  let start :=
    match Options.position options with
    | Some position => position
    | None => default {| x := 0; y := 0 |} (Options.defaultPosition options)
    end in
  {| the_node := node;
     settings := o;
     isControlled := bool_decide (is_Some (Options.position options));
     active := false;
     translateX := 0; translateY := 0;
     initialX := 0; initialY := 0;
     clientToNodeOffsetX := 0; clientToNodeOffsetY := 0;
     xOffset := x start; yOffset := y start;
     canMoveInX := false; canMoveInY := false;
     bodyOriginalUserSelectVal := "";
     computedBounds := None;
     nodeRect := None;
     dragEl := None;
     cancelEl := None;
     listening := true;
     tick_resolved := false;
     pending := false;
     page := set_touch_action (Some "none")
               (setTranslate (x start) (y start)
                  (default true (Options.gpuAcceleration options)) d);
     trace := [] |}.

(** An exception that leaves a listener reaches the event loop. *)
Definition listener (r : completion unit * state) : state :=
  match r with
  | (Return _, s) => s
  | (Throw err, s) => log (Uncaught err) s
  end.

(** The callbacks that wait on [tick] run once it is resolved, after the
    code that is running. *)
Definition settle (s : state) : state :=
  if tick_resolved s && pending s
  then set_pending false
         (set_page (setTranslate (translateX s) (translateY s)
                      (gpuAcceleration (settings s)) (page s)) s)
  else s.

(** What can happen: the three pointer events of the window, the calls of
    [update] and [destroy], and the first animation frame, which resolves
    [tick]. *)
Inductive event :=
| PointerDown (e : PointerEvent)
| PointerMove (e : PointerEvent)
| PointerUp (e : PointerEvent)
| Update (options : Options.DragOptions)
| Destroy
| AnimationFrame.

Definition step (s : state) (ev : event) : state :=
  settle
    match ev with
    | PointerDown e => if listening s then listener (dragStart e s) else s
    | PointerMove e => if listening s then listener (drag e s) else s
    | PointerUp e => if listening s then listener (dragEnd e s) else s
    | Update options => update options s
    | Destroy => destroy s
    | AnimationFrame => set_tick_resolved true s
    end.

Definition run (s : state) (evs : list event) : state := foldl step s evs.

End LegacyEngine.
(** * Concrete plugins, events and runs *)

Module Sample.

Definition rect50 : DOMRect := {| width := num 50; height := num 50 |}.

(** A primary-button pointer event at [(px, py)] over node [7]. *)
Definition at_ (px py : Z) : PointerEvent :=
  {| button := 0; clientX := num px; clientY := num py; pointerId := 1;
     contains_target := fun _ => true;
     composedPath := [(7%nat, HTMLElement)];
     Date_now := 0;
     getBoundingClientRect := fun _ => rect50;
     offsetWidth := fun _ => num 50;
     getBBox_width := fun _ => num 50;
     setPointerCapture_throws := None |}.

(** The single-instance engine with its default options, then pressed at
    the origin and moved to [(100, 100)]. *)
Definition single_idle : Draggable.state :=
  (Draggable.draggable 7%nat {| Draggable.plugins := None; Draggable.threshold := None |}
     rect50 initial_document).2.

Definition single_dragging : Draggable.state :=
  Draggable.run single_idle
    [Draggable.PointerDown (at_ 0 0); Draggable.PointerMove (at_ 100 100)].

(** A hook of the single-instance engine that makes the calls [cs] on the
    context and completes with [r]. *)
Definition single_hook (cs : list Draggable.ctx_call) (r : completion bool)
    : Draggable.handler :=
  fun _ st _ d =>
    {| Draggable.calls := cs; Draggable.state_after := st;
       Draggable.document_after := d; Draggable.returns := r |}.

(** A plugin of the single-instance engine with a [setup] that returns
    nothing, no [shouldDrag] and the given other hooks. *)
Definition single_plugin (id : nat) (nm : string) (prio : option number)
    (on_dragStart on_drag on_dragEnd : Draggable.handler) : Draggable.Plugin :=
  {| Draggable.ident := id;
     Draggable.name := nm;
     Draggable.priority := prio;
     Draggable.setup := Some (fun _ d =>
       {| Draggable.setup_calls := []; Draggable.setup_document := d;
          Draggable.setup_returns := Return None |});
     Draggable.shouldDrag := None;
     Draggable.dragStart := Some on_dragStart;
     Draggable.drag := Some on_drag;
     Draggable.dragEnd := Some on_dragEnd;
     Draggable.cleanup := None |}.

(** A plugin of the single-instance engine whose hooks return normally. *)
Definition onlooker (id : nat) (nm : string) (prio : option number) : Draggable.Plugin :=
  single_plugin id nm prio (single_hook [] (Return true)) (single_hook [] (Return true))
    (single_hook [] (Return true)).




(** The single-instance engine with the user plugins [ps]. *)
Definition single_with (ps : list Draggable.Plugin) : Draggable.state :=
  (Draggable.draggable 7%nat {| Draggable.plugins := Some ps; Draggable.threshold := None |}
     rect50 initial_document).2.

(** A press at the origin and a move to [(100, 100)]. *)
Definition press_and_move : list Draggable.event :=
  [Draggable.PointerDown (at_ 0 0); Draggable.PointerMove (at_ 100 100)].


(** A hook of the delegated engine that makes the calls [cs] on the context
    and completes with [r]. *)
Definition hook_doing (cs : list CreateDraggable.ctx_call) (r : completion bool)
    : CreateDraggable.handler :=
  fun _ st _ d =>
    {| CreateDraggable.calls := cs; CreateDraggable.state_after := st;
       CreateDraggable.document_after := d; CreateDraggable.returns := r |}.

(** An effect closure that leaves everything as it is. *)
Definition noop (c : nat * nat) : CreateDraggable.Effect :=
  {| CreateDraggable.closure := c;
     CreateDraggable.body := fun _ st d =>
       {| CreateDraggable.effect_state := st; CreateDraggable.effect_document := d;
          CreateDraggable.effect_completes := Return () |} |}.

(** A plugin of the delegated engine with a [setup] that returns nothing
    and the given hooks. *)
Definition delegated_plugin (id : nat) (nm : string) (prio : option number)
    (cancelable : option bool)
    (on_shouldDrag on_dragStart on_drag on_dragEnd : option CreateDraggable.handler)
    : CreateDraggable.Plugin :=
  {| CreateDraggable.ident := id;
     CreateDraggable.name := nm;
     CreateDraggable.priority := prio;
     CreateDraggable.liveUpdate := None;
     CreateDraggable.cancelable := cancelable;
     CreateDraggable.setup := Some (fun _ d =>
       {| CreateDraggable.setup_calls := []; CreateDraggable.setup_document := d;
          CreateDraggable.setup_returns := Return None |});
     CreateDraggable.shouldDrag := on_shouldDrag;
     CreateDraggable.dragStart := on_dragStart;
     CreateDraggable.drag := on_drag;
     CreateDraggable.dragEnd := on_dragEnd;
     CreateDraggable.cleanup := None |}.

(** A plugin that only watches: each of its hooks returns normally, the
    [drag] hook after queueing one effect. *)
Definition watcher (id : nat) (nm : string) (prio : option number) : CreateDraggable.Plugin :=
  delegated_plugin id nm prio None None
    (Some (hook_doing [] (Return true)))
    (Some (hook_doing [CreateDraggable.effect (noop (id, 0%nat))] (Return true)))
    (Some (hook_doing [] (Return true))).





(** A plugin whose [drag] hook calls [ctx.cancel()]. *)
Definition canceller (id : nat) (nm : string) (prio : option number) : CreateDraggable.Plugin :=
  delegated_plugin id nm prio None None None
    (Some (hook_doing [CreateDraggable.cancel] (Return true))) None.

(** A plugin marked [cancelable: false]. *)
Definition essential (id : nat) (nm : string) (prio : option number) : CreateDraggable.Plugin :=
  delegated_plugin id nm prio (Some false) None
    (Some (hook_doing [] (Return true)))
    (Some (hook_doing [] (Return true)))
    (Some (hook_doing [] (Return true))).

(** A delegated manager with one instance on node [7], then pressed at the
    origin and moved to [(100, 100)]. *)
Definition delegated_idle : CreateDraggable.manager :=
  CreateDraggable.run (CreateDraggable.createDraggable [] true initial_document)
    [CreateDraggable.Attach 7%nat [watcher 1 "watcher" None] rect50].

Definition delegated_pressed : CreateDraggable.manager :=
  CreateDraggable.run delegated_idle [CreateDraggable.PointerDown (at_ 0 0)].

Definition delegated_dragging : CreateDraggable.manager :=
  CreateDraggable.run delegated_pressed [CreateDraggable.PointerMove (at_ 100 100)].

(** A delegated manager with one instance on node [7] made with the
    plugins [ps]. *)
Definition delegated_with (ps : list CreateDraggable.Plugin) : CreateDraggable.manager :=
  CreateDraggable.run (CreateDraggable.createDraggable [] true initial_document)
    [CreateDraggable.Attach 7%nat ps rect50].



(** An instance with a cancelling plugin, pressed and moved once: the
    [drag] chain that precedes [dragStart] has raised the flag. *)
Definition delegated_cancelled : CreateDraggable.manager :=
  CreateDraggable.run (CreateDraggable.createDraggable [] true initial_document)
    [CreateDraggable.Attach 7%nat
       [canceller 2 "canceller" None; essential 3 "essential" None;
        watcher 1 "watcher" None] rect50;
     CreateDraggable.PointerDown (at_ 0 0);
     CreateDraggable.PointerMove (at_ 100 100)].

(** The instance registered for [n]; an instance of an empty manager stands
    for a missing one. *)
Definition instance_of (n : node) (m : CreateDraggable.manager)
    : CreateDraggable.DraggableInstance :=
  default
    {| CreateDraggable.ctx :=
         {| CreateDraggable.proposed := {| nx := None; ny := None |};
            CreateDraggable.delta := {| x := 0; y := 0 |};
            CreateDraggable.offset := {| x := 0; y := 0 |};
            CreateDraggable.initial := {| x := 0; y := 0 |};
            CreateDraggable.isDragging := false;
            CreateDraggable.isInteracting := false;
            CreateDraggable.rootNode := n;
            CreateDraggable.cachedRootNodeRect := rect50;
            CreateDraggable.lastEvent := None;
            CreateDraggable.currentlyDraggedNode := n |};
       CreateDraggable.root_node := n;
       CreateDraggable.plugins := [];
       CreateDraggable.states := ∅;
       CreateDraggable.dragstart_prevented := false;
       CreateDraggable.current_drag_hook_cancelled := false;
       CreateDraggable.pointer_captured_id := None;
       CreateDraggable.effects := [] |}
    (CreateDraggable.instances m !! n).

End Sample.


(** * Single-instance engine: further notions *)

Module SingleSpec.
Import Draggable.

(** A drag is in progress only while an interaction is. *)
Definition dragging_interacts (s : state) : Prop :=
  is_dragging s = true -> is_interacting s = true.


(** The engine runs the four default plugins and nothing else; [ps] is the
    [active_pointers] set of [ignoreMultitouch], [saved] the
    [body_user_select_val] of [applyUserSelectHack], as their [setup] made
    them and their handlers updated them. *)
Definition default_engine (s : state) (ps : gset Z) (saved : string) : Prop :=
  ordered_plugins s = default_plugins
  /\ private_states s !! "neodrag:ignoreMultitouch" = Some (ActivePointers ps)
  /\ private_states s !! "neodrag:applyUserSelectHack" = Some (BodyUserSelect saved)
  /\ current_drag_hook_cancelled s = false
  /\ effects_to_run s = [].

(** What a handler that returns normally, makes the calls [cs], leaves its
    state object and the document as they are does to the engine. *)
Definition after_calls (plugin : Plugin) (h : hook) (cs : list ctx_call) (st : option any)
    (d : document) (s : state) : state :=
  set_doc d
    (set_private_states (store_state (name plugin) st (private_states s))
       (foldl (ctx_apply (name plugin)) (log (Called (ident plugin) (name plugin) h) s) cs)).

(** What an effect closure that returns normally, leaves the owner's state
    object as [st] and the document as [d], does to the engine. *)
Definition after_effect (owner : string) (func : Effect) (st : option any) (d : document)
    (s : state) : state :=
  set_doc d (set_private_states (store_state owner st (private_states s))
               (log (Ran (closure func)) s)).

(** The document the three closures of [dragStart] leave. *)
Definition started_document (pressed : bool) (d : document) : document :=
  set_body_user_select "none"
    (classList_add "neodrag-dragging" (if pressed then event_preventDefault d else d)).

(** No exception has reached the event loop. *)
Definition no_uncaught (t : list entry) : Prop :=
  Forall (fun en => forall err, en <> Uncaught err) t.

(** The history has grown, and by no uncaught exception. *)
Definition extends_quietly (s s' : state) : Prop :=
  exists t, trace s' = trace s ++ t /\ no_uncaught t.

(** What a started drag has done, seen from the state [s] before it. *)
Definition begun (e : PointerEvent) (ps : gset Z) (s s' : state) : Prop :=
  default_engine s' ({[pointerId e]} ∪ ps) (body_user_select (doc s))
  /\ doc s' = started_document (bool_decide (1 < size ({[pointerId e]} ∪ ps))%nat) (doc s)
  /\ is_dragging s' = true /\ is_interacting s' = true.

(** What a threshold check that starts nothing leaves as it is. *)
Definition kept (ps : gset Z) (saved : string) (s s' : state) : Prop :=
  default_engine s' ps saved /\ doc s' = doc s
  /\ is_dragging s' = is_dragging s /\ is_interacting s' = is_interacting s.

(** The threshold object has no [distance], so that the distance threshold
    is not met and no drag is in progress. *)
Definition no_distance (s : state) : Prop :=
  distance (the_threshold s) = None
  /\ meets_distance_threshold s = false /\ is_dragging s = false.



(** The same without the bound on the active pointers. *)
Definition default_engine_run (s : state) : Prop :=
  (exists ps saved, default_engine s ps saved) /\ no_uncaught (trace s).

End SingleSpec.

(** * Further concrete events and runs *)

Module Gestures.
Import Sample.

(** The same pointer event, of another pointer. *)
Definition with_pointer (pid : Z) (e : PointerEvent) : PointerEvent :=
  {| button := button e; clientX := clientX e; clientY := clientY e; pointerId := pid;
     contains_target := contains_target e;
     composedPath := composedPath e;
     Date_now := Date_now e;
     getBoundingClientRect := getBoundingClientRect e;
     offsetWidth := offsetWidth e;
     getBBox_width := getBBox_width e;
     setPointerCapture_throws := setPointerCapture_throws e |}.

Definition default_options : Draggable.BaseDragOptions :=
  {| Draggable.plugins := None; Draggable.threshold := None |}.

(** Pointer 1 starts a drag, pointer 2 lifts, pointer 3 presses and moves:
    pointer 1 is still counted as active. *)
Definition stale_pointer : Draggable.state :=
  Draggable.run single_idle
    [Draggable.PointerDown (at_ 0 0); Draggable.PointerMove (at_ 100 100);
     Draggable.PointerUp (with_pointer 2 (at_ 100 100));
     Draggable.PointerDown (with_pointer 3 (at_ 0 0));
     Draggable.PointerMove (with_pointer 3 (at_ 50 50))].

(** Options whose threshold object has a [delay] and no [distance]. *)
Definition delay_only : Draggable.BaseDragOptions :=
  {| Draggable.plugins := None;
     Draggable.threshold :=
       Some {| Draggable.delay := Some 0; Draggable.distance := None |} |}.

(** Options that add the [disabled] plugin. *)
Definition switched_off : Draggable.BaseDragOptions :=
  {| Draggable.plugins := Some [Draggable.disabled 4];
     Draggable.threshold := None |}.

(** The same pointer event when [setPointerCapture] throws. *)
Definition uncapturable (e : PointerEvent) : PointerEvent :=
  {| button := button e; clientX := clientX e; clientY := clientY e;
     pointerId := pointerId e;
     contains_target := contains_target e;
     composedPath := composedPath e;
     Date_now := Date_now e;
     getBoundingClientRect := getBoundingClientRect e;
     offsetWidth := offsetWidth e;
     getBBox_width := getBBox_width e;
     setPointerCapture_throws := Some "InvalidStateError" |}.

(** A pointer event over node [8] inside node [7]. *)
Definition nested (e : PointerEvent) : PointerEvent :=
  {| button := button e; clientX := clientX e; clientY := clientY e;
     pointerId := pointerId e;
     contains_target := contains_target e;
     composedPath := [(8%nat, HTMLElement); (7%nat, HTMLElement)];
     Date_now := Date_now e;
     getBoundingClientRect := getBoundingClientRect e;
     offsetWidth := offsetWidth e;
     getBBox_width := getBBox_width e;
     setPointerCapture_throws := setPointerCapture_throws e |}.

(** A delegated manager with instances on node [7] and on node [8]. *)
Definition two_instances : CreateDraggable.manager :=
  CreateDraggable.run delegated_idle
    [CreateDraggable.Attach 8%nat [watcher 2 "inner" None] rect50].

(** A delegated manager with one instance, on node [7], without plugins. *)
Definition bare_instance : CreateDraggable.manager := delegated_with [].

(** A plugin whose [cleanup] throws. *)
Definition leaky (id : nat) (nm : string) : CreateDraggable.Plugin :=
  {| CreateDraggable.ident := id;
     CreateDraggable.name := nm;
     CreateDraggable.priority := None;
     CreateDraggable.liveUpdate := None;
     CreateDraggable.cancelable := None;
     CreateDraggable.setup := None;
     CreateDraggable.shouldDrag := None;
     CreateDraggable.dragStart := None;
     CreateDraggable.drag := None;
     CreateDraggable.dragEnd := None;
     CreateDraggable.cleanup := Some (fun _ st d =>
       {| CreateDraggable.calls := []; CreateDraggable.state_after := st;
          CreateDraggable.document_after := d;
          CreateDraggable.returns := Throw "boom" |}) |}.

End Gestures.

(** * One plugin per name *)

Module PluginSpec.

(** The loop that both engines use to keep one plugin per name: [test p
    existing] decides whether [p] replaces the plugin already kept under
    its name. *)
Definition dedupe {V} (name : V -> string) (test : V -> V -> bool) (all : list V)
    : list (string * V) :=
  foldl (fun pm p =>
           match map_get pm (name p) with
           | None => map_set pm (name p) p
           | Some existing => if test p existing then map_set pm (name p) p else pm
           end) [] all.

(** [v] is kept for its name among [all]: it stands at some place of
    [all], the same-named elements before it are [Rb]-below it and those
    after it [Ra]-below it. *)
Definition kept_at {V} (name : V -> string) (Rb Ra : V -> V -> Prop) (all : list V) (v : V)
    : Prop :=
  exists l1 l2,
    all = l1 ++ v :: l2
    /\ (forall q, q ∈ l1 -> name q = name v -> Rb q v)
    /\ (forall q, q ∈ l2 -> name q = name v -> Ra q v).

(** What the loop keeps true of the plugins [all] it has gone through and
    of its map [pm]. *)
Definition dedupe_invariant {V} (name : V -> string) (Rb Ra : V -> V -> Prop)
    (all : list V) (pm : list (string * V)) : Prop :=
  NoDup pm.*1
  /\ (forall k v, (k, v) ∈ pm -> name v = k /\ kept_at name Rb Ra all v)
  /\ (forall p, p ∈ all -> name p ∈ pm.*1).

End PluginSpec.

(** * Delegated engine: further notions *)

Module DelegatedSpec.
Import CreateDraggable.

(** An element a pointer-down can start an interaction on. *)
Definition eligible (m : manager) (el : node * element_kind) : Prop :=
  (is_HTMLElement el.2 || (is_svg_element el.2 && negb (is_svg_svg_element el.2))) = true
  /\ is_Some (instances m !! el.1).

(** The element a pointer event works on. *)
Definition target_of (ev : event) (m : manager) : option node :=
  match ev with
  | PointerDown e => fst <$> find_draggable_node e m
  | PointerMove _ | PointerUp _ => active_node m
  | Attach n _ _ | Update n | Destroy n => Some n
  end.

(** The instance is dragging only while it is interacting. *)
Definition sound (i : DraggableInstance) : Prop :=
  isDragging (ctx i) = true -> isInteracting (ctx i) = true.

(** Every registered instance is [sound]. *)
Definition coherent (m : manager) : Prop :=
  forall n i, instances m !! n = Some i -> sound i.

(** One of the three delegated pointer events. *)
Definition is_pointer_event (ev : event) : bool :=
  match ev with
  | PointerDown _ | PointerMove _ | PointerUp _ => true
  | _ => false
  end.

End DelegatedSpec.
(** * Vocabulary for the option-driven engine *)

Module LegacySpec.
Import LegacyEngine.

(** An event other than a call of [update]. *)
Definition not_update (ev : event) : Prop :=
  match ev with Update _ => False | _ => True end.


(** What only [update] assigns, [destroy] and the first frame apart. *)
Definition constants (s : state) := (the_node s, settings s, isControlled s).

(** The translation and what [drag] derives from it. *)
Definition position (s : state) := (translateX s, translateY s, xOffset s, yOffset s).

(** What [dragStart] has done when it gets to its test of the target, or
    leaves before. *)
Definition prepares (s s0 : state) : Prop :=
  constants s0 = constants s /\ position s0 = position s
  /\ active s0 = active s
  /\ initialX s0 = initialX s /\ initialY s0 = initialY s
  /\ listening s0 = listening s /\ tick_resolved s0 = tick_resolved s
  /\ pending s0 = pending s /\ trace s0 = trace s
  /\ page s0 = classList_add (defaultClass (settings s)) (page s)
  /\ bodyOriginalUserSelectVal s0 = bodyOriginalUserSelectVal s
  /\ clientToNodeOffsetX s0 = clientToNodeOffsetX s
  /\ clientToNodeOffsetY s0 = clientToNodeOffsetY s
  /\ (default false (recompute_dragStart (recomputeBounds (settings s))) = false ->
      computedBounds s0 = computedBounds s)
  /\ (bounds (settings s) = None -> computedBounds s = None -> computedBounds s0 = None).

(** The flags [dragStart] derives from [axis]. *)
Definition axis_flags (s s0 : state) : Prop :=
  canMoveInX s0 = bool_decide (axis (settings s) = Draggable.both)
                  || bool_decide (axis (settings s) = Draggable.axis_x)
  /\ canMoveInY s0 = bool_decide (axis (settings s) = Draggable.both)
                     || bool_decide (axis (settings s) = Draggable.axis_y).

(** What [drag] leaves as it is up to its commit. *)
Definition moving (s s3 : state) : Prop :=
  constants s3 = constants s /\ position s3 = position s
  /\ active s3 = active s
  /\ initialX s3 = initialX s /\ initialY s3 = initialY s
  /\ canMoveInX s3 = canMoveInX s /\ canMoveInY s3 = canMoveInY s
  /\ listening s3 = listening s /\ tick_resolved s3 = tick_resolved s
  /\ pending s3 = pending s /\ trace s3 = trace s
  /\ bodyOriginalUserSelectVal s3 = bodyOriginalUserSelectVal s
  /\ clientToNodeOffsetX s3 = clientToNodeOffsetX s
  /\ clientToNodeOffsetY s3 = clientToNodeOffsetY s
  /\ body_user_select (page s3) = body_user_select (page s)
  /\ transform (page s3) = transform (page s)
  /\ (default false (recompute_drag (recomputeBounds (settings s))) = false ->
      computedBounds s3 = computedBounds s)
  /\ (bounds (settings s) = None -> computedBounds s = None -> computedBounds s3 = None).

(** What [setTranslate(translateX, translateY, node, gpuAcceleration)]
    writes when it runs in the state [s]. *)
Definition rendering (s : state) : Transform :=
  if gpuAcceleration (settings s) then translate3d (translateX s) (translateY s)
  else translate (translateX s) (translateY s).

(** A trace that is [t], or [t] and one uncaught exception. *)
Definition silent (t t' : list entry) : Prop :=
  t' = t \/ exists err, t' = t ++ [Uncaught err].

(** What no listener assigns. *)
Definition clock (s : state) := (listening s, tick_resolved s).

(** The variables a drag in progress works with. *)
Definition anchor (s : state) :=
  (initialX s, initialY s, clientToNodeOffsetX s, clientToNodeOffsetY s,
   bodyOriginalUserSelectVal s).

(** An event other than the first animation frame. *)
Definition no_frame (ev : event) : Prop :=
  match ev with AnimationFrame => False | _ => True end.

(** A pointer move, or the first animation frame. *)
Definition is_move (ev : event) : Prop :=
  match ev with PointerMove _ | AnimationFrame => True | _ => False end.

(** The offsets an entry of the history reports satisfy [P]. *)
Definition reports (P : number -> number -> Prop) (en : entry) : Prop :=
  match en with Fired _ offsetX offsetY => P offsetX offsetY | _ => True end.

(** The press [e] in the state [s] fires [neodrag:start]. *)
Definition starts (s : state) (e : PointerEvent) : Prop :=
  exists offsetX offsetY,
    trace (step s (PointerDown e)) = trace s ++ [Fired neodrag_start offsetX offsetY].

End LegacySpec.

(** * Concrete pages, events and options for the option-driven engine *)

Module LegacySample.
Import LegacyEngine.

(** An element 100 pixels wide and high whose corner is at [(10, 10)]. *)
Definition box : ClientRect :=
  {| rect_left := num 10; rect_top := num 10; rect_right := num 110;
     rect_bottom := num 110; rect_width := num 100; rect_height := num 100 |}.

(** A window of 1000 by 800 pixels whose elements are rendered at scale 1
    and have no parent; every element contains every target and no
    selector matches. *)
Definition window : DOM :=
  {| contains := fun _ _ => true;
     querySelectorAll := fun _ _ => Return [];
     querySelector := fun _ => Return None;
     parentNode := fun _ => None;
     getBoundingClientRect := fun _ => box;
     offsetWidth := fun _ => num 100;
     innerWidth := num 1000;
     innerHeight := num 800 |}.

(** A primary pointer event at [(px, py)] over node [7]. *)
Definition pointer (px py : Z) : PointerEvent :=
  {| isPrimary := true; clientX := num px; clientY := num py; target := 7%nat;
     dom := window |}.

(** A page whose body has [user-select: text]. *)
Definition blank : Page :=
  {| class_list := []; body_user_select := "text"; transform := None;
     touch_action := None; defaults_prevented := 0 |}.

(** [{}]. *)
Definition no_options : Options.DragOptions :=
  {| Options.bounds := None; Options.recomputeBounds := None; Options.axis := None;
     Options.gpuAcceleration := None; Options.applyUserSelectHack := None;
     Options.ignoreMultitouch := None; Options.disabled := None; Options.grid := None;
     Options.position := None; Options.cancel := None; Options.handle := None;
     Options.defaultClass := None; Options.defaultClassDragging := None;
     Options.defaultClassDragged := None; Options.defaultPosition := None |}.

(** [{ disabled: true }]. *)
Definition switched_off : Options.DragOptions :=
  {| Options.bounds := None; Options.recomputeBounds := None; Options.axis := None;
     Options.gpuAcceleration := None; Options.applyUserSelectHack := None;
     Options.ignoreMultitouch := None; Options.disabled := Some true;
     Options.grid := None;
     Options.position := None; Options.cancel := None; Options.handle := None;
     Options.defaultClass := None; Options.defaultClassDragging := None;
     Options.defaultClassDragged := None; Options.defaultPosition := None |}.

(** [{ axis: 'x', defaultPosition: { x: 0, y: 50 } }]. *)
Definition horizontal : Options.DragOptions :=
  {| Options.bounds := None; Options.recomputeBounds := None;
     Options.axis := Some Draggable.axis_x;
     Options.gpuAcceleration := None; Options.applyUserSelectHack := None;
     Options.ignoreMultitouch := None; Options.disabled := None; Options.grid := None;
     Options.position := None; Options.cancel := None; Options.handle := None;
     Options.defaultClass := None; Options.defaultClassDragging := None;
     Options.defaultClassDragged := None;
     Options.defaultPosition := Some {| x := 0; y := num 50 |} |}.


(** [{ bounds: ..., recomputeBounds: { drag: true } }]. *)
Definition refenced : Options.DragOptions :=
  {| Options.bounds := Some (bounds_coords (Some 0) (Some 0) (Some 0) (Some 0));
     Options.recomputeBounds :=
       Some {| recompute_dragStart := None; recompute_drag := Some true;
               recompute_dragEnd := None |};
     Options.axis := None;
     Options.gpuAcceleration := None; Options.applyUserSelectHack := None;
     Options.ignoreMultitouch := None; Options.disabled := None; Options.grid := None;
     Options.position := None; Options.cancel := None; Options.handle := None;
     Options.defaultClass := None; Options.defaultClassDragging := None;
     Options.defaultClassDragged := None; Options.defaultPosition := None |}.


(** The instance [draggable(node, options)] makes on the blank page. *)
Definition instance (options : Options.DragOptions) : state :=
  draggable 7%nat options blank.

End LegacySample.

(** * Facts about the model of [Array.prototype.sort] *)

Module SortFacts.

Section Comparator.
Context {A : Type} (compare : A -> A -> number) (R : A -> A -> Prop).
Hypothesis compare_test : forall a b, compare a b ≤ 0 <-> R a b.
Hypothesis R_total : forall a b, R a b \/ R b a.
Hypothesis R_trans : forall a b c, R a b -> R b c -> R a c.

Lemma insert_sorted_elem x a l : x ∈ insert_sorted compare a l <-> x = a \/ x ∈ l.
Proof.
  induction l as [|b l IH]; simpl.
  - rewrite list_elem_of_singleton, elem_of_nil. tauto.
  - destruct (Qle_bool (compare a b) 0).
    + by rewrite elem_of_cons.
    + rewrite !elem_of_cons, IH. tauto.
Qed.

Lemma insert_sorted_sorted a l :
  StronglySorted R l -> StronglySorted R (insert_sorted compare a l).
Proof.
  induction 1 as [|b l Hl IH Hb]; simpl.
  - repeat constructor.
  - destruct (Qle_bool (compare a b) 0) eqn:Hab.
    + apply Qle_bool_iff, compare_test in Hab. constructor; [by constructor|].
      constructor; [done|].
      eapply list.Forall_impl; [exact Hb|]. intros c Hc. by eapply R_trans.
    + constructor; [done|]. apply list.Forall_forall. intros c Hc.
      apply insert_sorted_elem in Hc as [->|Hc].
      * destruct (R_total a b) as [Hle|Hle]; [|done].
        apply compare_test in Hle. apply (proj2 (Qle_bool_iff _ _)) in Hle.
        change (Qle_bool (compare a b) 0%Q = true) in Hle. congruence.
      * exact (proj1 (list.Forall_forall _ _) Hb c Hc).
Qed.

Lemma sort_sorted l : StronglySorted R (sort compare l).
Proof.
  induction l as [|a l IH]; simpl; [constructor|]. by apply insert_sorted_sorted.
Qed.

End Comparator.

Lemma insert_sorted_perm {A} (compare : A -> A -> number) a l :
  insert_sorted compare a l ≡ₚ a :: l.
Proof.
  induction l as [|b l IH]; simpl; [done|].
  destruct (Qle_bool (compare a b) 0); [done|]. rewrite IH. apply Permutation_swap.
Qed.

Lemma sort_perm {A} (compare : A -> A -> number) l : sort compare l ≡ₚ l.
Proof.
  induction l as [|a l IH]; simpl; [done|]. by rewrite insert_sorted_perm, IH.
Qed.

Lemma minus_nonpos (a b : number) : a - b ≤ 0 <-> a ≤ b.
Proof.
  split; intros H.
  - apply Qcle_minus_iff. replace (b + - a) with (- (a - b)) by ring.
    apply (Qcopp_le_compat (a - b) 0) in H. exact H.
  - apply Qcle_minus_iff in H. replace (a - b) with (- (b + - a)) by ring.
    apply (Qcopp_le_compat 0 (b + - a)) in H. exact H.
Qed.

(** The chain of the delegated engine: highest priority first. *)
Lemma initialize_plugins_descending new_plugins m :
  StronglySorted
    (fun a b => CreateDraggable.priority_or_zero b ≤ CreateDraggable.priority_or_zero a)
    (CreateDraggable.initialize_plugins new_plugins m).
Proof.
  unfold CreateDraggable.initialize_plugins.
  apply sort_sorted.
  - intros a b. apply minus_nonpos.
  - intros a b. destruct (Qclt_le_dec (CreateDraggable.priority_or_zero a) (CreateDraggable.priority_or_zero b)) as [H|H]; [right; by apply Qclt_le_weak|by left].
  - intros a b c H1 H2. by eapply Qcle_trans.
Qed.

(** The chain of the single-instance engine: lowest priority first. *)
Lemma order_plugins_ascending all :
  StronglySorted
    (fun a b => Draggable.priority_or_zero a ≤ Draggable.priority_or_zero b)
    (Draggable.order_plugins all).
Proof.
  unfold Draggable.order_plugins.
  apply sort_sorted.
  - intros a b. apply minus_nonpos.
  - intros a b. destruct (Qclt_le_dec (Draggable.priority_or_zero b) (Draggable.priority_or_zero a)) as [H|H]; [right; by apply Qclt_le_weak|by left].
  - intros a b c H1 H2. by eapply Qcle_trans.
Qed.

End SortFacts.

(** * Facts about the single-instance engine *)

Module SingleInstance.
Import Draggable.

Lemma ctx_apply_engine_vars owner s c : engine_vars (ctx_apply owner s c) = engine_vars s.
Proof. by destruct c. Qed.

Lemma ctx_calls_engine_vars owner cs s :
  engine_vars (foldl (ctx_apply owner) s cs) = engine_vars s.
Proof.
  revert s. induction cs as [|c cs IH]; intros s; simpl; [done|].
  by rewrite IH, ctx_apply_engine_vars.
Qed.

Lemma ctx_apply_trace owner s c : trace (ctx_apply owner s c) = trace s.
Proof. by destruct c. Qed.

Lemma ctx_calls_trace owner cs s : trace (foldl (ctx_apply owner) s cs) = trace s.
Proof.
  revert s. induction cs as [|c cs IH]; intros s; simpl; [done|].
  by rewrite IH, ctx_apply_trace.
Qed.

Lemma invoke_engine_vars plugin h f e s :
  engine_vars (invoke plugin h f e s).2 = engine_vars s.
Proof. unfold invoke. simpl. unfold engine_vars at 1. simpl.
  pose proof (ctx_calls_engine_vars (name plugin) (calls (f (ctx s) (private_states s !! name plugin) e (doc s))) (log (Called (ident plugin) (name plugin) h) s)) as H.
  unfold engine_vars in H. simpl in H. exact H.
Qed.

Lemma invoke_trace plugin h f e s :
  trace (invoke plugin h f e s).2 = trace s ++ [Called (ident plugin) (name plugin) h].
Proof. unfold invoke. simpl. by rewrite ctx_calls_trace. Qed.

(** Whatever holds across one handler call and across the reset of the
    cancellation flag holds across a whole chain. *)
Lemma run_plugins_loop_rel (R : state -> state -> Prop) h e :
  (forall s, R s s) ->
  (forall s1 s2 s3, R s1 s2 -> R s2 s3 -> R s1 s3) ->
  (forall plugin f s, handler_of plugin h = Some f -> R s (invoke plugin h f e s).2) ->
  (forall s, R s (set_current_drag_hook_cancelled false s)) ->
  forall ps s, R s (run_plugins_loop ps h e s).2.
Proof.
  intros Hrefl Htrans Hinv Hreset ps.
  induction ps as [|plugin ps IH]; intros s; cbn [run_plugins_loop]; [apply Hrefl|].
  destruct (handler_of plugin h) as [f|] eqn:Hf; [|apply IH].
  specialize (Hinv plugin f s Hf).
  destruct (invoke plugin h f e s) as [[[]|err] s1]; simpl in *; try done.
  destruct (current_drag_hook_cancelled s1); simpl; eauto.
Qed.

Lemma run_effects_rel (R : state -> state -> Prop) :
  (forall s, R s s) ->
  (forall s1 s2 s3, R s1 s2 -> R s2 s3 -> R s1 s3) ->
  (forall owner func s, R s (run_effect owner func s).2) ->
  forall fns s, R s (run_effects fns s).2.
Proof.
  intros Hrefl Htrans Hone fns.
  induction fns as [|[owner func] fns IH]; intros s; cbn [run_effects]; [apply Hrefl|].
  specialize (Hone owner func s).
  destruct (run_effect owner func s) as [[[]|err] s1]; simpl in *; eauto.
Qed.

Lemma run_plugins_loop_engine_vars ps h e s :
  engine_vars (run_plugins_loop ps h e s).2 = engine_vars s.
Proof.
  apply (run_plugins_loop_rel (fun s s' => engine_vars s' = engine_vars s));
    try done; [congruence|].
  intros. apply invoke_engine_vars.
Qed.

Lemma run_plugins_engine_vars h e s : engine_vars (run_plugins h e s).2 = engine_vars s.
Proof. unfold run_plugins. by rewrite run_plugins_loop_engine_vars. Qed.

Lemma run_effects_vars fns s :
  engine_vars (run_effects fns s).2 = engine_vars s
  /\ hook_vars (run_effects fns s).2 = hook_vars s.
Proof.
  apply (run_effects_rel
           (fun s s' => engine_vars s' = engine_vars s /\ hook_vars s' = hook_vars s));
    [done| |done].
  intros s1 s2 s3 [? ?] [? ?]. split; congruence.
Qed.

Lemma flush_effects_engine_vars s : engine_vars (flush_effects s).2 = engine_vars s.
Proof.
  unfold flush_effects.
  pose proof (run_effects_vars (effects_to_run s) s) as [H _].
  by destruct (run_effects (effects_to_run s) s) as [[[]|err] s1].
Qed.

Lemma flush_effects_proposals s : proposals (flush_effects s).2 = proposals s.
Proof.
  unfold flush_effects.
  pose proof (run_effects_vars (effects_to_run s) s) as [_ H].
  destruct (run_effects (effects_to_run s) s) as [[[]|err] s1]; simpl in *;
    unfold hook_vars in H; congruence.
Qed.

(** ** Histories *)

Lemma fired_app t1 t2 : fired (t1 ++ t2) = fired t1 ++ fired t2.
Proof. apply omap_app. Qed.


Lemma called_app t1 t2 : called (t1 ++ t2) = called t1 ++ called t2.
Proof. apply omap_app. Qed.

(** A chain only adds handler calls of its phase to the history. *)
Lemma run_plugins_loop_trace ps h e s :
  exists l, trace (run_plugins_loop ps h e s).2 = trace s ++ l
            /\ Forall (fun en => exists id nm, en = Called id nm h) l.
Proof.
  apply (run_plugins_loop_rel
           (fun s s' => exists l, trace s' = trace s ++ l
                                  /\ Forall (fun en => exists id nm, en = Called id nm h) l)).
  - intros s0. exists []. by rewrite app_nil_r.
  - intros s1 s2 s3 (l1 & -> & H1) (l2 & -> & H2). exists (l1 ++ l2).
    rewrite app_assoc. split; [done|]. by apply Forall_app.
  - intros plugin f s0 _. rewrite invoke_trace. eexists. split; [done|].
    repeat constructor. eauto.
  - intros s0. exists []. by rewrite app_nil_r.
Qed.

Lemma run_plugins_trace h e s :
  exists l, trace (run_plugins h e s).2 = trace s ++ Dispatch h :: l
            /\ Forall (fun en => exists id nm, en = Called id nm h) l.
Proof.
  unfold run_plugins.
  destruct (run_plugins_loop_trace (ordered_plugins (log (Dispatch h) s)) h e
              (log (Dispatch h) s)) as (l & Hl & HF).
  exists l. split; [|done]. simpl in Hl. rewrite Hl.
  by rewrite <- app_assoc.
Qed.

Lemma Forall_called_fired h l :
  Forall (fun en => exists id nm, en = Called id nm h) l -> fired l = [] /\ ran l = [].
Proof.
  induction 1 as [|en l (id & nm & ->) _ [IH1 IH2]]; [done|].
  simpl. by rewrite IH1, IH2.
Qed.

(** [flush] executes the queued closures front to back and stops at the
    first that throws. *)
Lemma run_effects_trace fns s :
  exists done,
    done `prefix_of` fns
    /\ trace (run_effects fns s).2 = trace s ++ (Ran ∘ closure ∘ snd <$> done)
    /\ ((run_effects fns s).1 = Return () -> done = fns).
Proof.
  revert s. induction fns as [|[owner func] fns IH]; intros s; cbn [run_effects].
  - exists []. by rewrite app_nil_r.
  - destruct (run_effect owner func s) as [[[]|err] s1] eqn:Hrun.
    + destruct (IH s1) as (done & Hpre & Htr & Hall).
      exists ((owner, func) :: done). split; [by apply prefix_cons|].
      split.
      * rewrite Htr. unfold run_effect in Hrun. injection Hrun as _ <-. simpl.
        by rewrite <- app_assoc.
      * intros H. by rewrite (Hall H).
    + exists [(owner, func)]. split; [apply prefix_cons, prefix_nil|].
      split; [|done]. unfold run_effect in Hrun. by injection Hrun as _ <-.
Qed.

Lemma drag_move_commit e s :
  let chain := run_plugins Drag e (proposing e s) in
  let s' := listener (drag_move e s) in
  match chain.1, (flush_effects chain.2).1 with
  | Return true, Return _ =>
      x_offset s' = x_offset s + or_zero (nx (proposals chain.2))
      /\ y_offset s' = y_offset s + or_zero (ny (proposals chain.2))
      /\ fired (trace s') = fired (trace s) ++ [(neodrag, x_offset s', y_offset s')]
  | _, _ =>
      x_offset s' = x_offset s /\ y_offset s' = y_offset s
      /\ fired (trace s') = fired (trace s)
  end.
Proof.
  intros chain s'. subst chain s'. unfold drag_move. fold (proposing e s).
  pose proof (run_plugins_engine_vars Drag e (proposing e s)) as Hvars.
  destruct (run_plugins_trace Drag e (proposing e s)) as (l & Htr & Hl).
  apply Forall_called_fired in Hl as [Hl _].
  destruct (run_plugins Drag e (proposing e s)) as [r s1]. simpl in *.
  assert (fired (trace s1) = fired (trace s)) as Hfired.
  { rewrite Htr, fired_app. simpl. by rewrite Hl, app_nil_r. }
  assert (x_offset s1 = x_offset s /\ y_offset s1 = y_offset s) as [Hx Hy].
  { unfold engine_vars, proposing in Hvars. simpl in Hvars. by simplify_eq. }
  destruct r as [[]|err]; simpl;
    [|by rewrite Hx, Hy, Hfired|by rewrite fired_app, app_nil_r, Hx, Hy, Hfired].
  pose proof (flush_effects_engine_vars s1) as Hvars2.
  pose proof (flush_effects_proposals s1) as Hprop.
  assert (fired (trace (flush_effects s1).2) = fired (trace s1)) as Hfired2.
  { unfold flush_effects.
    destruct (run_effects_trace (effects_to_run s1) s1) as (done & _ & Htr2 & _).
    assert (fired (Ran ∘ closure ∘ snd <$> done) = []) as Hnil.
    { clear. induction done as [|? ? IH]; [done|]. simpl. apply IH. }
    destruct (run_effects (effects_to_run s1) s1) as [[[]|err] s2]; simpl in *;
      by rewrite Htr2, fired_app, Hnil, app_nil_r. }
  assert (x_offset (flush_effects s1).2 = x_offset s1
          /\ y_offset (flush_effects s1).2 = y_offset s1) as [Hx2 Hy2].
  { unfold engine_vars in Hvars2. by simplify_eq. }
  destruct (flush_effects s1) as [[[]|err] s2]; simpl in *.
  - rewrite fired_app, Hfired2, Hfired. simpl. rewrite Hprop, Hx2, Hy2, Hx, Hy. done.
  - rewrite fired_app, app_nil_r. split_and!; congruence.
Qed.

Lemma run_plugins_loop_app l1 l2 h e s :
  run_plugins_loop (l1 ++ l2) h e s =
  match run_plugins_loop l1 h e s with
  | (Return true, s1) => run_plugins_loop l2 h e s1
  | r => r
  end.
Proof.
  revert s. induction l1 as [|plugin l1 IH]; intros s; cbn [run_plugins_loop app]; [done|].
  destruct (handler_of plugin h) as [f|]; [|apply IH].
  destruct (invoke plugin h f e s) as [[[]|err] s1]; [|done..].
  destruct (current_drag_hook_cancelled s1); [done|apply IH].
Qed.

(** A chain that succeeds has run its last handler, and nothing after it. *)
Lemma run_plugins_loop_last pre plugin f h e s s' :
  handler_of plugin h = Some f ->
  run_plugins_loop (pre ++ [plugin]) h e s = (Return true, s') ->
  exists s1, invoke plugin h f e s1 = (Return true, s')
             /\ engine_vars s1 = engine_vars s.
Proof.
  intros Hf. rewrite run_plugins_loop_app.
  pose proof (run_plugins_loop_engine_vars pre h e s) as Hvars.
  destruct (run_plugins_loop pre h e s) as [[[]|err] s1]; [|done..].
  cbn [run_plugins_loop]. rewrite Hf.
  destruct (invoke plugin h f e s1) as [[[]|err] s2] eqn:Hinv; [|done..].
  destruct (current_drag_hook_cancelled s2); [done|].
  intros [= <-]. eauto.
Qed.

Lemma engine_vars_inv s s' :
  engine_vars s' = engine_vars s ->
  ordered_plugins s' = ordered_plugins s /\ the_threshold s' = the_threshold s
  /\ the_node s' = the_node s
  /\ is_interacting s' = is_interacting s /\ is_dragging s' = is_dragging s
  /\ x_offset s' = x_offset s /\ y_offset s' = y_offset s
  /\ initial_x s' = initial_x s /\ initial_y s' = initial_y s.
Proof. unfold engine_vars. intros H. by simplify_eq. Qed.

Lemma try_start_drag_engine e s :
  let s' := (try_start_drag e s).2 in
  x_offset s' = x_offset s /\ y_offset s' = y_offset s
  /\ ordered_plugins s' = ordered_plugins s.
Proof.
  unfold try_start_drag. destruct (_ && _); [|done].
  pose proof (run_plugins_engine_vars DragStart e (set_delta_var {| x := 0; y := 0 |} s)) as H1.
  apply engine_vars_inv in H1 as (? & _ & _ & _ & _ & ? & ? & _); simpl in *.
  destruct (run_plugins DragStart e _) as [[[]|err] s1]; simpl in *; try done.
  pose proof (flush_effects_engine_vars s1) as H2.
  apply engine_vars_inv in H2 as (? & _ & _ & _ & _ & ? & ? & _).
  destruct (flush_effects s1) as [[[]|err] s2]; simpl in *; split_and!; congruence.
Qed.


(** ** Invariants of the plugin-visible state

    A property of the plugin list, the private states and the effect queue
    that every handler of the chain and every queued closure preserves is
    preserved by the three listeners. *)
Section HookInvariant.
Context (chain : list Plugin) (P : state -> Prop).
Hypothesis P_chain : forall s, P s -> ordered_plugins s = chain.
Hypothesis P_engine : forall s s',
  ordered_plugins s' = ordered_plugins s -> private_states s' = private_states s ->
  effects_to_run s' = effects_to_run s -> P s -> P s'.
Hypothesis P_clear : forall s, P s -> P (clear_effects s).
Hypothesis P_invoke : forall plugin h f e s,
  plugin ∈ chain -> handler_of plugin h = Some f -> P s -> P (invoke plugin h f e s).2.
Hypothesis P_effect : forall owner func s,
  (owner, func) ∈ effects_to_run s -> P s -> P (run_effect owner func s).2.

Lemma run_plugins_loop_invariant ps h e s :
  ps ⊆ chain -> P s -> P (run_plugins_loop ps h e s).2.
Proof.
  revert s. induction ps as [|plugin ps IH]; intros s Hsub HP; cbn [run_plugins_loop]; [done|].
  assert (plugin ∈ chain) as Hin by (apply Hsub; left).
  assert (ps ⊆ chain) as Hsub' by (intros p Hp; apply Hsub; by right).
  destruct (handler_of plugin h) as [f|] eqn:Hf; [|by apply IH].
  pose proof (P_invoke plugin h f e s Hin Hf HP) as HP1.
  destruct (invoke plugin h f e s) as [[[]|err] s1]; simpl in *; try done.
  destruct (current_drag_hook_cancelled s1); simpl; [|by apply IH].
  by apply (P_engine s1).
Qed.

Lemma run_plugins_invariant h e s : P s -> P (run_plugins h e s).2.
Proof.
  intros HP. unfold run_plugins. apply run_plugins_loop_invariant.
  - simpl. by rewrite (P_chain s HP).
  - by apply (P_engine s).
Qed.

Lemma run_effects_invariant fns s :
  fns ⊆ effects_to_run s -> P s -> P (run_effects fns s).2.
Proof.
  revert s. induction fns as [|[owner func] fns IH]; intros s Hsub HP; cbn [run_effects];
    [done|].
  assert ((owner, func) ∈ effects_to_run s) as Hin by (apply Hsub; left).
  pose proof (P_effect owner func s Hin HP) as HP1.
  assert (effects_to_run (run_effect owner func s).2 = effects_to_run s) as Hq by done.
  destruct (run_effect owner func s) as [[[]|err] s1]; simpl in *; [|done].
  apply IH; [|done]. rewrite Hq. intros p Hp. apply Hsub. by right.
Qed.

Lemma flush_effects_invariant s : P s -> P (flush_effects s).2.
Proof.
  intros HP. unfold flush_effects.
  pose proof (run_effects_invariant (effects_to_run s) s (reflexivity _) HP) as HP1.
  destruct (run_effects (effects_to_run s) s) as [[[]|err] s1]; simpl in *; [|done].
  by apply P_clear.
Qed.

Lemma try_start_drag_invariant e s : P s -> P (try_start_drag e s).2.
Proof.
  intros HP. unfold try_start_drag. destruct (_ && _); [|done].
  assert (P (set_delta_var {| x := 0; y := 0 |} s)) as HP0 by by apply (P_engine s).
  pose proof (run_plugins_invariant DragStart e _ HP0) as HP1.
  destruct (run_plugins DragStart e _) as [[[]|err] s1]; simpl in *; try done;
    [|by apply P_clear].
  pose proof (flush_effects_invariant s1 HP1) as HP2.
  destruct (flush_effects s1) as [[[]|err] s2]; simpl in *; [|done].
  by apply (P_engine s2).
Qed.

Lemma drag_move_invariant e s : P s -> P (drag_move e s).2.
Proof.
  intros HP. unfold drag_move. fold (proposing e s).
  assert (P (proposing e s)) as HP0 by by apply (P_engine s).
  pose proof (run_plugins_invariant Drag e _ HP0) as HP1.
  destruct (run_plugins Drag e _) as [[[]|err] s1]; simpl in *; try done;
    [|by apply P_clear].
  pose proof (flush_effects_invariant s1 HP1) as HP2.
  destruct (flush_effects s1) as [[[]|err] s2]; simpl in *; [|done].
  by apply (P_engine s2).
Qed.

Lemma listener_invariant r : P r.2 -> P (listener r).
Proof. destruct r as [[[]|err] s]; simpl; [done|]. by apply (P_engine s). Qed.

Lemma pointerdown_invariant e s : P s -> P (pointerdown e s).
Proof.
  intros HP. unfold pointerdown. case_bool_decide; [done|].
  pose proof (run_plugins_invariant ShouldDrag e s HP) as HP1.
  destruct (run_plugins ShouldDrag e s) as [[[]|err] s1]; simpl in *; try done;
    [|by apply (P_engine s1)].
  destruct (contains_target e _); simpl; [|done].
  apply (P_engine s1); [| | |done]; by repeat case_match.
Qed.

Lemma pointermove_invariant e s : P s -> P (pointermove e s).
Proof.
  intros HP. unfold pointermove.
  destruct (is_interacting s); simpl; [|done].
  destruct (is_dragging s); [by apply listener_invariant, drag_move_invariant|].
  assert (P (check_time_threshold e s).2) as HP1.
  { unfold check_time_threshold. repeat case_match; try done.
    apply try_start_drag_invariant. by apply (P_engine s). }
  destruct (check_time_threshold e s) as [[[]|err] s1]; simpl in *;
    [|by apply (P_engine s1)].
  assert (P (check_distance_threshold e s1).2) as HP2.
  { unfold check_distance_threshold. repeat case_match; try done.
    apply try_start_drag_invariant. by apply (P_engine s1). }
  destruct (check_distance_threshold e s1) as [[[]|err] s2]; simpl in *;
    [|by apply (P_engine s2)].
  destruct (is_dragging s2); simpl; [|done].
  by apply listener_invariant, drag_move_invariant.
Qed.

Lemma pointerup_invariant e s : P s -> P (pointerup e s).
Proof.
  intros HP. unfold pointerup.
  destruct (is_interacting s); simpl; [|done].
  assert (P (if is_dragging s then listen_click_once s else s)) as HP0.
  { destruct (is_dragging s); [|done]. by apply (P_engine s). }
  pose proof (run_plugins_invariant DragEnd e _ HP0) as HP1.
  destruct (run_plugins DragEnd e _) as [[b|err] s1]; simpl in *;
    [|by apply (P_engine s1)].
  apply P_clear. apply (P_engine s1); [| | |done]; by repeat case_match.
Qed.

Lemma step_invariant s ev : P s -> P (step s ev).
Proof.
  destruct ev; simpl;
    [apply pointerdown_invariant|apply pointermove_invariant|apply pointerup_invariant].
Qed.

Lemma run_invariant s evs : P s -> P (run s evs).
Proof.
  revert s. induction evs as [|ev evs IH]; intros s HP; simpl; [done|].
  by apply IH, step_invariant.
Qed.


(** Under such an invariant, if every successful [drag] chain leaves a
    proposal satisfying [Q], then every event either leaves the committed
    offset alone or adds to it a proposal satisfying [Q]. *)
Context (Q : nullable_xy -> Prop).
Hypothesis P_Q : forall e s0 s1,
  P s0 -> run_plugins Drag e s0 = (Return true, s1) -> Q (proposals s1).

Lemma drag_move_offsets e s : P s -> moved_by Q s (listener (drag_move e s)).
Proof.
  intros HP. pose proof (drag_move_commit e s) as H. simpl in H.
  assert (P (proposing e s)) as HP0 by by apply (P_engine s).
  pose proof (P_Q e (proposing e s)) as HQ.
  destruct (run_plugins Drag e (proposing e s)) as [[[]|err] s1]; simpl in *;
    try (left; by destruct H as (? & ? & _)).
  destruct (flush_effects s1) as [[[]|err] s2]; simpl in *;
    try (left; by destruct H as (? & ? & _)).
  right. exists (proposals s1). destruct H as (? & ? & _). split; [|done].
  by apply HQ.
Qed.

Lemma pointerdown_offsets e s :
  x_offset (pointerdown e s) = x_offset s /\ y_offset (pointerdown e s) = y_offset s.
Proof.
  unfold pointerdown. case_bool_decide; [done|].
  pose proof (run_plugins_engine_vars ShouldDrag e s) as Hv.
  apply engine_vars_inv in Hv as (_ & _ & _ & _ & _ & ? & ? & _).
  destruct (run_plugins ShouldDrag e s) as [[[]|err] s1]; simpl in *; try done.
  destruct (contains_target e _); simpl; [|done].
  by repeat case_match.
Qed.

Lemma pointerup_offsets e s :
  x_offset (pointerup e s) = x_offset s /\ y_offset (pointerup e s) = y_offset s.
Proof.
  unfold pointerup. destruct (is_interacting s); simpl; [|done].
  pose proof (run_plugins_engine_vars DragEnd e
                (if is_dragging s then listen_click_once s else s)) as H.
  apply engine_vars_inv in H as (_ & _ & _ & _ & _ & Hx & Hy & _).
  assert (x_offset (if is_dragging s then listen_click_once s else s) = x_offset s
          /\ y_offset (if is_dragging s then listen_click_once s else s) = y_offset s)
    as [Hx0 Hy0] by by destruct (is_dragging s).
  rewrite Hx0 in Hx. rewrite Hy0 in Hy.
  destruct (run_plugins DragEnd e _) as [[b|err] s1]; simpl in *; [|done].
  by repeat case_match.
Qed.

Lemma check_time_threshold_offsets e s :
  let s' := (check_time_threshold e s).2 in
  x_offset s' = x_offset s /\ y_offset s' = y_offset s.
Proof.
  unfold check_time_threshold. repeat case_match; try done.
  pose proof (try_start_drag_engine e (set_meets_time_threshold true s)) as (? & ? & _).
  done.
Qed.

Lemma check_distance_threshold_offsets e s :
  let s' := (check_distance_threshold e s).2 in
  x_offset s' = x_offset s /\ y_offset s' = y_offset s.
Proof.
  unfold check_distance_threshold. repeat case_match; try done.
  pose proof (try_start_drag_engine e (set_meets_distance_threshold true s)) as (? & ? & _).
  done.
Qed.

Lemma pointermove_offsets e s : P s -> moved_by Q s (pointermove e s).
Proof.
  intros HP. unfold moved_by, pointermove.
  destruct (is_interacting s); simpl; [|by left].
  destruct (is_dragging s); [by apply drag_move_offsets|].
  assert (P (check_time_threshold e s).2) as HP1.
  { unfold check_time_threshold. repeat case_match; try done.
    apply try_start_drag_invariant. by apply (P_engine s). }
  pose proof (check_time_threshold_offsets e s) as [Hx1 Hy1]. simpl in *.
  destruct (check_time_threshold e s) as [[[]|err] s1]; simpl in *; [|by left].
  assert (P (check_distance_threshold e s1).2) as HP2.
  { unfold check_distance_threshold. repeat case_match; try done.
    apply try_start_drag_invariant. by apply (P_engine s1). }
  pose proof (check_distance_threshold_offsets e s1) as [Hx2 Hy2]. simpl in *.
  destruct (check_distance_threshold e s1) as [[[]|err] s2]; simpl in *;
    [|left; split; congruence].
  destruct (is_dragging s2); simpl; [|left; split; congruence].
  destruct (drag_move_offsets e s2 HP2) as [[? ?]|(p & ? & ? & ?)].
  - left. split; congruence.
  - right. exists p. split; [done|]. split; congruence.
Qed.

Lemma step_offsets s ev : P s -> moved_by Q s (step s ev).
Proof.
  intros HP. destruct ev; simpl.
  - left. apply pointerdown_offsets.
  - by apply pointermove_offsets.
  - left. apply pointerup_offsets.
Qed.

End HookInvariant.

Lemma hook_invariant_chain chain P ps h e s :
  hook_invariant chain P -> ps ⊆ chain -> P s -> P (run_plugins_loop ps h e s).2.
Proof. intros []. by eapply run_plugins_loop_invariant. Qed.

Lemma hook_invariant_run chain P s evs :
  hook_invariant chain P -> P s -> P (run s evs).
Proof. intros []. by eapply run_invariant. Qed.

Lemma hook_invariant_offsets chain P Q s ev :
  hook_invariant chain P ->
  (forall e s0 s1, P s0 -> run_plugins Drag e s0 = (Return true, s1) -> Q (proposals s1)) ->
  P s -> moved_by Q s (step s ev).
Proof. intros [] HQ. by eapply step_offsets. Qed.

(** ** The grid helper *)











(** A successful chain ends with the call of its last handler. *)
Lemma run_plugins_last chain P pre plugin f h e s s' :
  hook_invariant chain P -> chain = pre ++ [plugin] -> handler_of plugin h = Some f ->
  P s -> run_plugins h e s = (Return true, s') ->
  exists s1, P s1 /\ invoke plugin h f e s1 = (Return true, s').
Proof.
  intros HI Hchain Hf HP. unfold run_plugins.
  assert (P (log (Dispatch h) s)) as HP0 by by apply (inv_engine _ _ HI s).
  rewrite (inv_chain _ _ HI s HP), Hchain.
  rewrite run_plugins_loop_app.
  assert (P (run_plugins_loop pre h e (log (Dispatch h) s)).2) as HP1.
  { apply (hook_invariant_chain chain); [done| |done]. rewrite Hchain.
    intros p Hp. apply elem_of_app. by left. }
  destruct (run_plugins_loop pre h e (log (Dispatch h) s)) as [[[]|err] s1]; [|done..].
  cbn [run_plugins_loop]. rewrite Hf.
  destruct (invoke plugin h f e s1) as [[[]|err] s2] eqn:Hinv; [|done..].
  destruct (current_drag_hook_cancelled s2); [done|].
  intros [= <-]. eauto.
Qed.


Section Grid.
Context (id : nat) (gx gy : number) (pre : list Plugin).




End Grid.


(** ** The axis plugin *)

Lemma ctx_apply_private_states owner s c :
  private_states (ctx_apply owner s c) = private_states s.
Proof. by destruct c. Qed.

Lemma ctx_calls_private_states owner cs s :
  private_states (foldl (ctx_apply owner) s cs) = private_states s.
Proof.
  revert s. induction cs as [|c cs IH]; intros s; simpl; [done|].
  by rewrite IH, ctx_apply_private_states.
Qed.

Lemma store_state_ne key key' st (m : gmap string any) :
  key <> key' -> store_state key st m !! key' = m !! key'.
Proof.
  intros Hne. unfold store_state. repeat case_match; try done.
  by rewrite lookup_insert_ne.
Qed.

Lemma store_state_same key st (m : gmap string any) :
  m !! key = Some st -> store_state key (Some st) m !! key = Some st.
Proof. intros H. unfold store_state. rewrite H. by rewrite lookup_insert_eq. Qed.

(** Closures are queued under the name of the plugin whose hook runs. *)
Lemma ctx_calls_owners (key owner : string) cs s :
  owner <> key ->
  Forall (fun queued => queued.1 <> key) (effects_to_run s) ->
  Forall (fun queued => queued.1 <> key) (effects_to_run (foldl (ctx_apply owner) s cs)).
Proof.
  intros Hne. revert s. induction cs as [|c cs IH]; intros s Hs; simpl; [done|].
  apply IH. destruct c; simpl; try done.
  unfold add_effect. case_bool_decide; [done|].
  apply Forall_app. split; [done|]. by repeat constructor.
Qed.

Lemma invoke_state_other plugin h f e s key :
  name plugin <> key ->
  private_states (invoke plugin h f e s).2 !! key = private_states s !! key.
Proof.
  intros Hne. unfold invoke. simpl.
  by rewrite store_state_ne, ctx_calls_private_states.
Qed.

Lemma invoke_owners plugin h f e s key :
  name plugin <> key ->
  Forall (fun queued => queued.1 <> key) (effects_to_run s) ->
  Forall (fun queued => queued.1 <> key) (effects_to_run (invoke plugin h f e s).2).
Proof. intros Hne Hs. unfold invoke. simpl. by apply ctx_calls_owners. Qed.

Section Axis.
Context (id : nat) (value : DragAxis) (pre : list Plugin).
Hypothesis pre_names : Forall (fun p => name p <> "neodrag:axis") pre.

Lemma axis_hook_invariant :
  hook_invariant (pre ++ [axis id value]) (axis_invariant id value pre).
Proof.
  split.
  - by intros s (? & _).
  - intros s s' H1 H2 H3 (? & ? & ?). unfold axis_invariant. by rewrite H1, H2, H3.
  - intros s (? & ? & ?). by split_and!.
  - intros plugin h f e s Hin Hf (Hc & Hst & Hq).
    pose proof (invoke_engine_vars plugin h f e s) as Hv.
    apply engine_vars_inv in Hv as (Hord & _).
    split; [congruence|].
    apply elem_of_app in Hin as [Hin|Hin].
    + pose proof (proj1 (list.Forall_forall _ _) pre_names plugin Hin) as Hne.
      split; [by rewrite invoke_state_other|by apply invoke_owners].
    + apply list_elem_of_singleton in Hin as ->.
      destruct h; simpl in Hf; simplify_eq; unfold invoke; simpl;
        rewrite ?ctx_calls_private_states; simpl; rewrite Hst; simpl;
        (split; [exact (store_state_same _ _ _ Hst)|done]).
  - intros owner func s Hin (Hc & Hst & Hq).
    pose proof (proj1 (list.Forall_forall _ _) Hq _ Hin) as Hne. simpl in Hne.
    unfold axis_invariant, run_effect. simpl. rewrite store_state_ne by done.
    by split_and!.
Qed.

Lemma axis_proposals e s0 s1 :
  axis_invariant id value pre s0 ->
  run_plugins Drag e s0 = (Return true, s1) ->
  exists p,
    proposals s1
    = {| nx := if bool_decide (value = both) || bool_decide (value = axis_x)
               then nx p else None;
         ny := if bool_decide (value = both) || bool_decide (value = axis_y)
               then ny p else None |}.
Proof.
  intros Hs0 Hrun.
  destruct (run_plugins_last _ _ pre (axis id value) _ Drag e s0 s1
              axis_hook_invariant eq_refl eq_refl Hs0 Hrun) as (s2 & (_ & Hst & _) & Hinv).
  exists (proposals s2).
  apply (f_equal snd) in Hinv. simpl in Hinv. rewrite <- Hinv.
  unfold invoke. simpl. by rewrite Hst.
Qed.

End Axis.

Lemma axis_x_step id pre s ev :
  Forall (fun p => name p <> "neodrag:axis") pre ->
  axis_invariant id axis_x pre s -> y_offset (step s ev) = y_offset s.
Proof.
  intros Hpre Hs.
  destruct (hook_invariant_offsets (pre ++ [axis id axis_x]) _ (fun p => ny p = None)
              s ev (axis_hook_invariant id axis_x pre Hpre))
    as [[_ ->]|(p & Hp & _ & ->)]; [|done..|].
  - intros e s0 s1 Hs0 Hrun.
    by destruct (axis_proposals id axis_x pre Hpre e s0 s1 Hs0 Hrun) as [p ->].
  - rewrite Hp. unfold or_zero. simpl. ring.
Qed.

Lemma axis_x_run id pre s evs :
  Forall (fun p => name p <> "neodrag:axis") pre ->
  axis_invariant id axis_x pre s -> y_offset (run s evs) = y_offset s.
Proof.
  intros Hpre. revert s. induction evs as [|ev evs IH]; intros s Hs; simpl; [done|].
  rewrite IH; [by apply (axis_x_step id pre)|].
  by apply (hook_invariant_run _ _ s [ev] (axis_hook_invariant id axis_x pre Hpre)).
Qed.

(** ** Vetoes at pointer-down *)

(** A chain containing a [shouldDrag] hook that always answers [false]
    never succeeds. *)
Lemma shouldDrag_veto ps q f e s :
  q ∈ ps -> shouldDrag q = Some f ->
  (forall c st e d, returns (f c st e d) = Return false) ->
  (run_plugins_loop ps ShouldDrag e s).1 <> Return true.
Proof.
  intros Hin Hf Hret. revert s.
  induction ps as [|plugin ps IH]; intros s; [by apply elem_of_nil in Hin|].
  cbn [run_plugins_loop].
  apply elem_of_cons in Hin as [->|Hin].
  - cbn [handler_of]. rewrite Hf.
    assert ((invoke plugin ShouldDrag f e s).1 = Return false) as Hinv
      by (unfold invoke; apply Hret).
    destruct (invoke plugin ShouldDrag f e s) as [[[]|err] s1]; simpl in *; congruence.
  - destruct (handler_of plugin ShouldDrag) as [g|]; [|by apply IH].
    destruct (invoke plugin ShouldDrag g e s) as [[[]|err] s1]; [|done..].
    destruct (current_drag_hook_cancelled s1); [done|by apply IH].
Qed.


Lemma Forall_called_dispatched h l :
  Forall (fun en => exists id nm, en = Called id nm h) l -> dispatched l = [].
Proof. induction 1 as [|en l (id & nm & ->) _ IH]; [done|]. apply IH. Qed.

Lemma dispatched_app t1 t2 : dispatched (t1 ++ t2) = dispatched t1 ++ dispatched t2.
Proof. apply omap_app. Qed.

Lemma never_started_step q f s ev :
  q ∈ ordered_plugins s -> shouldDrag q = Some f ->
  (forall c st e d, returns (f c st e d) = Return false) ->
  never_started s ->
  never_started (step s ev) /\ engine_vars (step s ev) = engine_vars s.
Proof.
  intros Hin Hf Hret [Hs Ht]. unfold never_started.
  destruct ev as [e|e|e]; simpl.
  - unfold pointerdown. case_bool_decide; [done|].
    pose proof (shouldDrag_veto (ordered_plugins s) q f e (log (Dispatch ShouldDrag) s)
                  Hin Hf Hret) as Hveto.
    pose proof (run_plugins_engine_vars ShouldDrag e s) as Hv.
    destruct (run_plugins_trace ShouldDrag e s) as (l & Htr & Hl).
    apply Forall_called_dispatched in Hl.
    pose proof (engine_vars_inv _ _ Hv) as (_ & _ & _ & Hint & _).
    unfold run_plugins in *.
    destruct (run_plugins_loop _ _ _ _) as [[[]|err] s1]; simpl in *; [done| |].
    + split; [|done]. split; [congruence|].
      rewrite Htr, dispatched_app. simpl. rewrite Hl.
      apply Forall_app. split; [done|]. by repeat constructor.
    + split; [|done]. split; [congruence|].
      rewrite Htr, !dispatched_app. simpl. rewrite Hl.
      repeat (apply Forall_app; split); try done. by repeat constructor.
  - unfold pointermove. by rewrite Hs.
  - unfold pointerup. by rewrite Hs.
Qed.

Lemma never_started_run q f s evs :
  q ∈ ordered_plugins s -> shouldDrag q = Some f ->
  (forall c st e d, returns (f c st e d) = Return false) ->
  never_started s ->
  never_started (run s evs) /\ engine_vars (run s evs) = engine_vars s.
Proof.
  intros Hin Hf Hret. revert s Hin.
  induction evs as [|ev evs IH]; intros s Hin Hs; simpl; [done|].
  destruct (never_started_step q f s ev Hin Hf Hret Hs) as [Hs' Hv].
  pose proof (engine_vars_inv _ _ Hv) as (Hord & _).
  destruct (IH (step s ev)) as [H1 H2]; [by rewrite Hord|done|].
  split; [done|congruence].
Qed.

(** ** The state [draggable] returns *)

Lemma draggable_with_axis id value node th rect d :
  let s := (draggable node {| plugins := Some [axis id value]; threshold := th |} rect d).2 in
  axis_invariant id value default_plugins s
  /\ x_offset s = 0 /\ y_offset s = 0 /\ is_interacting s = false
  /\ dispatched (trace s) = [].
Proof. unfold axis_invariant. vm_compute. split_and!; try done. Qed.

Lemma default_plugin_names :
  Forall (fun p => name p <> "neodrag:axis") default_plugins.
Proof. repeat constructor; done. Qed.













(** ** The order of the phases *)









Lemma flush_effects_is_dragging s : is_dragging (flush_effects s).2 = is_dragging s.
Proof.
  pose proof (flush_effects_engine_vars s) as H.
  by apply engine_vars_inv in H as (_ & _ & _ & _ & ? & _).
Qed.

















End SingleInstance.

(** * Facts about the delegated engine *)

Module Delegated.
Import CreateDraggable.

Lemma delegated_same_vars_refl a : same_vars a a.
Proof. done. Qed.

Lemma delegated_same_vars_trans a b c : same_vars a b -> same_vars b c -> same_vars a c.
Proof. intros [? ?] [? ?]. split; congruence. Qed.

Lemma delegated_ctx_apply_same_vars owner im c : same_vars im (ctx_apply owner im c).
Proof. destruct im as [i m]. destruct c; simpl; try done. by case_match. Qed.

Lemma delegated_ctx_calls_same_vars owner cs im : same_vars im (foldl (ctx_apply owner) im cs).
Proof.
  revert im. induction cs as [|c cs IH]; intros im; simpl; [done|].
  eapply delegated_same_vars_trans; [apply delegated_ctx_apply_same_vars|apply IH].
Qed.

Lemma delegated_ctx_apply_trace owner im c : trace (ctx_apply owner im c).2 = trace im.2.
Proof. destruct im as [i m]. destruct c; simpl; try done. by case_match. Qed.

Lemma delegated_ctx_calls_trace owner cs im : trace (foldl (ctx_apply owner) im cs).2 = trace im.2.
Proof.
  revert im. induction cs as [|c cs IH]; intros im; simpl; [done|].
  by rewrite IH, delegated_ctx_apply_trace.
Qed.

Lemma delegated_invoke_same_vars plugin h f e i m : same_vars (i, m) (after (invoke plugin h f e i m)).
Proof.
  unfold invoke, after.
  set (r := f _ _ _ _).
  pose proof (delegated_ctx_calls_same_vars (name plugin) (calls r)
                (i, set_doc (document_after r) (log (Called (ident plugin) (name plugin) h) m)))
    as [H1 H2].
  destruct (foldl _ _ _) as [i' m']. by split.
Qed.

Lemma delegated_invoke_trace plugin h f e i m :
  trace (invoke plugin h f e i m).2 = trace m ++ [Called (ident plugin) (name plugin) h].
Proof.
  unfold invoke. set (r := f _ _ _ _).
  pose proof (delegated_ctx_calls_trace (name plugin) (calls r)
                (i, set_doc (document_after r) (log (Called (ident plugin) (name plugin) h) m)))
    as H.
  by destruct (foldl _ _ _) as [i' m'].
Qed.

Lemma delegated_run_plugins_loop_rel
    (R : DraggableInstance * manager -> DraggableInstance * manager -> Prop) h e :
  (forall a, R a a) ->
  (forall a b c, R a b -> R b c -> R a c) ->
  (forall plugin f i m, handler_of plugin h = Some f ->
     R (i, m) (after (invoke plugin h f e i m))) ->
  (forall info i m, R (i, m) (i, report_error info m)) ->
  forall ps i m, R (i, m) (after (run_plugins_loop ps h e i m)).
Proof.
  intros Hrefl Htrans Hinv Hrep ps.
  induction ps as [|plugin ps IH]; intros i m; cbn [run_plugins_loop]; [apply Hrefl|].
  destruct (handler_of plugin h) as [f|] eqn:Hf; [|apply IH].
  destruct (_ && _); [apply IH|].
  specialize (Hinv plugin f i m Hf). unfold after in *.
  destruct (invoke plugin h f e i m) as [[[[]|err] i1] m1]; simpl in *; eauto.
Qed.

Lemma delegated_run_effects_rel
    (R : DraggableInstance * manager -> DraggableInstance * manager -> Prop) :
  (forall a, R a a) ->
  (forall a b c, R a b -> R b c -> R a c) ->
  (forall owner func i m, R (i, m) (after (run_effect owner func i m))) ->
  forall fns i m, R (i, m) (after (run_effects fns i m)).
Proof.
  intros Hrefl Htrans Hone fns.
  induction fns as [|[owner func] fns IH]; intros i m; cbn [run_effects]; [apply Hrefl|].
  specialize (Hone owner func i m). unfold after in *.
  destruct (run_effect owner func i m) as [[[[]|err] i1] m1]; simpl in *; eauto.
Qed.

Lemma delegated_run_plugins_loop_same_vars ps h e i m :
  same_vars (i, m) (after (run_plugins_loop ps h e i m)).
Proof.
  apply delegated_run_plugins_loop_rel;
    [apply delegated_same_vars_refl|apply delegated_same_vars_trans|intros; apply delegated_invoke_same_vars|].
  intros info i0 m0. unfold report_error. by destruct (onError m0).
Qed.

Lemma delegated_run_plugins_same_vars i h e m : same_vars (i, m) (after (run_plugins i h e m)).
Proof.
  unfold run_plugins.
  eapply delegated_same_vars_trans; [|apply delegated_run_plugins_loop_same_vars]. done.
Qed.

Lemma delegated_run_effects_vars fns i m :
  same_vars (i, m) (after (run_effects fns i m))
  /\ hook_vars (run_effects fns i m).1.2 = hook_vars i.
Proof.
  apply (delegated_run_effects_rel (fun a b => same_vars a b /\ hook_vars b.1 = hook_vars a.1));
    [done| |done].
  intros a b c [? ?] [? ?]. split; [by eapply delegated_same_vars_trans|congruence].
Qed.

Lemma delegated_flush_effects_same_vars i m : same_vars (i, m) (after (flush_effects i m)).
Proof.
  unfold flush_effects.
  pose proof (delegated_run_effects_vars (effects i) i m) as [H _].
  by destruct (run_effects (effects i) i m) as [[[[]|err] i1] m1].
Qed.

Lemma delegated_flush_effects_proposed i m :
  proposed (ctx (flush_effects i m).1.2) = proposed (ctx i).
Proof.
  unfold flush_effects.
  pose proof (delegated_run_effects_vars (effects i) i m) as [_ H].
  destruct (run_effects (effects i) i m) as [[[[]|err] i1] m1]; simpl in *;
    unfold hook_vars in H; simpl in H; congruence.
Qed.

Lemma delegated_drag_move_commit e i m :
  let chain := run_plugins (proposing e i) Drag e (set_doc (e_preventDefault (doc m)) m) in
  let i' := (drag_move e i m).1.2 in
  match chain.1.1, (flush_effects chain.1.2 chain.2).1.1 with
  | true, Return _ =>
      offset (ctx i') = {| x := x (offset (ctx i)) + or_zero (nx (proposed (ctx chain.1.2)));
                           y := y (offset (ctx i)) + or_zero (ny (proposed (ctx chain.1.2))) |}
  | _, _ => offset (ctx i') = offset (ctx i)
  end.
Proof.
  intros chain i'. subst chain i'. unfold drag_move. fold (proposing e i).
  pose proof (delegated_run_plugins_same_vars (proposing e i) Drag e
                (set_doc (e_preventDefault (doc m)) m)) as [Hvars _].
  destruct (run_plugins _ _ _ _) as [[r i1] m1]. simpl in *.
  assert (offset (ctx i1) = offset (ctx i)) as Hoff.
  { unfold instance_vars, proposing in Hvars. simpl in Hvars. by simplify_eq. }
  destruct r; simpl; [|done].
  pose proof (delegated_flush_effects_same_vars i1 m1) as [Hvars2 _].
  pose proof (delegated_flush_effects_proposed i1 m1) as Hprop.
  destruct (flush_effects i1 m1) as [[[[]|err] i2] m2]; simpl in *.
  - assert (offset (ctx i2) = offset (ctx i1)) as Hoff2.
    { unfold instance_vars in Hvars2. by simplify_eq. }
    by rewrite Hprop, Hoff2, Hoff.
  - unfold instance_vars in Hvars2. simplify_eq. congruence.
Qed.


Lemma delegated_same_vars_inv a b :
  same_vars a b ->
  onError b.2 = onError a.2 /\ instances b.2 = instances a.2
  /\ active_node b.2 = active_node a.2 /\ initial_plugins b.2 = initial_plugins a.2
  /\ plugins b.1 = plugins a.1 /\ rootNode (ctx b.1) = rootNode (ctx a.1)
  /\ offset (ctx b.1) = offset (ctx a.1) /\ isDragging (ctx b.1) = isDragging (ctx a.1)
  /\ isInteracting (ctx b.1) = isInteracting (ctx a.1).
Proof. intros [H1 H2]. unfold instance_vars, manager_vars in *. by simplify_eq. Qed.



(** ** The cancellation flag *)

Lemma keeps_flag_refl a : keeps_flag a a.
Proof. done. Qed.

Lemma keeps_flag_trans a b c : keeps_flag a b -> keeps_flag b c -> keeps_flag a c.
Proof. intros [? ?] [? ?]. split; [congruence|auto]. Qed.

Lemma ctx_apply_keeps_flag owner im c : keeps_flag im (ctx_apply owner im c).
Proof. destruct im as [i m]. destruct c; simpl; try done. by case_match. Qed.

Lemma ctx_calls_keeps_flag owner cs im : keeps_flag im (foldl (ctx_apply owner) im cs).
Proof.
  revert im. induction cs as [|c cs IH]; intros im; simpl; [done|].
  eapply keeps_flag_trans; [apply ctx_apply_keeps_flag|apply IH].
Qed.

Lemma invoke_keeps_flag plugin h f e i m : keeps_flag (i, m) (after (invoke plugin h f e i m)).
Proof.
  unfold invoke, after. set (r := f _ _ _ _).
  pose proof (ctx_calls_keeps_flag (name plugin) (calls r)
                (i, set_doc (document_after r) (log (Called (ident plugin) (name plugin) h) m)))
    as [H1 H2].
  destruct (foldl _ _ _) as [i' m']. by split.
Qed.

Lemma report_error_keeps_flag info i m : keeps_flag (i, m) (i, report_error info m).
Proof. unfold report_error. by destruct (onError m). Qed.

Lemma run_plugins_loop_keeps_flag ps i h e m :
  keeps_flag (i, m) (after (run_plugins_loop ps h e i m)).
Proof.
  apply (delegated_run_plugins_loop_rel keeps_flag);
    [apply keeps_flag_refl|apply keeps_flag_trans| |].
  - intros. apply invoke_keeps_flag.
  - intros. apply report_error_keeps_flag.
Qed.

Lemma run_plugins_keeps_flag i h e m : keeps_flag (i, m) (after (run_plugins i h e m)).
Proof.
  unfold run_plugins.
  eapply keeps_flag_trans; [|apply run_plugins_loop_keeps_flag]. done.
Qed.

Lemma run_effects_keeps_flag fns i m : keeps_flag (i, m) (after (run_effects fns i m)).
Proof.
  apply (delegated_run_effects_rel keeps_flag); [apply keeps_flag_refl|apply keeps_flag_trans|].
  intros. done.
Qed.

Lemma flush_effects_keeps_flag i m : keeps_flag (i, m) (after (flush_effects i m)).
Proof.
  unfold flush_effects.
  pose proof (run_effects_keeps_flag (effects i) i m) as H.
  by destruct (run_effects (effects i) i m) as [[[[]|err] i1] m1].
Qed.

Lemma start_drag_keeps_flag e i m : keeps_flag (i, m) (after (start_drag e i m)).
Proof.
  unfold start_drag.
  pose proof (run_plugins_keeps_flag i DragStart e m) as H1.
  destruct (run_plugins i DragStart e m) as [[[] i1] m1]; unfold after in *; simpl in *;
    [|done].
  pose proof (flush_effects_keeps_flag i1 m1) as H2.
  destruct (flush_effects i1 m1) as [[[[]|err] i2] m2]; unfold after in *; simpl in *;
    (eapply keeps_flag_trans; [exact H1|]); done.
Qed.

Lemma drag_move_keeps_flag e i m : keeps_flag (i, m) (after (drag_move e i m)).
Proof.
  unfold drag_move. fold (proposing e i).
  pose proof (run_plugins_keeps_flag (proposing e i) Drag e
                (set_doc (e_preventDefault (doc m)) m)) as H1.
  destruct (run_plugins _ _ _ _) as [[[] i1] m1]; unfold after in *; simpl in *; [|done].
  pose proof (flush_effects_keeps_flag i1 m1) as H2.
  destruct (flush_effects i1 m1) as [[[[]|err] i2] m2]; unfold after in *; simpl in *;
    (eapply keeps_flag_trans; [exact H1|]); done.
Qed.

Lemma pointer_move_keeps_flag e i m : keeps_flag (i, m) (after (pointer_move e i m)).
Proof.
  unfold pointer_move. destruct (isInteracting (ctx i)); simpl; [|done].
  set (i0 := set_ctx (set_lastEvent (Some e) (ctx i)) i).
  destruct (isDragging (ctx i)) eqn:Hd.
  { eapply keeps_flag_trans; [|apply drag_move_keeps_flag]. done. }
  pose proof (run_plugins_keeps_flag (set_dragstart_prevented false i0) Drag e m) as H1.
  destruct (run_plugins _ Drag e m) as [[b i1] m1]; unfold after in *; simpl in *.
  destruct (_ && _); [|done].
  pose proof (start_drag_keeps_flag e i1 m1) as H2.
  destruct (start_drag e i1 m1) as [[[[]|err] i2] m2]; unfold after in *; simpl in *;
    try (eapply keeps_flag_trans; [exact H1|]; done).
  pose proof (drag_move_keeps_flag e i2 m2) as H3.
  eapply keeps_flag_trans; [exact H1|]. eapply keeps_flag_trans; [exact H2|]. done.
Qed.

Lemma pointer_up_keeps_flag e i m : keeps_flag (i, m) (after (pointer_up e i m)).
Proof.
  unfold pointer_up. destruct (isInteracting (ctx i)); simpl; [|done].
  set (m0 := if truthy_id _ && _ then _ else _).
  assert (keeps_flag (i, m) (i, m0)) as H0.
  { unfold m0. by repeat case_match. }
  pose proof (run_plugins_keeps_flag i DragEnd e m0) as H1.
  destruct (run_plugins i DragEnd e m0) as [[b i1] m1]; unfold after in *; simpl in *.
  pose proof (flush_effects_keeps_flag i1 m1) as H2.
  destruct (flush_effects i1 m1) as [[[[]|err] i2] m2]; unfold after in *; simpl in *;
    (eapply keeps_flag_trans; [exact H0|]); (eapply keeps_flag_trans; [exact H1|]);
    [|done].
  eapply keeps_flag_trans; [exact H2|]. by repeat case_match.
Qed.


Lemma call_setup_keeps_flag plugin i m : keeps_flag (i, m) (after (call_setup plugin i m)).
Proof.
  unfold call_setup, after. destruct (setup plugin) as [f|]; [|done].
  set (r := f _ _).
  pose proof (ctx_calls_keeps_flag (name plugin) (setup_calls r)
                (i, set_doc (setup_document r)
                      (log (Called (ident plugin) (name plugin) Setup) m))) as [H1 H2].
  destruct (foldl _ _ _) as [i' m']. by split.
Qed.

Lemma call_cleanup_keeps_flag plugin i m : keeps_flag (i, m) (after (call_cleanup plugin i m)).
Proof.
  unfold call_cleanup, after. destruct (cleanup plugin) as [f|]; [|done].
  set (r := f _ _ _).
  pose proof (ctx_calls_keeps_flag (name plugin) (calls r)
                (i, set_doc (document_after r) m)) as [H1 H2].
  destruct (foldl _ _ _) as [i' m']. by split.
Qed.

Lemma store_truthy_flag key value i :
  current_drag_hook_cancelled (store_truthy key value i) = current_drag_hook_cancelled i.
Proof. by destruct value. Qed.

Lemma update_plugin_keeps_flag i old_plugin new_plugin m :
  keeps_flag (i, m) (after (update_plugin i old_plugin new_plugin m)).
Proof.
  unfold update_plugin. destruct (_ && negb _); [done|].
  set (cleaned := match old_plugin with Some _ => _ | None => _ end).
  assert (keeps_flag (i, m) (after cleaned)) as H0.
  { unfold cleaned. destruct old_plugin as [o|]; [|done]. destruct (bool_decide _); [done|].
    pose proof (call_cleanup_keeps_flag o i m) as H.
    by destruct (call_cleanup o i m) as [[[[]|err] i1] m1]. }
  destruct cleaned as [[[[]|err] i1] m1]; unfold after in *; simpl in *; [|done].
  pose proof (call_setup_keeps_flag new_plugin i1 m1) as H1.
  destruct (call_setup new_plugin i1 m1) as [[[state|err] i2] m2]; unfold after in *;
    simpl in *; [|by eapply keeps_flag_trans].
  pose proof (flush_effects_keeps_flag i2 m2) as H2.
  destruct (flush_effects i2 m2) as [[[[]|err] i3] m3]; unfold after in *; simpl in *;
    (eapply keeps_flag_trans; [exact H0|]); (eapply keeps_flag_trans; [exact H1|]);
    [|done].
  destruct H2 as [? H2]. split; [done|]. simpl. by rewrite store_truthy_flag.
Qed.

Lemma update_plugins_keeps_flag todo old changes i m :
  keeps_flag (i, m) (after (update_plugins todo old changes i m)).
Proof.
  revert changes i m. induction todo as [|plugin todo IH]; intros changes i m;
    cbn [update_plugins]; [done|].
  pose proof (update_plugin_keeps_flag i (map_get old (name plugin)) plugin m) as H.
  destruct (update_plugin _ _ _ _) as [[[b|err] i1] m1]; unfold after in *; simpl in *;
    [|done].
  eapply keeps_flag_trans; [exact H|apply IH].
Qed.

Lemma cleanup_removed_keeps_flag removed i m :
  keeps_flag (i, m) (after (cleanup_removed removed i m)).
Proof.
  revert i m. induction removed as [|plugin removed IH]; intros i m;
    cbn [cleanup_removed]; [done|].
  pose proof (call_cleanup_keeps_flag plugin i m) as H.
  destruct (call_cleanup plugin i m) as [[[[]|err] i1] m1]; unfold after in *; simpl in *;
    [|done].
  eapply keeps_flag_trans; [exact H|].
  eapply keeps_flag_trans; [|apply IH]. done.
Qed.

Lemma cleanup_all_keeps_flag todo i m : keeps_flag (i, m) (after (cleanup_all todo i m)).
Proof.
  revert i m. induction todo as [|plugin todo IH]; intros i m; cbn [cleanup_all]; [done|].
  pose proof (call_cleanup_keeps_flag plugin i m) as H.
  destruct (call_cleanup plugin i m) as [[[[]|err] i1] m1]; unfold after in *; simpl in *;
    [|done].
  eapply keeps_flag_trans; [exact H|apply IH].
Qed.

Lemma initial_setup_keeps_flag plugin i m : keeps_flag (i, m) (initial_setup plugin i m).
Proof.
  unfold initial_setup.
  pose proof (call_setup_keeps_flag plugin i m) as H1.
  destruct (call_setup plugin i m) as [[[value|err] i1] m1]; unfold after in *; simpl in *.
  - pose proof (flush_effects_keeps_flag (store_truthy (name plugin) value i1) m1) as H2.
    assert (keeps_flag (i1, m1) (store_truthy (name plugin) value i1, m1)) as H3.
    { split; [done|]. simpl. by rewrite store_truthy_flag. }
    destruct (flush_effects _ m1) as [[[[]|err] i2] m2]; unfold after in *; simpl in *;
      (eapply keeps_flag_trans; [exact H1|]); (eapply keeps_flag_trans; [exact H3|]);
      (eapply keeps_flag_trans; [exact H2|]); [done|].
    apply report_error_keeps_flag.
  - eapply keeps_flag_trans; [exact H1|]. apply report_error_keeps_flag.
Qed.

(** ** At the level of the manager *)

Lemma stuck_same n m m' : instances m' = instances m -> stuck n m -> stuck n m'.
Proof. unfold stuck. by intros ->. Qed.

Lemma stuck_commit n k i i' m m' :
  instances m !! k = Some i -> keeps_flag (i, m) (i', m') ->
  stuck n m -> stuck n (commit k i' m').
Proof.
  intros Hk [Hv Hf]. unfold stuck, commit. simpl in *.
  rewrite Hv.
  destruct (decide (k = n)) as [->|Hne].
  - rewrite lookup_insert_eq, Hk. apply Hf.
  - by rewrite lookup_insert_ne.
Qed.

Lemma cleanup_active_node_stuck n m : stuck n m -> stuck n (cleanup_active_node m).
Proof.
  intros Hs. unfold cleanup_active_node.
  destruct (active_node m) as [k|]; [|done].
  destruct (instances m !! k) as [i|] eqn:Hk; [|done].
  set (m0 := if _ && _ then _ else m).
  assert (instances m0 = instances m) as Hm0 by (unfold m0; by case_match).
  unfold stuck in *. simpl. rewrite Hm0.
  destruct (decide (k = n)) as [->|Hne].
  - rewrite lookup_insert_eq. by rewrite Hk in Hs.
  - by rewrite lookup_insert_ne.
Qed.

Lemma listener_stuck n r : stuck n r.2 -> stuck n (listener r).
Proof. by destruct r as [[[]|err] m]. Qed.

Lemma handle_pointer_down_stuck n e m : stuck n m -> stuck n (handle_pointer_down e m).
Proof.
  intros Hs. unfold handle_pointer_down. case_bool_decide; [done|].
  destruct (find_draggable_node e m) as [[k kind]|]; [|done].
  destruct (instances m !! k) as [i|] eqn:Hk; [|done].
  set (i0 := set_ctx _ i).
  pose proof (run_plugins_keeps_flag i0 ShouldDrag e m) as H1.
  destruct (run_plugins i0 ShouldDrag e m) as [[b i1] m1]. unfold after in H1. simpl in H1.
  assert (keeps_flag (i, m) (i1, m1)) as H2 by (eapply keeps_flag_trans; [|exact H1]; done).
  destruct b; simpl; [|by apply (stuck_commit n k i i1 m)].
  destruct (setPointerCapture_throws e) as [err|].
  - apply cleanup_active_node_stuck.
    apply (stuck_commit n k i _ m); [done| |done].
    eapply keeps_flag_trans; [exact H2|].
    eapply keeps_flag_trans; [|apply report_error_keeps_flag]. done.
  - apply (stuck_commit n k i _ m); [done| |done].
    eapply keeps_flag_trans; [exact H2|]. split; [done|]. simpl. by repeat case_match.
Qed.

Lemma handle_pointer_move_call_stuck n e m :
  stuck n m -> stuck n (handle_pointer_move_call e m).2.
Proof.
  intros Hs. unfold handle_pointer_move_call.
  destruct (active_node m) as [k|]; [|done].
  destruct (instances m !! k) as [i|] eqn:Hk; [|done].
  pose proof (pointer_move_keeps_flag e i m) as H.
  destruct (pointer_move e i m) as [[r i1] m1]. simpl.
  by apply (stuck_commit n k i i1 m).
Qed.

Lemma handle_pointer_up_stuck n e m : stuck n m -> stuck n (handle_pointer_up e m).
Proof.
  intros Hs. unfold handle_pointer_up.
  destruct (active_node m) as [k|]; [|done].
  destruct (instances m !! k) as [i|] eqn:Hk; [|done].
  pose proof (pointer_up_keeps_flag e i m) as H.
  destruct (pointer_up e i m) as [[r i1] m1].
  apply listener_stuck. simpl. by apply (stuck_commit n k i i1 m).
Qed.

Lemma update_stuck n k new_plugins m : stuck n m -> stuck n (update k new_plugins m).2.
Proof.
  intros Hs. unfold update.
  destruct (instances m !! k) as [i|] eqn:Hk; [|done].
  destruct (_ || _).
  - pose proof (update_plugins_keeps_flag
                  (filter (fun p => truthy_flag (liveUpdate p)) (initialize_plugins new_plugins m))
                  (old_plugin_map i) false i m) as H.
    destruct (update_plugins _ _ _ _ _) as [[[changes|err] i1] m1]; unfold after in H;
      simpl in *; [|by apply (stuck_commit n k i i1 m)].
    assert (stuck n (commit k i1 m1)) as Hs1 by by apply (stuck_commit n k i i1 m).
    destruct (_ && _); [|done]. destruct (lastEvent (ctx i1)); [|done].
    by apply handle_pointer_move_call_stuck.
  - set (removed := filter _ (plugins i)).
    pose proof (cleanup_removed_keeps_flag removed i m) as H1.
    destruct (cleanup_removed removed i m) as [[[[]|err] i1] m1]; unfold after in H1;
      simpl in *; [|by apply (stuck_commit n k i i1 m)].
    pose proof (update_plugins_keeps_flag (initialize_plugins new_plugins m)
                  (old_plugin_map i) (negb (bool_decide (removed = []))) i1 m1) as H2.
    destruct (update_plugins _ _ _ _ _) as [[[changes|err] i2] m2]; unfold after in H2;
      simpl in *; apply (stuck_commit n k i _ m); try done.
    + eapply keeps_flag_trans; [exact H1|]. eapply keeps_flag_trans; [exact H2|].
      by destruct changes.
    + by eapply keeps_flag_trans.
Qed.

Lemma destroy_stuck n k m : stuck n m -> stuck n (destroy k m).2.
Proof.
  intros Hs. unfold destroy.
  destruct (instances m !! k) as [i|] eqn:Hk; [|done].
  set (m0 := if bool_decide _ then _ else m).
  assert (stuck n m0 /\ instances m0 !! k = Some i) as [Hs0 Hk0].
  { unfold m0. by case_match. }
  pose proof (cleanup_all_keeps_flag (plugins i) i m0) as H.
  destruct (cleanup_all (plugins i) i m0) as [[[[]|err] i1] m1]; unfold after in H;
    simpl in *; [|by apply (stuck_commit n k i i1 m0)].
  destruct H as [Hv _]. unfold stuck in *. simpl in *.
  rewrite Hv.
  destruct (decide (k = n)) as [->|Hne].
  - by rewrite lookup_delete_eq.
  - by rewrite lookup_delete_ne.
Qed.

Lemma draggable_stuck n k plugin_list rect m :
  k <> n -> stuck n m -> stuck n (draggable k plugin_list rect m).
Proof.
  intros Hne Hs. unfold draggable.
  set (i0 := {| ctx := _ |}).
  assert (forall ps i m0, instances (foldl (fun im plugin => initial_setup plugin im.1 im.2)
                                       (i, m0) ps).2 = instances m0) as Hfold.
  { induction ps as [|p ps IH]; intros i m0; simpl; [done|].
    pose proof (initial_setup_keeps_flag p i m0) as [Hv _].
    destruct (initial_setup p i m0) as [i1 m1]. by rewrite IH. }
  specialize (Hfold (plugins i0) i0 (initialize_listeners m)).
  destruct (foldl _ _ _) as [i1 m1]. simpl in *.
  unfold stuck in *. simpl. rewrite Hfold, lookup_insert_ne by done.
  assert (instances (initialize_listeners m) = instances m) as ->; [|done].
  unfold initialize_listeners. by destruct (listeners_initialized m).
Qed.

(** Every event other than a new [draggable] call for the node keeps its
    instance's flag raised. *)
Lemma step_stuck n m ev :
  (forall ps rect, ev <> Attach n ps rect) -> stuck n m -> stuck n (step m ev).
Proof.
  intros Hev Hs. destruct ev as [e|e|e|k ps rect|k|k]; simpl.
  - by apply handle_pointer_down_stuck.
  - by apply listener_stuck, handle_pointer_move_call_stuck.
  - by apply handle_pointer_up_stuck.
  - apply draggable_stuck; [|done]. intros ->. by eapply Hev.
  - by apply listener_stuck, update_stuck.
  - by apply listener_stuck, destroy_stuck.
Qed.

Lemma run_stuck n m evs :
  Forall (fun ev => forall ps rect, ev <> Attach n ps rect) evs ->
  stuck n m -> stuck n (run m evs).
Proof.
  intros Hevs. revert m. induction Hevs as [|ev evs Hev _ IH]; intros m Hs; simpl; [done|].
  by apply IH, step_stuck.
Qed.

(** With the flag raised a chain calls only handlers of plugins whose
    [cancelable] is [false]. *)
Lemma run_plugins_loop_cancelled ps h e i m :
  current_drag_hook_cancelled i = true ->
  exists l,
    trace (run_plugins_loop ps h e i m).2 = trace m ++ l
    /\ Forall (called_by (filter (fun p => cancelable p = Some false) ps)) l.
Proof.
  revert i m. induction ps as [|plugin ps IH]; intros i m Hflag; cbn [run_plugins_loop].
  { exists []. by rewrite app_nil_r. }
  assert (forall l, Forall (called_by (filter (fun p => cancelable p = Some false) ps)) l ->
                    Forall (called_by (filter (fun p => cancelable p = Some false)
                                              (plugin :: ps))) l) as Hmono.
  { intros l. apply Forall_impl. intros [] H; try done.
    destruct H as (q & Hq & ?). exists q. split; [|done].
    rewrite filter_cons. case_decide; [by right|done]. }
  destruct (handler_of plugin h) as [f|] eqn:Hf.
  2:{ destruct (IH i m Hflag) as (l & ? & ?). exists l. auto. }
  rewrite Hflag. simpl. case_bool_decide as Hc; simpl.
  2:{ destruct (IH i m Hflag) as (l & ? & ?). exists l. auto. }
  pose proof (delegated_invoke_trace plugin h f e i m) as Htr.
  pose proof (invoke_keeps_flag plugin h f e i m) as [_ Hkeep]. unfold after in Hkeep.
  assert (called_by (filter (fun p => cancelable p = Some false) (plugin :: ps))
            (Called (ident plugin) (name plugin) h)) as Hcalled.
  { exists plugin. split; [|done]. rewrite filter_cons. case_decide; [by left|done]. }
  destruct (invoke plugin h f e i m) as [[[[]|err] i1] m1]; simpl in *.
  - destruct (IH i1 m1 (Hkeep Hflag)) as (l & Hl & HF).
    exists (Called (ident plugin) (name plugin) h :: l). split.
    + by rewrite Hl, Htr, <- app_assoc.
    + constructor; [done|auto].
  - exists [Called (ident plugin) (name plugin) h]. split; [done|]. by repeat constructor.
  - unfold report_error. destruct (onError m1); simpl.
    + eexists [_; _]. split; [by rewrite Htr, <- app_assoc|]. by repeat constructor.
    + exists [Called (ident plugin) (name plugin) h]. split; [done|]. by repeat constructor.
Qed.








Lemma releasing_instances i m : instances (releasing i m) = instances m.
Proof. unfold releasing. by repeat case_match. Qed.















End Delegated.

(** * The claims *)

Section DragCommitClaim.



End DragCommitClaim.

Section EffectQueueClaim.




End EffectQueueClaim.

Section PriorityOrderClaim.

(** C3.  The chain of the delegated engine is sorted by descending
    priority, but the chain of the single-instance engine is sorted by
    ascending priority: with the user plugins [low] of priority 1 and [high]
    of priority 2, every phase of the single-instance engine calls [low]
    before [high], where the delegated engine calls [high] before [low]. *)
Theorem single_engine_runs_lowest_priority_first :
  (forall new_plugins m,
     StronglySorted
       (fun a b => CreateDraggable.priority_or_zero b ≤ CreateDraggable.priority_or_zero a)
       (CreateDraggable.initialize_plugins new_plugins m))
  /\ (forall all,
       StronglySorted
         (fun a b => Draggable.priority_or_zero a ≤ Draggable.priority_or_zero b)
         (Draggable.order_plugins all))
  /\ called (Draggable.trace
               (Draggable.run
                  (Sample.single_with [Sample.onlooker 10 "low" (Some (num 1));
                                       Sample.onlooker 11 "high" (Some (num 2))])
                  Sample.press_and_move))
     = [(0, Setup); (1, Setup); (2, Setup); (10, Setup); (11, Setup);
        (0, Hook DragStart); (1, Hook DragStart); (2, Hook DragStart);
        (10, Hook DragStart); (11, Hook DragStart);
        (0, Hook Drag); (3, Hook Drag); (10, Hook Drag); (11, Hook Drag)]%nat
  /\ called (CreateDraggable.trace
               (CreateDraggable.run
                  (Sample.delegated_with [Sample.watcher 10 "low" (Some (num 1));
                                          Sample.watcher 11 "high" (Some (num 2))])
                  [CreateDraggable.PointerDown (Sample.at_ 0 0)]))
     = [(11, Setup); (10, Setup)]%nat.
Proof.
  split; [exact SortFacts.initialize_plugins_descending|].
  split; [exact SortFacts.order_plugins_ascending|].
  split; vm_compute; reflexivity.
Qed.

End PriorityOrderClaim.

Section DuplicateNameClaim.

(** C4.  With two user plugins named [p], of priorities 1 and 2, the chain
    of the single-instance engine holds the plugin of priority 2 only, yet
    [draggable] has called the [setup] of both; with equal priorities the
    earlier registration stays in the chain.  The delegated engine calls
    the [setup] of the survivor only. *)
Theorem single_engine_sets_up_replaced_plugin :
  Draggable.ident <$> Draggable.ordered_plugins
                        (Sample.single_with [Sample.onlooker 10 "p" (Some (num 1));
                                             Sample.onlooker 11 "p" (Some (num 2))])
  = [0; 1; 2; 3; 11]%nat
  /\ called (Draggable.trace
               (Sample.single_with [Sample.onlooker 10 "p" (Some (num 1));
                                    Sample.onlooker 11 "p" (Some (num 2))]))
     = [(0, Setup); (1, Setup); (2, Setup); (10, Setup); (11, Setup)]%nat
  /\ Draggable.ident <$> Draggable.ordered_plugins
                           (Sample.single_with [Sample.onlooker 10 "p" (Some (num 2));
                                                Sample.onlooker 11 "p" (Some (num 2))])
     = [0; 1; 2; 3; 10]%nat
  /\ called (CreateDraggable.trace
               (Sample.delegated_with [Sample.watcher 10 "p" (Some (num 1));
                                       Sample.watcher 11 "p" (Some (num 2))]))
     = [(11, Setup)]%nat.
Proof. repeat split; vm_compute; reflexivity. Qed.

End DuplicateNameClaim.

Section LifecycleClaim.




End LifecycleClaim.

Section HookExceptionClaim.
Import CreateDraggable Delegated.



End HookExceptionClaim.

Section PointerUpClaim.




End PointerUpClaim.

Section AxisClaim.
Import Draggable SingleInstance.

(** C8.  With the axis plugin configured to [x], no sequence of pointer
    events changes the committed vertical offset: on every move the plugin
    proposes [null] for the locked axis, and a [null] proposal commits as
    zero, in the delegated engine as well.  With the axis configured to
    [none], [shouldDrag] vetoes: no interaction ever starts, and no chain
    other than [shouldDrag] is ever dispatched. *)
Theorem axis_locks_vertical_offset
    (id : nat) (node : node) (th : option Threshold) (rect : DOMRect) (d : document)
    (evs : list event) :
  (let s0 := (draggable node {| plugins := Some [axis id axis_x]; threshold := th |} rect d).2 in
   y_offset (run s0 evs) = y_offset s0
   /\ forall f c e d',
        drag (axis id axis_x) = Some f ->
        calls (f c (private_states s0 !! "neodrag:axis") e d')
        = [propose {| nx := nx (proposed c); ny := None |}])
  /\ or_zero None = 0
  /\ (forall f c st e d',
        shouldDrag (axis id none) = Some f -> returns (f c st e d') = Return false)
  /\ (let s := run (draggable node {| plugins := Some [axis id none]; threshold := th |}
                      rect d).2 evs in
      is_interacting s = false /\ is_dragging s = false
      /\ x_offset s = 0 /\ y_offset s = 0
      /\ Forall (fun h => h = ShouldDrag) (dispatched (trace s)))
  /\ (forall e instance m,
        let chain :=
          CreateDraggable.run_plugins (CreateDraggable.proposing e instance) Drag e
            (CreateDraggable.set_doc
               (CreateDraggable.e_preventDefault (CreateDraggable.doc m)) m) in
        ny (CreateDraggable.proposed (CreateDraggable.ctx chain.1.2)) = None ->
        y (CreateDraggable.offset
             (CreateDraggable.ctx (CreateDraggable.drag_move e instance m).1.2))
        = y (CreateDraggable.offset (CreateDraggable.ctx instance))).
Proof.
  split_and!.
  - destruct (draggable_with_axis id axis_x node th rect d) as (Hinv & _).
    split.
    + apply (axis_x_run id default_plugins); [apply default_plugin_names|exact Hinv].
    + intros f c e d' [= <-]. destruct Hinv as (_ & -> & _). done.
  - done.
  - by intros f c st e d' [= <-].
  - destruct (draggable_with_axis id none node th rect d)
      as ((Hord & _) & Hx & Hy & Hint & Hdisp).
    set (s0 := (draggable _ _ _ _).2) in *.
    destruct (never_started_run (axis id none)
                (fun _ st _ d => {| calls := []; state_after := st; document_after := d;
                                    returns := Return false |}) s0 evs)
      as [[H1 H2] Hv]; try done.
    { rewrite Hord. apply elem_of_app. right. by apply list_elem_of_singleton. }
    apply engine_vars_inv in Hv as (_ & _ & _ & _ & Hdrag & Hx' & Hy' & _).
    split_and!; try done; try congruence.
  - intros e instance m chain Hnull.
    pose proof (Delegated.delegated_drag_move_commit e instance m) as H. simpl in H.
    fold chain in H. rewrite Hnull in H.
    destruct chain.1.1; [|by rewrite H].
    destruct (CreateDraggable.flush_effects _ _).1.1; rewrite H; [|done].
    simpl. ring.
Qed.

End AxisClaim.

Section GridClaim.
Import Draggable SingleInstance.



End GridClaim.

Section CancellationFlagClaim.
Import CreateDraggable Delegated.

(** C10.  In the delegated engine [ctx.cancel()] raises the instance's
    [current_drag_hook_cancelled] flag, and nothing lowers it: after any
    sequence of pointer events, updates and destructions (short of a new
    [draggable] call for the node, which makes a new instance) the flag of
    the instance is still raised, and every chain then calls only handlers
    of plugins whose [cancelable] is [false]. *)
Theorem cancellation_flag_is_never_reset
    (m : manager) (n : node) (instance instance' : DraggableInstance)
    (evs : list event) (h : hook) (e : PointerEvent) :
  instances m !! n = Some instance ->
  current_drag_hook_cancelled instance = true ->
  Forall (fun ev => forall ps rect, ev <> Attach n ps rect) evs ->
  instances (run m evs) !! n = Some instance' ->
  (forall owner i0 m0,
     current_drag_hook_cancelled (ctx_apply owner (i0, m0) cancel).1 = true)
  /\ current_drag_hook_cancelled instance' = true
  /\ exists l,
       trace (run_plugins instance' h e (run m evs)).2
       = trace (run m evs) ++ Dispatch h :: l
       /\ Forall (called_by (filter (fun p => cancelable p = Some false)
                                    (plugins instance'))) l.
Proof.
  intros Hn Hflag Hevs Hn'. split; [done|].
  assert (current_drag_hook_cancelled instance' = true) as Hflag'.
  { pose proof (run_stuck n m evs Hevs) as Hs. unfold stuck in Hs.
    rewrite Hn, Hn' in Hs. by apply Hs. }
  split; [done|]. unfold run_plugins.
  destruct (run_plugins_loop_cancelled (plugins (set_dragstart_prevented false instance'))
              h e (set_dragstart_prevented false instance')
              (log (Dispatch h) (run m evs)) Hflag') as (l & Hl & HF).
  exists l. split; [|done]. rewrite Hl. simpl. by rewrite <- app_assoc.
Qed.

(** The theorem at an instance whose flag a plugin raised during a first
    interaction, followed by the release and a second press and move. *)
Lemma cancellation_flag_is_never_reset_witness :
  current_drag_hook_cancelled
    (Sample.instance_of 7%nat
       (run Sample.delegated_cancelled
          [PointerUp (Sample.at_ 100 100); PointerDown (Sample.at_ 5 5);
           PointerMove (Sample.at_ 50 50)])) = true.
Proof.
  refine (proj1 (proj2 (cancellation_flag_is_never_reset Sample.delegated_cancelled 7%nat
                          (Sample.instance_of 7%nat Sample.delegated_cancelled)
                          (Sample.instance_of 7%nat
                             (run Sample.delegated_cancelled
                                [PointerUp (Sample.at_ 100 100); PointerDown (Sample.at_ 5 5);
                                 PointerMove (Sample.at_ 50 50)]))
                          [PointerUp (Sample.at_ 100 100); PointerDown (Sample.at_ 5 5);
                           PointerMove (Sample.at_ 50 50)]
                          Drag (Sample.at_ 60 60)
                          ltac:(vm_compute; reflexivity) ltac:(vm_compute; reflexivity)
                          _ ltac:(vm_compute; reflexivity)))).
  repeat constructor; intros; discriminate.
Defined.

End CancellationFlagClaim.

(** * Single-instance engine: further facts *)

Module SingleMore.
Import Draggable SingleInstance SingleSpec.


(** ** The state [draggable] returns, for any options *)

Lemma initialize_state_fresh plugin s :
  engine_vars (initialize_state plugin s).2 = engine_vars s
  /\ dispatched (trace (initialize_state plugin s).2) = dispatched (trace s).
Proof.
  unfold initialize_state. destruct (setup plugin) as [f|]; [|done].
  set (r := f _ _).
  pose proof (ctx_calls_trace (name plugin) (setup_calls r)
                (log (Called (ident plugin) (name plugin) Setup) s)) as Htr.
  pose proof (ctx_calls_engine_vars (name plugin) (setup_calls r)
                (log (Called (ident plugin) (name plugin) Setup) s)) as Hvars.
  assert (dispatched (trace (foldl (ctx_apply (name plugin))
                               (log (Called (ident plugin) (name plugin) Setup) s)
                               (setup_calls r))) = dispatched (trace s)) as Hd.
  { rewrite Htr. simpl. rewrite dispatched_app. simpl. by rewrite app_nil_r. }
  destruct (setup_returns r) as [[st|]|err]; simpl; done.
Qed.

Lemma initialize_states_fresh all s :
  engine_vars (initialize_states all s).2 = engine_vars s
  /\ dispatched (trace (initialize_states all s).2) = dispatched (trace s).
Proof.
  revert s. induction all as [|plugin all IH]; intros s; [done|].
  cbn [initialize_states].
  destruct (initialize_state_fresh plugin s) as [H1 H2].
  destruct (initialize_state plugin s) as [[[]|err] s1]; simpl in *; [|done].
  destruct (IH s1) as [H3 H4]. split; congruence.
Qed.

Lemma draggable_fresh root options rect d :
  let s := (draggable root options rect d).2 in
  ordered_plugins s = order_plugins (default_plugins ++ default [] (plugins options))
  /\ the_threshold s = default default_threshold (threshold options)
  /\ is_interacting s = false /\ is_dragging s = false
  /\ x_offset s = 0 /\ y_offset s = 0
  /\ dispatched (trace s) = [].
Proof.
  unfold draggable.
  match goal with
  | |- context [initialize_states ?all ?s] =>
      destruct (initialize_states_fresh all s) as [Hv Hd];
      destruct (initialize_states all s) as [[[]|err] s1]
  end; simpl in *;
    apply engine_vars_inv in Hv as (? & ? & _ & ? & ? & ? & ? & _); by split_and!.
Qed.

(** ** Dragging implies interacting *)

Lemma try_start_drag_dragging e s :
  (is_dragging s = true -> is_interacting s = true) ->
  is_interacting (try_start_drag e s).2 = is_interacting s
  /\ (is_dragging (try_start_drag e s).2 = true -> is_interacting s = true).
Proof.
  intros H. unfold try_start_drag.
  destruct (is_interacting s) eqn:Hint; simpl; [|by split].
  destruct (_ && _); [|by split].
  pose proof (run_plugins_engine_vars DragStart e (set_delta_var {| x := 0; y := 0 |} s)) as H1.
  apply engine_vars_inv in H1 as (_ & _ & _ & Hi1 & _). simpl in Hi1.
  destruct (run_plugins DragStart e _) as [[[]|err] s1]; simpl in *; try (split; congruence).
  pose proof (flush_effects_engine_vars s1) as H2.
  apply engine_vars_inv in H2 as (_ & _ & _ & Hi2 & _).
  destruct (flush_effects s1) as [[[]|err] s2]; simpl in *; split; congruence.
Qed.

Lemma drag_move_flags e s :
  is_interacting (drag_move e s).2 = is_interacting s
  /\ is_dragging (drag_move e s).2 = is_dragging s.
Proof.
  unfold drag_move. fold (proposing e s).
  pose proof (run_plugins_engine_vars Drag e (proposing e s)) as H1.
  apply engine_vars_inv in H1 as (_ & _ & _ & Hi1 & Hd1 & _). simpl in Hi1, Hd1.
  destruct (run_plugins Drag e _) as [[[]|err] s1]; simpl in *; try done.
  pose proof (flush_effects_engine_vars s1) as H2.
  apply engine_vars_inv in H2 as (_ & _ & _ & Hi2 & Hd2 & _).
  destruct (flush_effects s1) as [[[]|err] s2]; simpl in *; split; congruence.
Qed.


Lemma listener_flags r :
  is_interacting (listener r) = is_interacting r.2
  /\ is_dragging (listener r) = is_dragging r.2.
Proof. by destruct r as [[[]|err] s]. Qed.

Lemma pointerdown_flags e s :
  is_dragging (pointerdown e s) = is_dragging s
  /\ (is_interacting s = true -> is_interacting (pointerdown e s) = true).
Proof.
  unfold pointerdown. case_bool_decide; [done|].
  pose proof (run_plugins_engine_vars ShouldDrag e s) as H1.
  apply engine_vars_inv in H1 as (_ & _ & _ & Hi1 & Hd1 & _).
  destruct (run_plugins ShouldDrag e s) as [[[]|err] s1]; simpl in *;
    [|split; congruence..].
  destruct (contains_target e _); simpl; [|split; congruence].
  split; [rewrite <- Hd1|intros _]; by repeat case_match.
Qed.

Lemma pointerdown_dragging_interacts e s :
  dragging_interacts s -> dragging_interacts (pointerdown e s).
Proof.
  intros H Hd. destruct (pointerdown_flags e s) as [H1 H2].
  rewrite H1 in Hd. by apply H2, H.
Qed.

Lemma check_time_threshold_flags e s :
  dragging_interacts s ->
  is_interacting (check_time_threshold e s).2 = is_interacting s
  /\ dragging_interacts (check_time_threshold e s).2.
Proof.
  intros H. unfold check_time_threshold.
  destruct (meets_time_threshold s); [done|].
  destruct (geb_undefined _ _); [|done].
  destruct (try_start_drag_dragging e (set_meets_time_threshold true s) H) as [H1 H2].
  split; [exact H1|]. intros Hd. rewrite H1. by apply H2.
Qed.

Lemma check_distance_threshold_flags e s :
  dragging_interacts s ->
  is_interacting (check_distance_threshold e s).2 = is_interacting s
  /\ dragging_interacts (check_distance_threshold e s).2.
Proof.
  intros H. unfold check_distance_threshold.
  destruct (meets_distance_threshold s); [done|].
  destruct (geb_undefined _ _); [|done].
  destruct (try_start_drag_dragging e (set_meets_distance_threshold true s) H) as [H1 H2].
  split; [exact H1|]. intros Hd. rewrite H1. by apply H2.
Qed.

Lemma drag_move_dragging_interacts e s :
  dragging_interacts s -> dragging_interacts (listener (drag_move e s)).
Proof.
  intros H. unfold dragging_interacts.
  destruct (listener_flags (drag_move e s)) as [-> ->].
  by destruct (drag_move_flags e s) as [-> ->].
Qed.

Lemma pointermove_dragging_interacts e s :
  dragging_interacts s -> dragging_interacts (pointermove e s).
Proof.
  intros H. unfold pointermove. destruct (is_interacting s) eqn:Hint; simpl; [|done].
  destruct (is_dragging s) eqn:Hdrag; [by apply drag_move_dragging_interacts|].
  destruct (check_time_threshold_flags e s H) as [_ H1].
  destruct (check_time_threshold e s) as [[[]|err] s1]; simpl in *; [|exact H1].
  destruct (check_distance_threshold_flags e s1 H1) as [_ H2].
  destruct (check_distance_threshold e s1) as [[[]|err] s2]; simpl in *; [|exact H2].
  destruct (is_dragging s2); simpl; [|done]. by apply drag_move_dragging_interacts.
Qed.

Lemma pointerup_dragging_interacts e s :
  dragging_interacts s -> dragging_interacts (pointerup e s).
Proof.
  intros H. unfold pointerup. destruct (is_interacting s) eqn:Hint; simpl; [|done].
  fold (releasing s).
  pose proof (run_plugins_engine_vars DragEnd e (releasing s)) as H1.
  apply engine_vars_inv in H1 as (_ & _ & _ & Hi1 & Hd1 & _).
  assert (is_interacting (releasing s) = true) as Hr
    by (unfold releasing; by case_match).
  destruct (run_plugins DragEnd e (releasing s)) as [[b|err] s1]; simpl in *.
  - by intros Hd.
  - intros _. simpl. congruence.
Qed.

Lemma run_dragging_interacts s evs :
  dragging_interacts s -> dragging_interacts (run s evs).
Proof.
  revert s. induction evs as [|ev evs IH]; intros s H; [done|].
  simpl. apply IH. destruct ev; simpl;
    [by apply pointerdown_dragging_interacts|by apply pointermove_dragging_interacts
    |by apply pointerup_dragging_interacts].
Qed.





(** ** Thresholds *)

Lemma geb_undefined_lt a b :
  (forall t, b = Some t -> a < t) -> geb_undefined a b = false.
Proof.
  intros H. destruct b as [t|]; [|done]. simpl. unfold geb.
  destruct (Qle_bool t a) eqn:Hle; [|done].
  apply Qle_bool_iff in Hle. specialize (H t eq_refl).
  exfalso. by apply (Qclt_not_le a t).
Qed.

Lemma try_start_drag_unmet e s :
  meets_distance_threshold s && meets_time_threshold s = false ->
  try_start_drag e s = (Return (), s).
Proof.
  intros H. unfold try_start_drag.
  destruct (is_interacting s), (is_dragging s), (meets_distance_threshold s),
    (meets_time_threshold s); simpl in *; done.
Qed.

Lemma pointermove_unmet e s :
  is_dragging s = false ->
  (meets_time_threshold s = false
   /\ forall t, delay (the_threshold s) = Some t -> Date_now e - start_time s < t)
  \/ (meets_distance_threshold s = false
      /\ forall dd, distance (the_threshold s) = Some dd ->
           (clientX e - initial_x s) * (clientX e - initial_x s)
           + (clientY e - initial_y s) * (clientY e - initial_y s) < dd * dd) ->
  let s' := pointermove e s in
  trace s' = trace s /\ is_dragging s' = false /\ is_interacting s' = is_interacting s
  /\ x_offset s' = x_offset s /\ y_offset s' = y_offset s
  /\ effects_to_run s' = effects_to_run s /\ doc s' = doc s.
Proof.
  intros Hdrag Hunmet. unfold pointermove.
  destruct (is_interacting s) eqn:Hint; simpl; [|done]. rewrite Hdrag.
  destruct Hunmet as [[Htime Hlt]|[Hdist Hlt]].
  - unfold check_time_threshold. rewrite Htime.
    rewrite (geb_undefined_lt _ _ Hlt).
    unfold check_distance_threshold.
    destruct (meets_distance_threshold s) eqn:Hd; simpl; [by rewrite Hdrag|].
    destruct (geb_undefined _ _); simpl; [|by rewrite Hdrag].
    rewrite try_start_drag_unmet by (simpl; by rewrite Htime).
    simpl. by rewrite Hdrag.
  - unfold check_time_threshold.
    assert (forall s0, meets_distance_threshold s0 = false -> is_dragging s0 = false ->
              distance (the_threshold s0) = distance (the_threshold s) ->
              initial_x s0 = initial_x s -> initial_y s0 = initial_y s ->
              let s1 := match check_distance_threshold e s0 with
                        | (Throw err, s1) => log (Uncaught err) s1
                        | (Return _, s1) =>
                            if negb (is_dragging s1) then s1 else listener (drag_move e s1)
                        end in
              s1 = s0) as Hcheck.
    { intros s0 Hd0 Hdrag0 Heq Hx Hy. unfold check_distance_threshold. rewrite Hd0.
      rewrite geb_undefined_lt; [simpl; by rewrite Hdrag0|].
      intros t Ht. rewrite Heq in Ht. destruct (distance (the_threshold s)) as [dd|]; [|done].
      simpl in Ht. injection Ht as <-. rewrite Hx, Hy. by apply Hlt. }
    destruct (meets_time_threshold s) eqn:Htime; simpl.
    { by rewrite (Hcheck s). }
    destruct (geb_undefined _ _); simpl; [|by rewrite (Hcheck s)].
    rewrite try_start_drag_unmet by (simpl; by rewrite Hdist).
    simpl. by rewrite (Hcheck (set_meets_time_threshold true s)).
Qed.

(** ** Moves that no plugin rewrites *)





Lemma pointerdown_anchor e s :
  (run_plugins ShouldDrag e s).1 = Return true ->
  contains_target e (currently_dragged_element (run_plugins ShouldDrag e s).2) = true ->
  let s0 := (run_plugins ShouldDrag e s).2 in
  let s' := pointerdown e s in
  let k := calculate_inverse_scale e
             (set_cached_root_node_rect (getBoundingClientRect e (the_node s)) s0) in
  button e <> 2%Z ->
  is_interacting s' = true
  /\ (is_Some (nx (proposals s0)) -> initial_x s' = clientX e - x_offset s / k)
  /\ (is_Some (ny (proposals s0)) -> initial_y s' = clientY e - y_offset s / k).
Proof.
  intros Hchain Htarget s0 s' k Hbutton. subst s' k s0. unfold pointerdown.
  rewrite bool_decide_eq_false_2 by done.
  pose proof (run_plugins_engine_vars ShouldDrag e s) as Hv.
  apply engine_vars_inv in Hv as (_ & _ & Hnode & _ & _ & Hx & Hy & _).
  destruct (run_plugins ShouldDrag e s) as [r s1]. simpl in *. subst r.
  rewrite Htarget. simpl.
  unfold calculate_inverse_scale. simpl. rewrite <- Hx, <- Hy.
  destruct (negb (truthy (delay (the_threshold s1)))); simpl.
  - split_and!.
    + destruct (nx (proposals s1)); simpl; destruct (ny (proposals s1)); simpl; done.
    + intros [v Hv]. rewrite Hv. simpl. destruct (ny (proposals s1)); simpl; by rewrite Hnode.
    + intros [v Hv]. destruct (nx (proposals s1)); simpl; rewrite Hv; simpl; by rewrite Hnode.
  - split_and!.
    + destruct (nx (proposals s1)); simpl; destruct (ny (proposals s1)); simpl; done.
    + intros [v Hv]. rewrite Hv. simpl. destruct (ny (proposals s1)); simpl; by rewrite Hnode.
    + intros [v Hv]. destruct (nx (proposals s1)); simpl; rewrite Hv; simpl; by rewrite Hnode.
Qed.





(** ** Stepping through a chain *)

Lemma run_plugins_loop_skip plugin rest h e s :
  handler_of plugin h = None ->
  run_plugins_loop (plugin :: rest) h e s = run_plugins_loop rest h e s.
Proof. intros H. cbn [run_plugins_loop]. by rewrite H. Qed.

Lemma run_plugins_loop_next plugin rest h e s f s1 :
  handler_of plugin h = Some f ->
  invoke plugin h f e s = (Return true, s1) ->
  current_drag_hook_cancelled s1 = false ->
  run_plugins_loop (plugin :: rest) h e s = run_plugins_loop rest h e s1.
Proof. intros H1 H2 H3. cbn [run_plugins_loop]. by rewrite H1, H2, H3. Qed.

Lemma run_plugins_loop_cancel plugin rest h e s f s1 :
  handler_of plugin h = Some f ->
  invoke plugin h f e s = (Return true, s1) ->
  current_drag_hook_cancelled s1 = true ->
  run_plugins_loop (plugin :: rest) h e s
  = (Return false, set_current_drag_hook_cancelled false s1).
Proof. intros H1 H2 H3. cbn [run_plugins_loop]. by rewrite H1, H2, H3. Qed.


Lemma invoke_unfold plugin h f e s :
  let r := f (ctx s) (private_states s !! name plugin) e (doc s) in
  invoke plugin h f e s
  = (returns r, after_calls plugin h (calls r) (state_after r) (document_after r) s).
Proof.
  unfold invoke, after_calls. simpl.
  by rewrite ctx_calls_private_states.
Qed.


Lemma run_effect_unfold owner func s :
  let r := body func (ctx s) (private_states s !! owner) (doc s) in
  run_effect owner func s
  = (effect_completes r,
     set_doc (effect_document r)
       (set_private_states (store_state owner (effect_state r) (private_states s))
          (log (Ran (closure func)) s))).
Proof. reflexivity. Qed.

Lemma run_plugins_loop_step plugin rest h e s f :
  handler_of plugin h = Some f ->
  returns (f (ctx s) (private_states s !! name plugin) e (doc s)) = Return true ->
  run_plugins_loop (plugin :: rest) h e s
  = let r := f (ctx s) (private_states s !! name plugin) e (doc s) in
    let s1 := after_calls plugin h (calls r) (state_after r) (document_after r) s in
    if current_drag_hook_cancelled s1
    then (Return false, set_current_drag_hook_cancelled false s1)
    else run_plugins_loop rest h e s1.
Proof.
  intros Hf Hret. cbn [run_plugins_loop]. rewrite Hf.
  pose proof (invoke_unfold plugin h f e s) as H. cbv zeta in H. rewrite H, Hret.
  reflexivity.
Qed.

(** What [after_calls] leaves of the state, for the call lists of the
    built-in plugins. *)
Lemma after_calls_nil plugin h st d s :
  after_calls plugin h [] st d s
  = set_doc d (set_private_states (store_state (name plugin) st (private_states s))
                 (log (Called (ident plugin) (name plugin) h) s)).
Proof. reflexivity. Qed.

Lemma after_calls_effect plugin h func st d s :
  after_calls plugin h [effect func] st d s
  = set_doc d (set_private_states (store_state (name plugin) st (private_states s))
                 (set_effects_to_run (add_effect (name plugin) func (effects_to_run s))
                    (log (Called (ident plugin) (name plugin) h) s))).
Proof. reflexivity. Qed.

Lemma after_calls_cancel plugin h st d s :
  after_calls plugin h [cancel] st d s
  = set_doc d (set_private_states (store_state (name plugin) st (private_states s))
                 (set_current_drag_hook_cancelled true
                    (log (Called (ident plugin) (name plugin) h) s))).
Proof. reflexivity. Qed.

Lemma store_state_id key (m : gmap string any) : store_state key (m !! key) m = m.
Proof.
  unfold store_state. destruct (m !! key) as [v|] eqn:H; [|done]. by apply insert_id.
Qed.

Lemma store_state_known key v (m : gmap string any) :
  m !! key = Some v -> store_state key (Some v) m = m.
Proof. intros H. rewrite <- H. apply store_state_id. Qed.

Ltac fields :=
  cbn [engine_vars doc proposals private_states current_drag_hook_cancelled trace
       effects_to_run set_doc set_private_states log set_trace set_effects_to_run
       set_current_drag_hook_cancelled set_proposals set_delta_var set_is_dragging
       set_is_interacting set_x_offset set_y_offset set_initial_x set_initial_y
       set_meets_time_threshold set_meets_distance_threshold set_start_time
       set_cached_root_node_rect set_currently_dragged_element
       cached_root_node_rect currently_dragged_element
       the_node the_threshold ordered_plugins is_interacting is_dragging start_time
       meets_time_threshold meets_distance_threshold x_offset y_offset initial_x initial_y
       delta_var].

(** The [drag] chain of the default plugins while at most one pointer is
    registered: only [transform] queues a closure. *)
Lemma run_plugins_default_drag e s ps saved :
  default_engine s ps saved -> (size ps <= 1)%nat ->
  exists s1,
    run_plugins Drag e s = (Return true, s1)
    /\ engine_vars s1 = engine_vars s
    /\ doc s1 = doc s /\ proposals s1 = proposals s
    /\ private_states s1 = private_states s
    /\ current_drag_hook_cancelled s1 = false
    /\ trace s1 = trace s ++ [Dispatch Drag; Called 0 "neodrag:ignoreMultitouch" Drag;
                               Called 3 "neodrag:transform" Drag]
    /\ effects_to_run s1
       = [("neodrag:transform",
           {| closure := (3, 0)%nat;
              body := fun c st d =>
                {| effect_state := st;
                   effect_document := set_translate (Some (offset c)) d;
                   effect_completes := Return () |} |})].
Proof.
  intros (Hord & Hmt & Hus & Hflag & Hq) Hsize.
  unfold run_plugins. cbn [ordered_plugins log set_trace]. rewrite Hord.
  unfold default_plugins.
  erewrite run_plugins_loop_step; [|reflexivity|].
  2:{ cbn [name ignoreMultitouch private_states log set_trace drag].
      by rewrite Hmt. }
  cbv zeta.
  cbn [name ignoreMultitouch private_states log set_trace drag].
  rewrite Hmt. cbn [calls state_after document_after].
  rewrite bool_decide_eq_false_2 by lia.
  rewrite after_calls_nil. fields. cbn [name ident ignoreMultitouch].
  rewrite (store_state_known _ _ _ Hmt), Hflag.
  rewrite !run_plugins_loop_skip by reflexivity.
  erewrite run_plugins_loop_step; [|reflexivity|reflexivity].
  cbv zeta. cbn [drag transform calls state_after document_after].
  rewrite after_calls_effect. fields. cbn [name ident transform].
  rewrite store_state_id, Hflag, Hq. cbn [run_plugins_loop].
  eexists. split; [reflexivity|]. fields.
  rewrite <- !app_assoc.
  split_and!; reflexivity || assumption.
Qed.


Lemma run_effects_step owner func rest s :
  effect_completes (body func (ctx s) (private_states s !! owner) (doc s)) = Return () ->
  run_effects ((owner, func) :: rest) s
  = let r := body func (ctx s) (private_states s !! owner) (doc s) in
    run_effects rest (after_effect owner func (effect_state r) (effect_document r) s).
Proof.
  intros H. cbn [run_effects]. rewrite run_effect_unfold. cbv zeta. by rewrite H.
Qed.

(** A chain whose first handler is that of [ignoreMultitouch], while more
    than one pointer is registered: the handler cancels and the chain ends
    there. *)
Lemma run_plugins_multitouch_cancel id rest e s ps :
  ordered_plugins s = ignoreMultitouch id true :: rest ->
  private_states s !! "neodrag:ignoreMultitouch" = Some (ActivePointers ps) ->
  (1 < size ps)%nat ->
  exists s1,
    run_plugins Drag e s = (Return false, s1)
    /\ engine_vars s1 = engine_vars s
    /\ doc s1 = doc s /\ effects_to_run s1 = effects_to_run s
    /\ private_states s1 = private_states s
    /\ current_drag_hook_cancelled s1 = false
    /\ trace s1 = trace s ++ [Dispatch Drag; Called id "neodrag:ignoreMultitouch" Drag].
Proof.
  intros Hord Hmt Hsize.
  unfold run_plugins. cbn [ordered_plugins log set_trace]. rewrite Hord.
  erewrite run_plugins_loop_step; [|reflexivity|].
  2:{ cbn [name ignoreMultitouch private_states log set_trace drag].
      by rewrite Hmt. }
  cbv zeta.
  cbn [name ignoreMultitouch private_states log set_trace drag].
  rewrite Hmt. cbn [calls state_after document_after].
  rewrite bool_decide_eq_true_2 by lia.
  rewrite after_calls_cancel.
  cbn [current_drag_hook_cancelled set_doc set_private_states log set_trace
       set_current_drag_hook_cancelled].
  eexists. split; [reflexivity|].
  cbn [engine_vars doc proposals private_states current_drag_hook_cancelled trace
       effects_to_run set_doc set_private_states log set_trace set_effects_to_run
       set_current_drag_hook_cancelled name ident ignoreMultitouch
       the_node the_threshold ordered_plugins is_interacting is_dragging start_time
       meets_time_threshold meets_distance_threshold x_offset y_offset initial_x initial_y
       delta_var].
  rewrite <- !app_assoc.
  split_and!; try reflexivity.
  unfold store_state. rewrite Hmt. apply insert_id. exact Hmt.
Qed.


(** The flush that follows: the closure of [transform] renders the offset
    the context shows at that moment. *)
Lemma flush_effects_transform s T :
  effects_to_run s = [("neodrag:transform", T)] ->
  (forall c st d,
     body T c st d
     = {| effect_state := st;
          effect_document := set_translate (Some (offset c)) d;
          effect_completes := Return () |}) ->
  exists s2,
    flush_effects s = (Return (), s2)
    /\ engine_vars s2 = engine_vars s
    /\ doc s2 = set_translate (Some {| x := x_offset s; y := y_offset s |}) (doc s)
    /\ proposals s2 = proposals s
    /\ private_states s2 = private_states s
    /\ current_drag_hook_cancelled s2 = current_drag_hook_cancelled s
    /\ trace s2 = trace s ++ [Ran (closure T)]
    /\ effects_to_run s2 = [].
Proof.
  intros Hq HT. unfold flush_effects. rewrite Hq.
  rewrite run_effects_step by (by rewrite HT).
  cbv zeta. rewrite HT. cbn [effect_state effect_document run_effects].
  unfold after_effect, clear_effects. eexists. split; [reflexivity|]. fields.
  rewrite store_state_id. by split_and!.
Qed.

Lemma drag_move_default e s ps saved :
  default_engine s ps saved -> (size ps <= 1)%nat ->
  let s' := listener (drag_move e s) in
  default_engine s' ps saved
  /\ doc s' = set_translate (Some {| x := x_offset s; y := y_offset s |})
                (doc (e_preventDefault s))
  /\ x_offset s' = clientX e - initial_x s /\ y_offset s' = clientY e - initial_y s
  /\ is_interacting s' = is_interacting s /\ is_dragging s' = is_dragging s
  /\ trace s' = trace s ++ [Dispatch Drag; Called 0 "neodrag:ignoreMultitouch" Drag;
                            Called 3 "neodrag:transform" Drag; Ran (3, 0)%nat;
                            Fired neodrag (clientX e - initial_x s) (clientY e - initial_y s)].
Proof.
  intros Hdef Hsize s'. subst s'. unfold drag_move. fold (proposing e s).
  assert (default_engine (proposing e s) ps saved) as Hdef'.
  { destruct Hdef as (? & ? & ? & ? & ?). by split_and!. }
  destruct (run_plugins_default_drag e (proposing e s) ps saved Hdef' Hsize)
    as (s1 & -> & Hv1 & Hd1 & Hp1 & Hs1 & Hf1 & Ht1 & Hq1).
  edestruct (flush_effects_transform s1)
    as (s2 & -> & Hv2 & Hd2 & Hp2 & Hs2 & Hf2 & Ht2 & Hq2); [exact Hq1|done|].
  apply engine_vars_inv in Hv1 as (Ho1 & _ & _ & Hi1 & Hg1 & Hx1 & Hy1 & _).
  apply engine_vars_inv in Hv2 as (Ho2 & _ & _ & Hi2 & Hg2 & Hx2 & Hy2 & _).
  unfold proposing, e_preventDefault in *.
  cbn [ordered_plugins is_interacting is_dragging x_offset y_offset doc proposals
       private_states trace set_proposals set_delta_var set_doc initial_x initial_y
       x y delta_var] in *.
  cbn [listener]. unfold fire_svelte_drag_event, call_event. fields.
  rewrite Hp2, Hp1. cbn [nx ny or_zero default from_option id x y].
  rewrite Hx2, Hy2, Hx1, Hy1, Hd2, Hx1, Hy1, Hd1, Ht2, Ht1, Hi2, Hi1, Hg2, Hg1.
  replace (x_offset s + (clientX e - initial_x s - x_offset s)) with (clientX e - initial_x s)
    by ring.
  replace (y_offset s + (clientY e - initial_y s - y_offset s)) with (clientY e - initial_y s)
    by ring.
  rewrite <- !app_assoc.
  destruct Hdef as (Hord & Hmt & Hus & Hflag & Hq).
  split; [|by split_and!].
  unfold default_engine. fields. rewrite Ho2, Ho1, Hs2, Hs1, Hf2, Hf1, Hq2.
  by split_and!.
Qed.


(** A move while more than one pointer is registered and [ignoreMultitouch]
    heads the chain: cancelled, whatever the other plugins are. *)
Lemma drag_move_multitouch id rest e s ps :
  ordered_plugins s = ignoreMultitouch id true :: rest ->
  private_states s !! "neodrag:ignoreMultitouch" = Some (ActivePointers ps) ->
  (1 < size ps)%nat ->
  let s' := listener (drag_move e s) in
  engine_vars s' = engine_vars (proposing e s)
  /\ doc s' = doc (e_preventDefault s)
  /\ private_states s' = private_states s
  /\ current_drag_hook_cancelled s' = false
  /\ effects_to_run s' = []
  /\ trace s' = trace s ++ [Dispatch Drag; Called id "neodrag:ignoreMultitouch" Drag].
Proof.
  intros Hord Hmt Hsize s'. subst s'. unfold drag_move. fold (proposing e s).
  destruct (run_plugins_multitouch_cancel id rest e (proposing e s) ps Hord Hmt Hsize)
    as (s1 & -> & Hv1 & Hd1 & Hq1 & Hs1 & Hf1 & Ht1).
  cbn [listener]. unfold clear_effects. fields.
  rewrite Hd1, Hs1, Hf1, Ht1. by split_and!.
Qed.

Lemma add_effect_fresh owner func fns :
  closure func ∉ (closure ∘ snd) <$> fns ->
  add_effect owner func fns = fns ++ [(owner, func)].
Proof. intros H. unfold add_effect. by rewrite bool_decide_eq_false_2. Qed.

(** The [dragStart] chain of the default plugins: three closures are
    queued. *)
Lemma run_plugins_default_dragStart e s ps saved :
  default_engine s ps saved ->
  exists s1 E0 E1 E2,
    run_plugins DragStart e s = (Return true, s1)
    /\ engine_vars s1 = engine_vars s
    /\ doc s1 = doc s /\ proposals s1 = proposals s
    /\ private_states s1 = private_states s
    /\ current_drag_hook_cancelled s1 = false
    /\ trace s1 = trace s ++ [Dispatch DragStart;
                               Called 0 "neodrag:ignoreMultitouch" DragStart;
                               Called 1 "neodrag:classes" DragStart;
                               Called 2 "neodrag:applyUserSelectHack" DragStart]
    /\ effects_to_run s1
       = [("neodrag:ignoreMultitouch", E0); ("neodrag:classes", E1);
          ("neodrag:applyUserSelectHack", E2)]
    /\ closure E0 = (0, 0)%nat /\ closure E1 = (1, 0)%nat /\ closure E2 = (2, 0)%nat
    /\ (forall c qs d,
          body E0 c (Some (ActivePointers qs)) d
          = {| effect_state := Some (ActivePointers ({[pointerId e]} ∪ qs));
               effect_document :=
                 if bool_decide (1 < size ({[pointerId e]} ∪ qs))%nat
                 then event_preventDefault d else d;
               effect_completes := Return () |})
    /\ (forall c st d,
          body E1 c st d
          = {| effect_state := st;
               effect_document := classList_add "neodrag-dragging" d;
               effect_completes := Return () |})
    /\ (forall c v d,
          body E2 c (Some (BodyUserSelect v)) d
          = {| effect_state := Some (BodyUserSelect (body_user_select d));
               effect_document := set_body_user_select "none" d;
               effect_completes := Return () |}).
Proof.
  intros (Hord & Hmt & Hus & Hflag & Hq).
  unfold run_plugins. cbn [ordered_plugins log set_trace]. rewrite Hord.
  unfold default_plugins.
  erewrite run_plugins_loop_step; [|reflexivity|reflexivity].
  cbv zeta. cbn [dragStart ignoreMultitouch calls state_after document_after].
  rewrite after_calls_effect. fields. cbn [name ident ignoreMultitouch].
  rewrite store_state_id, Hflag, Hq.
  rewrite add_effect_fresh by apply not_elem_of_nil.
  erewrite run_plugins_loop_step; [|reflexivity|reflexivity].
  cbv zeta. cbn [dragStart classes calls state_after document_after].
  rewrite after_calls_effect. fields. cbn [name ident classes].
  rewrite store_state_id, Hflag.
  rewrite add_effect_fresh
    by (apply not_elem_of_cons; split; [discriminate|apply not_elem_of_nil]).
  erewrite run_plugins_loop_step; [|reflexivity|reflexivity].
  cbv zeta. cbn [dragStart applyUserSelectHack calls state_after document_after].
  rewrite after_calls_effect. fields. cbn [name ident applyUserSelectHack].
  rewrite store_state_id, Hflag.
  rewrite add_effect_fresh
    by (repeat (apply not_elem_of_cons; split; [discriminate|]); apply not_elem_of_nil).
  rewrite run_plugins_loop_skip by reflexivity. cbn [run_plugins_loop].
  do 4 eexists. split; [reflexivity|]. fields.
  rewrite <- !app_assoc. cbn [app closure body DEFAULT_CLASS class_dragging].
  split_and!; reflexivity || assumption.
Qed.


Lemma set_translate_fields v d :
  class_list (set_translate v d) = class_list d
  /\ body_user_select (set_translate v d) = body_user_select d.
Proof. done. Qed.

Lemma classList_add_body_user_select c d :
  body_user_select (classList_add c d) = body_user_select d.
Proof. unfold classList_add. by case_bool_decide. Qed.


Lemma flush_effects_default_dragStart e s ps saved E0 E1 E2 :
  private_states s !! "neodrag:ignoreMultitouch" = Some (ActivePointers ps) ->
  private_states s !! "neodrag:applyUserSelectHack" = Some (BodyUserSelect saved) ->
  effects_to_run s
  = [("neodrag:ignoreMultitouch", E0); ("neodrag:classes", E1);
     ("neodrag:applyUserSelectHack", E2)] ->
  (forall c qs d,
     body E0 c (Some (ActivePointers qs)) d
     = {| effect_state := Some (ActivePointers ({[pointerId e]} ∪ qs));
          effect_document :=
            if bool_decide (1 < size ({[pointerId e]} ∪ qs))%nat
            then event_preventDefault d else d;
          effect_completes := Return () |}) ->
  (forall c st d,
     body E1 c st d
     = {| effect_state := st;
          effect_document := classList_add "neodrag-dragging" d;
          effect_completes := Return () |}) ->
  (forall c v d,
     body E2 c (Some (BodyUserSelect v)) d
     = {| effect_state := Some (BodyUserSelect (body_user_select d));
          effect_document := set_body_user_select "none" d;
          effect_completes := Return () |}) ->
  exists s2,
    flush_effects s = (Return (), s2)
    /\ engine_vars s2 = engine_vars s
    /\ doc s2 = started_document (bool_decide (1 < size ({[pointerId e]} ∪ ps))%nat) (doc s)
    /\ proposals s2 = proposals s
    /\ ordered_plugins s2 = ordered_plugins s
    /\ private_states s2 !! "neodrag:ignoreMultitouch"
       = Some (ActivePointers ({[pointerId e]} ∪ ps))
    /\ private_states s2 !! "neodrag:applyUserSelectHack"
       = Some (BodyUserSelect (body_user_select (doc s)))
    /\ current_drag_hook_cancelled s2 = current_drag_hook_cancelled s
    /\ trace s2 = trace s ++ [Ran (closure E0); Ran (closure E1); Ran (closure E2)]
    /\ effects_to_run s2 = [].
Proof.
  intros Hmt Hus Hq H0 H1 H2. unfold flush_effects. rewrite Hq.
  rewrite run_effects_step by (by rewrite Hmt, H0).
  cbv zeta. rewrite Hmt, H0. cbn [effect_state effect_document].
  unfold after_effect at 1. fields.
  set (m1 := store_state "neodrag:ignoreMultitouch" _ (private_states s)).
  assert (m1 !! "neodrag:ignoreMultitouch" = Some (ActivePointers ({[pointerId e]} ∪ ps)))
    as Hm1 by (unfold m1, store_state; by rewrite Hmt, lookup_insert_eq).
  assert (m1 !! "neodrag:applyUserSelectHack" = Some (BodyUserSelect saved)) as Hm1'
    by (unfold m1; by rewrite store_state_ne).
  clearbody m1.
  rewrite run_effects_step by (by rewrite H1).
  cbv zeta. rewrite H1. cbn [effect_state effect_document].
  unfold after_effect at 1. fields. rewrite store_state_id.
  rewrite run_effects_step by (fields; by rewrite Hm1', H2).
  cbv zeta. fields. rewrite Hm1', H2. cbn [effect_state effect_document run_effects].
  unfold after_effect, clear_effects. eexists. split; [reflexivity|]. fields.
  set (m2 := store_state "neodrag:applyUserSelectHack" _ m1).
  assert (m2 !! "neodrag:ignoreMultitouch" = Some (ActivePointers ({[pointerId e]} ∪ ps)))
    as Hm2 by (unfold m2; by rewrite store_state_ne).
  assert (m2 !! "neodrag:applyUserSelectHack"
          = Some (BodyUserSelect
                    (body_user_select
                       (classList_add "neodrag-dragging"
                          (if bool_decide (1 < size ({[pointerId e]} ∪ ps))%nat
                           then event_preventDefault (doc s) else doc s))))) as Hm2'
    by (unfold m2, store_state; by rewrite Hm1', lookup_insert_eq).
  rewrite Hm2, Hm2', classList_add_body_user_select.
  rewrite <- !app_assoc. unfold started_document.
  split_and!; try reflexivity.
  by destruct (bool_decide _).
Qed.


(** [try_start_drag] with the default plugins, once both thresholds are
    met. *)
Lemma try_start_drag_default e s ps saved :
  default_engine s ps saved ->
  is_interacting s && negb (is_dragging s) && meets_distance_threshold s
  && meets_time_threshold s = true ->
  exists s',
    try_start_drag e s = (Return (), s')
    /\ default_engine s' ({[pointerId e]} ∪ ps) (body_user_select (doc s))
    /\ doc s' = started_document (bool_decide (1 < size ({[pointerId e]} ∪ ps))%nat) (doc s)
    /\ is_dragging s' = true /\ is_interacting s' = is_interacting s
    /\ x_offset s' = x_offset s /\ y_offset s' = y_offset s
    /\ initial_x s' = initial_x s /\ initial_y s' = initial_y s
    /\ the_threshold s' = the_threshold s
    /\ Forall (fun en => forall err, en <> Uncaught err)
         (drop (length (trace s)) (trace s'))
    /\ take (length (trace s)) (trace s') = trace s.
Proof.
  intros Hdef Hguard. unfold try_start_drag. rewrite Hguard.
  assert (default_engine (set_delta_var {| x := 0; y := 0 |} s) ps saved) as Hdef'.
  { destruct Hdef as (? & ? & ? & ? & ?). by split_and!. }
  destruct (run_plugins_default_dragStart e _ ps saved Hdef')
    as (s1 & E0 & E1 & E2 & -> & Hv1 & Hd1 & Hp1 & Hs1 & Hf1 & Ht1 & Hq1
        & Hc0 & Hc1 & Hc2 & H0 & H1 & H2).
  destruct Hdef as (Hord & Hmt & Hus & Hflag & Hq).
  edestruct (flush_effects_default_dragStart e s1 ps saved E0 E1 E2)
    as (s2 & -> & Hv2 & Hd2 & Hp2 & Ho2 & Hmt2 & Hus2 & Hf2 & Ht2 & Hq2);
    [by rewrite Hs1|by rewrite Hs1|done..|].
  apply engine_vars_inv in Hv1 as (Ho1 & Hth1 & _ & Hi1 & Hg1 & Hx1 & Hy1 & Hix1 & Hiy1).
  apply engine_vars_inv in Hv2 as (_ & Hth2 & _ & Hi2 & Hg2 & Hx2 & Hy2 & Hix2 & Hiy2).
  cbn [ordered_plugins is_interacting is_dragging x_offset y_offset doc proposals
       private_states trace set_delta_var initial_x initial_y the_threshold] in *.
  eexists. split; [reflexivity|].
  unfold fire_svelte_drag_start_event, call_event. fields.
  rewrite Hd2, Hd1, Hi2, Hi1, Hx2, Hx1, Hy2, Hy1, Hix2, Hix1, Hiy2, Hiy1, Hth2, Hth1.
  split.
  { unfold default_engine. fields. rewrite Ho2, Ho1, Hmt2, Hus2, Hd1, Hf2, Hf1, Hq2.
    by split_and!. }
  split_and!; try reflexivity.
  - rewrite Ht2, Ht1, <- !app_assoc, drop_app_length.
    repeat constructor; discriminate.
  - by rewrite Ht2, Ht1, <- !app_assoc, take_app_length.
Qed.

(** The [dragEnd] chain of the default plugins. *)
Lemma run_plugins_default_dragEnd e s ps saved :
  default_engine s ps saved ->
  exists s1,
    run_plugins DragEnd e s = (Return true, s1)
    /\ engine_vars s1 = engine_vars s
    /\ doc s1 = set_body_user_select saved
                  (classList_add "neodrag-dragged"
                     (classList_remove "neodrag-dragging" (doc s)))
    /\ proposals s1 = proposals s
    /\ private_states s1 !! "neodrag:ignoreMultitouch"
       = Some (ActivePointers (ps ∖ {[pointerId e]}))
    /\ private_states s1 !! "neodrag:applyUserSelectHack" = Some (BodyUserSelect saved)
    /\ current_drag_hook_cancelled s1 = false
    /\ effects_to_run s1 = []
    /\ trace s1 = trace s ++ [Dispatch DragEnd;
                               Called 0 "neodrag:ignoreMultitouch" DragEnd;
                               Called 1 "neodrag:classes" DragEnd;
                               Called 2 "neodrag:applyUserSelectHack" DragEnd].
Proof.
  intros (Hord & Hmt & Hus & Hflag & Hq).
  unfold run_plugins. cbn [ordered_plugins log set_trace]. rewrite Hord.
  unfold default_plugins.
  erewrite run_plugins_loop_step; [|reflexivity|].
  2:{ cbn [name ignoreMultitouch private_states log set_trace]. by rewrite Hmt. }
  cbv zeta. cbn [name ignoreMultitouch private_states log set_trace]. rewrite Hmt.
  unfold returns_undefined. cbn [calls state_after document_after].
  rewrite after_calls_nil. fields. cbn [name ident ignoreMultitouch].
  set (m1 := store_state "neodrag:ignoreMultitouch" _ (private_states s)).
  assert (m1 !! "neodrag:ignoreMultitouch" = Some (ActivePointers (ps ∖ {[pointerId e]})))
    as Hm1 by (unfold m1, store_state; by rewrite Hmt, lookup_insert_eq).
  assert (m1 !! "neodrag:applyUserSelectHack" = Some (BodyUserSelect saved)) as Hm1'
    by (unfold m1; by rewrite store_state_ne).
  clearbody m1. rewrite Hflag.
  erewrite run_plugins_loop_step; [|reflexivity|reflexivity].
  cbv zeta. cbn [dragEnd classes]. unfold returns_undefined.
  cbn [calls state_after document_after].
  rewrite after_calls_nil. fields. cbn [name ident classes].
  rewrite store_state_id, Hflag.
  erewrite run_plugins_loop_step; [|reflexivity|].
  2:{ cbn [name applyUserSelectHack private_states log set_trace]. fields.
      by rewrite Hm1'. }
  cbv zeta. cbn [name applyUserSelectHack]. fields. rewrite Hm1'.
  unfold returns_undefined. cbn [calls state_after document_after].
  rewrite after_calls_nil. fields. cbn [name ident applyUserSelectHack].
  rewrite (store_state_known _ _ _ Hm1'), Hflag.
  rewrite run_plugins_loop_skip by reflexivity. cbn [run_plugins_loop].
  eexists. split; [reflexivity|]. fields.
  rewrite <- !app_assoc. cbn [app DEFAULT_CLASS class_dragging class_dragged].
  split_and!; reflexivity || assumption.
Qed.


Lemma run_plugins_default_shouldDrag e s ps saved :
  default_engine s ps saved ->
  run_plugins ShouldDrag e s = (Return true, log (Dispatch ShouldDrag) s).
Proof.
  intros (Hord & _). unfold run_plugins. cbn [ordered_plugins log set_trace].
  rewrite Hord. unfold default_plugins.
  rewrite !run_plugins_loop_skip by reflexivity. reflexivity.
Qed.


Lemma pointerdown_default e s ps saved :
  default_engine s ps saved ->
  default_engine (pointerdown e s) ps saved
  /\ doc (pointerdown e s) = doc s
  /\ (no_uncaught (trace s) -> no_uncaught (trace (pointerdown e s))).
Proof.
  intros Hdef. unfold pointerdown. case_bool_decide; [done|].
  rewrite (run_plugins_default_shouldDrag e s ps saved Hdef).
  assert (no_uncaught (trace s) -> no_uncaught (trace (log (Dispatch ShouldDrag) s))) as Ht.
  { intros H1. cbn [log trace set_trace]. apply Forall_app. split; [done|].
    repeat constructor; discriminate. }
  destruct Hdef as (? & ? & ? & ? & ?).
  destruct (negb _); [by split_and!|].
  cbv zeta. fields.
  repeat case_match; fields; by split_and!.
Qed.

Lemma classList_add_remove_class_list a b d1 d2 :
  class_list d1 = class_list d2 ->
  class_list (classList_add a (classList_remove b d1))
  = class_list (classList_add a (classList_remove b d2)).
Proof.
  intros H. unfold classList_add, classList_remove.
  cbn [class_list set_class_list]. rewrite H.
  by case_bool_decide.
Qed.

Lemma classList_add_translate c d : translate (classList_add c d) = translate d.
Proof. unfold classList_add. by case_bool_decide. Qed.

Lemma pointerup_default e s ps saved :
  default_engine s ps saved ->
  is_interacting s = true ->
  let s' := pointerup e s in
  default_engine s' (ps ∖ {[pointerId e]}) saved
  /\ body_user_select (doc s') = saved
  /\ class_list (doc s')
     = class_list (classList_add "neodrag-dragged"
                     (classList_remove "neodrag-dragging" (doc s)))
  /\ translate (doc s') = translate (doc s)
  /\ is_interacting s' = false /\ is_dragging s' = false
  /\ x_offset s' = x_offset s /\ y_offset s' = y_offset s
  /\ (no_uncaught (trace s) -> no_uncaught (trace s')).
Proof.
  intros Hdef Hint. unfold pointerup. rewrite Hint. cbn [negb]. cbv zeta.
  set (s0 := if is_dragging s then listen_click_once s else s).
  assert (default_engine s0 ps saved) as Hdef0.
  { destruct Hdef as (? & ? & ? & ? & ?). unfold s0. by destruct (is_dragging s). }
  assert (engine_vars s0 = engine_vars s) as Hv0 by (unfold s0; by destruct (is_dragging s)).
  assert (trace s0 = trace s) as Ht0 by (unfold s0; by destruct (is_dragging s)).
  assert (class_list (doc s0) = class_list (doc s)
          /\ translate (doc s0) = translate (doc s)) as [Hc0 Htr0]
    by (unfold s0; by destruct (is_dragging s)).
  clearbody s0.
  destruct (run_plugins_default_dragEnd e s0 ps saved Hdef0)
    as (s1 & -> & Hv1 & Hd1 & Hp1 & Hmt1 & Hus1 & Hf1 & Hq1 & Ht1).
  destruct Hdef0 as (Hord & _).
  apply engine_vars_inv in Hv1 as (Ho1 & _ & _ & _ & _ & Hx1 & Hy1 & _).
  apply engine_vars_inv in Hv0 as (_ & _ & _ & _ & _ & Hx0 & Hy0 & _).
  assert (forall a b c : state, default_engine a (ps ∖ {[pointerId e]}) saved
            -> ordered_plugins b = ordered_plugins a
            -> private_states b = private_states a
            -> current_drag_hook_cancelled b = current_drag_hook_cancelled a
            -> effects_to_run b = []
            -> default_engine b (ps ∖ {[pointerId e]}) saved) as Hmove.
  { intros a b _ (? & ? & ? & ? & ?) E1 E2 E3 E4. unfold default_engine.
    rewrite E1, E2, E3, E4. by split_and!. }
  assert (default_engine s1 (ps ∖ {[pointerId e]}) saved) as Hdef1.
  { unfold default_engine. rewrite Ho1, Hord. by split_and!. }
  unfold reset_state, clear_effects, fire_svelte_drag_end_event, call_event.
  split.
  { eapply (Hmove s1 _ s1); [exact Hdef1|..]; repeat case_match; reflexivity. }
  split_and!.
  - transitivity (body_user_select (doc s1)); [repeat case_match; reflexivity|].
    by rewrite Hd1.
  - transitivity (class_list (doc s1)); [repeat case_match; reflexivity|].
    rewrite Hd1. cbn [class_list set_body_user_select].
    by apply classList_add_remove_class_list.
  - transitivity (translate (doc s1)); [repeat case_match; reflexivity|].
    rewrite Hd1. cbn [translate set_body_user_select].
    rewrite classList_add_translate. exact Htr0.
  - repeat case_match; reflexivity.
  - repeat case_match; reflexivity.
  - transitivity (x_offset s1); [repeat case_match; reflexivity|]. congruence.
  - transitivity (y_offset s1); [repeat case_match; reflexivity|]. congruence.
  - intros Hno.
    match goal with
    | |- no_uncaught (trace ?t) =>
        assert (exists a b, trace t = trace s1 ++ [Fired neodrag_end a b]) as (a & b & ->)
          by (repeat case_match; eexists _, _; reflexivity)
    end.
    rewrite Ht1, Ht0. unfold no_uncaught. rewrite !Forall_app. split_and!; [done|..];
      repeat constructor; discriminate.
Qed.



Lemma extends_quietly_refl s : extends_quietly s s.
Proof. exists []. split; [by rewrite app_nil_r|constructor]. Qed.

Lemma extends_quietly_trans s1 s2 s3 :
  extends_quietly s1 s2 -> extends_quietly s2 s3 -> extends_quietly s1 s3.
Proof.
  intros (t1 & H1 & F1) (t2 & H2 & F2). exists (t1 ++ t2).
  split; [by rewrite H2, H1, app_assoc|by apply Forall_app].
Qed.

Lemma extends_quietly_trace s s' :
  trace s' = trace s -> extends_quietly s s'.
Proof. intros H. exists []. split; [by rewrite app_nil_r|constructor]. Qed.

Lemma extends_quietly_no_uncaught s s' :
  extends_quietly s s' -> no_uncaught (trace s) -> no_uncaught (trace s').
Proof. intros (t & -> & F) H. by apply Forall_app. Qed.

Lemma default_engine_eq a b ps saved :
  default_engine a ps saved ->
  ordered_plugins b = ordered_plugins a ->
  private_states b = private_states a ->
  current_drag_hook_cancelled b = current_drag_hook_cancelled a ->
  effects_to_run b = effects_to_run a ->
  default_engine b ps saved.
Proof.
  intros (? & ? & ? & ? & ?) E1 E2 E3 E4. unfold default_engine.
  rewrite E1, E2, E3, E4. by split_and!.
Qed.

(** One [drag] dispatch with the default plugins, whatever the number of
    active pointers. *)
Lemma drag_move_default_any e s ps saved :
  default_engine s ps saved ->
  let s' := listener (drag_move e s) in
  default_engine s' ps saved
  /\ body_user_select (doc s') = body_user_select (doc s)
  /\ class_list (doc s') = class_list (doc s)
  /\ is_interacting s' = is_interacting s /\ is_dragging s' = is_dragging s
  /\ extends_quietly s s'.
Proof.
  intros Hdef. destruct (decide (size ps <= 1)%nat) as [Hle|Hgt].
  - destruct (drag_move_default e s ps saved Hdef Hle)
      as (Hdef' & Hd & _ & _ & Hi & Hg & Ht).
    cbv zeta. rewrite Hd, Hi, Hg. split_and!; try done.
    eexists. split; [exact Ht|]. repeat constructor; discriminate.
  - destruct Hdef as (Hord & Hmt & Hus & Hflag & Hq).
    destruct (drag_move_multitouch 0 _ e s ps Hord Hmt ltac:(lia))
      as (Hv & Hd & Hs & Hf & Hq' & Ht).
    apply engine_vars_inv in Hv as (Ho & _ & _ & Hi & Hg & _).
    cbv zeta. rewrite Hd, Hi, Hg. split_and!; try done.
    + unfold default_engine. rewrite Ho, Hs, Hf, Hq'. by split_and!.
    + eexists. split; [exact Ht|]. repeat constructor; discriminate.
Qed.



Lemma try_start_drag_default_cases e s ps saved :
  default_engine s ps saved ->
  exists s',
    try_start_drag e s = (Return (), s')
    /\ extends_quietly s s'
    /\ (kept ps saved s s' \/ (is_dragging s = false /\ begun e ps s s')).
Proof.
  intros Hdef.
  destruct (is_interacting s && negb (is_dragging s) && meets_distance_threshold s
            && meets_time_threshold s) eqn:Hguard.
  - destruct (try_start_drag_default e s ps saved Hdef Hguard)
      as (s' & -> & Hdef' & Hd & Hg & Hi & _ & _ & _ & _ & _ & Hno & Htake).
    exists s'. split; [done|]. split.
    + exists (drop (length (trace s)) (trace s')). split; [|exact Hno].
      by rewrite <- Htake at 1; rewrite take_drop.
    + right. destruct (is_interacting s), (is_dragging s); try discriminate.
      by split_and!.
  - exists s. unfold try_start_drag. rewrite Hguard. split; [done|].
    split; [apply extends_quietly_refl|]. left. by split_and!.
Qed.

Lemma check_time_threshold_default e s ps saved :
  default_engine s ps saved ->
  exists s',
    check_time_threshold e s = (Return (), s')
    /\ extends_quietly s s'
    /\ (kept ps saved s s' \/ (is_dragging s = false /\ begun e ps s s')).
Proof.
  intros Hdef. unfold check_time_threshold.
  destruct (meets_time_threshold s).
  { exists s. split; [done|]. split; [apply extends_quietly_refl|]. left. by split_and!. }
  destruct (geb_undefined _ _).
  2:{ exists s. split; [done|]. split; [apply extends_quietly_refl|]. left. by split_and!. }
  assert (default_engine (set_meets_time_threshold true s) ps saved) as Hdef'
    by (by eapply default_engine_eq).
  destruct (try_start_drag_default_cases e _ ps saved Hdef') as (s' & -> & Hq & H).
  exists s'. split; [done|]. split; [exact Hq|exact H].
Qed.

Lemma check_distance_threshold_default e s ps saved :
  default_engine s ps saved ->
  exists s',
    check_distance_threshold e s = (Return (), s')
    /\ extends_quietly s s'
    /\ (kept ps saved s s' \/ (is_dragging s = false /\ begun e ps s s')).
Proof.
  intros Hdef. unfold check_distance_threshold.
  destruct (meets_distance_threshold s).
  { exists s. split; [done|]. split; [apply extends_quietly_refl|]. left. by split_and!. }
  cbv zeta. destruct (geb_undefined _ _).
  2:{ exists s. split; [done|]. split; [apply extends_quietly_refl|]. left. by split_and!. }
  assert (default_engine (set_meets_distance_threshold true s) ps saved) as Hdef'
    by (by eapply default_engine_eq).
  destruct (try_start_drag_default_cases e _ ps saved Hdef') as (s' & -> & Hq & H).
  exists s'. split; [done|]. split; [exact Hq|exact H].
Qed.


Lemma started_document_fields pressed d :
  body_user_select (started_document pressed d) = "none"
  /\ "neodrag-dragging" ∈ class_list (started_document pressed d).
Proof.
  unfold started_document. split; [reflexivity|].
  cbn [class_list set_body_user_select]. unfold classList_add.
  case_bool_decide as H; [exact H|].
  cbn [class_list set_class_list]. apply elem_of_app. right. by apply list_elem_of_singleton.
Qed.

(** One [pointermove] with the default plugins: either no drag starts in
    it, or this move starts one. *)
Lemma pointermove_default e s ps saved :
  default_engine s ps saved ->
  let s' := pointermove e s in
  extends_quietly s s'
  /\ ((default_engine s' ps saved
       /\ body_user_select (doc s') = body_user_select (doc s)
       /\ class_list (doc s') = class_list (doc s)
       /\ is_dragging s' = is_dragging s /\ is_interacting s' = is_interacting s)
      \/ (is_interacting s = true /\ is_dragging s = false
          /\ is_dragging s' = true /\ is_interacting s' = true
          /\ default_engine s' ({[pointerId e]} ∪ ps) (body_user_select (doc s))
          /\ body_user_select (doc s') = "none"
          /\ "neodrag-dragging" ∈ class_list (doc s'))).
Proof.
  intros Hdef. unfold pointermove.
  destruct (is_interacting s) eqn:Hint; cbn [negb].
  2:{ cbv zeta. split; [apply extends_quietly_refl|]. left. by split_and!. }
  destruct (is_dragging s) eqn:Hdrag.
  { destruct (drag_move_default_any e s ps saved Hdef) as (H1 & H2 & H3 & H4 & H5 & H6).
    cbv zeta. split; [exact H6|]. left. rewrite H4, H5. by split_and!. }
  destruct (check_time_threshold_default e s ps saved Hdef) as (s1 & -> & Hq1 & H1).
  destruct H1 as [(Hdef1 & Hd1 & Hg1 & Hi1)|(_ & Hdef1 & Hd1 & Hg1 & Hi1)].
  - destruct (check_distance_threshold_default e s1 ps saved Hdef1) as (s2 & -> & Hq2 & H2).
    destruct H2 as [(Hdef2 & Hd2 & Hg2 & Hi2)|(_ & Hdef2 & Hd2 & Hg2 & Hi2)].
    + rewrite Hg2, Hg1, Hdrag. cbn [negb]. cbv zeta.
      split; [by eapply extends_quietly_trans|]. left.
      rewrite Hd2, Hd1. split_and!; try done; congruence.
    + rewrite Hg2. cbn [negb]. cbv zeta.
      destruct (drag_move_default_any e s2 _ _ Hdef2) as (H1 & H2 & H3 & H4 & H5 & H6).
      split; [eapply extends_quietly_trans; [|exact H6]; by eapply extends_quietly_trans|].
      right. rewrite H2, H3, H4, H5, Hd2, Hd1.
      destruct (started_document_fields
                  (bool_decide (1 < size ({[pointerId e]} ∪ ps))%nat) (doc s)).
      split_and!; try done; congruence.
  - destruct (check_distance_threshold_default e s1 _ _ Hdef1) as (s2 & -> & Hq2 & H2).
    destruct H2 as [(Hdef2 & Hd2 & Hg2 & Hi2)|(Hno & _)]; [|congruence].
    rewrite Hg2, Hg1. cbn [negb]. cbv zeta.
    destruct (drag_move_default_any e s2 _ _ Hdef2) as (H1 & H2 & H3 & H4 & H5 & H6).
    split; [eapply extends_quietly_trans; [|exact H6]; by eapply extends_quietly_trans|].
    right. rewrite H2, H3, H4, H5, Hd2, Hd1.
    destruct (started_document_fields
                (bool_decide (1 < size ({[pointerId e]} ∪ ps))%nat) (doc s)).
    split_and!; try done; congruence.
Qed.

Lemma order_plugins_default : order_plugins default_plugins = default_plugins.
Proof. reflexivity. Qed.

(** [draggable] with no plugins of the caller's. *)
Lemma draggable_default root options rect d :
  default [] (plugins options) = [] ->
  exists s,
    draggable root options rect d = (Return (), s)
    /\ default_engine s ∅ ""
    /\ no_uncaught (trace s)
    /\ is_interacting s = false /\ is_dragging s = false
    /\ the_threshold s = default default_threshold (threshold options)
    /\ doc s = set_style_touch_action "none" (classList_add "neodrag" d)
    /\ currently_dragged_element s = root.
Proof.
  intros Hnone. unfold draggable. rewrite Hnone, app_nil_r, order_plugins_default.
  eexists. split; [reflexivity|].
  split; [by split_and!|].
  split; [repeat constructor; discriminate|].
  by split_and!.
Qed.



End SingleMore.

(** * Single-instance engine: runs *)

Module SingleRuns.
Import Draggable SingleInstance SingleSpec SingleMore.


Lemma engine_vars_thresholds s s' :
  engine_vars s' = engine_vars s ->
  meets_time_threshold s' = meets_time_threshold s
  /\ meets_distance_threshold s' = meets_distance_threshold s
  /\ start_time s' = start_time s.
Proof. unfold engine_vars. intros H. by simplify_eq. Qed.

(** ** A threshold object without [distance] *)

Lemma pointermove_no_distance e s :
  distance (the_threshold s) = None ->
  meets_distance_threshold s = false -> is_dragging s = false ->
  pointermove e s = s \/ pointermove e s = set_meets_time_threshold true s.
Proof.
  intros Hnone Hdist Hdrag. unfold pointermove.
  destruct (is_interacting s); cbn [negb]; [|by left]. rewrite Hdrag.
  assert (forall s0, meets_distance_threshold s0 = false -> is_dragging s0 = false ->
            distance (the_threshold s0) = None ->
            match check_distance_threshold e s0 with
            | (Throw err, s1) => log (Uncaught err) s1
            | (Return _, s1) =>
                if negb (is_dragging s1) then s1 else listener (drag_move e s1)
            end = s0) as Hcheck.
  { intros s0 Hd0 Hdrag0 Hn0. unfold check_distance_threshold. rewrite Hd0, Hn0.
    cbn [fmap option_fmap option_map geb_undefined]. by rewrite Hdrag0. }
  unfold check_time_threshold. destruct (meets_time_threshold s).
  { left. by apply Hcheck. }
  destruct (geb_undefined _ _); [|left; by apply Hcheck].
  rewrite try_start_drag_unmet by (cbn; by rewrite Hdist).
  right. by apply Hcheck.
Qed.


Lemma pointerdown_vars e s :
  the_threshold (pointerdown e s) = the_threshold s
  /\ ordered_plugins (pointerdown e s) = ordered_plugins s
  /\ meets_distance_threshold (pointerdown e s) = meets_distance_threshold s
  /\ is_dragging (pointerdown e s) = is_dragging s
  /\ x_offset (pointerdown e s) = x_offset s /\ y_offset (pointerdown e s) = y_offset s
  /\ dispatched (trace (pointerdown e s))
     = dispatched (trace s) ++ (if bool_decide (button e = 2%Z) then [] else [ShouldDrag]).
Proof.
  unfold pointerdown. case_bool_decide; [by rewrite app_nil_r|].
  pose proof (run_plugins_engine_vars ShouldDrag e s) as Hv.
  destruct (run_plugins_trace ShouldDrag e s) as (l & Ht & Hl).
  apply Forall_called_dispatched in Hl.
  pose proof (engine_vars_thresholds _ _ Hv) as (_ & Hd & _).
  apply engine_vars_inv in Hv as (Ho & Hth & _ & _ & Hg & Hx & Hy & _).
  assert (dispatched (trace (run_plugins ShouldDrag e s).2)
          = dispatched (trace s) ++ [ShouldDrag]) as Hdisp.
  { rewrite Ht, dispatched_app.
    change (dispatched (Dispatch ShouldDrag :: l)) with (ShouldDrag :: dispatched l).
    by rewrite Hl. }
  destruct (run_plugins ShouldDrag e s) as [[[]|err] s1]; cbn [fst snd] in *.
  - destruct (negb _); [by split_and!|]. cbv zeta.
    repeat case_match; cbn; by split_and!.
  - by split_and!.
  - cbn. rewrite dispatched_app. cbn. rewrite app_nil_r. by split_and!.
Qed.

Lemma pointerup_vars e s :
  the_threshold (pointerup e s) = the_threshold s
  /\ ordered_plugins (pointerup e s) = ordered_plugins s
  /\ x_offset (pointerup e s) = x_offset s /\ y_offset (pointerup e s) = y_offset s
  /\ dispatched (trace (pointerup e s))
     = dispatched (trace s) ++ (if is_interacting s then [DragEnd] else [])
  /\ (is_dragging s = false -> meets_distance_threshold s = false ->
      is_dragging (pointerup e s) = false
      /\ meets_distance_threshold (pointerup e s) = false).
Proof.
  unfold pointerup. destruct (is_interacting s); cbn [negb]; [|by rewrite app_nil_r].
  cbv zeta. set (s0 := if is_dragging s then listen_click_once s else s).
  assert (engine_vars s0 = engine_vars s /\ trace s0 = trace s) as [Hv0 Ht0]
    by (unfold s0; by destruct (is_dragging s)).
  clearbody s0.
  pose proof (run_plugins_engine_vars DragEnd e s0) as Hv.
  destruct (run_plugins_trace DragEnd e s0) as (l & Ht & Hl).
  apply Forall_called_dispatched in Hl.
  rewrite Hv0 in Hv.
  pose proof (engine_vars_thresholds _ _ Hv) as (_ & Hd & _).
  apply engine_vars_inv in Hv as (Ho & Hth & _ & _ & Hg & Hx & Hy & _).
  assert (dispatched (trace (run_plugins DragEnd e s0).2)
          = dispatched (trace s) ++ [DragEnd]) as Hdisp.
  { rewrite Ht, Ht0, dispatched_app.
    change (dispatched (Dispatch DragEnd :: l)) with (DragEnd :: dispatched l).
    by rewrite Hl. }
  destruct (run_plugins DragEnd e s0) as [[b|err] s1]; cbn [fst snd] in *.
  - unfold reset_state, clear_effects, fire_svelte_drag_end_event, call_event.
    repeat case_match; cbn; rewrite ?dispatched_app; cbn; rewrite ?app_nil_r.
    all: by split_and!.
  - cbn. rewrite dispatched_app. cbn. rewrite app_nil_r.
    split_and!; try done; intros; split; congruence.
Qed.

Lemma no_distance_step s ev :
  no_distance s ->
  no_distance (step s ev)
  /\ x_offset (step s ev) = x_offset s /\ y_offset (step s ev) = y_offset s
  /\ exists hs, dispatched (trace (step s ev)) = dispatched (trace s) ++ hs
                /\ Forall (fun h => h = ShouldDrag \/ h = DragEnd) hs.
Proof.
  intros (Hnone & Hdist & Hdrag). destruct ev as [e|e|e]; cbn [step].
  - destruct (pointerdown_vars e s) as (Hth & _ & Hd & Hg & Hx & Hy & Ht).
    unfold no_distance. rewrite Hth, Hd, Hg, Hx, Hy, Ht. split_and!; try done.
    eexists. split; [done|].
    case_bool_decide; [constructor|]. constructor; [by left|constructor].
  - destruct (pointermove_no_distance e s Hnone Hdist Hdrag) as [->| ->].
    + split_and!; try done. exists []. by rewrite app_nil_r.
    + split_and!; try done. exists []. by rewrite app_nil_r.
  - destruct (pointerup_vars e s) as (Hth & _ & Hx & Hy & Ht & Hflags).
    destruct (Hflags Hdrag Hdist) as [Hg Hd].
    unfold no_distance. rewrite Hth, Hd, Hg, Hx, Hy, Ht. split_and!; try done.
    eexists. split; [done|].
    destruct (is_interacting s); [|constructor]. constructor; [by right|constructor].
Qed.

Lemma no_distance_run s evs :
  no_distance s ->
  no_distance (run s evs)
  /\ x_offset (run s evs) = x_offset s /\ y_offset (run s evs) = y_offset s
  /\ exists hs, dispatched (trace (run s evs)) = dispatched (trace s) ++ hs
                /\ Forall (fun h => h = ShouldDrag \/ h = DragEnd) hs.
Proof.
  revert s. induction evs as [|ev evs IH]; intros s H.
  - split_and!; try done. exists []. by rewrite app_nil_r.
  - cbn [run foldl]. destruct (no_distance_step s ev H) as (H1 & Hx & Hy & hs & Ht & Hs).
    destruct (IH _ H1) as (H2 & Hx' & Hy' & hs' & Ht' & Hs').
    fold (run (step s ev) evs). rewrite Hx', Hy', Hx, Hy. split_and!; try done.
    exists (hs ++ hs'). split; [by rewrite Ht', Ht, app_assoc|by apply Forall_app].
Qed.


(** ** Runs of the engine with its default plugins *)






Lemma default_engine_step s ev : default_engine_run s -> default_engine_run (step s ev).
Proof.
  intros [(ps & saved & Hdef) Hno]. destruct ev as [e|e|e]; cbn [step].
  - destruct (pointerdown_default e s ps saved Hdef) as (H1 & _ & H2).
    split; [by exists ps, saved|by apply H2].
  - destruct (pointermove_default e s ps saved Hdef) as (Hq & H).
    split; [|by eapply extends_quietly_no_uncaught].
    destruct H as [(H1 & _)|(_ & _ & _ & _ & H1 & _)]; by eexists _, _.
  - destruct (is_interacting s) eqn:Hint.
    + destruct (pointerup_default e s ps saved Hdef Hint) as (H1 & _ & _ & _ & _ & _ & _ & _ & H2).
      split; [|by apply H2]. by eexists _, _.
    + unfold pointerup. rewrite Hint. cbn [negb]. split; [by exists ps, saved|done].
Qed.

Lemma default_engine_run_run s evs : default_engine_run s -> default_engine_run (run s evs).
Proof.
  revert s. induction evs as [|ev evs IH]; intros s H; [done|].
  cbn [run foldl]. apply IH. by apply default_engine_step.
Qed.

Lemma draggable_default_run root options rect d s0 :
  default [] (plugins options) = [] ->
  draggable root options rect d = (Return (), s0) ->
  default_engine s0 ∅ "" /\ no_uncaught (trace s0) /\ dragging_interacts s0
  /\ doc s0 = set_style_touch_action "none" (classList_add "neodrag" d)
  /\ currently_dragged_element s0 = root.
Proof.
  intros Hnone Hs0.
  destruct (draggable_default root options rect d Hnone)
    as (s & Hs & Hdef & Hno & Hi & Hg & _ & Hd & Hn).
  rewrite Hs in Hs0. injection Hs0 as <-. split_and!; try done.
  unfold dragging_interacts. congruence.
Qed.

Lemma classList_add_elem c d : c ∈ class_list (classList_add c d).
Proof.
  unfold classList_add. case_bool_decide as H; [exact H|].
  cbn [class_list set_class_list]. apply elem_of_app. right. by apply list_elem_of_singleton.
Qed.

Lemma classList_add_remove_other a b d :
  a <> b -> b ∉ class_list (classList_add a (classList_remove b d)).
Proof.
  intros Hab. unfold classList_add, classList_remove.
  assert (b ∉ filter (fun c' => c' <> b) (class_list d)) as Hb.
  { intros H. by apply list_elem_of_filter in H as [H _]. }
  cbn [class_list set_class_list].
  case_bool_decide as Hin; cbn [class_list set_class_list]; [done|].
  intros Hbin. apply elem_of_app in Hbin as [Hbin|Hbin]; [done|].
  apply list_elem_of_singleton in Hbin. congruence.
Qed.

(** Moves of a drag in progress. *)
Lemma moves_default s ps saved moves :
  default_engine s ps saved -> is_dragging s = true -> is_interacting s = true ->
  let s' := run s (PointerMove <$> moves) in
  default_engine s' ps saved
  /\ body_user_select (doc s') = body_user_select (doc s)
  /\ class_list (doc s') = class_list (doc s)
  /\ is_dragging s' = true /\ is_interacting s' = true.
Proof.
  revert s. induction moves as [|e moves IH]; intros s Hdef Hg Hi; [done|].
  cbn [fmap list_fmap run foldl step].
  assert (pointermove e s = listener (drag_move e s)) as Heq
    by (unfold pointermove; by rewrite Hi, Hg).
  destruct (drag_move_default_any e s ps saved Hdef) as (H1 & H2 & H3 & H4 & H5 & _).
  rewrite <- Heq in *.
  destruct (IH (pointermove e s) H1) as (K1 & K2 & K3 & K4 & K5); [congruence..|].
  split_and!; try done; unfold run in *; congruence.
Qed.


End SingleRuns.

(** * One plugin per name: facts *)

Module PluginMaps.
Import PluginSpec.


Section Maps.
Context {V : Type}.
Implicit Types (pm : list (string * V)) (k : string) (v : V).

Lemma map_get_Some pm k v : map_get pm k = Some v -> (k, v) ∈ pm.
Proof.
  induction pm as [|[k' v'] pm IH]; cbn [map_get]; [done|].
  case_bool_decide as Hk.
  - intros [= <-]. subst. apply elem_of_cons. by left.
  - intros H. apply elem_of_cons. right. by apply IH.
Qed.

Lemma map_get_None pm k : map_get pm k = None <-> k ∉ pm.*1.
Proof.
  induction pm as [|[k' v'] pm IH]; simpl.
  - split; [intros _; apply not_elem_of_nil|done].
  - case_bool_decide as Hk.
    + split; [done|]. intros H. exfalso. apply H. subst. apply elem_of_cons. by left.
    + rewrite IH, not_elem_of_cons. split; [intros H; split; [congruence|done]|by intros [_ H]].
Qed.

Lemma map_get_unique pm k v :
  NoDup pm.*1 -> (k, v) ∈ pm -> map_get pm k = Some v.
Proof.
  induction pm as [|[k' v'] pm IH]; simpl.
  - intros _ H. by apply elem_of_nil in H.
  - intros Hnd Hin. apply list.NoDup_cons in Hnd as [Hk' Hnd].
    apply elem_of_cons in Hin as [[= -> ->]|Hin].
    + by rewrite bool_decide_eq_true_2.
    + case_bool_decide as Hk; [|by apply IH].
      subst. exfalso. apply Hk'. apply list_elem_of_fmap. by exists (k, v).
Qed.

Lemma map_set_keys_in pm k v : k ∈ pm.*1 -> (map_set pm k v).*1 = pm.*1.
Proof.
  induction pm as [|[k' v'] pm IH]; [by intros H; apply elem_of_nil in H|].
  cbn [map_set]. rewrite fmap_cons. cbn [fst]. intros H.
  case_bool_decide as Hk; [by subst|].
  rewrite fmap_cons. cbn [fst]. f_equal. apply IH.
  apply elem_of_cons in H as [H|H]; [congruence|done].
Qed.

Lemma map_set_keys_notin pm k v : k ∉ pm.*1 -> (map_set pm k v).*1 = pm.*1 ++ [k].
Proof.
  induction pm as [|[k' v'] pm IH]; [done|].
  cbn [map_set]. rewrite fmap_cons. cbn [fst]. intros H.
  apply not_elem_of_cons in H as [Hne H].
  rewrite bool_decide_eq_false_2 by congruence.
  rewrite fmap_cons. cbn [fst app]. f_equal. by apply IH.
Qed.

Lemma map_set_NoDup pm k v : NoDup pm.*1 -> NoDup (map_set pm k v).*1.
Proof.
  intros H. destruct (decide (k ∈ pm.*1)) as [Hin|Hin].
  - by rewrite map_set_keys_in.
  - rewrite map_set_keys_notin by done.
    apply list.NoDup_app. split; [done|]. split; [|apply list.NoDup_singleton].
    intros x Hx Hx'. apply list_elem_of_singleton in Hx'. by subst.
Qed.

Lemma map_set_key pm k v : k ∈ (map_set pm k v).*1.
Proof.
  destruct (decide (k ∈ pm.*1)) as [Hin|Hin].
  - by rewrite map_set_keys_in.
  - rewrite map_set_keys_notin by done. apply elem_of_app. right. by apply list_elem_of_singleton.
Qed.

Lemma map_set_keys_mono pm k v k' : k' ∈ pm.*1 -> k' ∈ (map_set pm k v).*1.
Proof.
  intros H. destruct (decide (k ∈ pm.*1)) as [Hin|Hin].
  - by rewrite map_set_keys_in.
  - rewrite map_set_keys_notin by done. apply elem_of_app. by left.
Qed.

Lemma map_set_new pm k v : (k, v) ∈ map_set pm k v.
Proof.
  induction pm as [|[k' v'] pm IH]; simpl; [by apply list_elem_of_singleton|].
  case_bool_decide; apply elem_of_cons; [by left|by right].
Qed.

Lemma map_set_elem pm k v x :
  NoDup pm.*1 -> x ∈ map_set pm k v -> x = (k, v) \/ (x ∈ pm /\ x.1 <> k).
Proof.
  induction pm as [|[k' v'] pm IH]; simpl.
  - intros _ H. apply list_elem_of_singleton in H. by left.
  - intros Hnd. apply list.NoDup_cons in Hnd as [Hk' Hnd].
    case_bool_decide as Hk.
    + subst. intros H. apply elem_of_cons in H as [->|H]; [by left|].
      right. split; [apply elem_of_cons; by right|].
      intros Hx. apply Hk'. apply list_elem_of_fmap. exists x. by split.
    + intros H. apply elem_of_cons in H as [->|H].
      * right. split; [apply elem_of_cons; by left|done].
      * destruct (IH Hnd H) as [->|[Hin Hne]]; [by left|].
        right. split; [apply elem_of_cons; by right|done].
Qed.

End Maps.

Section Dedupe.
Context {V : Type} (name : V -> string) (test : V -> V -> bool) (Rb Ra : V -> V -> Prop).
Hypothesis test_true :
  forall p ex, test p ex = true ->
    Rb ex p /\ (forall q, Rb q ex -> Rb q p) /\ (forall q, Ra q ex -> Rb q p).
Hypothesis test_false : forall p ex, test p ex = false -> Ra p ex.

Lemma dedupe_snoc all p :
  dedupe name test (all ++ [p])
  = let pm := dedupe name test all in
    match map_get pm (name p) with
    | None => map_set pm (name p) p
    | Some existing => if test p existing then map_set pm (name p) p else pm
    end.
Proof. unfold dedupe. by rewrite foldl_app. Qed.

Lemma kept_at_snoc all v p :
  kept_at name Rb Ra all v -> (name p = name v -> Ra p v) ->
  kept_at name Rb Ra (all ++ [p]) v.
Proof.
  intros (l1 & l2 & -> & Hb & Ha) Hp. exists l1, (l2 ++ [p]).
  split; [by rewrite <- app_assoc|]. split; [done|].
  intros q Hq Hn. apply elem_of_app in Hq as [Hq|Hq]; [by apply Ha|].
  apply list_elem_of_singleton in Hq. subst. by apply Hp.
Qed.

Lemma kept_at_last all p :
  (forall q, q ∈ all -> name q = name p -> Rb q p) ->
  kept_at name Rb Ra (all ++ [p]) p.
Proof.
  intros H. exists all, []. split; [done|]. split; [done|].
  intros q Hq. by apply elem_of_nil in Hq.
Qed.

Lemma dedupe_invariant_snoc all p pm :
  dedupe_invariant name Rb Ra all pm ->
  dedupe_invariant name Rb Ra (all ++ [p])
    (match map_get pm (name p) with
     | None => map_set pm (name p) p
     | Some existing => if test p existing then map_set pm (name p) p else pm
     end).
Proof.
  intros (Hnd & Hkept & Hall).
  assert (forall pm' : list (string * V),
            (forall k', k' ∈ pm.*1 -> k' ∈ pm'.*1) -> name p ∈ pm'.*1 ->
            forall q, q ∈ all ++ [p] -> name q ∈ pm'.*1) as Hkeys.
  { intros pm' Hmono Hp q Hq. apply elem_of_app in Hq as [Hq|Hq]; [by apply Hmono, Hall|].
    apply list_elem_of_singleton in Hq. by subst. }
  destruct (map_get pm (name p)) as [ex|] eqn:Hget.
  - apply map_get_Some in Hget as Hex.
    destruct (Hkept _ _ Hex) as [Hname Hexk].
    destruct (test p ex) eqn:Htest.
    + destruct (test_true p ex Htest) as (H1 & H2 & H3).
      split; [by apply map_set_NoDup|]. split.
      * intros k v Hin. apply (map_set_elem _ _ _ _ Hnd) in Hin as [[= -> ->]|[Hin Hne]].
        -- split; [done|]. apply kept_at_last. intros q Hq Hn.
           destruct Hexk as (l1 & l2 & -> & Hb & Ha).
           apply elem_of_app in Hq as [Hq|Hq]; [apply H2, Hb; [done|congruence]|].
           apply elem_of_cons in Hq as [->|Hq]; [done|].
           apply H3, Ha; [done|congruence].
        -- destruct (Hkept _ _ Hin) as [Hn Hk]. split; [done|].
           apply kept_at_snoc; [done|]. intros Hp. cbn in Hne. congruence.
      * apply Hkeys; [intros k'; apply map_set_keys_mono|apply map_set_key].
    + split; [done|]. split.
      * intros k v Hin. destruct (Hkept _ _ Hin) as [Hn Hk]. split; [done|].
        apply kept_at_snoc; [done|]. intros Hp.
        assert (v = ex) as ->.
        { apply (map_get_unique pm) in Hin; [|done].
          apply (map_get_unique pm) in Hex; [|done]. congruence. }
        by apply test_false.
      * apply Hkeys; [done|].
        apply list_elem_of_fmap. exists (name p, ex). split; [done|]. exact Hex.
  - apply map_get_None in Hget.
    split; [by apply map_set_NoDup|]. split.
    + intros k v Hin. apply (map_set_elem _ _ _ _ Hnd) in Hin as [[= -> ->]|[Hin Hne]].
      * split; [done|]. apply kept_at_last. intros q Hq Hn.
        exfalso. apply Hget. rewrite <- Hn. by apply Hall.
      * destruct (Hkept _ _ Hin) as [Hn Hk]. split; [done|].
        apply kept_at_snoc; [done|]. intros Hp. cbn in Hne. congruence.
    + apply Hkeys; [intros k'; apply map_set_keys_mono|apply map_set_key].
Qed.

Lemma dedupe_spec all : dedupe_invariant name Rb Ra all (dedupe name test all).
Proof.
  induction all as [|p all IH] using rev_ind.
  - split; [constructor|]. split; [intros k v H|intros p H]; by apply elem_of_nil in H.
  - rewrite dedupe_snoc. by apply dedupe_invariant_snoc.
Qed.

(** What the values of the map are. *)
Lemma dedupe_values all :
  NoDup (name <$> map_values (dedupe name test all))
  /\ (forall v, v ∈ map_values (dedupe name test all) -> kept_at name Rb Ra all v)
  /\ (forall p, p ∈ all ->
        exists v, v ∈ map_values (dedupe name test all) /\ name v = name p).
Proof.
  destruct (dedupe_spec all) as (Hnd & Hkept & Hall).
  set (pm := dedupe name test all) in *. unfold map_values.
  assert (name <$> pm.*2 = pm.*1) as Hnames.
  { rewrite <- list_fmap_compose. apply Forall_fmap_ext_1, list.Forall_forall.
    intros [k v] Hin. cbn. by destruct (Hkept _ _ Hin). }
  split; [by rewrite Hnames|]. split.
  - intros v Hv. apply list_elem_of_fmap in Hv as ([k v'] & -> & Hin).
    by destruct (Hkept _ _ Hin).
  - intros p Hp. specialize (Hall p Hp).
    apply list_elem_of_fmap in Hall as ([k v] & Hk & Hin). cbn in Hk. subst k.
    exists v. split; [apply list_elem_of_fmap; by exists (name p, v)|].
    by destruct (Hkept _ _ Hin).
Qed.

End Dedupe.


Lemma Qle_bool_false (a b : number) : Qle_bool a b = false -> b < a.
Proof.
  intros H. apply Qcnot_le_lt. intros Hle.
  apply Qle_bool_iff in Hle. congruence.
Qed.

Lemma Qle_bool_true (a b : number) : Qle_bool a b = true -> a ≤ b.
Proof. intros H. by apply Qle_bool_iff in H. Qed.

(** The delegated engine: of the plugins of one name the last of those of
    highest priority is kept. *)
Lemma initialize_plugins_kept new_plugins m :
  let all := new_plugins ++ CreateDraggable.initial_plugins m in
  let ps := CreateDraggable.initialize_plugins new_plugins m in
  NoDup (CreateDraggable.name <$> ps)
  /\ (forall v, v ∈ ps ->
        kept_at CreateDraggable.name
          (fun q v => CreateDraggable.priority_or_zero q ≤ CreateDraggable.priority_or_zero v)
          (fun q v => CreateDraggable.priority_or_zero q < CreateDraggable.priority_or_zero v)
          all v)
  /\ (forall p, p ∈ all -> exists v, v ∈ ps /\ CreateDraggable.name v = CreateDraggable.name p).
Proof.
  intros all ps.
  pose proof (dedupe_values CreateDraggable.name
                (fun p ex => geb (CreateDraggable.priority_or_zero p)
                               (CreateDraggable.priority_or_zero ex))
                (fun q v => CreateDraggable.priority_or_zero q ≤ CreateDraggable.priority_or_zero v)
                (fun q v => CreateDraggable.priority_or_zero q < CreateDraggable.priority_or_zero v))
    as H. cbv beta in H.
  destruct (H) with (all := all) as (Hnd & Hkept & Hall); clear H.
  - intros p ex Ht. apply Qle_bool_true in Ht. split; [done|]. split.
    + intros q Hq. by eapply Qcle_trans.
    + intros q Hq. apply Qclt_le_weak. by eapply Qclt_le_trans.
  - intros p ex Ht. by apply Qle_bool_false in Ht.
  - assert (ps ≡ₚ map_values (dedupe CreateDraggable.name
               (fun p ex => geb (CreateDraggable.priority_or_zero p)
                              (CreateDraggable.priority_or_zero ex)) all)) as Hperm
      by apply SortFacts.sort_perm.
    split; [by rewrite Hperm|]. split.
    + intros v Hv. rewrite Hperm in Hv. by apply Hkept.
    + intros p Hp. destruct (Hall p Hp) as (v & Hv & Hn). exists v. by rewrite Hperm.
Qed.

(** The single-instance engine: of the plugins of one name the first of
    those of highest priority is kept. *)
Lemma order_plugins_kept all :
  let ps := Draggable.order_plugins all in
  NoDup (Draggable.name <$> ps)
  /\ (forall v, v ∈ ps ->
        kept_at Draggable.name
          (fun q v => Draggable.priority_or_zero q < Draggable.priority_or_zero v)
          (fun q v => Draggable.priority_or_zero q ≤ Draggable.priority_or_zero v)
          all v)
  /\ (forall p, p ∈ all -> exists v, v ∈ ps /\ Draggable.name v = Draggable.name p).
Proof.
  intros ps.
  pose proof (dedupe_values Draggable.name
                (fun p ex => negb (Qle_bool (Draggable.priority_or_zero p)
                                     (Draggable.priority_or_zero ex)))
                (fun q v => Draggable.priority_or_zero q < Draggable.priority_or_zero v)
                (fun q v => Draggable.priority_or_zero q ≤ Draggable.priority_or_zero v))
    as H. cbv beta in H.
  destruct (H) with (all := all) as (Hnd & Hkept & Hall); clear H.
  - intros p ex Ht. apply negb_true_iff, Qle_bool_false in Ht. split; [done|]. split.
    + intros q Hq. by eapply Qclt_trans.
    + intros q Hq. by eapply Qcle_lt_trans.
  - intros p ex Ht. apply negb_false_iff in Ht. by apply Qle_bool_true in Ht.
  - assert (ps ≡ₚ map_values (dedupe Draggable.name
               (fun p ex => negb (Qle_bool (Draggable.priority_or_zero p)
                                    (Draggable.priority_or_zero ex))) all)) as Hperm
      by apply SortFacts.sort_perm.
    split; [by rewrite Hperm|]. split.
    + intros v Hv. rewrite Hperm in Hv. by apply Hkept.
    + intros p Hp. destruct (Hall p Hp) as (v & Hv & Hn). exists v. by rewrite Hperm.
Qed.


End PluginMaps.

(** * Delegated engine: further facts *)

Module DelegatedMore.
Import CreateDraggable Delegated PluginSpec DelegatedSpec.


(** ** [find_draggable_node] *)


Lemma find_in_path_spec path m :
  match find_in_path path m with
  | Some el =>
      exists before after_,
        path = before ++ el :: after_ /\ eligible m el
        /\ Forall (fun el' => ~ eligible m el') before
  | None => Forall (fun el' => ~ eligible m el') path
  end.
Proof.
  induction path as [|[el k] path IH]; cbn [find_in_path]; [constructor|].
  destruct (_ && _) eqn:Htest.
  - exists [], path. split; [done|]. split; [|constructor].
    apply andb_true_iff in Htest as [H1 H2]. apply bool_decide_eq_true in H2. by split.
  - assert (~ eligible m (el, k)) as Hno.
    { intros [H1 H2]. cbn [fst snd] in *. rewrite H1 in Htest.
      by rewrite bool_decide_eq_true_2 in Htest. }
    destruct (find_in_path path m) as [found|].
    + destruct IH as (before & after_ & -> & Hel & Hbefore).
      exists ((el, k) :: before), after_. split; [done|]. split; [done|]. by constructor.
    + by constructor.
Qed.

(** ** Pointer events and the registry *)

Lemma commit_other n k i m : k <> n -> instances (commit k i m) !! n = instances m !! n.
Proof. intros H. unfold commit. cbn. by rewrite lookup_insert_ne. Qed.

Lemma cleanup_active_node_other n m :
  active_node m <> Some n -> instances (cleanup_active_node m) !! n = instances m !! n.
Proof.
  intros Hn. unfold cleanup_active_node.
  destruct (active_node m) as [k|]; [|done].
  destruct (instances m !! k) as [i|] eqn:Hk; [|done].
  set (m0 := if _ && _ then _ else m).
  assert (instances m0 = instances m) as Hm0 by (unfold m0; by case_match).
  cbn. rewrite Hm0. apply lookup_insert_ne. congruence.
Qed.

Lemma handle_pointer_down_other e m n :
  fst <$> find_draggable_node e m <> Some n ->
  instances (handle_pointer_down e m) !! n = instances m !! n.
Proof.
  intros Hn. unfold handle_pointer_down. case_bool_decide; [done|].
  destruct (find_draggable_node e m) as [[k kind]|]; [|done].
  assert (k <> n) as Hkn by (cbn in Hn; congruence).
  destruct (instances m !! k) as [i|] eqn:Hk; [|done].
  set (i0 := set_ctx _ i).
  pose proof (run_plugins_keeps_flag i0 ShouldDrag e m) as [H1 _].
  destruct (run_plugins i0 ShouldDrag e m) as [[b i1] m1]. unfold after in H1. cbn in H1.
  destruct b; simpl; [|by rewrite lookup_insert_ne, H1].
  destruct (setPointerCapture_throws e) as [err|].
  - rewrite cleanup_active_node_other.
    + rewrite commit_other by done. unfold report_error. case_match; cbn; by rewrite H1.
    + unfold commit, report_error. case_match; cbn; congruence.
  - cbv zeta. rewrite commit_other by done. cbn. by rewrite H1.
Qed.

Lemma handle_pointer_move_call_other e m n :
  active_node m <> Some n ->
  instances (handle_pointer_move_call e m).2 !! n = instances m !! n.
Proof.
  intros Hn. unfold handle_pointer_move_call.
  destruct (active_node m) as [k|]; [|done].
  destruct (instances m !! k) as [i|] eqn:Hk; [|done].
  pose proof (pointer_move_keeps_flag e i m) as [H _].
  destruct (pointer_move e i m) as [[r i1] m1]. unfold after in H. cbn in *.
  rewrite lookup_insert_ne by congruence. by rewrite H.
Qed.

Lemma listener_instances r : instances (listener r) = instances r.2.
Proof. by destruct r as [[[]|err] m]. Qed.

Lemma handle_pointer_up_other e m n :
  active_node m <> Some n ->
  instances (handle_pointer_up e m) !! n = instances m !! n.
Proof.
  intros Hn. unfold handle_pointer_up.
  destruct (active_node m) as [k|]; [|done].
  destruct (instances m !! k) as [i|] eqn:Hk; [|done].
  pose proof (pointer_up_keeps_flag e i m) as [H _].
  destruct (pointer_up e i m) as [[r i1] m1]. unfold after in H. cbn [fst snd] in H.
  rewrite listener_instances. cbn [snd]. rewrite commit_other by congruence.
  by rewrite H.
Qed.



(** ** What setup, cleanup and update cannot reach *)

Lemma same_vars_states v i m : same_vars (i, m) (set_states v i, m).
Proof. done. Qed.

Lemma same_vars_report info i m : same_vars (i, m) (i, report_error info m).
Proof. unfold report_error. case_match; by split. Qed.

Lemma same_vars_store key value i m : same_vars (i, m) (store_truthy key value i, m).
Proof. destruct value; by split. Qed.

Lemma call_setup_same_vars plugin i m : same_vars (i, m) (after (call_setup plugin i m)).
Proof.
  unfold call_setup, after. destruct (setup plugin) as [f|]; [|by split].
  set (r := f _ _).
  pose proof (delegated_ctx_calls_same_vars (name plugin) (setup_calls r)
                (i, set_doc (setup_document r)
                      (log (Called (ident plugin) (name plugin) Setup) m))) as H.
  destruct (foldl _ _ _) as [i' m']. exact H.
Qed.

Lemma call_cleanup_same_vars plugin i m : same_vars (i, m) (after (call_cleanup plugin i m)).
Proof.
  unfold call_cleanup, after. destruct (cleanup plugin) as [f|]; [|by split].
  set (r := f _ _ _).
  pose proof (delegated_ctx_calls_same_vars (name plugin) (calls r)
                (i, set_doc (document_after r) m)) as H.
  destruct (foldl _ _ _) as [i' m']. exact H.
Qed.

Lemma update_plugin_same_vars i old_plugin new_plugin m :
  same_vars (i, m) (after (update_plugin i old_plugin new_plugin m)).
Proof.
  unfold update_plugin. destruct (_ && negb _); [done|].
  set (cleaned := match old_plugin with Some _ => _ | None => _ end).
  assert (same_vars (i, m) (after cleaned)) as H0.
  { unfold cleaned. destruct old_plugin as [o|]; [|done]. destruct (bool_decide _); [done|].
    pose proof (call_cleanup_same_vars o i m) as H.
    by destruct (call_cleanup o i m) as [[[[]|err] i1] m1]. }
  destruct cleaned as [[[[]|err] i1] m1]; unfold after in *; cbn [fst snd] in *; [|done].
  pose proof (call_setup_same_vars new_plugin i1 m1) as H1.
  destruct (call_setup new_plugin i1 m1) as [[[state|err] i2] m2]; unfold after in *;
    cbn [fst snd] in *; [|by eapply delegated_same_vars_trans].
  pose proof (delegated_flush_effects_same_vars i2 m2) as H2.
  destruct (flush_effects i2 m2) as [[[[]|err] i3] m3]; unfold after in *; cbn [fst snd] in *;
    (eapply delegated_same_vars_trans; [exact H0|]);
    (eapply delegated_same_vars_trans; [exact H1|]); [|done].
  eapply delegated_same_vars_trans; [exact H2|]. apply same_vars_store.
Qed.

Lemma update_plugins_same_vars todo old changes i m :
  same_vars (i, m) (after (update_plugins todo old changes i m)).
Proof.
  revert changes i m. induction todo as [|plugin todo IH]; intros changes i m;
    cbn [update_plugins]; [done|].
  pose proof (update_plugin_same_vars i (map_get old (name plugin)) plugin m) as H.
  destruct (update_plugin _ _ _ _) as [[[b|err] i1] m1]; unfold after in *; cbn [fst snd] in *;
    [|done].
  eapply delegated_same_vars_trans; [exact H|apply IH].
Qed.

Lemma cleanup_removed_same_vars removed i m :
  same_vars (i, m) (after (cleanup_removed removed i m)).
Proof.
  revert i m. induction removed as [|plugin removed IH]; intros i m;
    cbn [cleanup_removed]; [done|].
  pose proof (call_cleanup_same_vars plugin i m) as H.
  destruct (call_cleanup plugin i m) as [[[[]|err] i1] m1]; unfold after in *;
    cbn [fst snd] in *; [|done].
  eapply delegated_same_vars_trans; [exact H|].
  eapply delegated_same_vars_trans; [|apply IH]. apply same_vars_states.
Qed.

Lemma cleanup_all_same_vars todo i m : same_vars (i, m) (after (cleanup_all todo i m)).
Proof.
  revert i m. induction todo as [|plugin todo IH]; intros i m; cbn [cleanup_all]; [done|].
  pose proof (call_cleanup_same_vars plugin i m) as H.
  destruct (call_cleanup plugin i m) as [[[[]|err] i1] m1]; unfold after in *;
    cbn [fst snd] in *; [|done].
  eapply delegated_same_vars_trans; [exact H|apply IH].
Qed.

Lemma initial_setup_same_vars plugin i m : same_vars (i, m) (initial_setup plugin i m).
Proof.
  unfold initial_setup.
  pose proof (call_setup_same_vars plugin i m) as H1.
  destruct (call_setup plugin i m) as [[[value|err] i1] m1]; unfold after in *;
    cbn [fst snd] in *.
  - pose proof (delegated_flush_effects_same_vars (store_truthy (name plugin) value i1) m1)
      as H2.
    pose proof (same_vars_store (name plugin) value i1 m1) as H3.
    destruct (flush_effects _ m1) as [[[[]|err] i2] m2]; unfold after in *; cbn [fst snd] in *;
      (eapply delegated_same_vars_trans; [exact H1|]);
      (eapply delegated_same_vars_trans; [exact H3|]);
      (eapply delegated_same_vars_trans; [exact H2|]); [done|].
    apply same_vars_report.
  - eapply delegated_same_vars_trans; [exact H1|]. apply same_vars_report.
Qed.

Lemma initial_setups_same_vars ps i m :
  same_vars (i, m) (foldl (fun im plugin => initial_setup plugin im.1 im.2) (i, m) ps).
Proof.
  revert i m. induction ps as [|p ps IH]; intros i m; cbn [foldl fst snd]; [by split|].
  pose proof (initial_setup_same_vars p i m) as H.
  destruct (initial_setup p i m) as [i1 m1].
  eapply delegated_same_vars_trans; [exact H|apply IH].
Qed.


(** ** Dragging implies interacting *)



Lemma same_vars_flags a b :
  same_vars a b ->
  isDragging (ctx b.1) = isDragging (ctx a.1)
  /\ isInteracting (ctx b.1) = isInteracting (ctx a.1).
Proof. intros H. by apply delegated_same_vars_inv in H as (_ & _ & _ & _ & _ & _ & _ & ? & ?). Qed.

Lemma delegated_drag_move_flags e i m :
  isDragging (ctx (drag_move e i m).1.2) = isDragging (ctx i)
  /\ isInteracting (ctx (drag_move e i m).1.2) = isInteracting (ctx i).
Proof.
  unfold drag_move. cbv zeta.
  match goal with
  | |- context [run_plugins ?i0 Drag e ?m0] =>
      pose proof (same_vars_flags _ _ (delegated_run_plugins_same_vars i0 Drag e m0)) as [H1 H2];
      destruct (run_plugins i0 Drag e m0) as [[b i1] m1]
  end.
  unfold after in *. cbn [fst snd ctx set_ctx isDragging isInteracting set_proposed set_delta]
    in H1, H2.
  destruct b; [|by rewrite <- H1, <- H2].
  pose proof (same_vars_flags _ _ (delegated_flush_effects_same_vars i1 m1)) as [H3 H4].
  destruct (flush_effects i1 m1) as [[[[]|err] i2] m2]; unfold after in *;
    cbn [fst snd] in *; [|split; congruence].
  cbn. split; congruence.
Qed.

Lemma start_drag_interacting e i m :
  isInteracting (ctx (start_drag e i m).1.2) = isInteracting (ctx i).
Proof.
  unfold start_drag.
  pose proof (same_vars_flags _ _ (delegated_run_plugins_same_vars i DragStart e m)) as [_ H2].
  destruct (run_plugins i DragStart e m) as [[b i1] m1]. unfold after in *. cbn [fst snd] in *.
  destruct b; cbn [negb]; [|done].
  pose proof (same_vars_flags _ _ (delegated_flush_effects_same_vars i1 m1)) as [_ H4].
  destruct (flush_effects i1 m1) as [[[[]|err] i2] m2]; unfold after in *;
    cbn [fst snd] in *; [|congruence].
  cbn. congruence.
Qed.

Lemma pointer_move_interacting e i m :
  isInteracting (ctx (pointer_move e i m).1.2) = isInteracting (ctx i).
Proof.
  unfold pointer_move. destruct (isInteracting (ctx i)) eqn:Hi; cbn [negb]; [|done].
  cbv zeta. cbn [isDragging ctx set_ctx set_lastEvent].
  destruct (isDragging (ctx i)).
  { destruct (delegated_drag_move_flags e (set_ctx (set_lastEvent (Some e) (ctx i)) i) m) as [_ H].
    rewrite H. exact Hi. }
  match goal with
  | |- context [run_plugins ?i0 Drag e ?m0] =>
      pose proof (same_vars_flags _ _ (delegated_run_plugins_same_vars i0 Drag e m0)) as [_ H2];
      destruct (run_plugins i0 Drag e m0) as [[b i1] m1]
  end.
  unfold after in *. cbn [fst snd ctx set_ctx isInteracting set_lastEvent
                          set_dragstart_prevented] in H2.
  destruct (_ && _); [|cbn [fst snd]; congruence].
  pose proof (start_drag_interacting e i1 m1) as H3.
  destruct (start_drag e i1 m1) as [[[[]|err] i2] m2]; cbn [fst snd] in *; try congruence.
  destruct (delegated_drag_move_flags e i2 m2) as [_ H]. congruence.
Qed.

Lemma pointer_move_sound e i m : sound i -> sound (pointer_move e i m).1.2.
Proof.
  intros Hs. pose proof (pointer_move_interacting e i m) as H.
  destruct (isInteracting (ctx i)) eqn:Hi.
  - intros _. exact H.
  - unfold pointer_move in *. rewrite Hi in *. exact Hs.
Qed.

Lemma pointer_up_sound e i m : sound i -> sound (pointer_up e i m).1.2.
Proof.
  intros Hs. unfold pointer_up. destruct (isInteracting (ctx i)) eqn:Hi; cbn [negb]; [|done].
  cbv zeta.
  match goal with
  | |- context [run_plugins i DragEnd e ?m0] =>
      pose proof (same_vars_flags _ _ (delegated_run_plugins_same_vars i DragEnd e m0)) as [_ H2];
      destruct (run_plugins i DragEnd e m0) as [[b i1] m1]
  end.
  unfold after in *. cbn [fst snd] in *.
  pose proof (same_vars_flags _ _ (delegated_flush_effects_same_vars i1 m1)) as [_ H4].
  destruct (flush_effects i1 m1) as [[[[]|err] i2] m2]; unfold after in *; cbn [fst snd] in *.
  - intros H. exfalso. revert H. cbn. by repeat case_match.
  - intros _. congruence.
Qed.

Lemma coherent_commit n i m m' :
  instances m' = instances m -> coherent m -> sound i -> coherent (commit n i m').
Proof.
  intros Heq Hm Hi k j. unfold commit. cbn. rewrite Heq.
  destruct (decide (n = k)) as [->|Hne].
  - rewrite lookup_insert_eq. by intros [= <-].
  - rewrite lookup_insert_ne by done. apply Hm.
Qed.

Lemma coherent_same m m' : instances m' = instances m -> coherent m -> coherent m'.
Proof. unfold coherent. by intros ->. Qed.

Lemma cleanup_active_node_coherent m : coherent m -> coherent (cleanup_active_node m).
Proof.
  intros Hm. unfold cleanup_active_node.
  destruct (active_node m) as [k|]; [|done].
  destruct (instances m !! k) as [i|] eqn:Hk; [|done].
  set (m0 := if _ && _ then _ else m).
  assert (instances m0 = instances m) as Hm0 by (unfold m0; by case_match).
  intros n j. cbn. rewrite Hm0.
  destruct (decide (k = n)) as [->|Hne].
  - rewrite lookup_insert_eq. intros [= <-]. intros H. discriminate H.
  - rewrite lookup_insert_ne by done. apply Hm.
Qed.

Lemma handle_pointer_down_coherent e m : coherent m -> coherent (handle_pointer_down e m).
Proof.
  intros Hm. unfold handle_pointer_down. case_bool_decide; [done|].
  destruct (find_draggable_node e m) as [[k kind]|]; [|done].
  destruct (instances m !! k) as [i|] eqn:Hk; [|done].
  set (i0 := set_ctx _ i).
  pose proof (same_vars_flags _ _ (delegated_run_plugins_same_vars i0 ShouldDrag e m)) as [H1 H2].
  pose proof (run_plugins_keeps_flag i0 ShouldDrag e m) as [H3 _].
  destruct (run_plugins i0 ShouldDrag e m) as [[b i1] m1]. unfold after in *.
  cbn [fst snd] in *.
  assert (sound i1) as Hs1.
  { unfold sound. rewrite H1, H2. apply (Hm k i Hk). }
  destruct b; simpl; [|by apply (coherent_commit k i1 m m1)].
  destruct (setPointerCapture_throws e) as [err|].
  - apply cleanup_active_node_coherent.
    apply (coherent_commit k _ m); [|done|by intros _].
    unfold report_error. by case_match.
  - apply (coherent_commit k _ m m1); [done|done|]. intros _. by repeat case_match.
Qed.

Lemma handle_pointer_move_call_coherent e m :
  coherent m -> coherent (handle_pointer_move_call e m).2.
Proof.
  intros Hm. unfold handle_pointer_move_call.
  destruct (active_node m) as [k|]; [|done].
  destruct (instances m !! k) as [i|] eqn:Hk; [|done].
  pose proof (pointer_move_keeps_flag e i m) as [H _].
  pose proof (pointer_move_sound e i m (Hm k i Hk)) as Hs.
  destruct (pointer_move e i m) as [[r i1] m1]. unfold after in H. cbn [fst snd] in *.
  by apply (coherent_commit k i1 m m1).
Qed.

Lemma handle_pointer_up_coherent e m : coherent m -> coherent (handle_pointer_up e m).
Proof.
  intros Hm. unfold handle_pointer_up.
  destruct (active_node m) as [k|]; [|done].
  destruct (instances m !! k) as [i|] eqn:Hk; [|done].
  pose proof (pointer_up_keeps_flag e i m) as [H _].
  pose proof (pointer_up_sound e i m (Hm k i Hk)) as Hs.
  destruct (pointer_up e i m) as [[r i1] m1]. unfold after in H. cbn [fst snd] in *.
  eapply coherent_same; [apply listener_instances|]. cbn [snd].
  by apply (coherent_commit k i1 m m1).
Qed.

Lemma sound_same_vars i m i' m' : same_vars (i, m) (i', m') -> sound i -> sound i'.
Proof.
  intros H Hs. apply same_vars_flags in H as [H1 H2]. cbn [fst] in *.
  unfold sound. by rewrite H1, H2.
Qed.

Lemma instances_same_vars i m i' m' : same_vars (i, m) (i', m') -> instances m' = instances m.
Proof. intros H. by apply delegated_same_vars_inv in H as (_ & ? & _). Qed.

Lemma update_coherent n new_plugins m : coherent m -> coherent (update n new_plugins m).2.
Proof.
  intros Hm. unfold update.
  destruct (instances m !! n) as [i|] eqn:Hn; [|done].
  pose proof (Hm n i Hn) as Hi.
  destruct (_ || _).
  - match goal with
    | |- context [update_plugins ?todo ?old false i m] =>
        pose proof (update_plugins_same_vars todo old false i m) as H;
        destruct (update_plugins todo old false i m) as [[[changes|err] i1] m1]
    end; unfold after in H; cbn [fst snd] in *.
    + assert (coherent (commit n i1 m1)) as Hc.
      { apply (coherent_commit n i1 m m1); [apply (instances_same_vars _ _ _ _ H)|done|].
        apply (sound_same_vars _ _ _ _ H Hi). }
      destruct (_ && _); [|done]. destruct (lastEvent (ctx i1)); [|done].
      by apply handle_pointer_move_call_coherent.
    + apply (coherent_commit n i1 m m1); [apply (instances_same_vars _ _ _ _ H)|done|].
      apply (sound_same_vars _ _ _ _ H Hi).
  - set (removed := filter _ (plugins i)).
    pose proof (cleanup_removed_same_vars removed i m) as H1.
    destruct (cleanup_removed removed i m) as [[[[]|err] i1] m1]; unfold after in H1;
      cbn [fst snd] in *.
    2:{ apply (coherent_commit n i1 m m1); [apply (instances_same_vars _ _ _ _ H1)|done|].
        apply (sound_same_vars _ _ _ _ H1 Hi). }
    match goal with
    | |- context [update_plugins ?todo ?old ?c i1 m1] =>
        pose proof (update_plugins_same_vars todo old c i1 m1) as H2;
        destruct (update_plugins todo old c i1 m1) as [[[changes|err] i2] m2]
    end; unfold after in H2; cbn [fst snd] in *.
    + apply (coherent_commit n _ m m2).
      * rewrite (instances_same_vars _ _ _ _ H2). apply (instances_same_vars _ _ _ _ H1).
      * done.
      * pose proof (sound_same_vars _ _ _ _ H2 (sound_same_vars _ _ _ _ H1 Hi)) as Hs.
        by destruct changes.
    + apply (coherent_commit n i2 m m2).
      * rewrite (instances_same_vars _ _ _ _ H2). apply (instances_same_vars _ _ _ _ H1).
      * done.
      * apply (sound_same_vars _ _ _ _ H2 (sound_same_vars _ _ _ _ H1 Hi)).
Qed.

Lemma destroy_coherent n m : coherent m -> coherent (destroy n m).2.
Proof.
  intros Hm. unfold destroy.
  destruct (instances m !! n) as [i|] eqn:Hn; [|done].
  set (m0 := if bool_decide _ then _ else m).
  assert (instances m0 = instances m) as Hm0 by (unfold m0; by case_match).
  pose proof (cleanup_all_same_vars (plugins i) i m0) as H.
  destruct (cleanup_all (plugins i) i m0) as [[[[]|err] i1] m1]; unfold after in H;
    cbn [fst snd] in *.
  - intros k j. cbn. rewrite (instances_same_vars _ _ _ _ H). rewrite Hm0.
    intros Hk. apply lookup_delete_Some in Hk as [_ Hk]. by apply (Hm k).
  - apply (coherent_commit n i1 m m1).
    + rewrite (instances_same_vars _ _ _ _ H). exact Hm0.
    + done.
    + apply (sound_same_vars _ _ _ _ H (Hm n i Hn)).
Qed.

Lemma draggable_coherent n plugin_list rect m :
  coherent m -> coherent (draggable n plugin_list rect m).
Proof.
  intros Hm. unfold draggable.
  set (i0 := {| ctx := _ |}).
  pose proof (initial_setups_same_vars (plugins i0) i0 (initialize_listeners m)) as H.
  destruct (foldl _ _ _) as [i1 m1].
  apply (coherent_commit n i1 m m1).
  - rewrite (instances_same_vars _ _ _ _ H).
    unfold initialize_listeners. by destruct (listeners_initialized m).
  - done.
  - apply (sound_same_vars _ _ _ _ H). intros Hd. discriminate Hd.
Qed.

Lemma step_coherent m ev : coherent m -> coherent (step m ev).
Proof.
  intros Hm. destruct ev as [e|e|e|k ps rect|k|k]; cbn [step].
  - by apply handle_pointer_down_coherent.
  - eapply coherent_same; [apply listener_instances|].
    by apply handle_pointer_move_call_coherent.
  - by apply handle_pointer_up_coherent.
  - by apply draggable_coherent.
  - eapply coherent_same; [apply listener_instances|]. by apply update_coherent.
  - eapply coherent_same; [apply listener_instances|]. by apply destroy_coherent.
Qed.

Lemma run_coherent m evs : coherent m -> coherent (run m evs).
Proof.
  revert m. induction evs as [|ev evs IH]; intros m Hm; [done|].
  cbn [run foldl]. apply IH. by apply step_coherent.
Qed.


(** ** The registry under pointer events *)


Lemma commit_registered n i i' m m' k :
  instances m' = instances m -> instances m !! n = Some i ->
  is_Some (instances (commit n i' m') !! k) <-> is_Some (instances m !! k).
Proof.
  intros Heq Hn. unfold commit. cbn. rewrite Heq.
  destruct (decide (n = k)) as [->|Hne].
  - rewrite lookup_insert_eq, Hn. split; by eexists.
  - by rewrite lookup_insert_ne.
Qed.

Lemma cleanup_active_node_registered m k :
  is_Some (instances (cleanup_active_node m) !! k) <-> is_Some (instances m !! k).
Proof.
  unfold cleanup_active_node.
  destruct (active_node m) as [n|]; [|done].
  destruct (instances m !! n) as [i|] eqn:Hn; [|done].
  set (m0 := if _ && _ then _ else m).
  assert (instances m0 = instances m) as Hm0 by (unfold m0; by case_match).
  cbn. rewrite Hm0.
  destruct (decide (n = k)) as [->|Hne].
  - rewrite lookup_insert_eq, Hn. split; by eexists.
  - by rewrite lookup_insert_ne.
Qed.

Lemma handle_pointer_down_registered e m k :
  is_Some (instances (handle_pointer_down e m) !! k) <-> is_Some (instances m !! k).
Proof.
  unfold handle_pointer_down. case_bool_decide; [done|].
  destruct (find_draggable_node e m) as [[n kind]|]; [|done].
  destruct (instances m !! n) as [i|] eqn:Hn; [|done].
  set (i0 := set_ctx _ i).
  pose proof (run_plugins_keeps_flag i0 ShouldDrag e m) as [H1 _].
  destruct (run_plugins i0 ShouldDrag e m) as [[b i1] m1]. unfold after in H1.
  cbn [fst snd] in H1.
  destruct b; simpl; [|by apply (commit_registered n i i1 m m1)].
  destruct (setPointerCapture_throws e) as [err|].
  - rewrite cleanup_active_node_registered.
    apply (commit_registered n i _ m); [|done].
    unfold report_error. by case_match.
  - cbv zeta. by apply (commit_registered n i _ m).
Qed.

Lemma handle_pointer_move_call_registered e m k :
  is_Some (instances (handle_pointer_move_call e m).2 !! k) <-> is_Some (instances m !! k).
Proof.
  unfold handle_pointer_move_call.
  destruct (active_node m) as [n|]; [|done].
  destruct (instances m !! n) as [i|] eqn:Hn; [|done].
  pose proof (pointer_move_keeps_flag e i m) as [H _].
  destruct (pointer_move e i m) as [[r i1] m1]. unfold after in H. cbn [fst snd] in *.
  by apply (commit_registered n i i1 m m1).
Qed.

Lemma handle_pointer_up_registered e m k :
  is_Some (instances (handle_pointer_up e m) !! k) <-> is_Some (instances m !! k).
Proof.
  unfold handle_pointer_up.
  destruct (active_node m) as [n|]; [|done].
  destruct (instances m !! n) as [i|] eqn:Hn; [|done].
  pose proof (pointer_up_keeps_flag e i m) as [H _].
  destruct (pointer_up e i m) as [[r i1] m1]. unfold after in H. cbn [fst snd] in *.
  rewrite listener_instances. cbn [snd]. by apply (commit_registered n i i1 m m1).
Qed.

(** ** A failed pointer capture *)

Lemma same_vars_anchor a b :
  same_vars a b ->
  initial (ctx b.1) = initial (ctx a.1)
  /\ pointer_captured_id b.1 = pointer_captured_id a.1
  /\ lastEvent (ctx b.1) = lastEvent (ctx a.1)
  /\ root_node b.1 = root_node a.1.
Proof. intros [H1 H2]. unfold instance_vars in *. by simplify_eq. Qed.

Lemma cleanup_active_node_spec m n i :
  active_node m = Some n -> instances m !! n = Some i ->
  let m' := cleanup_active_node m in
  active_node m' = None /\ trace m' = trace m
  /\ exists i', instances m' !! n = Some i'
       /\ isInteracting (ctx i') = false /\ isDragging (ctx i') = false
       /\ pointer_captured_id i' = None /\ effects i' = []
       /\ dragstart_prevented i' = false
       /\ offset (ctx i') = offset (ctx i) /\ initial (ctx i') = initial (ctx i)
       /\ plugins i' = plugins i /\ states i' = states i.
Proof.
  intros Ha Hn. unfold cleanup_active_node. rewrite Ha, Hn.
  set (m0 := if _ && _ then _ else m).
  assert (instances m0 = instances m /\ trace m0 = trace m) as [Hm0 Ht0]
    by (unfold m0; by case_match).
  cbn. rewrite lookup_insert_eq. split; [done|]. split; [done|].
  eexists. split; [done|]. by split_and!.
Qed.

Lemma handle_pointer_down_capture_fails e m k kind i err :
  button e <> 2%Z ->
  find_draggable_node e m = Some (k, kind) ->
  instances m !! k = Some i ->
  let i0 := set_ctx (set_cachedRootNodeRect (getBoundingClientRect e k) (ctx i)) i in
  let chain := run_plugins i0 ShouldDrag e m in
  chain.1.1 = true ->
  setPointerCapture_throws e = Some err ->
  let m' := handle_pointer_down e m in
  active_node m' = None
  /\ trace m'
     = trace chain.2
       ++ (if onError m
           then [Reported {| info_phase := DragStart; info_plugin := None;
                             info_node := currentlyDraggedNode (ctx chain.1.2);
                             info_error := err |}]
           else [])
  /\ exists i', instances m' !! k = Some i'
       /\ isInteracting (ctx i') = false /\ isDragging (ctx i') = false
       /\ pointer_captured_id i' = None /\ effects i' = []
       /\ dragstart_prevented i' = false
       /\ offset (ctx i') = offset (ctx i) /\ initial (ctx i') = initial (ctx i).
Proof.
  intros Hbutton Hfind Hk i0 chain Hchain Hthrows m'. subst m'.
  unfold handle_pointer_down. rewrite bool_decide_eq_false_2 by done.
  rewrite Hfind, Hk. fold i0. fold chain.
  pose proof (delegated_run_plugins_same_vars i0 ShouldDrag e m) as Hsame.
  fold chain in Hsame.
  destruct chain as [[b i1] m1]. cbn [fst snd] in *. subst b. cbn [negb].
  rewrite Hthrows. cbv zeta.
  unfold after in Hsame. cbn [fst snd] in Hsame.
  pose proof (same_vars_anchor _ _ Hsame) as (Hin & _).
  apply delegated_same_vars_inv in Hsame as (Herr & _ & _ & _ & _ & _ & Ho & _).
  cbn [fst snd] in Herr, Ho, Hin.
  change (offset (ctx i0)) with (offset (ctx i)) in Ho.
  change (initial (ctx i0)) with (initial (ctx i)) in Hin.
  match goal with
  | |- context [cleanup_active_node (commit k ?j ?mr)] =>
      set (ir := j); set (mr' := mr);
      assert (active_node (commit k ir mr') = Some k) as Hac
        by (unfold commit, mr', report_error; by case_match);
      assert (instances (commit k ir mr') !! k = Some ir) as Hic
        by (unfold commit; cbn; by rewrite lookup_insert_eq);
      pose proof (cleanup_active_node_spec (commit k ir mr') k ir Hac Hic) as Hspec;
      cbv zeta in Hspec;
      destruct Hspec as (Ha & Ht & i' & Hi' & H1 & H2 & H3 & H4 & H5 & H6 & H7 & _)
  end.
  split; [exact Ha|]. split.
  - etransitivity; [exact Ht|]. unfold commit, mr', report_error. cbn [trace set_instances].
    cbn [onError set_active_node]. rewrite Herr.
    destruct (onError m); cbn; [done|by rewrite app_nil_r].
  - exists i'. split; [exact Hi'|]. rewrite H6, H7. unfold ir. cbn. by split_and!.
Qed.


(** ** [destroy] *)

Lemma find_in_path_none path m :
  Forall (fun el => ~ eligible m el) path -> find_in_path path m = None.
Proof.
  induction 1 as [|[el k] path Hel _ IH]; cbn [find_in_path]; [done|].
  destruct (_ && _) eqn:Htest; [|done].
  exfalso. apply Hel. apply andb_true_iff in Htest as [H1 H2].
  apply bool_decide_eq_true in H2. by split.
Qed.

Lemma destroy_returns n m i m' :
  instances m !! n = Some i -> destroy n m = (Return (), m') ->
  instances m' = delete n (instances m)
  /\ active_node m' = (if bool_decide (active_node m = Some n) then None else active_node m).
Proof.
  intros Hn. unfold destroy. rewrite Hn.
  set (m0 := if bool_decide _ then _ else m).
  assert (instances m0 = instances m
          /\ active_node m0 = (if bool_decide (active_node m = Some n) then None
                               else active_node m)) as [Hi0 Ha0]
    by (unfold m0; by case_bool_decide).
  pose proof (cleanup_all_same_vars (plugins i) i m0) as H.
  destruct (cleanup_all (plugins i) i m0) as [[[[]|err] i1] m1]; [|done].
  intros [= <-]. unfold after in H. cbn [fst snd] in H.
  apply delegated_same_vars_inv in H as (_ & Hi & Ha & _). cbn [fst snd] in *.
  cbn. by rewrite Hi, Ha, Hi0, Ha0.
Qed.

Lemma destroy_throws n m i err m' :
  instances m !! n = Some i -> destroy n m = (Throw err, m') ->
  is_Some (instances m' !! n)
  /\ (forall k, k <> n -> instances m' !! k = instances m !! k)
  /\ active_node m' = (if bool_decide (active_node m = Some n) then None else active_node m).
Proof.
  intros Hn. unfold destroy. rewrite Hn.
  set (m0 := if bool_decide _ then _ else m).
  assert (instances m0 = instances m
          /\ active_node m0 = (if bool_decide (active_node m = Some n) then None
                               else active_node m)) as [Hi0 Ha0]
    by (unfold m0; by case_bool_decide).
  pose proof (cleanup_all_same_vars (plugins i) i m0) as H.
  destruct (cleanup_all (plugins i) i m0) as [[[[]|err'] i1] m1]; [done|].
  intros [= <- <-]. unfold after in H. cbn [fst snd] in H.
  apply delegated_same_vars_inv in H as (_ & Hi & Ha & _). cbn [fst snd] in *.
  unfold commit. cbn. rewrite Hi, Ha, Hi0, Ha0.
  split; [rewrite lookup_insert_eq; by eexists|]. split; [|done].
  intros k Hk. by rewrite lookup_insert_ne.
Qed.

(** ** [update] *)

Lemma update_plugins_changed todo old i m c i' m' :
  update_plugins todo old true i m = (Return c, i', m') -> c = true.
Proof.
  revert i m. induction todo as [|plugin todo IH]; intros i m; cbn [update_plugins].
  - by intros [= <- _ _].
  - destruct (update_plugin _ _ _ _) as [[[b|err] i1] m1]; [|done].
    rewrite orb_true_r. apply IH.
Qed.

Lemma initialize_plugins_elem new_plugins m v :
  v ∈ initialize_plugins new_plugins m -> v ∈ new_plugins ++ initial_plugins m.
Proof.
  intros Hv.
  destruct (PluginMaps.initialize_plugins_kept new_plugins m) as (_ & Hkept & _).
  destruct (Hkept v Hv) as (l1 & l2 & -> & _).
  apply elem_of_app. right. apply elem_of_cons. by left.
Qed.

Lemma update_idle_replaces n new_plugins m i p m' :
  instances m !! n = Some i ->
  isDragging (ctx i) = false -> isInteracting (ctx i) = false ->
  p ∈ plugins i -> name p ∉ name <$> (new_plugins ++ initial_plugins m) ->
  update n new_plugins m = (Return (), m') ->
  exists i', instances m' !! n = Some i'
             /\ plugins i' = initialize_plugins new_plugins m
             /\ isDragging (ctx i') = false /\ isInteracting (ctx i') = false
             /\ offset (ctx i') = offset (ctx i).
Proof.
  intros Hn Hd Hi Hp Hname. unfold update. rewrite Hn, Hd, Hi. cbn [orb].
  set (new_list := initialize_plugins new_plugins m).
  set (removed := filter _ (plugins i)).
  assert (p ∈ removed) as Hrem.
  { unfold removed. apply list_elem_of_filter. split; [|done].
    rewrite bool_decide_eq_false_2; [done|]. intros Hex.
    apply list.Exists_exists in Hex as (np & Hnp & Heq).
    apply Hname. rewrite <- Heq. apply list_elem_of_fmap. exists np. split; [done|].
    by apply initialize_plugins_elem. }
  assert (bool_decide (removed = []) = false) as Hne.
  { apply bool_decide_eq_false. intros Heq. rewrite Heq in Hrem. by apply elem_of_nil in Hrem. }
  pose proof (cleanup_removed_same_vars removed i m) as H1.
  destruct (cleanup_removed removed i m) as [[[[]|err] i1] m1]; [|done].
  rewrite Hne. cbn [negb].
  pose proof (update_plugins_same_vars new_list (old_plugin_map i) true i1 m1) as H2.
  destruct (update_plugins new_list (old_plugin_map i) true i1 m1)
    as [[[c|err] i2] m2] eqn:Hup; [|done].
  apply update_plugins_changed in Hup. subst c.
  intros [= <-]. unfold after in H1, H2. cbn [fst snd] in H1, H2.
  pose proof (delegated_same_vars_trans _ _ _ H1 H2) as H.
  apply delegated_same_vars_inv in H as (_ & _ & _ & _ & _ & _ & Ho & Hdr & Hin).
  cbn [fst snd] in *.
  unfold commit. cbn. rewrite lookup_insert_eq. eexists. split; [done|].
  cbn. rewrite Hdr, Hin, Ho. by split_and!.
Qed.


(** ** The pointer capture of an instance without plugins *)

Lemma run_plugins_none i h e m :
  plugins i = [] ->
  run_plugins i h e m = (true, set_dragstart_prevented false i, log (Dispatch h) m).
Proof. intros H. unfold run_plugins. cbn [plugins set_dragstart_prevented]. by rewrite H. Qed.

Lemma flush_effects_none i m :
  effects i = [] -> flush_effects i m = (Return (), clear_effects i, m).
Proof. intros H. unfold flush_effects. by rewrite H. Qed.

Lemma handle_pointer_down_bare e m k kind i :
  button e <> 2%Z ->
  find_draggable_node e m = Some (k, kind) ->
  instances m !! k = Some i ->
  plugins i = [] -> effects i = [] ->
  setPointerCapture_throws e = None ->
  let m1 := handle_pointer_down e m in
  active_node m1 = Some k
  /\ pointer_capture (doc m1)
     = <[pointerId e := currentlyDraggedNode (ctx i)]> (pointer_capture (doc m))
  /\ exists i1, instances m1 !! k = Some i1
       /\ isInteracting (ctx i1) = true /\ isDragging (ctx i1) = isDragging (ctx i)
       /\ pointer_captured_id i1 = Some (pointerId e)
       /\ currentlyDraggedNode (ctx i1) = currentlyDraggedNode (ctx i)
       /\ plugins i1 = [] /\ effects i1 = [].
Proof.
  intros Hbutton Hfind Hk Hplugins Heffects Hcapture m1. subst m1.
  unfold handle_pointer_down. rewrite bool_decide_eq_false_2 by done.
  rewrite Hfind, Hk. rewrite run_plugins_none by done. cbn [negb].
  rewrite Hcapture. cbv zeta. unfold commit.
  cbn [active_node set_instances set_doc set_active_node log set_trace doc instances].
  rewrite lookup_insert_eq. split; [done|]. split; [done|].
  eexists. split; [done|]. repeat case_match; cbn; by split_and!.
Qed.

Lemma handle_pointer_up_bare e m k i :
  active_node m = Some k -> instances m !! k = Some i ->
  isInteracting (ctx i) = true ->
  plugins i = [] -> effects i = [] ->
  let m2 := handle_pointer_up e m in
  pointer_capture (doc m2)
  = (if truthy_id (pointer_captured_id i)
        && hasPointerCapture (currentlyDraggedNode (ctx i)) (pointer_captured_id i) (doc m)
     then pointer_capture (releasePointerCapture (pointer_captured_id i) (doc m))
     else pointer_capture (doc m))
  /\ exists i2, instances m2 !! k = Some i2
       /\ isInteracting (ctx i2) = false /\ isDragging (ctx i2) = false
       /\ pointer_captured_id i2 = None.
Proof.
  intros Ha Hk Hi Hplugins Heffects m2. subst m2.
  unfold handle_pointer_up. rewrite Ha, Hk. unfold pointer_up. rewrite Hi. cbn [negb].
  cbv zeta. rewrite run_plugins_none by done.
  rewrite flush_effects_none by done.
  cbn [listener]. unfold commit. cbn [instances set_instances]. rewrite lookup_insert_eq.
  split.
  - destruct (isDragging (ctx i)); destruct (pointer_captured_id i) as [id|]; cbn;
      repeat case_match; done.
  - eexists. split; [done|]. repeat case_match; cbn; by split_and!.
Qed.


End DelegatedMore.
(** * Facts about the option-driven engine *)

Module LegacyFacts.
Import LegacyEngine LegacySpec.

(** ** The parts of the listeners *)

Lemma recompute_cases when e s :
  (recompute when e s).2 = s
  \/ exists computed, (recompute when e s).2 = set_computedBounds computed s.
Proof.
  unfold recompute. destruct (default false when); [|by left].
  destruct (computeBoundRect _ _ _) as [computed|err]; [right; by eexists|by left].
Qed.

Ltac fields :=
  cbn [the_node settings isControlled active translateX translateY initialX initialY
       clientToNodeOffsetX clientToNodeOffsetY xOffset yOffset canMoveInX canMoveInY
       bodyOriginalUserSelectVal computedBounds nodeRect dragEl cancelEl listening
       tick_resolved pending page trace
       set_settings set_active set_translateX set_translateY set_initialX set_initialY
       set_clientToNodeOffsetX set_clientToNodeOffsetY set_xOffset set_yOffset
       set_canMoveInX set_canMoveInY set_bodyOriginalUserSelectVal set_computedBounds
       set_nodeRect set_dragEl set_cancelEl set_listening set_tick_resolved set_pending
       set_page set_trace log callEvent fireSvelteDragStartEvent fireSvelteDragEndEvent
       fireSvelteDragEvent tick_then_setTranslate].

Ltac page_fields :=
  cbn [class_list body_user_select transform touch_action defaults_prevented
       set_class_list set_body_user_select set_transform set_touch_action preventDefault
       setTranslate].

Lemma start_dragging_spec e rect s :
  let s' := start_dragging e rect s in
  let k := calculateInverseScale e rect s in
  constants s' = constants s /\ position s' = position s
  /\ active s' = true
  /\ canMoveInX s' = canMoveInX s /\ canMoveInY s' = canMoveInY s
  /\ listening s' = listening s /\ tick_resolved s' = tick_resolved s
  /\ pending s' = pending s /\ computedBounds s' = computedBounds s
  /\ trace s' = trace s ++ [Fired neodrag_start (translateX s) (translateY s)]
  /\ initialX s' = (if canMoveInX s then clientX e - xOffset s / k else initialX s)
  /\ initialY s' = (if canMoveInY s then clientY e - yOffset s / k else initialY s)
  /\ class_list (page s') = class_list (page s)
  /\ transform (page s') = transform (page s)
  /\ body_user_select (page s')
     = (if applyUserSelectHack (settings s) then "none" else body_user_select (page s))
  /\ bodyOriginalUserSelectVal s'
     = (if applyUserSelectHack (settings s) then body_user_select (page s)
        else bodyOriginalUserSelectVal s)
  /\ (if computedBounds s is Some _
      then clientToNodeOffsetX s' = clientX e - rect_left rect
           /\ clientToNodeOffsetY s' = clientY e - rect_top rect
      else clientToNodeOffsetX s' = clientToNodeOffsetX s
           /\ clientToNodeOffsetY s' = clientToNodeOffsetY s).
Proof.
  unfold start_dragging, constants, position, calculateInverseScale. cbv zeta. fields.
  destruct (applyUserSelectHack (settings s)) eqn:Hh; fields;
    destruct (canMoveInX s) eqn:Hx; fields; destruct (canMoveInY s) eqn:Hy; fields;
    destruct (computedBounds s) eqn:Hc; fields; page_fields;
    rewrite ?Hh, ?Hx, ?Hy, ?Hc; by split_and!.
Qed.

Lemma commit_spec k final s :
  let s' := commit k final s in
  constants s' = constants s /\ active s' = active s
  /\ canMoveInX s' = canMoveInX s /\ canMoveInY s' = canMoveInY s
  /\ initialX s' = initialX s /\ initialY s' = initialY s
  /\ listening s' = listening s /\ tick_resolved s' = tick_resolved s
  /\ pending s' = true /\ computedBounds s' = computedBounds s
  /\ page s' = page s
  /\ bodyOriginalUserSelectVal s' = bodyOriginalUserSelectVal s
  /\ clientToNodeOffsetX s' = clientToNodeOffsetX s
  /\ clientToNodeOffsetY s' = clientToNodeOffsetY s
  /\ translateX s' = (if canMoveInX s then Math_round ((final.1 - initialX s) * k)
                      else translateX s)
  /\ translateY s' = (if canMoveInY s then Math_round ((final.2 - initialY s) * k)
                      else translateY s)
  /\ xOffset s' = translateX s' /\ yOffset s' = translateY s'
  /\ trace s' = trace s ++ [Fired neodrag (translateX s') (translateY s')].
Proof.
  unfold commit, constants. destruct final as [finalX finalY]. cbv zeta. fields.
  destruct (canMoveInX s) eqn:Hx; fields; destruct (canMoveInY s) eqn:Hy; fields;
    rewrite ?Hx, ?Hy; by split_and!.
Qed.

Lemma recompute_off when e s :
  default false when = false -> recompute when e s = (Return (), s).
Proof. intros H. unfold recompute. by rewrite H. Qed.

Lemma recompute_unbounded when e s :
  bounds (settings s) = None -> computedBounds s = None ->
  computedBounds (recompute when e s).2 = None.
Proof.
  intros Hb Hc. unfold recompute. destruct (default false when); [|done].
  by rewrite Hb.
Qed.

Lemma recompute_prepares e s s0 :
  prepares s s0 ->
  prepares s (recompute (recompute_dragStart (recomputeBounds (settings s))) e s0).2.
Proof.
  intros H.
  destruct (default false (recompute_dragStart (recomputeBounds (settings s)))) eqn:Hw.
  - destruct (recompute_cases (recompute_dragStart (recomputeBounds (settings s))) e s0)
      as [Hr|[computed Hr]]; [by rewrite Hr|].
    pose proof (recompute_unbounded (recompute_dragStart (recomputeBounds (settings s)))
                  e s0) as Hun.
    rewrite Hr in Hun. cbn [snd] in Hun.
    rewrite Hr. unfold prepares, constants, position in *. fields.
    destruct H as (Hc & ? & ? & ? & ? & ? & ? & ? & ? & ? & ? & ? & ? & ? & Hun0).
    cbn [computedBounds set_computedBounds settings] in Hun.
    injection Hc as Hn Hs Hi. rewrite Hs in Hun.
    split_and!; try done; try congruence.
    intros Hb Hcn. apply Hun; [done|by apply Hun0].
  - by rewrite recompute_off.
Qed.

Lemma recompute_flags when e s0 :
  canMoveInX (recompute when e s0).2 = canMoveInX s0
  /\ canMoveInY (recompute when e s0).2 = canMoveInY s0
  /\ the_node (recompute when e s0).2 = the_node s0.
Proof. by destruct (recompute_cases when e s0) as [->|[computed ->]]. Qed.

Lemma dragStart_cases e s :
  dragStart e s = (Return (), s)
  \/ exists s0,
       prepares s s0
       /\ ((exists r, dragStart e s = (r, s0)
            /\ ((canMoveInX s0 = canMoveInX s /\ canMoveInY s0 = canMoveInY s)
                \/ axis_flags s s0))
           \/ (axis_flags s s0
               /\ dragStart e s
                  = (Return (),
                     start_dragging e (getBoundingClientRect (dom e) (the_node s)) s0))).
Proof.
  unfold dragStart. cbv zeta.
  destruct (disabled (settings s)); [by left|].
  destruct (_ && negb _); [by left|]. right. fields.
  set (s1 := set_page _ s).
  assert (prepares s s1) as H1
    by (unfold prepares, constants, position, s1; fields; by split_and!).
  destruct (getHandleEl _ _ _) as [handle_el|err].
  2:{ exists s1. split; [done|]. left. eexists. split; [done|]. by left. }
  set (s2 := set_dragEl _ s1).
  assert (prepares s s2) as H2 by exact H1.
  destruct (getCancelElement _ _ _) as [cancel_el|err].
  2:{ exists s2. split; [done|]. left. eexists. split; [done|]. by left. }
  match goal with
  | |- context [recompute ?w e ?t] =>
      set (s3 := t);
      assert (prepares s s3) as H3 by exact H1;
      assert (axis_flags s s3) as Ha3 by (by split);
      pose proof (recompute_prepares e s s3 H3) as H4;
      pose proof (recompute_flags w e s3) as (Hx4 & Hy4 & Hn4);
      destruct (recompute w e s3) as [[[]|err] s4]
  end; cbn [snd] in *.
  2:{ exists s4. split; [done|]. left. eexists. split; [done|]. right.
      destruct Ha3 as [Hx3 Hy3]. split; congruence. }
  set (s5 := set_nodeRect _ s4).
  assert (prepares s s5) as H5 by exact H4.
  assert (axis_flags s s5) as Ha5.
  { destruct Ha3 as [Hx3 Hy3]. split; [exact (eq_trans Hx4 Hx3)|exact (eq_trans Hy4 Hy3)]. }
  destruct (match isString _, isString _ with Some _, Some _ => _ | _, _ => false end).
  { exists s5. split; [done|]. left. eexists. split; [done|]. by right. }
  destruct (cancelElementContains _ _ _).
  { exists s5. split; [done|]. left. eexists. split; [done|]. by right. }
  destruct (_ && negb _).
  - exists s5. split; [done|]. right. split; [done|].
    change (the_node s4) with (the_node s5). unfold s5 at 1. fields.
    rewrite Hn4. reflexivity.
  - exists s5. split; [done|]. left. eexists. split; [done|]. by right.
Qed.

Lemma recompute_throw when e s err s1 :
  recompute when e s = (Throw err, s1) -> s1 = s.
Proof.
  unfold recompute. destruct (default false when); [|done].
  destruct (computeBoundRect _ _ _); congruence.
Qed.

Lemma recompute_moving e s :
  moving s (recompute (recompute_drag (recomputeBounds (settings s))) e s).2.
Proof.
  pose proof (recompute_unbounded (recompute_drag (recomputeBounds (settings s))) e s)
    as Hun.
  destruct (default false (recompute_drag (recomputeBounds (settings s)))) eqn:Hw.
  - destruct (recompute_cases (recompute_drag (recomputeBounds (settings s))) e s)
      as [Hr|[computed Hr]]; rewrite Hr in *; unfold moving, constants, position; fields;
      split_and!; try done; intros; congruence.
  - rewrite recompute_off by done. unfold moving. by split_and!.
Qed.

Lemma classList_add_fields c d :
  body_user_select (classList_add c d) = body_user_select d
  /\ transform (classList_add c d) = transform d
  /\ touch_action (classList_add c d) = touch_action d
  /\ defaults_prevented (classList_add c d) = defaults_prevented d.
Proof. unfold classList_add. by case_bool_decide. Qed.

Lemma drag_cases e s :
  active s = true ->
  let rect := getBoundingClientRect (dom e) (the_node s) in
  let k := calculateInverseScale e rect s in
  exists s3,
    moving s s3
    /\ ((exists err, drag e s = (Throw err, s3))
        \/ (exists final,
              snapped k (bounded e rect s3) s3 = Return final
              /\ drag e s = (Return (), commit k final s3)
              /\ class_list (page s3)
                 = class_list (classList_add (defaultClassDragging (settings s)) (page s))
              /\ defaults_prevented (page s3) = S (defaults_prevented (page s)))).
Proof.
  intros Hactive rect k. unfold drag. rewrite Hactive. cbn [negb]. cbv zeta.
  pose proof (recompute_moving e s) as H1.
  pose proof (recompute_flags (recompute_drag (recomputeBounds (settings s))) e s)
    as (_ & _ & Hn1).
  assert (page (recompute (recompute_drag (recomputeBounds (settings s))) e s).2 = page s
          /\ settings (recompute (recompute_drag (recomputeBounds (settings s))) e s).2
             = settings s) as [Hp1 Hs1].
  { by destruct (recompute_cases (recompute_drag (recomputeBounds (settings s))) e s)
      as [->|[computed ->]]. }
  destruct (recompute _ e s) as [[[]|err] s1]; cbn [snd] in *.
  2:{ exists s1. split; [done|]. left. by eexists. }
  fields. rewrite Hn1, Hp1.
  set (s3 := set_nodeRect _ _).
  assert (moving s s3) as H3.
  { destruct (classList_add_fields (defaultClassDragging (settings s)) (page s))
      as (Hb & Htr & _).
    unfold moving, constants, position in H1.
    destruct H1 as (? & ? & ? & ? & ? & ? & ? & ? & ? & ? & ? & ? & ? & ? & ? & ? & ? & ?).
    unfold moving, constants, position, s3. fields. page_fields.
    rewrite Hb, Htr. rewrite Hp1 in *. by split_and!. }
  exists s3. split; [done|].
  fold rect.
  assert (calculateInverseScale e rect s3 = k) as ->
    by (unfold k, calculateInverseScale, s3; fields; by rewrite Hn1).
  destruct (snapped k (bounded e rect s3) s3) as [final|err] eqn:Hsnap.
  - right. exists final. split; [done|]. split; [done|].
    unfold s3. fields. page_fields.
    by destruct (classList_add_fields (defaultClassDragging (settings s)) (page s))
      as (_ & _ & _ & ->).
  - left. by eexists.
Qed.

Lemma dragEnd_spec e s :
  active s = true ->
  (exists err s1, dragEnd e s = (Throw err, s1) /\ moving s s1 /\ page s1 = page s)
  \/ exists s',
       dragEnd e s = (Return (), s')
       /\ constants s' = constants s /\ position s' = position s
       /\ active s' = false
       /\ canMoveInX s' = canMoveInX s /\ canMoveInY s' = canMoveInY s
       /\ listening s' = listening s /\ tick_resolved s' = tick_resolved s
       /\ pending s' = pending s
       /\ trace s' = trace s ++ [Fired neodrag_end (translateX s) (translateY s)]
       /\ initialX s' = (if canMoveInX s then translateX s else initialX s)
       /\ initialY s' = (if canMoveInX s then translateY s else initialY s)
       /\ transform (page s') = transform (page s)
       /\ class_list (page s')
          = class_list (classList_add (defaultClassDragged (settings s))
                          (classList_remove (defaultClassDragging (settings s)) (page s)))
       /\ body_user_select (page s')
          = (if applyUserSelectHack (settings s) then bodyOriginalUserSelectVal s
             else body_user_select (page s)).
Proof.
  intros Hactive. unfold dragEnd. rewrite Hactive. cbn [negb]. cbv zeta.
  destruct (recompute _ e s) as [[[]|err] s1] eqn:Hrec.
  - right. eexists. split; [reflexivity|].
    pose proof (recompute_cases (recompute_dragEnd (recomputeBounds (settings s))) e s)
      as Hr.
    rewrite Hrec in Hr. cbn [snd] in Hr.
    destruct (classList_add_fields (defaultClassDragged (settings s))
                (classList_remove (defaultClassDragging (settings s)) (page s)))
      as (Hb & Htr & _).
    destruct Hr as [->|[computed ->]]; unfold constants, position; fields;
      (destruct (applyUserSelectHack (settings s)) eqn:Hh; fields;
       destruct (canMoveInX s) eqn:Hx; fields; page_fields;
       rewrite ?Hb, ?Htr; unfold classList_remove; page_fields; rewrite ?Hh, ?Hx;
       by split_and!).
  - apply recompute_throw in Hrec as ->. left. eexists _, _.
    split; [reflexivity|]. unfold moving. by split_and!.
Qed.

Lemma settle_idle s : pending s = false -> settle s = s.
Proof. unfold settle. intros ->. by rewrite andb_false_r. Qed.

Lemma settle_waiting s : tick_resolved s = false -> settle s = s.
Proof. unfold settle. by intros ->. Qed.

Lemma settle_spec s :
  let s' := settle s in
  constants s' = constants s /\ position s' = position s /\ clock s' = clock s
  /\ anchor s' = anchor s /\ active s' = active s
  /\ canMoveInX s' = canMoveInX s /\ canMoveInY s' = canMoveInY s
  /\ computedBounds s' = computedBounds s /\ trace s' = trace s
  /\ class_list (page s') = class_list (page s)
  /\ body_user_select (page s') = body_user_select (page s)
  /\ pending s' = pending s && negb (tick_resolved s)
  /\ transform (page s')
     = (if tick_resolved s && pending s then Some (rendering s) else transform (page s)).
Proof.
  unfold settle, rendering, constants, position, clock, anchor. cbv zeta.
  destruct (tick_resolved s) eqn:Ht, (pending s) eqn:Hp; cbn [andb negb]; fields;
    page_fields; rewrite ?Ht, ?Hp; by split_and!.
Qed.

Lemma listener_cases r s0 :
  listener (r, s0) = s0 \/ exists err, listener (r, s0) = log (Uncaught err) s0.
Proof. destruct r as [[]|err]; [by left|right; by eexists]. Qed.

Lemma listener_trace r s0 :
  exists t, silent (trace s0) t /\ listener (r, s0) = set_trace t s0.
Proof.
  destruct r as [[]|err]; cbn [listener].
  - exists (trace s0). split; [by left|]. by destruct s0.
  - eexists. split; [right; by eexists|done].
Qed.

Lemma drag_inactive e s : active s = false -> drag e s = (Return (), s).
Proof. intros H. unfold drag. by rewrite H. Qed.

Lemma dragEnd_inactive e s : active s = false -> dragEnd e s = (Return (), s).
Proof. intros H. unfold dragEnd. by rewrite H. Qed.

Lemma dragStart_disabled e s : disabled (settings s) = true -> dragStart e s = (Return (), s).
Proof. intros H. unfold dragStart. by rewrite H. Qed.

(** ** What one listener does, with the exception it may leave *)

Lemma pointerdown_summary e s :
  let s' := listener (dragStart e s) in
  constants s' = constants s /\ position s' = position s /\ clock s' = clock s
  /\ pending s' = pending s /\ transform (page s') = transform (page s)
  /\ ((canMoveInX s' = canMoveInX s /\ canMoveInY s' = canMoveInY s) \/ axis_flags s s')
  /\ (default false (recompute_dragStart (recomputeBounds (settings s))) = false ->
      computedBounds s' = computedBounds s)
  /\ ((silent (trace s) (trace s') /\ active s' = active s /\ anchor s' = anchor s
       /\ body_user_select (page s') = body_user_select (page s))
      \/ exists s0,
           prepares s s0 /\ axis_flags s s0
           /\ s' = start_dragging e (getBoundingClientRect (dom e) (the_node s)) s0).
Proof.
  cbv zeta.
  destruct (dragStart_cases e s) as [->|(s0 & H0 & [(r & -> & Hf)|(Hf & ->)])].
  - cbn [listener]. unfold silent. split_and!; try done; [by left|left; split_and!; by try left].
  - destruct H0 as (Hc & Hp & Ha & Hix & Hiy & Hl & Ht & Hpe & Htr & Hpg & Hb & Hox & Hoy & Hcb & Hun).
    destruct (classList_add_fields (defaultClass (settings s)) (page s)) as (Hbu & Htf & _).
    destruct (listener_trace r s0) as (t & Hsil & ->).
    unfold constants, position, clock, anchor, axis_flags in *. fields.
    rewrite Htr in Hsil. rewrite Hpg, Hbu, Htf.
    split_and!; try done; [congruence|left; split_and!; [done|done|congruence|done]].
  - cbn [listener].
    pose proof (start_dragging_spec e (getBoundingClientRect (dom e) (the_node s)) s0) as H.
    cbv zeta in H.
    destruct H as (Hc' & Hp' & Ha' & Hx' & Hy' & Hl' & Ht' & Hpe' & Hcb' & Htr' & _ & _
                   & _ & Htf' & _).
    pose proof H0 as H0'.
    destruct H0 as (Hc & Hp & Ha & Hix & Hiy & Hl & Ht & Hpe & Htr & Hpg & Hb & Hox & Hoy & Hcb & Hun).
    destruct (classList_add_fields (defaultClass (settings s)) (page s)) as (Hbu & Htf & _).
    unfold clock, axis_flags in *.
    split_and!; try congruence.
    + right. destruct Hf. split; congruence.
    + intros Hw. rewrite Hcb'. by apply Hcb.
    + right. by exists s0.
Qed.

Lemma pointermove_summary e s :
  let s' := listener (drag e s) in
  constants s' = constants s /\ clock s' = clock s /\ anchor s' = anchor s
  /\ active s' = active s
  /\ canMoveInX s' = canMoveInX s /\ canMoveInY s' = canMoveInY s
  /\ body_user_select (page s') = body_user_select (page s)
  /\ transform (page s') = transform (page s)
  /\ (default false (recompute_drag (recomputeBounds (settings s))) = false ->
      computedBounds s' = computedBounds s)
  /\ ((position s' = position s /\ pending s' = pending s /\ silent (trace s) (trace s'))
      \/ (active s = true /\ pending s' = true
          /\ (exists vx, translateX s'
                         = if canMoveInX s then Math_round vx else translateX s)
          /\ (exists vy, translateY s'
                         = if canMoveInY s then Math_round vy else translateY s)
          /\ xOffset s' = translateX s' /\ yOffset s' = translateY s'
          /\ trace s' = trace s ++ [Fired neodrag (translateX s') (translateY s')])).
Proof.
  cbv zeta. destruct (active s) eqn:Hactive.
  2:{ rewrite drag_inactive by done. cbn [listener].
      split_and!; try done. left. split_and!; try done. by left. }
  destruct (drag_cases e s Hactive) as (s3 & H3 & Hd). cbv zeta in Hd.
  destruct H3 as (Hc & Hp & Ha & Hix & Hiy & Hx & Hy & Hl & Ht & Hpe & Htr & Hb & Hox & Hoy
                  & Hbu & Htf & Hcb & Hun).
  destruct Hd as [(err & ->)|(final & _ & -> & _)]; cbn [listener].
  - unfold constants, position, clock, anchor in *. fields.
    split_and!; try congruence; [done|].
    left. split_and!; [done|done|right; eexists; by rewrite Htr].
  - match goal with |- context [commit ?k _ _] => pose proof (commit_spec k final s3) as H end.
    cbv zeta in H.
    destruct H as (Hc' & Ha' & Hx' & Hy' & Hix' & Hiy' & Hl' & Ht' & Hpe' & Hcb' & Hpg' & Hb'
                   & Hox' & Hoy' & Htx' & Hty' & Hxo' & Hyo' & Htr').
    unfold constants, position, clock, anchor in *.
    split_and!; try congruence.
    + intros Hw. rewrite Hcb'. by apply Hcb.
    + right. split_and!; try done.
      * eexists. rewrite Htx', Hx, Hix. destruct (canMoveInX s); [done|congruence].
      * eexists. rewrite Hty', Hy, Hiy. destruct (canMoveInY s); [done|congruence].
      * congruence.
Qed.

Lemma pointerup_summary e s :
  let s' := listener (dragEnd e s) in
  constants s' = constants s /\ position s' = position s /\ clock s' = clock s
  /\ pending s' = pending s
  /\ canMoveInX s' = canMoveInX s /\ canMoveInY s' = canMoveInY s
  /\ transform (page s') = transform (page s)
  /\ ((active s' = active s /\ silent (trace s) (trace s')
       /\ body_user_select (page s') = body_user_select (page s)
       /\ (active s = true ->
           default false (recompute_dragEnd (recomputeBounds (settings s))) = true))
      \/ (active s = true /\ active s' = false
          /\ trace s' = trace s ++ [Fired neodrag_end (translateX s) (translateY s)]
          /\ body_user_select (page s')
             = (if applyUserSelectHack (settings s) then bodyOriginalUserSelectVal s
                else body_user_select (page s)))).
Proof.
  cbv zeta. destruct (active s) eqn:Hactive.
  2:{ rewrite dragEnd_inactive by done. cbn [listener].
      split_and!; try done. left. split_and!; try done. by left. }
  destruct (dragEnd_spec e s Hactive)
    as [(err & s1 & Hd & H1 & Hpg)|(s' & -> & Hc & Hp & Ha & Hx & Hy & Hl & Ht & Hpe & Htr & _
                                    & _ & Htf & _ & Hbu)].
  - destruct H1 as (Hc & Hp & Ha & Hix & Hiy & Hx & Hy & Hl & Ht & Hpe & Htr & Hb & Hox & Hoy
                    & Hbu & Htf & Hcb & Hun).
    destruct (default false (recompute_dragEnd (recomputeBounds (settings s)))) eqn:Hw.
    2:{ unfold dragEnd in Hd. rewrite Hactive, recompute_off in Hd by done. done. }
    rewrite Hd. cbn [listener].
    unfold constants, position, clock in *. fields.
    split_and!; try congruence.
    left. split_and!; try congruence. right; eexists; by rewrite Htr.
  - cbn [listener]. unfold constants, position, clock in *.
    split_and!; try congruence. right. by split_and!.
Qed.

Lemma update_summary options s :
  let s' := update options s in
  the_node s' = the_node s /\ isControlled s' = isControlled s /\ clock s' = clock s
  /\ anchor s' = anchor s /\ active s' = active s
  /\ canMoveInX s' = canMoveInX s /\ canMoveInY s' = canMoveInY s
  /\ computedBounds s' = computedBounds s /\ trace s' = trace s
  /\ body_user_select (page s') = body_user_select (page s)
  /\ transform (page s') = transform (page s)
  /\ (isControlled s = false -> position s' = position s /\ pending s' = pending s).
Proof.
  unfold update, position, clock, anchor. cbv zeta. fields.
  set (o := Build_Settings _ _ _ _ _ _ _ _ _ _ _ _ _).
  set (p0 := classList_remove _ (classList_remove _ (page s))).
  assert (body_user_select p0 = body_user_select (page s)
          /\ transform p0 = transform (page s)) as [Hb0 Ht0] by done.
  destruct (classList_add_fields (defaultClass o) p0) as (Hb1 & Ht1 & _).
  set (p1 := classList_add (defaultClass o) p0) in *.
  destruct (classList_add_fields (defaultClassDragged o) p1) as (Hb2 & Ht2 & _).
  destruct (classList_contains _ _); fields;
    destruct (isControlled s) eqn:Hic; fields; rewrite ?Hic;
    split_and!; try done; congruence.
Qed.

Lemma run_cons s ev evs : run s (ev :: evs) = run (step s ev) evs.
Proof. done. Qed.

Lemma run_app s evs evs' : run s (evs ++ evs') = run (run s evs) evs'.
Proof. apply foldl_app. Qed.

Lemma legacy_run_invariant (I : state -> Prop) (P : event -> Prop) :
  (forall s ev, P ev -> I s -> I (step s ev)) ->
  forall evs s, Forall P evs -> I s -> I (run s evs).
Proof.
  intros Hstep evs. induction evs as [|ev evs IH]; intros s HP HI; [done|].
  rewrite run_cons. inversion_clear HP. apply IH; [done|]. by apply Hstep.
Qed.

Lemma silent_reports P t t' :
  silent t t' -> Forall (reports P) t -> Forall (reports P) t'.
Proof.
  intros [->|[err ->]] H; [done|]. apply Forall_app. split; [done|]. by constructor.
Qed.

Lemma silent_not_fired t t' ev offsetX offsetY :
  silent t t' -> t' <> t ++ [Fired ev offsetX offsetY].
Proof.
  intros [->|[err ->]] H.
  - apply (f_equal length) in H. rewrite length_app in H. cbn in H. lia.
  - by apply app_inv_head in H.
Qed.

(** ** A disabled instance *)

Lemma disabled_step s ev :
  not_update ev ->
  disabled (settings s) = true /\ active s = false /\ pending s = false ->
  (disabled (settings (step s ev)) = true /\ active (step s ev) = false
   /\ pending (step s ev) = false)
  /\ trace (step s ev) = trace s /\ page (step s ev) = page s
  /\ position (step s ev) = position s.
Proof.
  intros Hev (Hd & Ha & Hp). unfold step.
  destruct ev as [e|e|e|options| |]; [| | |done| |].
  - rewrite dragStart_disabled by done. cbn [listener].
    destruct (listening s); by rewrite settle_idle.
  - rewrite drag_inactive by done. cbn [listener].
    destruct (listening s); by rewrite settle_idle.
  - rewrite dragEnd_inactive by done. cbn [listener].
    destruct (listening s); by rewrite settle_idle.
  - by rewrite settle_idle.
  - by rewrite settle_idle.
Qed.

Lemma disabled_run evs : forall s,
  Forall not_update evs ->
  disabled (settings s) = true /\ active s = false /\ pending s = false ->
  trace (run s evs) = trace s /\ page (run s evs) = page s
  /\ position (run s evs) = position s /\ active (run s evs) = false.
Proof.
  induction evs as [|ev evs IH]; intros s HP HI; [by destruct HI as (_ & ? & _)|].
  rewrite run_cons. inversion_clear HP.
  destruct (disabled_step s ev) as (HI' & Ht & Hpg & Hps); [done..|].
  destruct (IH (step s ev)) as (? & ? & ? & ?); [done..|].
  split_and!; congruence.
Qed.

(** ** A locked axis *)

Lemma locked_step s ev :
  not_update ev ->
  let I s := (axis (settings s) = Draggable.axis_x \/ axis (settings s) = Draggable.none)
             /\ canMoveInY s = false /\ translateY s = 0
             /\ Forall (reports (fun _ offsetY => offsetY = 0)) (trace s) in
  I s -> I (step s ev).
Proof.
  intros Hev I (Hax & Hy & Hty & Htr). unfold step.
  destruct (settle_spec
              match ev with
              | PointerDown e => if listening s then listener (dragStart e s) else s
              | PointerMove e => if listening s then listener (drag e s) else s
              | PointerUp e => if listening s then listener (dragEnd e s) else s
              | Update options => update options s
              | Destroy => destroy s
              | AnimationFrame => set_tick_resolved true s
              end) as (Hc & Hp & _ & _ & _ & _ & Hy' & _ & Htr' & _).
  unfold I, constants, position in *. rewrite Htr', Hy'.
  injection Hc as _ -> _. injection Hp as _ -> _ _.
  clear Hy' Htr'.
  destruct ev as [e|e|e|options| |]; [| | |done|by fields|by fields];
    (destruct (listening s); [|done]).
  - destruct (pointerdown_summary e s)
      as (Hc & Hp & _ & _ & _ & Hf & _ & [(Hsil & _)|(s0 & H0 & Hf0 & Hs)]).
    + unfold constants, position in *. injection Hc as _ -> _. injection Hp as _ -> _ _.
      split_and!; [done| |done|by eapply silent_reports].
      destruct Hf as [[_ ->]|[_ ->]]; [done|]. by destruct Hax as [->| ->].
    + unfold constants, position in *. injection Hc as _ -> _. injection Hp as _ -> _ _.
      split_and!; [done| |done|].
      * destruct Hf as [[_ ->]|[_ ->]]; [done|]. by destruct Hax as [->| ->].
      * rewrite Hs.
        pose proof (start_dragging_spec e (getBoundingClientRect (dom e) (the_node s)) s0)
          as H. cbv zeta in H.
        destruct H as (_ & _ & _ & _ & _ & _ & _ & _ & _ & -> & _).
        destruct H0 as (_ & Hp0 & _ & _ & _ & _ & _ & _ & -> & _).
        unfold position in Hp0. injection Hp0 as _ -> _ _.
        apply Forall_app. split; [done|]. constructor; [exact Hty|constructor].
  - destruct (pointermove_summary e s)
      as (Hc & _ & _ & _ & _ & Hy' & _ & _ & _
          & [(Hp & _ & Hsil)|(_ & _ & _ & [vy Hvy] & _ & _ & Ht)]).
    + unfold constants, position in *. injection Hc as _ -> _. injection Hp as _ -> _ _.
      split_and!; [done|congruence|done|by eapply silent_reports].
    + unfold constants in *. injection Hc as _ -> _. rewrite Hy in Hvy.
      split_and!; [done|congruence|congruence|].
      rewrite Ht. apply Forall_app. split; [done|].
      constructor; [cbn; congruence|constructor].
  - destruct (pointerup_summary e s)
      as (Hc & Hp & _ & _ & _ & Hy' & _ & [(_ & Hsil & _)|(_ & _ & Ht & _)]).
    + unfold constants, position in *. injection Hc as _ -> _. injection Hp as _ -> _ _.
      split_and!; [done|congruence|done|by eapply silent_reports].
    + unfold constants, position in *. injection Hc as _ -> _. injection Hp as _ -> _ _.
      split_and!; [done|congruence|done|].
      rewrite Ht. apply Forall_app. split; [done|]. constructor; [exact Hty|constructor].
Qed.

(** ** Whole offsets *)




(** ** Before the first frame *)

Lemma waiting_step s ev :
  no_frame ev -> tick_resolved s = false ->
  tick_resolved (step s ev) = false /\ transform (page (step s ev)) = transform (page s).
Proof.
  intros Hev Ht. unfold step.
  assert (forall s', clock s' = clock s -> transform (page s') = transform (page s) ->
            tick_resolved (settle s') = false
            /\ transform (page (settle s')) = transform (page s)) as H.
  { intros s' Hc Htf. unfold clock in Hc. injection Hc as _ Ht'. rewrite Ht in Ht'.
    by rewrite settle_waiting. }
  destruct ev as [e|e|e|options| |]; [| | | | |done].
  - destruct (listening s); [|by apply H].
    destruct (pointerdown_summary e s) as (_ & _ & Hc & _ & Htf & _). by apply H.
  - destruct (listening s); [|by apply H].
    destruct (pointermove_summary e s) as (_ & Hc & _ & _ & _ & _ & _ & Htf & _).
    by apply H.
  - destruct (listening s); [|by apply H].
    destruct (pointerup_summary e s) as (_ & _ & Hc & _ & _ & _ & Htf & _). by apply H.
  - destruct (update_summary options s)
      as (_ & _ & Hc & _ & _ & _ & _ & _ & _ & _ & Htf & _). by apply H.
  - by rewrite settle_waiting.
Qed.

(** ** After the first frame *)

Lemma move_rendered s e offsetX offsetY :
  tick_resolved s = true ->
  trace (step s (PointerMove e)) = trace s ++ [Fired neodrag offsetX offsetY] ->
  transform (page (step s (PointerMove e)))
  = Some (if gpuAcceleration (settings s) then translate3d offsetX offsetY
          else translate offsetX offsetY)
  /\ translateX (step s (PointerMove e)) = offsetX
  /\ translateY (step s (PointerMove e)) = offsetY.
Proof.
  intros Ht. unfold step.
  destruct (settle_spec (if listening s then listener (drag e s) else s))
    as (Hc & Hp & Hcl & _ & _ & _ & _ & _ & -> & _ & _ & _ & ->).
  unfold position in Hp. injection Hp as -> -> _ _.
  destruct (listening s).
  2:{ intros H. by destruct (silent_not_fired (trace s) (trace s) neodrag offsetX offsetY);
        [left|]. }
  destruct (pointermove_summary e s)
    as (Hc' & Hcl' & _ & _ & _ & _ & _ & _ & _
        & [(_ & _ & Hsil)|(_ & Hpe & _ & _ & _ & _ & Htr)]).
  { intros H. by destruct (silent_not_fired _ _ neodrag offsetX offsetY Hsil). }
  rewrite Htr. intros H. apply app_inv_head in H. injection H as Hx Hy.
  unfold clock, constants in *. injection Hcl' as _ ->. rewrite Ht, Hpe. cbn [andb].
  unfold rendering. injection Hc' as _ -> _. by rewrite Hx, Hy.
Qed.

(** ** Numbers *)





(** ** A press that starts a drag *)

Lemma starts_inv s e :
  starts s e ->
  listening s = true
  /\ exists s0,
       prepares s s0 /\ axis_flags s s0
       /\ step s (PointerDown e)
          = settle (start_dragging e (getBoundingClientRect (dom e) (the_node s)) s0).
Proof.
  intros (offsetX & offsetY & H). unfold step in *.
  destruct (settle_spec (if listening s then listener (dragStart e s) else s))
    as (_ & _ & _ & _ & _ & _ & _ & _ & Htr & _).
  rewrite Htr in H. clear Htr.
  destruct (listening s).
  2:{ by destruct (silent_not_fired (trace s) (trace s) neodrag_start offsetX offsetY);
        [left|]. }
  split; [done|].
  destruct (pointerdown_summary e s)
    as (_ & _ & _ & _ & _ & _ & _ & [(Hsil & _)|(s0 & H0 & Hf & Hs)]).
  { by destruct (silent_not_fired _ _ neodrag_start offsetX offsetY Hsil). }
  exists s0. split_and!; [done..|]. by rewrite Hs.
Qed.

(** What the press that starts a drag leaves. *)
Lemma starts_spec s e :
  starts s e ->
  let s1 := step s (PointerDown e) in
  let rect := getBoundingClientRect (dom e) (the_node s) in
  let k := calculateInverseScale e rect s in
  constants s1 = constants s /\ position s1 = position s /\ clock s1 = clock s
  /\ listening s = true /\ active s1 = true /\ axis_flags s s1
  /\ initialX s1 = (if canMoveInX s1 then clientX e - xOffset s / k else initialX s)
  /\ initialY s1 = (if canMoveInY s1 then clientY e - yOffset s / k else initialY s)
  /\ body_user_select (page s1)
     = (if applyUserSelectHack (settings s) then "none" else body_user_select (page s))
  /\ bodyOriginalUserSelectVal s1
     = (if applyUserSelectHack (settings s) then body_user_select (page s)
        else bodyOriginalUserSelectVal s)
  /\ (if computedBounds s1 is Some _
      then clientToNodeOffsetX s1 = clientX e - rect_left rect
           /\ clientToNodeOffsetY s1 = clientY e - rect_top rect
      else clientToNodeOffsetX s1 = clientToNodeOffsetX s
           /\ clientToNodeOffsetY s1 = clientToNodeOffsetY s)
  /\ (bounds (settings s) = None -> computedBounds s = None -> computedBounds s1 = None).
Proof.
  intros Hst. cbv zeta. destruct (starts_inv s e Hst) as (Hl & s0 & H0 & Hf & ->).
  pose proof (start_dragging_spec e (getBoundingClientRect (dom e) (the_node s)) s0) as H.
  cbv zeta in H.
  destruct H as (Hc' & Hp' & Ha' & Hx' & Hy' & Hl' & Ht' & Hpe' & Hcb' & Htr' & Hix' & Hiy'
                 & _ & Htf' & Hbu' & Hbo' & Hoff').
  destruct H0 as (Hc & Hp & Ha & Hix & Hiy & Hl0 & Ht & Hpe & Htr & Hpg & Hb & Hox & Hoy & Hcb
                  & Hun).
  destruct (classList_add_fields (defaultClass (settings s)) (page s)) as (Hbu & Htf & _).
  destruct (settle_spec (start_dragging e (getBoundingClientRect (dom e) (the_node s)) s0))
    as (Hc'' & Hp'' & Hcl'' & Han'' & Ha'' & Hx'' & Hy'' & Hcb'' & _ & _ & Hbu'' & _).
  destruct Hf as [Hfx Hfy].
  assert (calculateInverseScale e (getBoundingClientRect (dom e) (the_node s)) s0
          = calculateInverseScale e (getBoundingClientRect (dom e) (the_node s)) s) as Hk.
  { unfold calculateInverseScale. unfold constants in Hc. by injection Hc as -> _ _. }
  rewrite Hk in *.
  unfold constants, position, clock, anchor, axis_flags in *.
  injection Han'' as -> -> -> -> ->.
  injection Hc as Hn Hs Hi. injection Hp as Htx Hty Hxo Hyo.
  rewrite Hx'', Hy'', Hbu'', Hcb'', Hcb', Hx', Hy', Ha'', Hix', Hiy', Hbu', Hbo', Hs, Hxo, Hyo,
    Hpg, Hbu, Hb, Hix, Hiy.
  split_and!; try congruence.
  - destruct (computedBounds s0); destruct Hoff'; split; congruence.
  - exact Hun.
Qed.

(** ** A drag held: pointer moves and the first frame *)

Lemma held_step s ev :
  is_move ev -> listening s = true -> active s = true ->
  let s' := step s ev in
  listening s' = true /\ active s' = true /\ constants s' = constants s
  /\ anchor s' = anchor s /\ body_user_select (page s') = body_user_select (page s).
Proof.
  intros Hev Hl Ha. cbv zeta. unfold step.
  destruct (settle_spec
              match ev with
              | PointerDown e => if listening s then listener (dragStart e s) else s
              | PointerMove e => if listening s then listener (drag e s) else s
              | PointerUp e => if listening s then listener (dragEnd e s) else s
              | Update options => update options s
              | Destroy => destroy s
              | AnimationFrame => set_tick_resolved true s
              end) as (Hc & _ & Hcl & Han & Hac & _ & _ & _ & _ & _ & Hbu & _).
  unfold clock in *. injection Hcl as -> _. rewrite Hc, Han, Hac, Hbu.
  clear Hc Han Hac Hbu.
  destruct ev as [e|e|e|options| |]; try done. rewrite Hl.
  destruct (pointermove_summary e s) as (Hc & Hcl & Han & Hac & _ & _ & Hbu & _).
  injection Hcl as -> _. split_and!; congruence.
Qed.

Lemma held_run moves : forall s,
  Forall is_move moves -> listening s = true -> active s = true ->
  let s' := run s moves in
  listening s' = true /\ active s' = true /\ constants s' = constants s
  /\ anchor s' = anchor s /\ body_user_select (page s') = body_user_select (page s).
Proof.
  induction moves as [|ev moves IH]; intros s HP Hl Ha; [done|].
  rewrite run_cons. inversion_clear HP. cbv zeta.
  destruct (held_step s ev) as (Hl1 & Ha1 & Hc1 & Han1 & Hbu1); [done..|].
  destruct (IH (step s ev)) as (? & ? & ? & ? & ?); [done..|].
  split_and!; congruence.
Qed.

Lemma release_spec s e :
  listening s = true -> active s = true ->
  default false (recompute_dragEnd (recomputeBounds (settings s))) = false ->
  let s' := step s (PointerUp e) in
  active s' = false
  /\ body_user_select (page s')
     = (if applyUserSelectHack (settings s) then bodyOriginalUserSelectVal s
        else body_user_select (page s)).
Proof.
  intros Hl Ha Hw. cbv zeta. unfold step. rewrite Hl.
  destruct (settle_spec (listener (dragEnd e s)))
    as (_ & _ & _ & _ & -> & _ & _ & _ & _ & _ & -> & _).
  destruct (pointerup_summary e s)
    as (_ & _ & _ & _ & _ & _ & _ & [(_ & _ & _ & H)|(_ & ? & _ & ?)]); [|done].
  specialize (H Ha). congruence.
Qed.

(** ** The bounds while a drag is held *)









Lemma update_recompute options s :
  recomputeBounds (settings (update options s))
  = default DEFAULT_RECOMPUTE_BOUNDS (Options.recomputeBounds options).
Proof.
  unfold update. cbv zeta. fields.
  destruct (classList_contains _ _); fields; by destruct (isControlled s).
Qed.



(** ** Linear facts on the rationals *)






Lemma run_snoc s evs ev : run s (evs ++ [ev]) = step (run s evs) ev.
Proof. by rewrite run_app. Qed.

(** ** The value of [user-select] over a drag *)

Lemma user_select_round_trip s e0 moves e1 :
  applyUserSelectHack (settings s) = true ->
  default false (recompute_dragEnd (recomputeBounds (settings s))) = false ->
  starts s e0 -> Forall is_move moves ->
  body_user_select (page (run s (PointerDown e0 :: moves))) = "none"
  /\ body_user_select (page (run s (PointerDown e0 :: moves ++ [PointerUp e1])))
     = body_user_select (page s).
Proof.
  intros Hh Hw Hst Hm.
  destruct (starts_spec s e0 Hst) as (Hc & _ & Hcl & Hl & Ha & _ & _ & _ & Hbu & Hbo & _).
  rewrite Hh in Hbu, Hbo. unfold clock, constants in *.
  injection Hcl as Hl1 _. rewrite Hl in Hl1. injection Hc as _ Hs _.
  destruct (held_run moves (step s (PointerDown e0)) Hm Hl1 Ha)
    as (Hl2 & Ha2 & Hc2 & Han2 & Hbu2).
  unfold anchor, constants in *. injection Han2 as _ _ _ _ Hbo2. injection Hc2 as _ Hs2 _.
  rewrite app_comm_cons, run_snoc, !run_cons.
  split; [congruence|].
  destruct (release_spec (run (step s (PointerDown e0)) moves) e1)
    as (_ & ->); [done|done|congruence|].
  rewrite Hs2, Hs, Hh. congruence.
Qed.

Lemma user_select_second_press s e0 e1 moves e2 :
  applyUserSelectHack (settings s) = true ->
  default false (recompute_dragEnd (recomputeBounds (settings s))) = false ->
  starts s e0 -> starts (step s (PointerDown e0)) e1 -> Forall is_move moves ->
  body_user_select
    (page (run s (PointerDown e0 :: PointerDown e1 :: moves ++ [PointerUp e2])))
  = "none".
Proof.
  intros Hh Hw Hst0 Hst1 Hm.
  destruct (starts_spec s e0 Hst0) as (Hc & _ & _ & _ & _ & _ & _ & _ & Hbu & _).
  rewrite Hh in Hbu. unfold constants in Hc. injection Hc as _ Hs _.
  rewrite run_cons.
  destruct (user_select_round_trip (step s (PointerDown e0)) e1 moves e2)
    as (_ & H); [congruence|congruence|done|done|].
  congruence.
Qed.

(** ** The translation of a drag *)


End LegacyFacts.


(** * Further properties of the single-instance engine *)

Section DraggingImpliesInteracting.
Import Draggable SingleSpec.

(** X1.  Whatever the plugins do, the single-instance engine is dragging
    only while it is interacting: after any sequence of pointer events
    delivered to the listeners [draggable] installed, [is_dragging] implies
    [is_interacting]. *)
Theorem dragging_implies_interacting root options rect d s0 evs :
  draggable root options rect d = (Return (), s0) ->
  dragging_interacts (run s0 evs).
Proof.
  intros Hs0. apply SingleMore.run_dragging_interacts.
  destruct (SingleMore.draggable_fresh root options rect d) as (_ & _ & _ & Hg & _).
  rewrite Hs0 in Hg. unfold dragging_interacts. cbn [snd] in Hg. congruence.
Qed.

Lemma dragging_implies_interacting_witness :
  dragging_interacts Sample.single_dragging.
Proof.
  apply (dragging_implies_interacting 7%nat Gestures.default_options Sample.rect50
           initial_document Sample.single_idle
           [PointerDown (Sample.at_ 0 0); PointerMove (Sample.at_ 100 100)]).
  reflexivity.
Defined.

End DraggingImpliesInteracting.

Section UnmetThreshold.
Import Draggable.

(** X2.  While no drag is in progress, a pointer-move for which the time
    threshold or the distance threshold is not met (the elapsed time is
    below [delay], or the squared distance from the anchor is below
    [distance] squared, an absent bound never being reached) starts no
    drag: no plugin is called, nothing is fired, and flags, offset, effect
    queue and document stay as they were. *)
Theorem unmet_threshold_move_is_inert e s :
  is_dragging s = false ->
  (meets_time_threshold s = false
   /\ forall t, delay (the_threshold s) = Some t -> Date_now e - start_time s < t)
  \/ (meets_distance_threshold s = false
      /\ forall dd, distance (the_threshold s) = Some dd ->
           (clientX e - initial_x s) * (clientX e - initial_x s)
           + (clientY e - initial_y s) * (clientY e - initial_y s) < dd * dd) ->
  let s' := pointermove e s in
  trace s' = trace s /\ is_dragging s' = false /\ is_interacting s' = is_interacting s
  /\ x_offset s' = x_offset s /\ y_offset s' = y_offset s
  /\ effects_to_run s' = effects_to_run s /\ doc s' = doc s.
Proof. apply SingleMore.pointermove_unmet. Qed.

Lemma unmet_threshold_move_is_inert_witness :
  is_interacting (run Sample.single_idle [PointerDown (Sample.at_ 0 0)]) = true
  /\ trace (pointermove (Sample.at_ 1 1)
              (run Sample.single_idle [PointerDown (Sample.at_ 0 0)]))
     = trace (run Sample.single_idle [PointerDown (Sample.at_ 0 0)]).
Proof.
  split; [reflexivity|].
  refine (proj1 (unmet_threshold_move_is_inert (Sample.at_ 1 1)
                   (run Sample.single_idle [PointerDown (Sample.at_ 0 0)]) _ _)).
  - reflexivity.
  - right. split; [reflexivity|]. intros dd Hdd. vm_compute in Hdd.
    injection Hdd as <-. vm_compute. reflexivity.
Defined.

End UnmetThreshold.

Section ThresholdWithoutDistance.
Import Draggable SingleSpec.

(** X3.  When the [threshold] option is given without a [distance], the
    comparison with the absent bound never succeeds: whatever the plugins
    and the pointer events, no drag ever starts.  Only [shouldDrag] and
    [dragEnd] chains are dispatched and the offset stays at zero. *)
Theorem threshold_without_distance_never_drags root options th rect d s0 evs :
  threshold options = Some th -> distance th = None ->
  draggable root options rect d = (Return (), s0) ->
  let s := run s0 evs in
  is_dragging s = false /\ x_offset s = 0 /\ y_offset s = 0
  /\ Forall (fun h => h = ShouldDrag \/ h = DragEnd) (dispatched (trace s)).
Proof.
  intros Hth Hnone Hs0.
  assert (no_distance s0 /\ x_offset s0 = 0 /\ y_offset s0 = 0
          /\ dispatched (trace s0) = []) as (Hinv & Hx & Hy & Ht).
  { clear evs. unfold draggable in Hs0. rewrite Hth in Hs0. cbn [default] in Hs0.
    match type of Hs0 with
    | context [initialize_states ?all ?s] =>
        destruct (SingleMore.initialize_states_fresh all s) as [Hv Hd];
        destruct (initialize_states all s) as [[[]|err] s1]; [|done]
    end.
    injection Hs0 as <-.
    pose proof (SingleRuns.engine_vars_thresholds _ _ Hv) as (_ & Hmd & _).
    apply SingleInstance.engine_vars_inv in Hv as (_ & Ht & _ & _ & Hg & Hx & Hy & _).
    cbn in *. unfold no_distance. cbn. rewrite Ht, Hmd, Hg. by split_and!. }
  destruct (SingleRuns.no_distance_run s0 evs Hinv) as ((_ & _ & Hg) & Hx' & Hy' & hs & Hhs & HF).
  cbv zeta. rewrite Hx', Hy', Hhs, Ht. by split_and!.
Qed.

Lemma threshold_without_distance_never_drags_witness :
  is_dragging
    (run (draggable 7%nat Gestures.delay_only Sample.rect50 initial_document).2
       [PointerDown (Sample.at_ 0 0); PointerMove (Sample.at_ 100 100)]) = false.
Proof.
  refine (proj1 (threshold_without_distance_never_drags 7%nat Gestures.delay_only
                   {| delay := Some 0; distance := None |} Sample.rect50 initial_document
                   (draggable 7%nat Gestures.delay_only Sample.rect50 initial_document).2
                   [PointerDown (Sample.at_ 0 0); PointerMove (Sample.at_ 100 100)]
                   _ _ _)); reflexivity.
Defined.

End ThresholdWithoutDistance.

Section MoveFollowsPointer.
Import Draggable SingleSpec.



End MoveFollowsPointer.

Section DisabledPlugin.
Import Draggable SingleSpec.

(** X5.  With the [disabled] plugin in the chain no interaction ever
    starts: whatever the other plugins and the pointer events, the engine
    stays idle, dispatches nothing but [shouldDrag] chains, and the offset
    stays at zero. *)
Theorem disabled_never_starts root options rect d s0 id evs :
  draggable root options rect d = (Return (), s0) ->
  disabled id ∈ ordered_plugins s0 ->
  let s := run s0 evs in
  never_started s /\ is_dragging s = false /\ x_offset s = 0 /\ y_offset s = 0.
Proof.
  intros Hs0 Hin.
  destruct (SingleMore.draggable_fresh root options rect d)
    as (_ & _ & Hi & Hg & Hx & Hy & Ht).
  rewrite Hs0 in Hi, Hg, Hx, Hy, Ht. cbn [snd] in *.
  destruct (SingleInstance.never_started_run (disabled id) _ s0 evs Hin eq_refl) as [Hn Hv].
  - done.
  - split; [done|]. by rewrite Ht.
  - apply SingleInstance.engine_vars_inv in Hv as (_ & _ & _ & _ & Hg' & Hx' & Hy' & _).
    cbv zeta. rewrite Hg', Hx', Hy'. by split_and!.
Qed.

Lemma disabled_never_starts_witness :
  never_started
    (run (draggable 7%nat Gestures.switched_off Sample.rect50 initial_document).2
       [PointerDown (Sample.at_ 0 0); PointerMove (Sample.at_ 100 100)]).
Proof.
  refine (proj1 (disabled_never_starts 7%nat Gestures.switched_off Sample.rect50
                   initial_document
                   (draggable 7%nat Gestures.switched_off Sample.rect50 initial_document).2
                   4%nat [PointerDown (Sample.at_ 0 0); PointerMove (Sample.at_ 100 100)]
                   _ _)); [reflexivity|].
  change (disabled 4 ∈ default_plugins ++ [disabled 4]).
  apply elem_of_app. right. apply list_elem_of_singleton. reflexivity.
Defined.

End DisabledPlugin.

Section DefaultPluginsNeverThrow.
Import Draggable SingleSpec.



End DefaultPluginsNeverThrow.

Section UserSelectRoundTrip.
Import Draggable SingleSpec.

(** X7.  With the default plugins, the pointer-move that starts a drag
    sets the body's [user-select] to [none] and adds the class
    [neodrag-dragging]; both stay through the moves of the drag; the
    pointer-up that ends it restores the [user-select] the body had before
    the drag started, removes [neodrag-dragging] and adds
    [neodrag-dragged]. *)
Theorem drag_restores_user_select root options rect d s0 evs e moves up :
  default [] (plugins options) = [] ->
  draggable root options rect d = (Return (), s0) ->
  let s := run s0 evs in
  is_dragging s = false ->
  let s1 := run (pointermove e s) (PointerMove <$> moves) in
  is_dragging (pointermove e s) = true ->
  body_user_select (doc s1) = "none"
  /\ "neodrag-dragging" ∈ class_list (doc s1)
  /\ body_user_select (doc (pointerup up s1)) = body_user_select (doc s)
  /\ ("neodrag-dragging" ∉ class_list (doc (pointerup up s1)))
  /\ "neodrag-dragged" ∈ class_list (doc (pointerup up s1)).
Proof.
  intros Hnone Hs0 s Hidle s1 Hstart.
  destruct (SingleRuns.draggable_default_run root options rect d s0 Hnone Hs0)
    as (Hdef0 & Hno0 & _).
  destruct (SingleRuns.default_engine_run_run s0 evs) as [(ps & saved & Hdef) _];
    [split; [by eexists _, _|done]|].
  fold s in Hdef.
  destruct (SingleMore.pointermove_default e s ps saved Hdef) as (_ & [Hsame|Hbegun]).
  { destruct Hsame as (_ & _ & _ & Hg & _). congruence. }
  destruct Hbegun as (_ & _ & Hg & Hi & Hdef1 & Hus & Hcl).
  destruct (SingleRuns.moves_default _ _ _ moves Hdef1 Hg Hi)
    as (Hdef2 & Hus2 & Hcl2 & Hg2 & Hi2).
  fold s1 in Hdef2, Hus2, Hcl2, Hg2, Hi2.
  destruct (SingleMore.pointerup_default up s1 _ _ Hdef2 Hi2) as (_ & Hus3 & Hcl3 & _).
  rewrite Hus2, Hcl2, Hus3, Hcl3. split_and!; try done.
  - by apply SingleRuns.classList_add_remove_other.
  - apply SingleRuns.classList_add_elem.
Qed.

Lemma drag_restores_user_select_witness :
  body_user_select
    (doc (pointerup (Sample.at_ 120 120)
            (run (pointermove (Sample.at_ 100 100)
                    (run Sample.single_idle [PointerDown (Sample.at_ 0 0)]))
               (PointerMove <$> [Sample.at_ 110 110]))))
  = body_user_select (doc (run Sample.single_idle [PointerDown (Sample.at_ 0 0)])).
Proof.
  destruct (drag_restores_user_select 7%nat Gestures.default_options
              Sample.rect50 initial_document Sample.single_idle
              [PointerDown (Sample.at_ 0 0)] (Sample.at_ 100 100)
              [Sample.at_ 110 110] (Sample.at_ 120 120)
              eq_refl eq_refl ltac:(vm_compute; reflexivity) ltac:(vm_compute; reflexivity))
    as (_ & _ & H & _).
  exact H.
Defined.

End UserSelectRoundTrip.

Section TransformRendersPreviousOffset.
Import Draggable SingleSpec.



End TransformRendersPreviousOffset.

Section MultitouchCancelsMoves.
Import Draggable.

(** X9.  While [ignoreMultitouch] heads the chain and counts more than
    one active pointer, every pointer-move of a drag is cancelled at its
    first handler: the default action of the event is prevented, but no
    later plugin runs, no effect is executed, nothing is fired, and the
    offset and the document's [translate] stay as they were.  The count
    falls only when the pointer that lifts is one that started a drag, so a
    pointer left in the set blocks the next drag. *)
Theorem multitouch_cancels_moves id rest e s ps :
  ordered_plugins s = ignoreMultitouch id true :: rest ->
  private_states s !! "neodrag:ignoreMultitouch" = Some (ActivePointers ps) ->
  (1 < size ps)%nat ->
  is_interacting s = true -> is_dragging s = true ->
  let s' := pointermove e s in
  x_offset s' = x_offset s /\ y_offset s' = y_offset s
  /\ translate (doc s') = translate (doc s)
  /\ defaults_prevented (doc s') = S (defaults_prevented (doc s))
  /\ trace s' = trace s ++ [Dispatch Drag; Called id "neodrag:ignoreMultitouch" Drag]
  /\ private_states s' = private_states s.
Proof.
  intros Hord Hmt Hsize Hi Hg s'.
  assert (s' = listener (drag_move e s)) as Heq
    by (unfold s', pointermove; by rewrite Hi, Hg).
  destruct (SingleMore.drag_move_multitouch id rest e s ps Hord Hmt Hsize)
    as (Hv & Hd & Hs & _ & _ & Ht).
  rewrite <- Heq in Hv, Hd, Hs, Ht.
  apply SingleInstance.engine_vars_inv in Hv as (_ & _ & _ & _ & _ & Hx & Hy & _).
  rewrite Hx, Hy, Hd, Hs, Ht. by split_and!.
Qed.

Lemma multitouch_cancels_moves_witness :
  x_offset (pointermove (Gestures.with_pointer 3 (Sample.at_ 80 80)) Gestures.stale_pointer)
  = x_offset Gestures.stale_pointer.
Proof.
  destruct (multitouch_cancels_moves 0%nat
              [classes 1 DEFAULT_CLASS; applyUserSelectHack 2 true; transform 3 None]
              (Gestures.with_pointer 3 (Sample.at_ 80 80)) Gestures.stale_pointer
              {[1%Z; 3%Z]}
              ltac:(vm_compute; reflexivity) ltac:(vm_compute; reflexivity)
              ltac:(vm_compute; lia)
              ltac:(vm_compute; reflexivity) ltac:(vm_compute; reflexivity))
    as (H & _).
  exact H.
Defined.

End MultitouchCancelsMoves.

Section ClickMarksDragged.
Import Draggable SingleSpec.

(** X10.  With the default plugins, the [dragEnd] chain runs at the
    pointer-up of every interaction, also of one in which no drag started:
    a press and release on a fresh element marks it [neodrag-dragged],
    writes the empty string saved by [setup] into the body's
    [user-select], whatever it was, and fires [neodrag_end]; the offset
    stays at zero. *)
Theorem click_marks_dragged root options rect d s0 down up :
  default [] (plugins options) = [] ->
  draggable root options rect d = (Return (), s0) ->
  button down <> 2%Z -> contains_target down root = true ->
  let s := run s0 [PointerDown down; PointerUp up] in
  "neodrag-dragged" ∈ class_list (doc s)
  /\ body_user_select (doc s) = ""
  /\ is_interacting s = false /\ is_dragging s = false
  /\ x_offset s = 0 /\ y_offset s = 0
  /\ dispatched (trace s) = [ShouldDrag; DragEnd].
Proof.
  intros Hnone Hs0 Hbutton Htarget.
  destruct (SingleRuns.draggable_default_run root options rect d s0 Hnone Hs0)
    as (Hdef0 & Hno0 & _ & _ & Hroot).
  destruct (SingleMore.draggable_fresh root options rect d)
    as (_ & _ & Hi0 & Hg0 & Hx0 & Hy0 & Ht0).
  rewrite Hs0 in Hi0, Hg0, Hx0, Hy0, Ht0. cbn [snd] in *.
  cbn [run foldl step].
  destruct (SingleMore.pointerdown_default down s0 _ _ Hdef0) as (Hdef1 & Hd1 & _).
  destruct (SingleRuns.pointerdown_vars down s0) as (_ & _ & _ & Hg1 & Hx1 & Hy1 & Ht1).
  rewrite bool_decide_eq_false_2 in Ht1 by done.
  assert (is_interacting (pointerdown down s0) = true) as Hi1.
  { unfold pointerdown. rewrite bool_decide_eq_false_2 by done.
    rewrite (SingleMore.run_plugins_default_shouldDrag down s0 _ _ Hdef0).
    change (currentlyDraggedNode (ctx (log (Dispatch ShouldDrag) s0)))
      with (currently_dragged_element s0).
    rewrite Hroot, Htarget. cbn [negb]. cbv zeta. by repeat case_match. }
  destruct (SingleMore.pointerup_default up _ _ _ Hdef1 Hi1)
    as (_ & Hus & Hcl & _ & Hi2 & Hg2 & Hx2 & Hy2 & _).
  destruct (SingleRuns.pointerup_vars up (pointerdown down s0)) as (_ & _ & _ & _ & Ht2 & _).
  rewrite Hi1 in Ht2.
  rewrite Hcl, Hus, Hi2, Hg2, Hx2, Hy2, Hx1, Hy1, Ht2, Ht1, Ht0.
  split_and!; try done. apply SingleRuns.classList_add_elem.
Qed.

Lemma click_marks_dragged_witness :
  "neodrag-dragged"
  ∈ class_list (doc (run Sample.single_idle
                       [PointerDown (Sample.at_ 0 0); PointerUp (Sample.at_ 0 0)])).
Proof.
  destruct (click_marks_dragged 7%nat Gestures.default_options Sample.rect50
              initial_document Sample.single_idle (Sample.at_ 0 0) (Sample.at_ 0 0)
              eq_refl eq_refl ltac:(discriminate) eq_refl)
    as (H & _).
  exact H.
Defined.

End ClickMarksDragged.

(** * Further properties of the delegated engine *)

Section InnermostDraggable.
Import CreateDraggable DelegatedSpec.

(** X11.  [find_draggable_node] answers the first element of the event's
    composed path that is an [HTMLElement] or an SVG element other than an
    [<svg>] root and has a registered instance: when draggables are nested
    the innermost one takes the pointer-down.  It answers [null] exactly
    when the path holds no such element. *)
Theorem find_draggable_node_is_innermost e m :
  match find_draggable_node e m with
  | Some el =>
      exists before after_,
        composedPath e = before ++ el :: after_
        /\ eligible m el
        /\ Forall (fun el' => ~ eligible m el') before
  | None => Forall (fun el' => ~ eligible m el') (composedPath e)
  end.
Proof. unfold find_draggable_node. apply DelegatedMore.find_in_path_spec. Qed.

End InnermostDraggable.

Section PointerEventsFrame.
Import CreateDraggable DelegatedSpec.

(** X12.  A delegated pointer event works on one instance only: the one
    [find_draggable_node] answers for a pointer-down, the active one for a
    pointer-move and a pointer-up.  Every other registered instance is left
    exactly as it was, and no instance is added to or removed from the
    registry. *)
Theorem pointer_event_touches_one_instance m ev :
  is_pointer_event ev = true ->
  (forall n, target_of ev m <> Some n -> instances (step m ev) !! n = instances m !! n)
  /\ (forall n, is_Some (instances (step m ev) !! n) <-> is_Some (instances m !! n)).
Proof.
  intros Hev. destruct ev as [e|e|e|k ps rect|k|k]; try discriminate Hev; cbn [step target_of].
  - split; [intros n; apply DelegatedMore.handle_pointer_down_other|].
    intros n. apply DelegatedMore.handle_pointer_down_registered.
  - unfold handle_pointer_move. split.
    + intros n Hn. rewrite DelegatedMore.listener_instances.
      by apply DelegatedMore.handle_pointer_move_call_other.
    + intros n. rewrite DelegatedMore.listener_instances.
      apply DelegatedMore.handle_pointer_move_call_registered.
  - split; [intros n; apply DelegatedMore.handle_pointer_up_other|].
    intros n. apply DelegatedMore.handle_pointer_up_registered.
Qed.

Lemma pointer_event_touches_one_instance_witness :
  instances (step Gestures.two_instances (PointerDown (Gestures.nested (Sample.at_ 0 0))))
    !! 7%nat
  = instances Gestures.two_instances !! 7%nat.
Proof.
  destruct (pointer_event_touches_one_instance Gestures.two_instances
              (PointerDown (Gestures.nested (Sample.at_ 0 0))) eq_refl) as [H _].
  apply H. vm_compute. discriminate.
Defined.

End PointerEventsFrame.

Section CaptureFailure.
Import CreateDraggable.

(** X13.  When [setPointerCapture] throws at a pointer-down whose
    [shouldDrag] chain agreed, the exception does not escape: it is
    reported once to [onError] with phase [dragStart] and no plugin, and
    [cleanup_active_node] undoes the start: no node is active, the
    instance is neither interacting nor dragging, holds no captured
    pointer and no queued effect, and its offset and anchor are as
    before. *)
Theorem failed_capture_undoes_the_start e m k kind i err :
  button e <> 2%Z ->
  find_draggable_node e m = Some (k, kind) ->
  instances m !! k = Some i ->
  let i0 := set_ctx (set_cachedRootNodeRect (getBoundingClientRect e k) (ctx i)) i in
  let chain := run_plugins i0 ShouldDrag e m in
  chain.1.1 = true ->
  setPointerCapture_throws e = Some err ->
  let m' := handle_pointer_down e m in
  active_node m' = None
  /\ trace m'
     = trace chain.2
       ++ (if onError m
           then [Reported {| info_phase := DragStart; info_plugin := None;
                             info_node := currentlyDraggedNode (ctx chain.1.2);
                             info_error := err |}]
           else [])
  /\ exists i', instances m' !! k = Some i'
       /\ isInteracting (ctx i') = false /\ isDragging (ctx i') = false
       /\ pointer_captured_id i' = None /\ effects i' = []
       /\ dragstart_prevented i' = false
       /\ offset (ctx i') = offset (ctx i) /\ initial (ctx i') = initial (ctx i).
Proof. apply DelegatedMore.handle_pointer_down_capture_fails. Qed.

Lemma failed_capture_undoes_the_start_witness :
  active_node (handle_pointer_down (Gestures.uncapturable (Sample.at_ 0 0))
                 Sample.delegated_idle) = None.
Proof.
  destruct (failed_capture_undoes_the_start (Gestures.uncapturable (Sample.at_ 0 0))
              Sample.delegated_idle 7%nat HTMLElement
              (Sample.instance_of 7%nat Sample.delegated_idle) "InvalidStateError"
              ltac:(discriminate) ltac:(vm_compute; reflexivity)
              ltac:(vm_compute; reflexivity) ltac:(vm_compute; reflexivity)
              ltac:(vm_compute; reflexivity)) as (H & _).
  exact H.
Defined.

End CaptureFailure.

Section DelegatedDraggingImpliesInteracting.
Import CreateDraggable DelegatedSpec.

(** X14.  In the delegated engine every registered instance is dragging
    only while it is interacting, after any sequence of pointer events,
    [draggable], [update] and [destroy] calls on a manager made by
    [createDraggable], whatever the plugins do through [ctx]. *)
Theorem delegated_dragging_implies_interacting plugins onError d evs n i :
  instances (run (createDraggable plugins onError d) evs) !! n = Some i ->
  isDragging (ctx i) = true -> isInteracting (ctx i) = true.
Proof.
  intros Hn. eapply (DelegatedMore.run_coherent _ evs); [|exact Hn].
  intros k j Hk. cbn in Hk. by rewrite lookup_empty in Hk.
Qed.

Lemma delegated_dragging_implies_interacting_witness :
  isInteracting (ctx (Sample.instance_of 7%nat Sample.delegated_dragging)) = true.
Proof.
  apply (delegated_dragging_implies_interacting [] true initial_document
           [Attach 7%nat [Sample.watcher 1 "watcher" None] Sample.rect50;
            PointerDown (Sample.at_ 0 0); PointerMove (Sample.at_ 100 100)] 7%nat);
    vm_compute; reflexivity.
Defined.

End DelegatedDraggingImpliesInteracting.

Section OnePluginPerName.
Import PluginSpec.

(** X15.  [initialize_plugins] of the delegated engine keeps exactly one
    plugin per name among the instance's plugins followed by the manager's
    [initial_plugins]: no two plugins of its result share a name, every
    name of the input is represented, and the plugin kept for a name is the
    last of those of highest priority (an absent priority counting as
    zero), so that on a tie a manager-level plugin replaces the instance's
    own. *)
Theorem initialize_plugins_keeps_last_of_highest_priority new_plugins m :
  let all := new_plugins ++ CreateDraggable.initial_plugins m in
  let ps := CreateDraggable.initialize_plugins new_plugins m in
  NoDup (CreateDraggable.name <$> ps)
  /\ (forall v, v ∈ ps ->
        kept_at CreateDraggable.name
          (fun q v => CreateDraggable.priority_or_zero q ≤ CreateDraggable.priority_or_zero v)
          (fun q v => CreateDraggable.priority_or_zero q < CreateDraggable.priority_or_zero v)
          all v)
  /\ (forall p, p ∈ all -> exists v, v ∈ ps /\ CreateDraggable.name v = CreateDraggable.name p).
Proof. apply PluginMaps.initialize_plugins_kept. Qed.

(** X16.  [draggable] of the single-instance engine keeps exactly one
    plugin per name among the default plugins followed by the user's: no
    two plugins of the ordered chain share a name, every name of the input
    is represented, and the plugin kept for a name is the first of those of
    highest priority, so that a user plugin replaces a default plugin of
    the same name only with a strictly higher priority. *)
Theorem order_plugins_keeps_first_of_highest_priority all :
  let ps := Draggable.order_plugins all in
  NoDup (Draggable.name <$> ps)
  /\ (forall v, v ∈ ps ->
        kept_at Draggable.name
          (fun q v => Draggable.priority_or_zero q < Draggable.priority_or_zero v)
          (fun q v => Draggable.priority_or_zero q ≤ Draggable.priority_or_zero v)
          all v)
  /\ (forall p, p ∈ all -> exists v, v ∈ ps /\ Draggable.name v = Draggable.name p).
Proof. apply PluginMaps.order_plugins_kept. Qed.

End OnePluginPerName.

Section UpdateDropsInstancePlugins.
Import CreateDraggable.

(** X17.  The [update] function returned by [draggable] calls
    [update(instance)] without plugins, so the new plugin list is made of
    the manager's [initial_plugins] alone.  On an idle instance that has a
    plugin whose name no initial plugin bears, an [update] that completes
    replaces the instance's plugin list by [initialize_plugins([])]: every
    plugin left is one of the manager's, the instance's own are dropped.
    Flags and offset are untouched. *)
Theorem update_drops_instance_plugins n m i p m' :
  instances m !! n = Some i ->
  isDragging (ctx i) = false -> isInteracting (ctx i) = false ->
  p ∈ plugins i -> name p ∉ name <$> initial_plugins m ->
  update n [] m = (Return (), m') ->
  exists i', instances m' !! n = Some i'
             /\ plugins i' = initialize_plugins [] m
             /\ (forall q, q ∈ plugins i' -> q ∈ initial_plugins m)
             /\ (name p ∉ name <$> plugins i')
             /\ isDragging (ctx i') = false /\ isInteracting (ctx i') = false
             /\ offset (ctx i') = offset (ctx i).
Proof.
  intros Hn Hd Hi Hp Hname Hup.
  destruct (DelegatedMore.update_idle_replaces n [] m i p m' Hn Hd Hi Hp Hname Hup)
    as (i' & Hn' & Hps & Hd' & Hi' & Ho).
  exists i'. split; [done|]. split; [done|].
  assert (forall q, q ∈ plugins i' -> q ∈ initial_plugins m) as Hsub.
  { intros q Hq. rewrite Hps in Hq.
    by apply DelegatedMore.initialize_plugins_elem in Hq. }
  split; [done|]. split; [|done].
  intros Hin. apply list_elem_of_fmap in Hin as (q & Heq & Hq).
  apply Hname. rewrite Heq. apply list_elem_of_fmap. exists q. split; [done|]. by apply Hsub.
Qed.

Lemma update_drops_instance_plugins_witness :
  exists i', instances (update 7%nat [] Sample.delegated_idle).2 !! 7%nat = Some i'
             /\ plugins i' = [].
Proof.
  destruct (update_drops_instance_plugins 7%nat Sample.delegated_idle
              (Sample.instance_of 7%nat Sample.delegated_idle)
              (Sample.watcher 1 "watcher" None)
              (update 7%nat [] Sample.delegated_idle).2
              ltac:(vm_compute; reflexivity) eq_refl eq_refl
              ltac:(apply list_elem_of_singleton; reflexivity)
              ltac:(apply not_elem_of_nil)
              ltac:(vm_compute; reflexivity))
    as (i' & H1 & H2 & _).
  exists i'. split; [exact H1|exact H2].
Defined.

End UpdateDropsInstancePlugins.

Section Destroy.
Import CreateDraggable DelegatedSpec.

(** X18.  A [destroy] that completes removes the instance from the
    registry and leaves every other instance as it was; the node is no
    longer the active one.  From then on a pointer-down whose path holds
    no other draggable element does nothing, and if the node was the
    active one pointer-moves and pointer-ups do nothing either. *)
Theorem destroy_unregisters_the_node n m i m' e :
  instances m !! n = Some i ->
  destroy n m = (Return (), m') ->
  instances m' !! n = None
  /\ (forall k, k <> n -> instances m' !! k = instances m !! k)
  /\ active_node m' <> Some n
  /\ ((forall el, el ∈ composedPath e -> el.1 = n \/ ~ eligible m el) ->
      handle_pointer_down e m' = m')
  /\ (active_node m = Some n ->
      handle_pointer_move e m' = m' /\ handle_pointer_up e m' = m').
Proof.
  intros Hn Hdestroy.
  destruct (DelegatedMore.destroy_returns n m i m' Hn Hdestroy) as [Hi Ha].
  split; [by rewrite Hi, lookup_delete_eq|].
  split; [intros k Hk; by rewrite Hi, lookup_delete_ne|].
  split; [rewrite Ha; case_bool_decide; congruence|].
  split.
  - intros Hpath. unfold handle_pointer_down.
    destruct (bool_decide (button e = 2%Z)); [done|].
    unfold find_draggable_node. rewrite DelegatedMore.find_in_path_none; [done|].
    apply list.Forall_forall. intros el Hel [Hkind Hreg].
    destruct (Hpath el Hel) as [Heq|Hno].
    + rewrite Hi, Heq, lookup_delete_eq in Hreg. by destruct Hreg.
    + apply Hno. split; [done|].
      rewrite Hi in Hreg. destruct (decide (el.1 = n)) as [Heq|Hne].
      * rewrite Heq, lookup_delete_eq in Hreg. by destruct Hreg.
      * by rewrite lookup_delete_ne in Hreg.
  - intros Hactive. rewrite bool_decide_eq_true_2 in Ha by done.
    unfold handle_pointer_move, handle_pointer_move_call, handle_pointer_up.
    by rewrite Ha.
Qed.

Lemma destroy_unregisters_the_node_witness :
  instances (destroy 7%nat Sample.delegated_idle).2 !! 7%nat = None.
Proof.
  destruct (destroy_unregisters_the_node 7%nat Sample.delegated_idle
              (Sample.instance_of 7%nat Sample.delegated_idle)
              (destroy 7%nat Sample.delegated_idle).2 (Sample.at_ 0 0)
              ltac:(vm_compute; reflexivity) ltac:(vm_compute; reflexivity))
    as (H & _).
  exact H.
Defined.

(** X19.  When a plugin's [cleanup] throws during [destroy], the
    exception leaves [destroy] before [instances.delete(node)]: the
    instance stays registered, though it has already stopped being the
    active node, and the other instances are as they were. *)
Theorem failed_destroy_keeps_the_instance n m i err m' :
  instances m !! n = Some i ->
  destroy n m = (Throw err, m') ->
  is_Some (instances m' !! n)
  /\ (forall k, k <> n -> instances m' !! k = instances m !! k)
  /\ active_node m' <> Some n.
Proof.
  intros Hn Hdestroy.
  destruct (DelegatedMore.destroy_throws n m i err m' Hn Hdestroy) as (H1 & H2 & Ha).
  split; [done|]. split; [done|]. rewrite Ha. case_bool_decide; congruence.
Qed.

Lemma failed_destroy_keeps_the_instance_witness :
  is_Some (instances (destroy 7%nat (Sample.delegated_with [Gestures.leaky 9 "leaky"])).2
             !! 7%nat).
Proof.
  destruct (failed_destroy_keeps_the_instance 7%nat
              (Sample.delegated_with [Gestures.leaky 9 "leaky"])
              (Sample.instance_of 7%nat (Sample.delegated_with [Gestures.leaky 9 "leaky"]))
              "boom"
              (destroy 7%nat (Sample.delegated_with [Gestures.leaky 9 "leaky"])).2
              ltac:(vm_compute; reflexivity) ltac:(vm_compute; reflexivity))
    as (H & _).
  exact H.
Defined.

End Destroy.

Section PointerCaptureRoundTrip.
Import CreateDraggable.

(** X20.  On an instance without plugins, a pointer-down that starts an
    interaction captures the pointer on the dragged element, and the
    pointer-up that follows releases it, provided the pointer's id is not
    zero: the test [instance.pointer_captured_id && ...] is false for
    the id [0], whose capture is then never released. *)
Theorem press_and_release_capture e e' m k kind i :
  button e <> 2%Z ->
  find_draggable_node e m = Some (k, kind) ->
  instances m !! k = Some i ->
  plugins i = [] -> effects i = [] ->
  setPointerCapture_throws e = None ->
  let m1 := handle_pointer_down e m in
  let m2 := handle_pointer_up e' m1 in
  pointer_capture (doc m1)
  = <[pointerId e := currentlyDraggedNode (ctx i)]> (pointer_capture (doc m))
  /\ pointer_capture (doc m2)
     = (if bool_decide (pointerId e = 0%Z)
        then <[0%Z := currentlyDraggedNode (ctx i)]> (pointer_capture (doc m))
        else delete (pointerId e) (pointer_capture (doc m)))
  /\ exists i2, instances m2 !! k = Some i2
       /\ isInteracting (ctx i2) = false /\ pointer_captured_id i2 = None.
Proof.
  intros Hbutton Hfind Hk Hplugins Heffects Hcapture m1 m2.
  destruct (DelegatedMore.handle_pointer_down_bare e m k kind i Hbutton Hfind Hk Hplugins
              Heffects Hcapture)
    as (Ha & Hpc & i1 & Hk1 & Hi1 & _ & Hid & Hnode & Hp1 & He1).
  fold m1 in Ha, Hpc, Hk1.
  destruct (DelegatedMore.handle_pointer_up_bare e' m1 k i1 Ha Hk1 Hi1 Hp1 He1)
    as (Hpc2 & i2 & Hk2 & Hi2 & _ & Hid2).
  fold m2 in Hpc2, Hk2.
  split; [exact Hpc|]. split; [|by exists i2].
  rewrite Hpc2, Hid, Hnode. unfold truthy_id, hasPointerCapture, releasePointerCapture.
  rewrite Hpc. case_bool_decide as Hzero; cbn [negb andb].
  - by rewrite Hzero.
  - rewrite lookup_insert_eq, bool_decide_eq_true_2 by done.
    cbn. by rewrite delete_insert_eq.
Qed.

Lemma press_and_release_capture_witness :
  pointer_capture
    (doc (handle_pointer_up (Sample.at_ 0 0)
            (handle_pointer_down (Gestures.with_pointer 0 (Sample.at_ 0 0))
               Gestures.bare_instance)))
  = <[0%Z := 7%nat]> (pointer_capture (doc Gestures.bare_instance)).
Proof.
  destruct (press_and_release_capture (Gestures.with_pointer 0 (Sample.at_ 0 0))
              (Sample.at_ 0 0) Gestures.bare_instance 7%nat HTMLElement
              (Sample.instance_of 7%nat Gestures.bare_instance)
              ltac:(discriminate) ltac:(vm_compute; reflexivity)
              ltac:(vm_compute; reflexivity) eq_refl eq_refl eq_refl)
    as (_ & H & _).
  exact H.
Defined.

End PointerCaptureRoundTrip.

(** * Properties of the option-driven engine *)

Section LegacyDisabled.
Import LegacyEngine LegacySpec.

(** X21.  An instance made with [disabled: true] ignores the pointer: as
    long as [update] is not called, whatever pointer events, frames and
    calls of [destroy] follow, no event is fired, no callback is called,
    nothing is thrown, and the page (classes, [transform], [touch-action],
    [user-select]) stays as [draggable] left it. *)
Theorem disabled_instance_ignores_the_pointer node options d evs :
  Options.disabled options = Some true ->
  Forall not_update evs ->
  let s := run (draggable node options d) evs in
  trace s = [] /\ active s = false /\ page s = page (draggable node options d)
  /\ position s = position (draggable node options d).
Proof.
  intros Hd Hevs. cbv zeta.
  destruct (LegacyFacts.disabled_run evs (draggable node options d)) as (Ht & Hp & Hps & Ha);
    [done| |by split_and!].
  unfold draggable. cbn [settings disabled active pending]. by rewrite Hd.
Qed.

Lemma disabled_instance_ignores_the_pointer_witness :
  trace (run (draggable 7%nat LegacySample.switched_off LegacySample.blank)
           [PointerDown (LegacySample.pointer 20 20);
            PointerMove (LegacySample.pointer 60 60); AnimationFrame;
            PointerUp (LegacySample.pointer 60 60)]) = [].
Proof.
  destruct (disabled_instance_ignores_the_pointer 7%nat LegacySample.switched_off
              LegacySample.blank
              [PointerDown (LegacySample.pointer 20 20);
               PointerMove (LegacySample.pointer 60 60); AnimationFrame;
               PointerUp (LegacySample.pointer 60 60)]
              eq_refl ltac:(repeat constructor)) as (H & _).
  exact H.
Defined.

End LegacyDisabled.

Section LegacyAxis.
Import LegacyEngine LegacySpec.

(** X22.  With [axis: 'x'] or [axis: 'none'] the vertical translation is
    never assigned: as long as [update] is not called, [translateY] stays
    [0] and every event and callback reports [offsetY = 0], whatever
    [defaultPosition.y] or [position.y] the instance was made with. *)
Theorem locked_axis_reports_zero node options d evs :
  Options.axis options = Some Draggable.axis_x
  \/ Options.axis options = Some Draggable.none ->
  Forall not_update evs ->
  let s := run (draggable node options d) evs in
  translateY s = 0 /\ Forall (reports (fun _ offsetY => offsetY = 0)) (trace s).
Proof.
  intros Hax Hevs. cbv zeta.
  pose proof (LegacyFacts.legacy_run_invariant _ not_update
                (fun s ev Hev => LegacyFacts.locked_step s ev Hev)
                evs (draggable node options d) Hevs) as H.
  cbv beta zeta in H. destruct H as (_ & _ & Hy & Ht); [|done].
  unfold draggable. cbn [settings axis canMoveInY translateY trace].
  split_and!; [|done|done|done]. by destruct Hax as [->| ->]; [left|right].
Qed.

Lemma locked_axis_reports_zero_witness :
  translateY (run (draggable 7%nat LegacySample.horizontal LegacySample.blank)
                [PointerDown (LegacySample.pointer 20 20);
                 PointerMove (LegacySample.pointer 60 60)]) = 0.
Proof.
  destruct (locked_axis_reports_zero 7%nat LegacySample.horizontal LegacySample.blank
              [PointerDown (LegacySample.pointer 20 20);
               PointerMove (LegacySample.pointer 60 60)]
              ltac:(left; reflexivity) ltac:(repeat constructor)) as (H & _).
  exact H.
Defined.

End LegacyAxis.

Section LegacyWhole.
Import LegacyEngine LegacySpec.



End LegacyWhole.

Section LegacyFrames.
Import LegacyEngine LegacySpec.

(** X24.  [setTranslate] waits on [tick]: until the first animation frame
    no drag and no [update] changes the node's [transform], which stays
    what [draggable] wrote from [position] or [defaultPosition]. *)
Theorem nothing_is_rendered_before_the_first_frame node options d evs :
  Forall no_frame evs ->
  transform (page (run (draggable node options d) evs))
  = transform (page (draggable node options d)).
Proof.
  intros Hevs.
  pose proof (LegacyFacts.legacy_run_invariant
                (fun s => tick_resolved s = false
                          /\ transform (page s) = transform (page (draggable node options d)))
                no_frame) as H.
  cbv beta in H. destruct (H) with (evs := evs) (s := draggable node options d)
    as (_ & Ht); [|done|done|done].
  intros s ev Hev (Hw & Htf).
  destruct (LegacyFacts.waiting_step s ev Hev Hw) as (? & ?). split; congruence.
Qed.

Lemma nothing_is_rendered_before_the_first_frame_witness :
  transform (page (run (draggable 7%nat LegacySample.no_options LegacySample.blank)
                     [PointerDown (LegacySample.pointer 20 20);
                      PointerMove (LegacySample.pointer 60 60)]))
  = Some (translate3d 0 0).
Proof.
  etransitivity.
  - exact (nothing_is_rendered_before_the_first_frame 7%nat LegacySample.no_options
             LegacySample.blank
             [PointerDown (LegacySample.pointer 20 20);
              PointerMove (LegacySample.pointer 60 60)] ltac:(repeat constructor)).
  - vm_compute. reflexivity.
Defined.

(** X25.  Once the first animation frame has passed, a pointer move that
    reports an offset (fires [neodrag]) leaves the node's [transform] at
    exactly that offset, [translate3d] or [translate] as [gpuAcceleration]
    says, and [translateX], [translateY] hold it. *)
Theorem reported_offset_is_rendered s e offsetX offsetY :
  tick_resolved s = true ->
  trace (step s (PointerMove e)) = trace s ++ [Fired neodrag offsetX offsetY] ->
  transform (page (step s (PointerMove e)))
  = Some (if gpuAcceleration (settings s) then translate3d offsetX offsetY
          else translate offsetX offsetY)
  /\ translateX (step s (PointerMove e)) = offsetX
  /\ translateY (step s (PointerMove e)) = offsetY.
Proof. apply LegacyFacts.move_rendered. Qed.

Lemma reported_offset_is_rendered_witness :
  transform (page (step (run (LegacySample.instance LegacySample.no_options)
                           [AnimationFrame; PointerDown (LegacySample.pointer 20 20)])
                     (PointerMove (LegacySample.pointer 60 45))))
  = Some (translate3d (num 40) (num 25)).
Proof.
  destruct (reported_offset_is_rendered
              (run (LegacySample.instance LegacySample.no_options)
                 [AnimationFrame; PointerDown (LegacySample.pointer 20 20)])
              (LegacySample.pointer 60 45) (num 40) (num 25)
              ltac:(vm_compute; reflexivity) ltac:(vm_compute; reflexivity)) as (H & _).
  etransitivity; [exact H|]. vm_compute. reflexivity.
Defined.

End LegacyFrames.

Section LegacyUserSelect.
Import LegacyEngine LegacySpec.



(** X27.  The hack does not nest: when a second press starts a drag while
    one is in progress (a second finger, [ignoreMultitouch] being off),
    the saved value is overwritten with ['none'], and the release leaves
    the body at [user-select: none] whatever it was before. *)
Theorem second_press_loses_user_select s e0 e1 moves e2 :
  applyUserSelectHack (settings s) = true ->
  default false (recompute_dragEnd (recomputeBounds (settings s))) = false ->
  starts s e0 -> starts (step s (PointerDown e0)) e1 -> Forall is_move moves ->
  body_user_select
    (page (run s (PointerDown e0 :: PointerDown e1 :: moves ++ [PointerUp e2])))
  = "none".
Proof. apply LegacyFacts.user_select_second_press. Qed.

Lemma second_press_loses_user_select_witness :
  body_user_select
    (page (run (LegacySample.instance LegacySample.no_options)
             (PointerDown (LegacySample.pointer 20 20)
              :: PointerDown (LegacySample.pointer 30 30)
              :: [] ++ [PointerUp (LegacySample.pointer 30 30)])))
  = "none".
Proof.
  exact (second_press_loses_user_select (LegacySample.instance LegacySample.no_options)
           (LegacySample.pointer 20 20) (LegacySample.pointer 30 30) []
           (LegacySample.pointer 30 30)
           ltac:(vm_compute; reflexivity) ltac:(vm_compute; reflexivity)
           ltac:(eexists _, _; vm_compute; reflexivity)
           ltac:(eexists _, _; vm_compute; reflexivity) ltac:(constructor)).
Defined.

End LegacyUserSelect.

Section LegacyTranslation.
Import LegacyEngine LegacySpec.





End LegacyTranslation.

Section LegacyRecompute.
Import LegacyEngine LegacySpec.

(** X30.  [draggable] and [update] treat [recomputeBounds] differently.
    Given an option [recomputeBounds] without [dragStart], [draggable]
    merges the default in and recomputes the bounds at every press;
    [update] takes the option as it is, so that after it a pointer-down
    leaves [computedBounds] as it was. *)
Theorem update_drops_the_default_recompute node options d s e given :
  Options.recomputeBounds options = Some given -> recompute_dragStart given = None ->
  recompute_dragStart (recomputeBounds (settings (draggable node options d))) = Some true
  /\ recompute_dragStart (recomputeBounds (settings (update options s))) = None
  /\ computedBounds (step (update options s) (PointerDown e)) = computedBounds s.
Proof.
  intros Ho Hg.
  assert (recompute_dragStart (recomputeBounds (settings (update options s))) = None) as Hu
    by (by rewrite LegacyFacts.update_recompute, Ho).
  split_and!; [|done|].
  - unfold draggable. cbn [settings recomputeBounds recompute_dragStart].
    rewrite Ho. simpl. by rewrite Hg.
  - unfold step.
    destruct (LegacyFacts.settle_spec
                (if listening (update options s)
                 then listener (dragStart e (update options s)) else update options s))
      as (_ & _ & _ & _ & _ & _ & _ & -> & _).
    destruct (LegacyFacts.update_summary options s)
      as (_ & _ & _ & _ & _ & _ & _ & Hcb & _).
    destruct (listening (update options s)); [|done].
    destruct (LegacyFacts.pointerdown_summary e (update options s))
      as (_ & _ & _ & _ & _ & _ & Hoff & _).
    rewrite Hoff; [done|]. by rewrite Hu.
Qed.

Lemma update_drops_the_default_recompute_witness :
  computedBounds (step (update LegacySample.refenced
                          (LegacySample.instance LegacySample.refenced))
                    (PointerDown (LegacySample.pointer 20 20)))
  = computedBounds (LegacySample.instance LegacySample.refenced).
Proof.
  destruct (update_drops_the_default_recompute 7%nat LegacySample.refenced
              LegacySample.blank (LegacySample.instance LegacySample.refenced)
              (LegacySample.pointer 20 20) _ eq_refl eq_refl) as (_ & _ & H).
  exact H.
Defined.

End LegacyRecompute.

